(** * riscv-os: a shallow embedding of the kernel's core and its checked properties

    The development follows the kernel's layering:
    - [Pmm]   : the physical frame allocator (bitmap + per-frame refcount);
    - further modules are added below, one per kernel subsystem.

    Conventions.  C integers are modelled as [Z]; where the C code relies on a
    fixed width the wrap-around is written out.  A kernel [panic] (and C
    undefined behaviour such as signed overflow) is modelled by [None]:
    an operation of type [... -> option _] returns [None] exactly when the C
    code would not return to its caller. *)

From Stdlib Require Import ZArith List Lia Bool.
Import ListNotations.
Open Scope Z_scope.

(** ** Machine constants (memlayout.h, riscv.h) *)

Definition KERNBASE : Z := 0x80000000.
Definition PHYSTOP : Z := KERNBASE + 128 * 1024 * 1024.
Definition PGSIZE : Z := 4096.
Definition INT_MAX : Z := 2147483647.
Definition two64 : Z := 0x10000000000000000.
Definition mask64 : Z := 0xFFFFFFFFFFFFFFFF.
Definition wrap64 (x : Z) : Z := x mod two64.

Definition PGROUNDUP (sz : Z) : Z := Z.land (wrap64 (sz + PGSIZE - 1)) (Z.lxor mask64 (PGSIZE - 1)).
Definition PGROUNDDOWN (a : Z) : Z := Z.land a (Z.lxor mask64 (PGSIZE - 1)).

(** Physical memory is a store of 64-bit words keyed by the (8-aligned) byte
    address of the word; the allocator's static arrays are separate C objects
    and are kept as separate components of the state. *)
Record kmem : Type := mkKmem {
  mem : Z -> Z;                 (* physical memory, one 64-bit word per aligned address *)
  bitmap : Z -> Z;              (* static uint64 bitmap[BITMAP_WORDS] *)
  free_pages_count : Z;         (* static int free_pages_count *)
  refcount : Z -> Z             (* static int refcount[NPAGES] *)
}.

Definition set_mem (f : Z -> Z) (s : kmem) : kmem :=
  mkKmem f (bitmap s) (free_pages_count s) (refcount s).

Definition upd (f : Z -> Z) (i v : Z) : Z -> Z :=
  fun j => if j =? i then v else f j.

(** [memset(page, 0, n)] on word-aligned, word-multiple ranges. *)
Definition zero_range (m : Z -> Z) (base n : Z) : Z -> Z :=
  fun a => if (base <=? a) && (a <? base + n) then 0 else m a.

(** [memmove(dst, src, n)] between two disjoint word-aligned ranges. *)
Definition copy_range (m : Z -> Z) (dst src n : Z) : Z -> Z :=
  fun a => if (dst <=? a) && (a <? dst + n) then m (src + (a - dst)) else m a.

(** ** The frame allocator (kalloc.c) *)
Module Pmm.

Definition NPAGES : Z := (PHYSTOP - KERNBASE) / PGSIZE.
Definition BITS_PER_WORD : Z := 64.
Definition BITMAP_WORDS : Z := (NPAGES + BITS_PER_WORD - 1) / BITS_PER_WORD.

Definition page_index (page : Z) : Z := (page - KERNBASE) / PGSIZE.
Definition index_to_page (index : Z) : Z := KERNBASE + index * PGSIZE.

Definition bitmap_set (index : Z) (s : kmem) : kmem :=
  let w := index / BITS_PER_WORD in
  mkKmem (mem s)
         (upd (bitmap s) w (Z.lor (bitmap s w) (Z.shiftl 1 (index mod BITS_PER_WORD))))
         (free_pages_count s) (refcount s).

Definition bitmap_clear (index : Z) (s : kmem) : kmem :=
  let w := index / BITS_PER_WORD in
  mkKmem (mem s)
         (upd (bitmap s) w
              (Z.land (bitmap s w) (Z.lxor mask64 (Z.shiftl 1 (index mod BITS_PER_WORD)))))
         (free_pages_count s) (refcount s).

Definition bitmap_test (index : Z) (s : kmem) : Z :=
  Z.land (Z.shiftr (bitmap s (index / BITS_PER_WORD)) (index mod BITS_PER_WORD)) 1.

Definition set_refcount (index v : Z) (s : kmem) : kmem :=
  mkKmem (mem s) (bitmap s) (free_pages_count s) (upd (refcount s) index v).

Definition set_free (v : Z) (s : kmem) : kmem :=
  mkKmem (mem s) (bitmap s) v (refcount s).

(** The inner loop of [find_first_free_page]: bits [j .. 63] of word [i]. *)
Fixpoint find_in_word (fuel : nat) (i j : Z) (s : kmem) : option Z :=
  match fuel with
  | O => None
  | S fuel' =>
      let index := i * BITS_PER_WORD + j in
      if (index <? NPAGES) && (bitmap_test index s =? 0) then Some index
      else find_in_word fuel' i (j + 1) s
  end.

(** The outer loop: words [i .. BITMAP_WORDS-1]; [None] is the C result -1. *)
Fixpoint find_from_word (fuel : nat) (i : Z) (s : kmem) : option Z :=
  match fuel with
  | O => None
  | S fuel' =>
      if negb (bitmap s i =? mask64) then
        match find_in_word (Z.to_nat BITS_PER_WORD) i 0 s with
        | Some index => Some index
        | None => find_from_word fuel' (i + 1) s
        end
      else find_from_word fuel' (i + 1) s
  end.

Definition find_first_free_page (s : kmem) : option Z :=
  find_from_word (Z.to_nat BITMAP_WORDS) 0 s.

(** [find_contiguous_free_pages]: the loop state is (i, start, count). *)
Fixpoint find_contig_loop (fuel : nat) (i start count n : Z) (s : kmem) : option Z :=
  match fuel with
  | O => None
  | S fuel' =>
      if bitmap_test i s =? 0 then
        let start' := if count =? 0 then i else start in
        let count' := count + 1 in
        if count' =? n then Some start'
        else find_contig_loop fuel' (i + 1) start' count' n s
      else find_contig_loop fuel' (i + 1) start 0 n s
  end.

Definition find_contiguous_free_pages (n : Z) (s : kmem) : option Z :=
  find_contig_loop (Z.to_nat NPAGES) 0 0 0 n s.

(** One step of the marking loops of [pmm_init]. *)
Definition mark_allocated (p : Z) (s : kmem) : kmem :=
  let idx := page_index p in
  set_refcount idx 1 (bitmap_set idx s).

(** [while (p < pend) { mark; p += PGSIZE; }] *)
Fixpoint mark_while (fuel : nat) (p pend : Z) (s : kmem) : kmem :=
  match fuel with
  | O => s
  | S fuel' =>
      if p <? pend then mark_while fuel' (p + PGSIZE) pend (mark_allocated p s) else s
  end.

Fixpoint count_free (fuel : nat) (i : Z) (s : kmem) : Z :=
  match fuel with
  | O => 0
  | S fuel' => (if bitmap_test i s =? 0 then 1 else 0) + count_free fuel' (i + 1) s
  end.

(** [pmm_init]; [kend] is the linker symbol [end]. *)
Definition pmm_init (kend : Z) (s : kmem) : kmem :=
  let bitmap_size := BITMAP_WORDS * 8 in
  let bitmap_start := PGROUNDUP kend in
  let bitmap_end := PGROUNDUP (bitmap_start + bitmap_size) in
  let s0 := mkKmem (mem s) (fun _ => 0) (free_pages_count s) (refcount s) in
  let s1 := mark_while (Z.to_nat NPAGES) bitmap_start bitmap_end s0 in
  let s2 := mark_while (Z.to_nat NPAGES) KERNBASE kend s1 in
  set_free (count_free (Z.to_nat NPAGES) 0 s2) s2.

(** The state the loader hands to [pmm_init]: the allocator's static arrays
    live in .bss and are zero. *)
Definition boot_state (m : Z -> Z) : kmem := mkKmem m (fun _ => 0) 0 (fun _ => 0).

(** What [pmm_init] needs of the linker symbol: the kernel image starts at
    KERNBASE and the bitmap page placed after it still lies below PHYSTOP. *)
Definition kend_ok (kend : Z) : Prop :=
  KERNBASE <= kend /\ PGROUNDUP kend + PGSIZE <= PHYSTOP.

(** [alloc_page]: the returned pointer is 0 on failure. *)
Definition alloc_page (s : kmem) : Z * kmem :=
  if free_pages_count s <=? 0 then (0, s)
  else match find_first_free_page s with
       | None => (0, s)
       | Some idx =>
           let page := index_to_page idx in
           let s1 := bitmap_set idx s in
           let s2 := set_free (free_pages_count s1 - 1) s1 in
           let s3 := set_refcount idx 1 s2 in
           (page, set_mem (zero_range (mem s3) page PGSIZE) s3)
       end.

Definition valid_page (page : Z) : bool :=
  (page mod PGSIZE =? 0) && (KERNBASE <=? page) && (page <? PHYSTOP).

(** [free_page]; [None] is one of its three panics. *)
Definition free_page (page : Z) (s : kmem) : option kmem :=
  if negb (valid_page page) then None
  else
    let idx := page_index page in
    if bitmap_test idx s =? 0 then None
    else if refcount s idx <=? 0 then None
    else
      let s1 := set_refcount idx (refcount s idx - 1) s in
      if refcount s1 idx >? 0 then Some s1
      else
        let s2 := bitmap_clear idx s1 in
        let s3 := set_free (free_pages_count s2 + 1) s2 in
        Some (set_mem (zero_range (mem s3) page PGSIZE) s3).

(** [page_incref]; [None] is a panic, or the signed overflow of
    [refcount[idx]++] (undefined behaviour in C). *)
Definition page_incref (page : Z) (s : kmem) : option kmem :=
  if negb (valid_page page) then None
  else
    let idx := page_index page in
    if bitmap_test idx s =? 0 then None
    else if refcount s idx =? INT_MAX then None
    else Some (set_refcount idx (refcount s idx + 1) s).

Definition page_decref (page : Z) (s : kmem) : option (Z * kmem) :=
  match free_page page s with
  | None => None
  | Some s' => Some (refcount s' (page_index page), s')
  end.

Definition page_refcount (page : Z) (s : kmem) : option Z :=
  if negb (valid_page page) then None
  else
    let idx := page_index page in
    if (idx <? 0) || (NPAGES <=? idx) then None
    else Some (refcount s idx).

(** The marking loop of [alloc_pages]. *)
Fixpoint alloc_mark (fuel : nat) (idx : Z) (s : kmem) : option kmem :=
  match fuel with
  | O => Some s
  | S fuel' =>
      if bitmap_test idx s =? 0
      then alloc_mark fuel' (idx + 1) (set_refcount idx 1 (bitmap_set idx s))
      else None
  end.

Definition alloc_pages (n : Z) (s : kmem) : option (Z * kmem) :=
  if n <=? 0 then Some (0, s)
  else if n =? 1 then Some (alloc_page s)
  else if free_pages_count s <? n then Some (0, s)
  else match find_contiguous_free_pages n s with
       | None => Some (0, s)
       | Some start_idx =>
           match alloc_mark (Z.to_nat n) start_idx s with
           | None => None
           | Some s1 =>
               let s2 := set_free (free_pages_count s1 - n) s1 in
               let start_page := index_to_page start_idx in
               Some (start_page, set_mem (zero_range (mem s2) start_page (n * PGSIZE)) s2)
           end
       end.

Fixpoint free_pages_loop (fuel : nat) (cur : Z) (s : kmem) : option kmem :=
  match fuel with
  | O => Some s
  | S fuel' =>
      match free_page cur s with
      | None => None
      | Some s' => free_pages_loop fuel' (cur + PGSIZE) s'
      end
  end.

Definition free_pages (page n : Z) (s : kmem) : option kmem :=
  if n <=? 0 then Some s else free_pages_loop (Z.to_nat n) page s.

(** States of the allocator reachable from [pmm_init] by calls that return
    (a call that panics has no successor state). *)
Inductive reachable (kend : Z) : kmem -> Prop :=
| reach_init m :
    kend_ok kend -> reachable kend (pmm_init kend (boot_state m))
| reach_alloc_page s :
    reachable kend s -> reachable kend (snd (alloc_page s))
| reach_alloc_pages s n p s' :
    reachable kend s -> alloc_pages n s = Some (p, s') -> reachable kend s'
| reach_free_page s page s' :
    reachable kend s -> free_page page s = Some s' -> reachable kend s'
| reach_free_pages s page n s' :
    reachable kend s -> free_pages page n s = Some s' -> reachable kend s'
| reach_incref s page s' :
    reachable kend s -> page_incref page s = Some s' -> reachable kend s'.

(** The invariant: a frame's refcount is never negative, and it is zero
    exactly when its bitmap bit is clear. *)
Definition frame_inv (s : kmem) : Prop :=
  forall f, 0 <= f < NPAGES ->
    0 <= refcount s f /\ (refcount s f = 0 <-> bitmap_test f s = 0).

(** *** Bit-level facts about the bitmap *)

Lemma land_1_testbit (x : Z) : Z.land x 1 = Z.b2z (Z.testbit x 0).
Proof.
  change 1 with (Z.ones 1). rewrite Z.land_ones by lia.
  rewrite Z.bit0_mod. reflexivity.
Qed.

Lemma bitmap_test_spec (f : Z) (s : kmem) :
  bitmap_test f s = Z.b2z (Z.testbit (bitmap s (f / BITS_PER_WORD)) (f mod BITS_PER_WORD)).
Proof.
  unfold bitmap_test. rewrite land_1_testbit.
  rewrite Z.shiftr_spec by lia. reflexivity.
Qed.

Lemma bit_pos (f : Z) : 0 <= f mod BITS_PER_WORD < 64.
Proof. unfold BITS_PER_WORD. apply Z.mod_pos_bound. lia. Qed.

Lemma index_split (f g : Z) :
  f / BITS_PER_WORD = g / BITS_PER_WORD -> f mod BITS_PER_WORD = g mod BITS_PER_WORD -> f = g.
Proof.
  unfold BITS_PER_WORD. intros Hd Hm.
  rewrite (Z.div_mod f 64), (Z.div_mod g 64) by lia. rewrite Hd, Hm. reflexivity.
Qed.

Lemma testbit_one_shift (k n : Z) : 0 <= k -> 0 <= n ->
  Z.testbit (Z.shiftl 1 k) n = (n =? k).
Proof.
  intros Hk Hn. rewrite Z.shiftl_spec by lia.
  destruct (Z.eqb_spec n k) as [->|Hne].
  - rewrite Z.sub_diag. reflexivity.
  - destruct (Z_lt_le_dec n k).
    + apply Z.testbit_neg_r. lia.
    + destruct (n - k) eqn:E; try lia. destruct p; reflexivity.
Qed.

Lemma bitmap_test_set_same (idx : Z) (s : kmem) : bitmap_test idx (bitmap_set idx s) = 1.
Proof.
  rewrite bitmap_test_spec. unfold bitmap_set, upd; cbn [bitmap].
  rewrite Z.eqb_refl, Z.lor_spec.
  pose proof (bit_pos idx).
  rewrite testbit_one_shift, Z.eqb_refl by lia.
  rewrite orb_true_r. reflexivity.
Qed.

Lemma bitmap_test_set_other (idx f : Z) (s : kmem) :
  f <> idx -> bitmap_test f (bitmap_set idx s) = bitmap_test f s.
Proof.
  intros Hne. rewrite !bitmap_test_spec. unfold bitmap_set, upd; cbn [bitmap].
  destruct (Z.eqb_spec (f / BITS_PER_WORD) (idx / BITS_PER_WORD)) as [He|]; [|reflexivity].
  rewrite Z.lor_spec. pose proof (bit_pos idx). pose proof (bit_pos f).
  rewrite testbit_one_shift by lia.
  destruct (Z.eqb_spec (f mod BITS_PER_WORD) (idx mod BITS_PER_WORD)) as [Hm|].
  - exfalso. apply Hne. apply index_split; assumption.
  - rewrite orb_false_r, He. reflexivity.
Qed.

Lemma testbit_mask64 (n : Z) : 0 <= n < 64 -> Z.testbit mask64 n = true.
Proof.
  intros Hn. change mask64 with (Z.ones 64). apply Z.ones_spec_low. lia.
Qed.

Lemma bitmap_test_clear_same (idx : Z) (s : kmem) : bitmap_test idx (bitmap_clear idx s) = 0.
Proof.
  rewrite bitmap_test_spec. unfold bitmap_clear, upd; cbn [bitmap].
  rewrite Z.eqb_refl, Z.land_spec, Z.lxor_spec.
  pose proof (bit_pos idx).
  rewrite testbit_one_shift, Z.eqb_refl, testbit_mask64 by lia.
  cbn [xorb]. rewrite andb_false_r. reflexivity.
Qed.

Lemma bitmap_test_clear_other (idx f : Z) (s : kmem) :
  f <> idx -> bitmap_test f (bitmap_clear idx s) = bitmap_test f s.
Proof.
  intros Hne. rewrite !bitmap_test_spec. unfold bitmap_clear, upd; cbn [bitmap].
  destruct (Z.eqb_spec (f / BITS_PER_WORD) (idx / BITS_PER_WORD)) as [He|]; [|reflexivity].
  rewrite Z.land_spec, Z.lxor_spec. pose proof (bit_pos idx). pose proof (bit_pos f).
  rewrite testbit_one_shift, testbit_mask64 by lia.
  destruct (Z.eqb_spec (f mod BITS_PER_WORD) (idx mod BITS_PER_WORD)) as [Hm|].
  - exfalso. apply Hne. apply index_split; assumption.
  - cbn [xorb]. rewrite andb_true_r, He. reflexivity.
Qed.

Lemma bitmap_test_01 (f : Z) (s : kmem) : bitmap_test f s = 0 \/ bitmap_test f s = 1.
Proof. rewrite bitmap_test_spec. destruct (Z.testbit _ _); cbn [Z.b2z]; auto. Qed.

(** *** The invariant is established by [pmm_init] and kept by every operation *)

Lemma frame_inv_mark (idx : Z) (s : kmem) :
  frame_inv s -> frame_inv (set_refcount idx 1 (bitmap_set idx s)).
Proof.
  intros H f Hf. destruct (Z.eq_dec f idx) as [->|Hne].
  - unfold set_refcount, upd; cbn [refcount]. rewrite Z.eqb_refl.
    change (bitmap_test idx (mkKmem _ _ _ _)) with (bitmap_test idx (bitmap_set idx s)).
    rewrite bitmap_test_set_same. lia.
  - unfold set_refcount, upd; cbn [refcount].
    destruct (Z.eqb_spec f idx); [contradiction|].
    change (bitmap_test f (mkKmem _ _ _ _)) with (bitmap_test f (bitmap_set idx s)).
    rewrite bitmap_test_set_other by assumption. apply H; assumption.
Qed.

Lemma frame_inv_set_free (v : Z) (s : kmem) : frame_inv s -> frame_inv (set_free v s).
Proof. intros H f Hf. apply (H f Hf). Qed.

Lemma frame_inv_set_mem (m : Z -> Z) (s : kmem) : frame_inv s -> frame_inv (set_mem m s).
Proof. intros H f Hf. apply (H f Hf). Qed.

Lemma frame_inv_mark_while (fuel : nat) : forall p pend s,
  frame_inv s -> frame_inv (mark_while fuel p pend s).
Proof.
  induction fuel as [|fuel IH]; intros p pend s H; cbn [mark_while]; [assumption|].
  destruct (p <? pend); [|assumption].
  apply IH. apply frame_inv_mark. assumption.
Qed.

Lemma frame_inv_boot (m : Z -> Z) (c : Z) : frame_inv (mkKmem m (fun _ => 0) c (fun _ => 0)).
Proof.
  intros f Hf. cbn [refcount]. rewrite bitmap_test_spec. cbn [bitmap].
  rewrite Z.testbit_0_l. cbn [Z.b2z]. lia.
Qed.

Lemma frame_inv_pmm_init (kend : Z) (m : Z -> Z) : frame_inv (pmm_init kend (boot_state m)).
Proof.
  unfold pmm_init. apply frame_inv_set_free.
  do 2 apply frame_inv_mark_while. apply frame_inv_boot.
Qed.

Lemma frame_inv_alloc_page (s : kmem) : frame_inv s -> frame_inv (snd (alloc_page s)).
Proof.
  intros H. unfold alloc_page.
  destruct (free_pages_count s <=? 0); [assumption|].
  destruct (find_first_free_page s) as [idx|]; [|assumption].
  cbn [snd]. apply frame_inv_set_mem.
  intros f Hf.
  apply (frame_inv_mark idx s H f Hf).
Qed.

Lemma valid_page_index (page : Z) :
  valid_page page = true -> 0 <= page_index page < NPAGES.
Proof.
  change NPAGES with 32768.
  unfold valid_page, page_index, PHYSTOP, KERNBASE, PGSIZE.
  rewrite !andb_true_iff. intros [[_ Hlo] Hhi].
  apply Z.leb_le in Hlo. apply Z.ltb_lt in Hhi.
  split.
  - apply Z.div_pos; lia.
  - apply Z.div_lt_upper_bound; lia.
Qed.

Lemma frame_inv_free_page (page : Z) (s s' : kmem) :
  frame_inv s -> free_page page s = Some s' -> frame_inv s'.
Proof.
  intros H. unfold free_page.
  destruct (valid_page page) eqn:Hv; cbn [negb]; [|discriminate].
  set (idx := page_index page).
  destruct (Z.eqb_spec (bitmap_test idx s) 0) as [|Hbit]; [discriminate|].
  destruct (Z.leb_spec (refcount s idx) 0) as [|Hpos]; [discriminate|].
  unfold set_refcount at 1. cbn [refcount]. unfold upd at 1. rewrite Z.eqb_refl.
  destruct (Z.gtb_spec (refcount s idx - 1) 0) as [Hgt|Hle]; intros E; inversion E; subst s'; clear E.
  - intros f Hf. unfold set_refcount, upd; cbn [refcount].
    change (bitmap_test f (mkKmem _ _ _ _)) with (bitmap_test f s).
    destruct (Z.eqb_spec f idx) as [->|]; [|apply H; assumption].
    split; [lia|]. split; [lia|]. intros; contradiction.
  - apply frame_inv_set_mem, frame_inv_set_free.
    intros f Hf. destruct (Z.eq_dec f idx) as [->|Hne].
    + rewrite bitmap_test_clear_same.
      unfold bitmap_clear, set_refcount, upd; cbn [refcount]. rewrite Z.eqb_refl. lia.
    + rewrite bitmap_test_clear_other by assumption.
      unfold bitmap_clear, set_refcount, upd; cbn [refcount].
      destruct (Z.eqb_spec f idx); [contradiction|].
      change (bitmap_test f (mkKmem _ _ _ _)) with (bitmap_test f s).
      apply H; assumption.
Qed.

Lemma frame_inv_incref (page : Z) (s s' : kmem) :
  frame_inv s -> page_incref page s = Some s' -> frame_inv s'.
Proof.
  intros H. unfold page_incref.
  destruct (valid_page page) eqn:Hv; cbn [negb]; [|discriminate].
  pose proof (valid_page_index page Hv) as Hidx.
  set (idx := page_index page) in *.
  destruct (Z.eqb_spec (bitmap_test idx s) 0) as [|Hbit]; [discriminate|].
  destruct (Z.eqb_spec (refcount s idx) INT_MAX); [discriminate|].
  intros E; inversion E; subst s'; clear E.
  intros f Hf. unfold set_refcount, upd; cbn [refcount].
  change (bitmap_test f (mkKmem _ _ _ _)) with (bitmap_test f s).
  destruct (Z.eqb_spec f idx) as [->|]; [|apply H; assumption].
  destruct (H idx Hidx) as [Hnn Hiff].
  assert (refcount s idx <> 0) by (intro Hz; apply Hbit, Hiff, Hz).
  split; [lia|]. split; [lia|]. intros; contradiction.
Qed.

Lemma frame_inv_alloc_mark (fuel : nat) : forall idx s s',
  frame_inv s -> alloc_mark fuel idx s = Some s' -> frame_inv s'.
Proof.
  induction fuel as [|fuel IH]; intros idx s s' H; cbn [alloc_mark].
  - intros E; inversion E; subst; assumption.
  - destruct (bitmap_test idx s =? 0); [|discriminate].
    apply IH. apply frame_inv_mark. assumption.
Qed.

Lemma frame_inv_alloc_pages (n : Z) (s : kmem) (p : Z) (s' : kmem) :
  frame_inv s -> alloc_pages n s = Some (p, s') -> frame_inv s'.
Proof.
  intros H. unfold alloc_pages.
  destruct (n <=? 0); [intros E; inversion E; subst; assumption|].
  destruct (n =? 1).
  { intros E; inversion E. replace s' with (snd (alloc_page s)) by (rewrite H1; reflexivity).
    apply frame_inv_alloc_page; assumption. }
  destruct (free_pages_count s <? n); [intros E; inversion E; subst; assumption|].
  destruct (find_contiguous_free_pages n s) as [start|];
    [|intros E; inversion E; subst; assumption].
  destruct (alloc_mark (Z.to_nat n) start s) as [s1|] eqn:Hm; [|discriminate].
  intros E; inversion E; subst.
  apply frame_inv_set_mem, frame_inv_set_free.
  eapply frame_inv_alloc_mark; eassumption.
Qed.

Lemma frame_inv_free_pages_loop (fuel : nat) : forall cur s s',
  frame_inv s -> free_pages_loop fuel cur s = Some s' -> frame_inv s'.
Proof.
  induction fuel as [|fuel IH]; intros cur s s' H; cbn [free_pages_loop].
  - intros E; inversion E; subst; assumption.
  - destruct (free_page cur s) as [s1|] eqn:Hf; [|discriminate].
    apply IH. eapply frame_inv_free_page; eassumption.
Qed.

Lemma frame_inv_free_pages (page n : Z) (s s' : kmem) :
  frame_inv s -> free_pages page n s = Some s' -> frame_inv s'.
Proof.
  intros H. unfold free_pages.
  destruct (n <=? 0); [intros E; inversion E; subst; assumption|].
  apply frame_inv_free_pages_loop. assumption.
Qed.

Lemma reachable_frame_inv (kend : Z) (s : kmem) : reachable kend s -> frame_inv s.
Proof.
  induction 1.
  - apply frame_inv_pmm_init.
  - apply frame_inv_alloc_page; assumption.
  - eapply frame_inv_alloc_pages; eassumption.
  - eapply frame_inv_free_page; eassumption.
  - eapply frame_inv_free_pages; eassumption.
  - eapply frame_inv_incref; eassumption.
Qed.

(** C5.  In every allocator state reachable from [pmm_init] by calls of
    [alloc_page], [alloc_pages], [free_page], [free_pages] and [page_incref]
    that return (none of their panics fires), every frame index [f] in
    [0, NPAGES) has refcount 0 if and only if its bitmap bit is clear. *)
Theorem refcount_zero_iff_bit_clear (kend : Z) (s : kmem) (f : Z) :
  reachable kend s -> 0 <= f < NPAGES ->
  (refcount s f = 0 <-> bitmap_test f s = 0).
Proof.
  intros Hr Hf. apply (reachable_frame_inv kend s Hr f Hf).
Qed.

(** A concrete run: a kernel image of 33 pages, then one [alloc_page]. *)
Definition demo_kend : Z := 0x80021000.
Definition demo_boot : kmem := pmm_init demo_kend (boot_state (fun _ => 0)).

Lemma demo_kend_ok : kend_ok demo_kend.
Proof. split; apply Z.leb_le; vm_compute; reflexivity. Qed.

Example demo_alloc_first : fst (alloc_page demo_boot) = index_to_page 34.
Proof. vm_compute. reflexivity. Qed.

Example demo_alloc_free_roundtrip :
  option_map (fun s => (refcount s 34, bitmap_test 34 s, free_pages_count s))
             (free_page (index_to_page 34) (snd (alloc_page demo_boot)))
  = Some (0, 0, free_pages_count demo_boot).
Proof. vm_compute. reflexivity. Qed.

Example demo_double_free_panics :
  match free_page (index_to_page 34) (snd (alloc_page demo_boot)) with
  | Some s => free_page (index_to_page 34) s
  | None => None
  end = None.
Proof. vm_compute. reflexivity. Qed.

Lemma refcount_zero_iff_bit_clear_witness :
  refcount (snd (alloc_page demo_boot)) 34 = 0 <-> bitmap_test 34 (snd (alloc_page demo_boot)) = 0.
Proof.
  apply (refcount_zero_iff_bit_clear demo_kend).
  - apply reach_alloc_page. apply reach_init. exact demo_kend_ok.
  - split; [apply Z.leb_le | apply Z.ltb_lt]; vm_compute; reflexivity.
Defined.

End Pmm.

(** ** Sequencing of operations that may panic *)

Definition obind {A B : Type} (c : option A) (k : A -> option B) : option B :=
  match c with
  | Some a => k a
  | None => None
  end.

Notation "x <- c ;; k" := (obind c (fun x => k))
  (at level 61, c at next level, right associativity).
Notation "' p <- c ;; k" := (obind c (fun x => match x with p => k end))
  (at level 61, p pattern, c at next level, right associativity).

Lemma obind_Some {A B : Type} (c : option A) (k : A -> option B) (b : B) :
  obind c k = Some b -> exists a, c = Some a /\ k a = Some b.
Proof. destruct c as [a|]; cbn; [eauto | discriminate]. Qed.

(** ** The buffer cache (bio.c) and the block device behind it *)
Module Bio.

Definition NBUF : nat := 32.
Definition BUF_HASH_SIZE : Z := 37.
Definition B_VALID : Z := 2.
Definition B_DIRTY : Z := 4.
Definition two32 : Z := 0x100000000.

(** The 4096 bytes of a block, read as its 1024 32-bit words. *)
Definition block : Type := Z -> Z.

(** [struct buf]; the links ([prev]/[next], [hash_next]) are kept outside the
    record, as the LRU list and the hash chains of [bcache].  [locked] is the
    buffer's sleeplock: in a run of a single process the lock is either free
    or held by that process. *)
Record buf : Type := mkBuf {
  flags : Z;
  dev : Z;
  blockno : Z;
  locked : bool;
  refcnt : Z;
  data : block
}.

(** [bcache] together with the disk it caches.  Buffers are named by their
    index in [bcache.buf]; [lru] lists the buffers from [head.next] (most
    recently used) to [head.prev]; [hash h] is the chain of bucket [h] from
    its head. *)
Record bstate : Type := mkBstate {
  bufs : nat -> buf;
  lru : list nat;
  hash : Z -> list nat;
  disk : Z -> block
}.

Definition buf_hash (d b : Z) : Z := Z.lxor d b mod BUF_HASH_SIZE.

Definition set_buf (i : nat) (b : buf) (s : bstate) : bstate :=
  mkBstate (fun j => if Nat.eqb j i then b else bufs s j) (lru s) (hash s) (disk s).

Definition set_hash (h : Z) (l : list nat) (s : bstate) : bstate :=
  mkBstate (bufs s) (lru s) (fun k => if k =? h then l else hash s k) (disk s).

Definition set_lru (l : list nat) (s : bstate) : bstate :=
  mkBstate (bufs s) l (hash s) (disk s).

Definition set_disk (b : Z) (d : block) (s : bstate) : bstate :=
  mkBstate (bufs s) (lru s) (hash s) (fun k => if k =? b then d else disk s k).

Definition with_flags (v : Z) (b : buf) : buf :=
  mkBuf v (dev b) (blockno b) (locked b) (refcnt b) (data b).
Definition with_locked (v : bool) (b : buf) : buf :=
  mkBuf (flags b) (dev b) (blockno b) v (refcnt b) (data b).
Definition with_refcnt (v : Z) (b : buf) : buf :=
  mkBuf (flags b) (dev b) (blockno b) (locked b) v (data b).
Definition with_data (v : block) (b : buf) : buf :=
  mkBuf (flags b) (dev b) (blockno b) (locked b) (refcnt b) v.

(** Unlink the first occurrence of a buffer from a chain. *)
Fixpoint remove_first (i : nat) (l : list nat) : list nat :=
  match l with
  | [] => []
  | j :: l' => if Nat.eqb j i then l' else j :: remove_first i l'
  end.

Definition hash_insert (i : nat) (s : bstate) : bstate :=
  let idx := buf_hash (dev (bufs s i)) (blockno (bufs s i)) in
  set_hash idx (i :: hash s idx) s.

Definition hash_remove (i : nat) (s : bstate) : bstate :=
  let idx := buf_hash (dev (bufs s i)) (blockno (bufs s i)) in
  set_hash idx (remove_first i (hash s idx)) s.

(** [bcache_init]: every buffer is free, invalid and in no bucket; the
    insertion loop leaves buffer 31 at the head of the LRU list. *)
Definition bcache_init (d : Z -> block) : bstate :=
  mkBstate (fun _ => mkBuf 0 0 0 false 0 (fun _ => 0))
           (rev (seq 0 NBUF)) (fun _ => []) d.

(** [acquiresleep]: taking a lock that is held never returns in a run of a
    single process. *)
Definition acquiresleep (i : nat) (s : bstate) : option bstate :=
  if locked (bufs s i) then None
  else Some (set_buf i (with_locked true (bufs s i)) s).

Definition bget (d b : Z) (s : bstate) : option (nat * bstate) :=
  let idx := buf_hash d b in
  match find (fun i => (dev (bufs s i) =? d) && (blockno (bufs s i) =? b)) (hash s idx) with
  | Some i =>
      let s1 := set_buf i (with_refcnt ((refcnt (bufs s i) + 1) mod two32) (bufs s i)) s in
      s2 <- acquiresleep i s1 ;; Some (i, s2)
  | None =>
      match find (fun i => refcnt (bufs s i) =? 0) (rev (lru s)) with
      | Some i =>
          let s1 := hash_remove i s in
          let s2 := set_buf i (mkBuf 0 d b (locked (bufs s1 i)) 1 (data (bufs s1 i))) s1 in
          let s3 := hash_insert i s2 in
          s4 <- acquiresleep i s3 ;; Some (i, s4)
      | None => None
      end
  end.

(** [virtio_disk_rw] as the cache uses it: a synchronous transfer of one
    block between the buffer and the device. *)
Definition disk_rw (i : nat) (write : bool) (s : bstate) : bstate :=
  let b := bufs s i in
  if write then
    let s1 := set_disk (blockno b) (data b) s in
    set_buf i (with_flags (Z.land (flags b) (Z.lnot B_DIRTY)) b) s1
  else set_buf i (with_data (disk s (blockno b)) b) s.

Definition bread (d b : Z) (s : bstate) : option (nat * bstate) :=
  '(i, s1) <- bget d b s ;;
  if Z.land (flags (bufs s1 i)) B_VALID =? 0 then
    let s2 := disk_rw i false s1 in
    Some (i, set_buf i (with_flags (Z.lor (flags (bufs s2 i)) B_VALID) (bufs s2 i)) s2)
  else Some (i, s1).

Definition bwrite (i : nat) (s : bstate) : option bstate :=
  if negb (locked (bufs s i)) then None
  else
    let s1 := set_buf i (with_flags (Z.lor (flags (bufs s i)) B_DIRTY) (bufs s i)) s in
    Some (disk_rw i true s1).

Definition brelse (i : nat) (s : bstate) : option bstate :=
  if negb (locked (bufs s i)) then None
  else
    let s1 := set_buf i (with_locked false (bufs s i)) s in
    let r := (refcnt (bufs s1 i) - 1) mod two32 in
    let s2 := set_buf i (with_refcnt r (bufs s1 i)) s1 in
    if r =? 0 then Some (set_lru (i :: remove_first i (lru s2)) s2) else Some s2.

Definition bpin (i : nat) (s : bstate) : bstate :=
  set_buf i (with_refcnt ((refcnt (bufs s i) + 1) mod two32) (bufs s i)) s.

Definition bunpin (i : nat) (s : bstate) : bstate :=
  set_buf i (with_refcnt ((refcnt (bufs s i) - 1) mod two32) (bufs s i)) s.

(** [clear_cache]: the loop over [bcache.buf[0 .. NBUF-1]]. *)
Definition clear_buf (b : buf) : buf :=
  mkBuf (Z.land (flags b) (Z.lnot (Z.lor B_VALID B_DIRTY))) (dev b) (blockno b)
        (locked b) 0 (data b).

Fixpoint clear_loop (k : nat) (i : nat) (s : bstate) : bstate :=
  match k with
  | O => s
  | S k' => clear_loop k' (S i) (set_buf i (clear_buf (bufs s i)) s)
  end.

Definition clear_cache (s : bstate) : bstate := clear_loop NBUF 0 s.

(** *** [clear_cache] *)

Lemma clear_loop_frame (k : nat) : forall i s,
  lru (clear_loop k i s) = lru s /\ hash (clear_loop k i s) = hash s /\
  disk (clear_loop k i s) = disk s.
Proof.
  induction k as [|k IH]; intros i s; cbn [clear_loop]; [auto|].
  destruct (IH (S i) (set_buf i (clear_buf (bufs s i)) s)) as (H1 & H2 & H3).
  rewrite H1, H2, H3. auto.
Qed.

Lemma clear_loop_bufs (k : nat) : forall i s j,
  bufs (clear_loop k i s) j =
  if (Nat.leb i j && Nat.ltb j (i + k))%bool then clear_buf (bufs s j) else bufs s j.
Proof.
  induction k as [|k IH]; intros i s j; cbn [clear_loop].
  - destruct (Nat.leb_spec i j), (Nat.ltb_spec j (i + 0)); cbn [andb]; try reflexivity; lia.
  - rewrite IH. unfold set_buf; cbn [bufs].
    destruct (Nat.eqb_spec j i) as [->|Hne].
    + destruct (Nat.leb_spec (S i) i); [lia|]. cbn [andb].
      destruct (Nat.leb_spec i i); [|lia].
      destruct (Nat.ltb_spec i (i + S k)); [|lia]. reflexivity.
    + destruct (Nat.leb_spec (S i) j), (Nat.leb_spec i j),
        (Nat.ltb_spec j (S i + k)), (Nat.ltb_spec j (i + S k)); cbn [andb];
        try reflexivity; lia.
Qed.

Lemma clear_cache_buf (s : bstate) (i : nat) :
  (i < NBUF)%nat -> bufs (clear_cache s) i = clear_buf (bufs s i).
Proof.
  intros Hi. unfold clear_cache. rewrite clear_loop_bufs.
  destruct (Nat.leb_spec 0 i); [|lia].
  destruct (Nat.ltb_spec i (0 + NBUF)); [reflexivity|lia].
Qed.

Lemma land_clear_l (f a b : Z) : Z.land (Z.land f (Z.lnot (Z.lor a b))) a = 0.
Proof.
  apply Z.bits_inj'. intros n Hn.
  rewrite !Z.land_spec, Z.lnot_spec, Z.lor_spec, Z.bits_0 by assumption.
  destruct (Z.testbit f n), (Z.testbit a n), (Z.testbit b n); reflexivity.
Qed.

Lemma land_clear_r (f a b : Z) : Z.land (Z.land f (Z.lnot (Z.lor a b))) b = 0.
Proof.
  apply Z.bits_inj'. intros n Hn.
  rewrite !Z.land_spec, Z.lnot_spec, Z.lor_spec, Z.bits_0 by assumption.
  destruct (Z.testbit f n), (Z.testbit a n), (Z.testbit b n); reflexivity.
Qed.

(** C10.  [clear_cache] sets [refcnt] to 0 and clears VALID and DIRTY in each
    of the 32 buffers whatever their state (no condition on the buffer's
    refcnt or sleeplock, so pinned and locked buffers are included), leaves
    the other flag bits, [dev], [blockno], the sleeplock and the data of
    every buffer as they were, and leaves every hash chain and the LRU list
    unchanged. *)
Theorem clear_cache_unconditional (s : bstate) (i : nat) :
  (i < NBUF)%nat ->
  let b := bufs s i in
  let b' := bufs (clear_cache s) i in
  refcnt b' = 0 /\
  Z.land (flags b') B_VALID = 0 /\ Z.land (flags b') B_DIRTY = 0 /\
  flags b' = Z.land (flags b) (Z.lnot (Z.lor B_VALID B_DIRTY)) /\
  dev b' = dev b /\ blockno b' = blockno b /\
  locked b' = locked b /\ data b' = data b /\
  hash (clear_cache s) = hash s /\ lru (clear_cache s) = lru s.
Proof.
  intros Hi b b'. subst b b'. rewrite clear_cache_buf by assumption.
  unfold clear_buf; cbn [refcnt flags dev blockno locked data].
  destruct (clear_loop_frame NBUF 0 s) as (Hl & Hh & _).
  split; [reflexivity|]. split; [apply land_clear_l|]. split; [apply land_clear_r|].
  repeat (split; [reflexivity|]). split; assumption.
Qed.

(** A cache in which buffer 3 holds block 40 of device 1, valid and dirty,
    pinned twice and with its sleeplock held. *)
Definition demo_pinned : bstate :=
  hash_insert 3
    (set_buf 3 (mkBuf (Z.lor B_VALID B_DIRTY) 1 40 true 2 (fun _ => 7))
       (bcache_init (fun _ _ => 0))).

Example demo_pinned_cleared :
  let b' := bufs (clear_cache demo_pinned) 3 in
  (refcnt b', flags b', dev b', blockno b', locked b', hash (clear_cache demo_pinned) (buf_hash 1 40))
  = (0, 0, 1, 40, true, [3%nat]).
Proof. vm_compute. reflexivity. Qed.

Lemma clear_cache_unconditional_witness :
  let b := bufs demo_pinned 3 in
  let b' := bufs (clear_cache demo_pinned) 3 in
  refcnt b' = 0 /\
  Z.land (flags b') B_VALID = 0 /\ Z.land (flags b') B_DIRTY = 0 /\
  flags b' = Z.land (flags b) (Z.lnot (Z.lor B_VALID B_DIRTY)) /\
  dev b' = dev b /\ blockno b' = blockno b /\
  locked b' = locked b /\ data b' = data b /\
  hash (clear_cache demo_pinned) = hash demo_pinned /\
  lru (clear_cache demo_pinned) = lru demo_pinned.
Proof.
  apply (clear_cache_unconditional demo_pinned 3). unfold NBUF. lia.
Defined.


(** *** Well-formed caches *)

Definition hashed (s : bstate) (i : nat) : Prop :=
  In i (hash s (buf_hash (dev (bufs s i)) (blockno (bufs s i)))).

Definition bvalid (b : buf) : bool := negb (Z.land (flags b) B_VALID =? 0).

(** The content of block [b] as the file system sees it: the pinned, not yet
    installed content [L b] if there is one, else what the disk holds. *)
Definition lview (L : Z -> option block) (d : Z -> block) (b : Z) : block :=
  match L b with
  | Some c => c
  | None => d b
  end.

Definition pincount (L : Z -> option block) (b : Z) : Z :=
  match L b with
  | Some _ => 1
  | None => 0
  end.

Record cache_ok (D : Z) (L : Z -> option block) (s : bstate) : Prop := mkCacheOk {
  ok_bucket : forall h i, In i (hash s h) ->
      buf_hash (dev (bufs s i)) (blockno (bufs s i)) = h /\ dev (bufs s i) = D;
  ok_nodup : forall h, NoDup (hash s h);
  ok_unique : forall i j, hashed s i -> hashed s j ->
      blockno (bufs s i) = blockno (bufs s j) -> i = j;
  ok_refcnt : forall i, hashed s i ->
      refcnt (bufs s i)
      = pincount L (blockno (bufs s i)) + Z.b2z (locked (bufs s i));
  ok_free : forall i, ~ hashed s i ->
      refcnt (bufs s i) = 0 /\ locked (bufs s i) = false;
  ok_data : forall i, hashed s i -> bvalid (bufs s i) = true ->
      locked (bufs s i) = false ->
      data (bufs s i) = lview L (disk s) (blockno (bufs s i));
  ok_pinned : forall b c, L b = Some c ->
      exists i, hashed s i /\ blockno (bufs s i) = b /\ bvalid (bufs s i) = true
}.

Lemma remove_first_In (i j : nat) (l : list nat) :
  NoDup l -> (In j (remove_first i l) <-> j <> i /\ In j l).
Proof.
  induction l as [|a l IH]; intros Hnd; cbn [remove_first].
  - cbn. tauto.
  - inversion Hnd as [|? ? Hna Hnd']; subst.
    destruct (Nat.eqb_spec a i) as [->|Hne].
    + cbn [In]. split.
      * intros Hj. split; [intros ->; contradiction | auto].
      * intros [Hji [He|Hj]]; [congruence | assumption].
    + cbn [In]. rewrite (IH Hnd'). split.
      * intros [<-|[? ?]]; auto.
      * intros [Hji [He|Hj]]; auto.
Qed.

Lemma remove_first_NoDup (i : nat) (l : list nat) : NoDup l -> NoDup (remove_first i l).
Proof.
  induction l as [|a l IH]; intros Hnd; cbn [remove_first]; [constructor|].
  inversion Hnd as [|? ? Hna Hnd']; subst.
  destruct (Nat.eqb_spec a i); [assumption|].
  constructor; [|auto].
  intros Hin. apply remove_first_In in Hin; [|assumption]. tauto.
Qed.

Lemma find_Some_In {A} (f : A -> bool) (l : list A) (x : A) :
  find f l = Some x -> In x l /\ f x = true.
Proof. apply find_some. Qed.

Lemma find_None_all {A} (f : A -> bool) (l : list A) :
  find f l = None -> forall x, In x l -> f x = false.
Proof. intros H x Hx. exact (find_none f l H x Hx). Qed.

Lemma pincount_01 (L : Z -> option block) (b : Z) : pincount L b = 0 \/ pincount L b = 1.
Proof. unfold pincount. destruct (L b); auto. Qed.

Lemma bufs_set_buf_same (i : nat) (b : buf) (s : bstate) : bufs (set_buf i b s) i = b.
Proof. unfold set_buf; cbn [bufs]. rewrite Nat.eqb_refl. reflexivity. Qed.

Lemma bufs_set_buf_other (i j : nat) (b : buf) (s : bstate) :
  j <> i -> bufs (set_buf i b s) j = bufs s j.
Proof.
  intros H. unfold set_buf; cbn [bufs]. destruct (Nat.eqb_spec j i); [contradiction|reflexivity].
Qed.

(** Changing a buffer without touching its [dev] and [blockno] keeps it in
    its bucket. *)
Lemma hashed_set_buf (i : nat) (b : buf) (s : bstate) (j : nat) :
  dev b = dev (bufs s i) -> blockno b = blockno (bufs s i) ->
  (hashed (set_buf i b s) j <-> hashed s j).
Proof.
  intros Hd Hb. unfold hashed. cbn [hash set_buf].
  destruct (Nat.eq_dec j i) as [->|Hne].
  - change (bufs (set_buf i b s) i) with (bufs (set_buf i b s) i).
    rewrite bufs_set_buf_same. rewrite Hd, Hb. reflexivity.
  - rewrite bufs_set_buf_other by assumption. reflexivity.
Qed.


Tactic Notation "cbn_st" :=
  cbn [bufs lru hash disk set_buf set_hash set_lru set_disk
       flags dev blockno locked refcnt data
       with_flags with_locked with_refcnt with_data].
Tactic Notation "cbn_st" "in" hyp(H) :=
  cbn [bufs lru hash disk set_buf set_hash set_lru set_disk
       flags dev blockno locked refcnt data
       with_flags with_locked with_refcnt with_data] in H.

(** What [bget] does to the cache, for a hit and for a miss. *)
Definition bget_post (D b : Z) (s : bstate) (i : nat) (s' : bstate) : Prop :=
  locked (bufs s i) = false /\
  disk s' = disk s /\
  (forall j, j <> i -> bufs s' j = bufs s j) /\
  dev (bufs s' i) = D /\ blockno (bufs s' i) = b /\
  locked (bufs s' i) = true /\ data (bufs s' i) = data (bufs s i) /\
  (forall h j, In j (hash s' h) <->
               (j = i /\ h = buf_hash D b) \/ (j <> i /\ In j (hash s h))) /\
  (forall h, NoDup (hash s' h)) /\
  ((hashed s i /\ blockno (bufs s i) = b /\ flags (bufs s' i) = flags (bufs s i) /\
    refcnt (bufs s' i) = (refcnt (bufs s i) + 1) mod two32)
   \/
   ((forall j, hashed s j -> blockno (bufs s j) <> b) /\ refcnt (bufs s i) = 0 /\
    flags (bufs s' i) = 0 /\ refcnt (bufs s' i) = 1)).

Lemma bget_spec (D b : Z) (L : Z -> option block) (s : bstate) (i : nat) (s' : bstate) :
  cache_ok D L s -> bget D b s = Some (i, s') -> bget_post D b s i s'.
Proof.
  intros Hok. unfold bget.
  destruct (find _ (hash s (buf_hash D b))) as [i0|] eqn:Hfind.
  - (* hit *)
    apply find_Some_In in Hfind. destruct Hfind as [Hin Hm].
    apply andb_true_iff in Hm. destruct Hm as [Hd Hb].
    apply Z.eqb_eq in Hd. apply Z.eqb_eq in Hb.
    unfold acquiresleep. rewrite bufs_set_buf_same. cbn [locked with_refcnt].
    destruct (locked (bufs s i0)) eqn:Hl; cbn [obind]; [discriminate|].
    intros E. inversion E; subst i s'; clear E.
    assert (Hh : hashed s i0) by (unfold hashed; rewrite Hd, Hb; assumption).
    unfold bget_post. rewrite !bufs_set_buf_same.
    cbn [dev blockno locked data flags refcnt with_locked with_refcnt disk hash set_buf].
    repeat (split; [first [assumption | reflexivity] |]).
    split; [intros j Hj; rewrite !bufs_set_buf_other by assumption; reflexivity|].
    repeat (split; [first [assumption | reflexivity] |]).
    split.
    { intros h j. split.
      - intros Hj. destruct (Nat.eq_dec j i0) as [->|Hne]; [left|right; auto].
        split; [reflexivity|]. destruct (ok_bucket _ _ _ Hok h i0 Hj) as [Hbk _].
        rewrite Hd, Hb in Hbk. congruence.
      - intros [[-> ->]|[_ Hj]]; assumption. }
    split; [apply (ok_nodup _ _ _ Hok)|].
    left. repeat split; assumption.
  - (* miss *)
    destruct (find _ (rev (lru s))) as [i0|] eqn:Hvict; [|discriminate].
    apply find_Some_In in Hvict. destruct Hvict as [_ Hr]. apply Z.eqb_eq in Hr.
    unfold acquiresleep, hash_insert, hash_remove.
    cbn [bufs set_hash set_buf]. rewrite Nat.eqb_refl. cbn [locked dev blockno].
    destruct (locked (bufs s i0)) eqn:Hl; cbn [obind]; [discriminate|].
    intros E. inversion E; subst i s'; clear E.
    pose proof (find_None_all _ _ Hfind) as Hnone. cbn beta in Hnone.
    assert (Hmiss : forall j, hashed s j -> blockno (bufs s j) <> b).
    { intros j Hj Hbj. destruct (ok_bucket _ _ _ Hok _ _ Hj) as [_ Hdj].
      unfold hashed in Hj. rewrite Hdj, Hbj in Hj.
      specialize (Hnone j Hj). rewrite Hdj, Hbj, !Z.eqb_refl in Hnone. discriminate. }
    unfold bget_post. cbn_st. rewrite ?Nat.eqb_refl. cbn_st.
    split; [assumption|]. split; [reflexivity|].
    split. { intros j Hj. destruct (Nat.eqb_spec j i0); [contradiction|reflexivity]. }
    repeat (split; [reflexivity|]).
    set (hold := buf_hash (dev (bufs s i0)) (blockno (bufs s i0))).
    set (hnew := buf_hash D b).
    assert (Hchar : forall h j,
      In j (if h =? hnew
            then i0 :: (if hnew =? hold then remove_first i0 (hash s hold) else hash s hnew)
            else if h =? hold then remove_first i0 (hash s hold) else hash s h)
      <-> (j = i0 /\ h = hnew) \/ (j <> i0 /\ In j (hash s h))).
    { intros h j.
      assert (Hrm : In j (remove_first i0 (hash s hold)) <-> j <> i0 /\ In j (hash s hold))
        by (apply remove_first_In, (ok_nodup _ _ _ Hok)).
      assert (Hi0 : forall k, In i0 (hash s k) -> k = hold)
        by (intros k Hk; destruct (ok_bucket _ _ _ Hok _ _ Hk); subst hold; congruence).
      destruct (Z.eqb_spec h hnew) as [->|Hn].
      - cbn [In]. destruct (Z.eqb_spec hnew hold) as [He|Hne].
        + rewrite Hrm, <- He. split.
          * intros [<-|[? ?]]; auto.
          * intros [[-> _]|[? ?]]; auto.
        + split.
          * intros [<-|Hj]; [auto|]. right. split; [|assumption].
            intros ->. apply Hne. apply Hi0. assumption.
          * intros [[-> _]|[? ?]]; auto.
      - destruct (Z.eqb_spec h hold) as [->|Hne].
        + rewrite Hrm. split.
          * intros [? ?]; auto.
          * intros [[_ ?]|[? ?]]; [contradiction|auto].
        + split.
          * intros Hj. right. split; [|assumption]. intros ->. apply Hne, Hi0. assumption.
          * intros [[_ ?]|[_ ?]]; [contradiction|assumption]. }
    split; [exact Hchar|].
    split.
    { intros h.
      assert (Hrm : NoDup (remove_first i0 (hash s hold)))
        by (apply remove_first_NoDup, (ok_nodup _ _ _ Hok)).
      destruct (Z.eqb_spec h hnew) as [->|Hn].
      - constructor.
        + destruct (Z.eqb_spec hnew hold) as [He|Hne].
          * intros Hin. apply remove_first_In in Hin; [tauto|apply (ok_nodup _ _ _ Hok)].
          * intros Hin. destruct (ok_bucket _ _ _ Hok _ _ Hin). subst hold. congruence.
        + destruct (hnew =? hold); [assumption|apply (ok_nodup _ _ _ Hok)].
      - destruct (h =? hold); [assumption|apply (ok_nodup _ _ _ Hok)]. }
    right. repeat split; assumption.
Qed.

Lemma bget_hashed_other (D b : Z) (s : bstate) (i : nat) (s' : bstate) (j : nat) :
  bget_post D b s i s' -> j <> i -> (hashed s' j <-> hashed s j).
Proof.
  intros (_ & _ & Hb & _ & _ & _ & _ & Hc & _) Hne.
  unfold hashed. rewrite (Hb j Hne), Hc. split.
  - intros [[? _]|[_ ?]]; [contradiction|assumption].
  - intros ?; right; auto.
Qed.

Lemma bget_hashed_self (D b : Z) (s : bstate) (i : nat) (s' : bstate) :
  bget_post D b s i s' -> hashed s' i.
Proof.
  intros (_ & _ & _ & Hd & Hbn & _ & _ & Hc & _).
  unfold hashed. rewrite Hd, Hbn, Hc. left; auto.
Qed.

Lemma mod_small_32 (x : Z) : 0 <= x < two32 -> x mod two32 = x.
Proof. intros H. apply Z.mod_small. assumption. Qed.

Lemma bget_cache_ok (D b : Z) (L : Z -> option block) (s : bstate) (i : nat) (s' : bstate) :
  cache_ok D L s -> bget_post D b s i s' ->
  cache_ok D L s' /\
  (bvalid (bufs s' i) = true -> data (bufs s' i) = lview L (disk s) b) /\
  (bvalid (bufs s' i) = false -> L b = None).
Proof.
  intros Hok Hp.
  pose proof (bget_hashed_self _ _ _ _ _ Hp) as Hself.
  pose proof (fun j => bget_hashed_other _ _ _ _ _ j Hp) as Hoth.
  destruct Hp as (Hul & Hdisk & Hb & Hd & Hbn & Hlk & Hdata & Hc & Hnd & Hcase).
  assert (HLb : (forall j, hashed s j -> blockno (bufs s j) <> b) -> L b = None).
  { intros Hm. destruct (L b) as [c|] eqn:E; [|reflexivity].
    destruct (ok_pinned _ _ _ Hok _ _ E) as (j & Hj & Hbj & _). elim (Hm j Hj Hbj). }
  split; [constructor|split].
  - intros h j Hj. apply Hc in Hj. destruct Hj as [[-> ->]|[Hne Hj]].
    + rewrite Hd, Hbn. auto.
    + rewrite (Hb j Hne). apply (ok_bucket _ _ _ Hok); assumption.
  - exact Hnd.
  - intros j k Hj Hk Hjk.
    destruct (Nat.eq_dec j i) as [->|Hji], (Nat.eq_dec k i) as [->|Hki]; [reflexivity| | |].
    + exfalso. rewrite Hbn, (Hb k Hki) in Hjk. apply Hoth in Hk; [|assumption].
      destruct Hcase as [(Hhi & Hbi & _)|(Hm & _)].
      * apply Hki. apply (ok_unique _ _ _ Hok); congruence.
      * apply (Hm k Hk). congruence.
    + exfalso. rewrite Hbn, (Hb j Hji) in Hjk. apply Hoth in Hj; [|assumption].
      destruct Hcase as [(Hhi & Hbi & _)|(Hm & _)].
      * apply Hji. apply (ok_unique _ _ _ Hok); congruence.
      * apply (Hm j Hj). congruence.
    + rewrite (Hb j Hji), (Hb k Hki) in Hjk.
      apply Hoth in Hj; [|assumption]. apply Hoth in Hk; [|assumption].
      apply (ok_unique _ _ _ Hok); assumption.
  - intros j Hj. destruct (Nat.eq_dec j i) as [->|Hji].
    + rewrite Hlk, Hbn. cbn [Z.b2z].
      destruct Hcase as [(Hhi & Hbi & _ & Hr)|(Hm & _ & _ & Hr)].
      * rewrite Hr, (ok_refcnt _ _ _ Hok i Hhi), Hul, Hbi. cbn [Z.b2z].
        destruct (pincount_01 L b) as [->| ->]; reflexivity.
      * rewrite Hr. unfold pincount. rewrite (HLb Hm). reflexivity.
    + rewrite (Hb j Hji). apply Hoth in Hj; [|assumption].
      apply (ok_refcnt _ _ _ Hok); assumption.
  - intros j Hj. destruct (Nat.eq_dec j i) as [->|Hji]; [contradiction|].
    rewrite (Hb j Hji). apply (ok_free _ _ _ Hok). intros H. apply Hj, Hoth; assumption.
  - intros j Hj Hv Hl. destruct (Nat.eq_dec j i) as [->|Hji]; [congruence|].
    rewrite (Hb j Hji) in *. rewrite Hdisk. apply Hoth in Hj; [|assumption].
    apply (ok_data _ _ _ Hok); assumption.
  - intros b0 c Hb0. destruct (ok_pinned _ _ _ Hok _ _ Hb0) as (j & Hj & Hbj & Hvj).
    destruct (Nat.eq_dec j i) as [->|Hji].
    + exists i. destruct Hcase as [(Hhi & Hbi & Hf & _)|(_ & Hr & _)].
      * split; [assumption|]. split; [congruence|].
        unfold bvalid in *. rewrite Hf. assumption.
      * exfalso. rewrite (ok_refcnt _ _ _ Hok i Hj) in Hr.
        unfold pincount in Hr. rewrite Hbj, Hb0 in Hr.
        destruct (locked (bufs s i)); cbn in Hr; lia.
    + exists j. rewrite (Hb j Hji). split; [apply Hoth; assumption|auto].
  - intros Hv. destruct Hcase as [(Hhi & Hbi & Hf & _)|(_ & _ & Hf & _)].
    + rewrite Hdata, <- Hbi. apply (ok_data _ _ _ Hok); try assumption.
      unfold bvalid in *. rewrite <- Hf. assumption.
    + unfold bvalid in Hv. rewrite Hf in Hv. discriminate.
  - intros Hv. destruct Hcase as [(Hhi & Hbi & Hf & _)|(Hm & _)]; [|auto].
    destruct (L b) as [c|] eqn:E; [|reflexivity].
    destruct (ok_pinned _ _ _ Hok _ _ E) as (j & Hj & Hbj & Hvj).
    assert (j = i) by (apply (ok_unique _ _ _ Hok); congruence). subst j.
    unfold bvalid in *. rewrite Hf in Hv. congruence.
Qed.

Definition updL (L : Z -> option block) (b : Z) (o : option block) : Z -> option block :=
  fun k => if k =? b then o else L k.

Lemma cache_ok_ext (D : Z) (L L' : Z -> option block) (s : bstate) :
  (forall b, L b = L' b) -> cache_ok D L s -> cache_ok D L' s.
Proof.
  intros He Hok. constructor.
  - apply (ok_bucket _ _ _ Hok).
  - apply (ok_nodup _ _ _ Hok).
  - apply (ok_unique _ _ _ Hok).
  - intros i Hi. unfold pincount. rewrite <- He. apply (ok_refcnt _ _ _ Hok i Hi).
  - apply (ok_free _ _ _ Hok).
  - intros i Hi Hv Hl. unfold lview. rewrite <- He. apply (ok_data _ _ _ Hok i Hi Hv Hl).
  - intros b c Hb. rewrite <- He in Hb. apply (ok_pinned _ _ _ Hok b c Hb).
Qed.

Lemma cache_ok_set_lru (D : Z) (L : Z -> option block) (l : list nat) (s : bstate) :
  cache_ok D L s -> cache_ok D L (set_lru l s).
Proof. intros Hok. destruct Hok. constructor; assumption. Qed.

(** A buffer whose sleeplock is held may be changed freely, as long as it
    stays the buffer of its block and its refcnt accounts for its pin. *)
Lemma cache_ok_locked_update (D : Z) (L : Z -> option block) (s : bstate) (i : nat)
      (b' : buf) (o : option block) :
  cache_ok D L s -> hashed s i -> locked (bufs s i) = true ->
  dev b' = dev (bufs s i) -> blockno b' = blockno (bufs s i) -> locked b' = true ->
  refcnt b' = (match o with Some _ => 1 | None => 0 end) + 1 ->
  (o <> None -> bvalid b' = true) ->
  (bvalid (bufs s i) = true -> bvalid b' = true) ->
  cache_ok D (updL L (blockno (bufs s i)) o) (set_buf i b' s).
Proof.
  intros Hok Hi Hl Hd Hb Hl' Hr Hov Hvv.
  assert (Hh : forall j, hashed (set_buf i b' s) j <-> hashed s j)
    by (intros j; apply hashed_set_buf; assumption).
  constructor.
  - intros h j Hj. cbn [hash set_buf] in Hj.
    destruct (Nat.eq_dec j i) as [->|Hne].
    + rewrite bufs_set_buf_same, Hd, Hb. apply (ok_bucket _ _ _ Hok); assumption.
    + rewrite bufs_set_buf_other by assumption. apply (ok_bucket _ _ _ Hok); assumption.
  - apply (ok_nodup _ _ _ Hok).
  - intros j k Hj Hk Hjk. apply Hh in Hj. apply Hh in Hk.
    apply (ok_unique _ _ _ Hok); try assumption.
    destruct (Nat.eq_dec j i) as [->|Hji], (Nat.eq_dec k i) as [->|Hki];
      rewrite ?bufs_set_buf_same, ?bufs_set_buf_other in Hjk by assumption; congruence.
  - intros j Hj. apply Hh in Hj. destruct (Nat.eq_dec j i) as [->|Hji].
    + rewrite bufs_set_buf_same, Hr, Hl', Hb. unfold pincount, updL.
      rewrite Z.eqb_refl. reflexivity.
    + rewrite bufs_set_buf_other by assumption.
      rewrite (ok_refcnt _ _ _ Hok j Hj). unfold pincount, updL.
      destruct (Z.eqb_spec (blockno (bufs s j)) (blockno (bufs s i))) as [He|]; [|reflexivity].
      elim Hji. apply (ok_unique _ _ _ Hok); assumption.
  - intros j Hj. destruct (Nat.eq_dec j i) as [->|Hji].
    + elim Hj. apply Hh. assumption.
    + rewrite bufs_set_buf_other by assumption. apply (ok_free _ _ _ Hok).
      intros H. apply Hj, Hh. assumption.
  - intros j Hj Hv Hlj. apply Hh in Hj. destruct (Nat.eq_dec j i) as [->|Hji].
    + rewrite bufs_set_buf_same in Hlj. congruence.
    + rewrite bufs_set_buf_other in * by assumption. cbn [disk set_buf].
      rewrite (ok_data _ _ _ Hok j Hj Hv Hlj). unfold lview, updL.
      destruct (Z.eqb_spec (blockno (bufs s j)) (blockno (bufs s i))) as [He|]; [|reflexivity].
      elim Hji. apply (ok_unique _ _ _ Hok); assumption.
  - intros b c Hbc. unfold updL in Hbc.
    destruct (Z.eqb_spec b (blockno (bufs s i))) as [->|Hne].
    + exists i. split; [apply Hh; assumption|]. rewrite bufs_set_buf_same.
      split; [assumption|]. apply Hov. congruence.
    + destruct (ok_pinned _ _ _ Hok _ _ Hbc) as (j & Hj & Hbj & Hvj).
      exists j. split; [apply Hh; assumption|].
      destruct (Nat.eq_dec j i) as [->|Hji]; [congruence|].
      rewrite bufs_set_buf_other by assumption. auto.
Qed.

Lemma updL_same (L : Z -> option block) (b : Z) : forall k, updL L b (L b) k = L k.
Proof. intros k. unfold updL. destruct (Z.eqb_spec k b); congruence. Qed.

(** The same, with no change to the pins. *)
Lemma cache_ok_locked_modify (D : Z) (L : Z -> option block) (s : bstate) (i : nat) (b' : buf) :
  cache_ok D L s -> hashed s i -> locked (bufs s i) = true ->
  dev b' = dev (bufs s i) -> blockno b' = blockno (bufs s i) -> locked b' = true ->
  refcnt b' = refcnt (bufs s i) ->
  (bvalid (bufs s i) = true -> bvalid b' = true) ->
  (L (blockno (bufs s i)) <> None -> bvalid b' = true) ->
  cache_ok D L (set_buf i b' s).
Proof.
  intros Hok Hi Hl Hd Hb Hl' Hr Hvv Hpv.
  apply (cache_ok_ext D (updL L (blockno (bufs s i)) (L (blockno (bufs s i))))).
  { apply updL_same. }
  apply cache_ok_locked_update; try assumption.
  rewrite Hr, (ok_refcnt _ _ _ Hok i Hi), Hl. unfold pincount.
  destruct (L (blockno (bufs s i))); reflexivity.
Qed.

(** Writing the block of a locked buffer to the disk. *)
Lemma cache_ok_set_disk (D : Z) (L : Z -> option block) (s : bstate) (i : nat) (d : block) :
  cache_ok D L s -> hashed s i -> locked (bufs s i) = true ->
  cache_ok D L (set_disk (blockno (bufs s i)) d s).
Proof.
  intros Hok Hi Hl. destruct Hok as [H1 H2 H3 H4 H5 H6 H7].
  constructor; try assumption.
  intros j Hj Hv Hlj. change (hashed s j) in Hj. cbn [bufs set_disk] in *.
  rewrite (H6 j Hj Hv Hlj). unfold lview. destruct (L (blockno (bufs s j))); [reflexivity|].
  cbn [disk set_disk].
  destruct (Z.eqb_spec (blockno (bufs s j)) (blockno (bufs s i))) as [He|]; [|reflexivity].
  assert (j = i) by (apply H3; assumption). subst j. congruence.
Qed.

(** Releasing the sleeplock of a buffer whose content is what the file
    system sees for its block. *)
Lemma cache_ok_unlock (D : Z) (L : Z -> option block) (s : bstate) (i : nat) :
  cache_ok D L s -> hashed s i -> locked (bufs s i) = true ->
  (bvalid (bufs s i) = true ->
   data (bufs s i) = lview L (disk s) (blockno (bufs s i))) ->
  cache_ok D L
    (set_buf i (with_refcnt (pincount L (blockno (bufs s i))) (with_locked false (bufs s i))) s).
Proof.
  intros Hok Hi Hl Hdat.
  set (b' := with_refcnt _ _).
  assert (Hh : forall j, hashed (set_buf i b' s) j <-> hashed s j)
    by (intros j; apply hashed_set_buf; reflexivity).
  constructor.
  - intros h j Hj. cbn [hash set_buf] in Hj.
    destruct (Nat.eq_dec j i) as [->|Hne].
    + rewrite bufs_set_buf_same. apply (ok_bucket _ _ _ Hok); assumption.
    + rewrite bufs_set_buf_other by assumption. apply (ok_bucket _ _ _ Hok); assumption.
  - apply (ok_nodup _ _ _ Hok).
  - intros j k Hj Hk Hjk. apply Hh in Hj. apply Hh in Hk.
    apply (ok_unique _ _ _ Hok); try assumption.
    destruct (Nat.eq_dec j i) as [->|Hji], (Nat.eq_dec k i) as [->|Hki];
      rewrite ?bufs_set_buf_same, ?bufs_set_buf_other in Hjk by assumption; assumption.
  - intros j Hj. apply Hh in Hj. destruct (Nat.eq_dec j i) as [->|Hji].
    + rewrite bufs_set_buf_same. subst b'. cbn_st. cbn [Z.b2z]. lia.
    + rewrite bufs_set_buf_other by assumption. apply (ok_refcnt _ _ _ Hok j Hj).
  - intros j Hj. destruct (Nat.eq_dec j i) as [->|Hji].
    + elim Hj. apply Hh. assumption.
    + rewrite bufs_set_buf_other by assumption. apply (ok_free _ _ _ Hok).
      intros H. apply Hj, Hh. assumption.
  - intros j Hj Hv Hlj. apply Hh in Hj. destruct (Nat.eq_dec j i) as [->|Hji].
    + rewrite bufs_set_buf_same in *. subst b'. cbn_st. apply Hdat. exact Hv.
    + rewrite bufs_set_buf_other in * by assumption. cbn [disk set_buf].
      apply (ok_data _ _ _ Hok j Hj Hv Hlj).
  - intros b c Hbc. destruct (ok_pinned _ _ _ Hok _ _ Hbc) as (j & Hj & Hbj & Hvj).
    exists j. split; [apply Hh; assumption|].
    destruct (Nat.eq_dec j i) as [->|Hji].
    + rewrite bufs_set_buf_same. subst b'. auto.
    + rewrite bufs_set_buf_other by assumption. auto.
Qed.

(** Two cache states with the same buffers, chains and disk contents. *)
Definition same_cache (s s' : bstate) : Prop :=
  (forall j, bufs s' j = bufs s j) /\ hash s' = hash s /\ (forall b, disk s' b = disk s b).

Lemma same_cache_hashed (s s' : bstate) (j : nat) :
  same_cache s s' -> (hashed s' j <-> hashed s j).
Proof. intros (Hb & Hh & _). unfold hashed. rewrite Hb, Hh. reflexivity. Qed.

Lemma cache_ok_same (D : Z) (L : Z -> option block) (s s' : bstate) :
  same_cache s s' -> cache_ok D L s -> cache_ok D L s'.
Proof.
  intros Hs Hok. pose proof (fun j => same_cache_hashed s s' j Hs) as Hh.
  destruct Hs as (Hb & Hhash & Hd). constructor.
  - intros h j. rewrite Hhash, Hb. apply (ok_bucket _ _ _ Hok).
  - intros h. rewrite Hhash. apply (ok_nodup _ _ _ Hok).
  - intros j k Hj Hk. rewrite !Hb. apply Hh in Hj. apply Hh in Hk.
    apply (ok_unique _ _ _ Hok); assumption.
  - intros j Hj. rewrite Hb. apply Hh in Hj. apply (ok_refcnt _ _ _ Hok j Hj).
  - intros j Hj. rewrite Hb. apply (ok_free _ _ _ Hok). intros H. apply Hj, Hh, H.
  - intros j Hj. rewrite Hb. intros Hv Hl. apply Hh in Hj.
    rewrite (ok_data _ _ _ Hok j Hj Hv Hl). unfold lview. rewrite Hd. reflexivity.
  - intros b c Hbc. destruct (ok_pinned _ _ _ Hok _ _ Hbc) as (j & Hj & Hbj & Hvj).
    exists j. rewrite Hb. split; [apply Hh; assumption|auto].
Qed.

Lemma land_lor_same (f a : Z) : Z.land (Z.lor f a) a = a.
Proof.
  apply Z.bits_inj'. intros k Hk. rewrite Z.land_spec, Z.lor_spec.
  destruct (Z.testbit f k), (Z.testbit a k); reflexivity.
Qed.

Lemma valid_after_dirty_cycle (f : Z) :
  Z.land (Z.land (Z.lor f B_DIRTY) (Z.lnot B_DIRTY)) B_VALID = Z.land f B_VALID.
Proof.
  apply Z.bits_inj'. intros k Hk.
  rewrite !Z.land_spec, Z.lnot_spec, Z.lor_spec by assumption.
  assert (Hdis : Z.testbit B_DIRTY k && Z.testbit B_VALID k = false).
  { rewrite <- Z.land_spec. change (Z.land B_DIRTY B_VALID) with 0. apply Z.bits_0. }
  destruct (Z.testbit f k), (Z.testbit B_DIRTY k), (Z.testbit B_VALID k);
    cbn in *; congruence.
Qed.

(** [bread]: the buffer returned is locked, valid, and holds what the file
    system sees for the block. *)
Lemma bread_spec (D b : Z) (L : Z -> option block) (s : bstate) (i : nat) (s' : bstate) :
  cache_ok D L s -> bread D b s = Some (i, s') ->
  cache_ok D L s' /\ hashed s' i /\ dev (bufs s' i) = D /\ blockno (bufs s' i) = b /\
  locked (bufs s' i) = true /\ bvalid (bufs s' i) = true /\
  data (bufs s' i) = lview L (disk s) b /\ disk s' = disk s /\
  locked (bufs s i) = false /\
  (forall j, j <> i -> bufs s' j = bufs s j) /\
  (forall j, j <> i -> (hashed s' j <-> hashed s j)).
Proof.
  intros Hok. unfold bread.
  destruct (bget D b s) as [[i0 s1]|] eqn:Hg; cbn [obind]; [|discriminate].
  pose proof (bget_spec _ _ _ _ _ _ Hok Hg) as Hp.
  destruct (bget_cache_ok _ _ _ _ _ _ Hok Hp) as (Hok1 & Hval & Hinv).
  pose proof (bget_hashed_self _ _ _ _ _ Hp) as Hself.
  pose proof (fun j => bget_hashed_other _ _ _ _ _ j Hp) as Hoth.
  destruct Hp as (Hul & Hdisk & Hb & Hd & Hbn & Hlk & Hdata & _).
  destruct (Z.eqb_spec (Z.land (flags (bufs s1 i0)) B_VALID) 0) as [Hz|Hnz];
    intros E; inversion E; subst i s'; clear E.
  - assert (Hiv : bvalid (bufs s1 i0) = false) by (unfold bvalid; rewrite Hz; reflexivity).
    specialize (Hinv Hiv).
    unfold disk_rw. cbv iota.
    set (b1 := with_data (disk s1 (blockno (bufs s1 i0))) (bufs s1 i0)).
    set (s2 := set_buf i0 b1 s1).
    assert (Hok2 : cache_ok D L s2).
    { apply cache_ok_locked_modify;
        [exact Hok1 | exact Hself | exact Hlk | reflexivity | reflexivity
        | exact Hlk | reflexivity | intros H; congruence
        | intros H; rewrite Hbn in H; congruence]. }
    assert (Hh2 : forall j, hashed s2 j <-> hashed s1 j)
      by (intros j; apply hashed_set_buf; reflexivity).
    assert (Hb2 : bufs s2 i0 = b1) by apply bufs_set_buf_same.
    rewrite ?Nat.eqb_refl. rewrite <- Hb2.
    set (b2 := with_flags _ (bufs s2 i0)).
    assert (Hv2 : bvalid b2 = true).
    { subst b2. unfold bvalid. cbn [flags with_flags]. rewrite land_lor_same. reflexivity. }
    assert (Hok3 : cache_ok D L (set_buf i0 b2 s2)).
    { assert (Hl2 : locked (bufs s2 i0) = true) by (rewrite Hb2; exact Hlk).
      apply cache_ok_locked_modify;
        [exact Hok2 | apply Hh2; exact Hself | exact Hl2 | reflexivity | reflexivity
        | exact Hl2 | reflexivity | intros _; exact Hv2 | intros _; exact Hv2]. }
    assert (Hh3 : forall j, hashed (set_buf i0 b2 s2) j <-> hashed s2 j)
      by (intros j; apply hashed_set_buf; reflexivity).
    assert (Hf2 : dev b2 = D /\ blockno b2 = b /\ locked b2 = true /\
                  data b2 = disk s1 (blockno (bufs s1 i0))).
    { subst b2. cbn_st. rewrite Hb2. subst b1. cbn_st. auto. }
    destruct Hf2 as (Hd2 & Hbn2 & Hl2 & Hdt2).
    split; [exact Hok3|].
    split; [apply Hh3, Hh2; exact Hself|].
    rewrite bufs_set_buf_same.
    split; [exact Hd2|]. split; [exact Hbn2|]. split; [exact Hl2|]. split; [exact Hv2|].
    split; [rewrite Hdt2; unfold lview; rewrite Hinv, Hbn, Hdisk; reflexivity|].
    split; [exact Hdisk|]. split; [exact Hul|].
    split.
    + intros j Hj. subst s2. rewrite !bufs_set_buf_other by assumption. apply Hb, Hj.
    + intros j Hj. rewrite Hh3, Hh2. apply Hoth, Hj.
  - assert (Hv : bvalid (bufs s1 i0) = true).
    { unfold bvalid. destruct (Z.eqb_spec (Z.land (flags (bufs s1 i0)) B_VALID) 0);
        [contradiction|reflexivity]. }
    repeat (split; [first [assumption | reflexivity] |]).
    split; [apply Hval, Hv|].
    repeat (split; [first [assumption | reflexivity] |]).
    exact Hoth.
Qed.

(** [bwrite]: the buffer's content goes to the disk block it caches. *)
Lemma bwrite_spec (D : Z) (L : Z -> option block) (s : bstate) (i : nat) (s' : bstate) :
  cache_ok D L s -> hashed s i -> bwrite i s = Some s' ->
  locked (bufs s i) = true /\ cache_ok D L s' /\
  (forall b, disk s' b = if b =? blockno (bufs s i) then data (bufs s i) else disk s b) /\
  (forall j, j <> i -> bufs s' j = bufs s j) /\
  (forall j, hashed s' j <-> hashed s j) /\
  dev (bufs s' i) = dev (bufs s i) /\ blockno (bufs s' i) = blockno (bufs s i) /\
  locked (bufs s' i) = true /\ refcnt (bufs s' i) = refcnt (bufs s i) /\
  data (bufs s' i) = data (bufs s i) /\ bvalid (bufs s' i) = bvalid (bufs s i).
Proof.
  intros Hok Hi. unfold bwrite.
  destruct (locked (bufs s i)) eqn:Hl; cbn [negb]; [|discriminate].
  intros E.
  assert (Hs' : s' = disk_rw i true
            (set_buf i (with_flags (Z.lor (flags (bufs s i)) B_DIRTY) (bufs s i)) s))
    by congruence.
  clear E.
  split; [reflexivity|].
  set (b2 := with_flags (Z.land (Z.lor (flags (bufs s i)) B_DIRTY) (Z.lnot B_DIRTY)) (bufs s i)).
  set (s2 := set_buf i b2 (set_disk (blockno (bufs s i)) (data (bufs s i)) s)).
  assert (Hsame : same_cache s2 s').
  { split; [|split; [subst s'; reflexivity|]].
    - intros j. subst s' s2 b2. unfold disk_rw, set_buf, set_disk; cbn_st.
      rewrite Nat.eqb_refl. cbn_st. destruct (Nat.eqb j i); reflexivity.
    - intros b. subst s' s2 b2. unfold disk_rw, set_buf, set_disk; cbn_st.
      rewrite Nat.eqb_refl. cbn_st. reflexivity. }
  clear Hs'.
  assert (Hv2 : bvalid b2 = bvalid (bufs s i)).
  { subst b2. unfold bvalid. cbn [flags with_flags].
    rewrite valid_after_dirty_cycle. reflexivity. }
  assert (Hok2 : cache_ok D L s2).
  { subst s2. apply cache_ok_locked_modify;
      [apply cache_ok_set_disk; assumption | exact Hi | exact Hl | reflexivity | reflexivity
      | exact Hl | reflexivity | | ].
    - cbn [bufs set_disk]. rewrite Hv2. auto.
    - cbn [bufs set_disk]. intros HL. rewrite Hv2.
      destruct (L (blockno (bufs s i))) as [c|] eqn:E; [|congruence].
      destruct (ok_pinned _ _ _ Hok _ _ E) as (j & Hj & Hbj & Hvj).
      assert (j = i) by (apply (ok_unique _ _ _ Hok); assumption). subst j. exact Hvj. }
  pose proof (fun j => same_cache_hashed s2 s' j Hsame) as Hh.
  destruct Hsame as (Hb & Hhash & Hd).
  split; [eapply cache_ok_same; [split; [exact Hb|split; [exact Hhash|exact Hd]]|exact Hok2]|].
  split; [intros b; rewrite Hd; reflexivity|].
  split. { intros j Hj. rewrite Hb. subst s2. rewrite bufs_set_buf_other by assumption.
           reflexivity. }
  split. { intros j. rewrite Hh. subst s2. rewrite hashed_set_buf by reflexivity.
           unfold hashed. reflexivity. }
  rewrite Hb. subst s2. rewrite bufs_set_buf_same.
  repeat (split; [first [assumption | reflexivity] |]). exact Hv2.
Qed.

(** [brelse] of a buffer whose content is what the file system sees. *)
Lemma brelse_spec (D : Z) (L : Z -> option block) (s : bstate) (i : nat) (s' : bstate) :
  cache_ok D L s -> hashed s i ->
  (bvalid (bufs s i) = true -> data (bufs s i) = lview L (disk s) (blockno (bufs s i))) ->
  brelse i s = Some s' ->
  locked (bufs s i) = true /\ cache_ok D L s' /\ disk s' = disk s /\
  (forall j, j <> i -> bufs s' j = bufs s j) /\
  (forall j, hashed s' j <-> hashed s j) /\
  bufs s' i = with_refcnt (pincount L (blockno (bufs s i))) (with_locked false (bufs s i)).
Proof.
  intros Hok Hi Hdat. unfold brelse.
  destruct (locked (bufs s i)) eqn:Hl; cbn [negb]; [|discriminate].
  rewrite !bufs_set_buf_same. cbn [refcnt with_locked].
  assert (Hr : (refcnt (bufs s i) - 1) mod two32 = pincount L (blockno (bufs s i))).
  { rewrite (ok_refcnt _ _ _ Hok i Hi), Hl. cbn [Z.b2z].
    destruct (pincount_01 L (blockno (bufs s i))) as [-> | ->]; reflexivity. }
  rewrite Hr.
  set (b' := with_refcnt _ _).
  pose proof (cache_ok_unlock _ _ _ _ Hok Hi Hl Hdat) as Hok'. fold b' in Hok'.
  assert (Hsame : same_cache (set_buf i b' s)
                    (set_buf i b' (set_buf i (with_locked false (bufs s i)) s))).
  { split; [|split; [reflexivity|intros; reflexivity]].
    intros j. unfold set_buf; cbn [bufs]. destruct (Nat.eqb j i); reflexivity. }
  assert (Hres : forall s'',
            same_cache (set_buf i b' (set_buf i (with_locked false (bufs s i)) s)) s'' ->
            disk s'' = disk s ->
            true = true /\ cache_ok D L s'' /\ disk s'' = disk s /\
            (forall j, j <> i -> bufs s'' j = bufs s j) /\
            (forall j, hashed s'' j <-> hashed s j) /\ bufs s'' i = b').
  { intros s'' Hs Hd. split; [reflexivity|].
    split; [eapply cache_ok_same; [exact Hs|]; eapply cache_ok_same; eassumption|].
    split; [assumption|].
    destruct Hs as (Hb & Hh & _).
    split. { intros j Hj. rewrite Hb. rewrite !bufs_set_buf_other by assumption. reflexivity. }
    split. { intros j. unfold hashed. rewrite Hb, Hh. cbn [hash set_buf bufs].
             destruct (Nat.eqb_spec j i) as [->|]; reflexivity. }
    rewrite Hb. apply bufs_set_buf_same. }
  destruct (pincount L (blockno (bufs s i)) =? 0); intros E; inversion E; subst s'; clear E.
  - apply Hres; [|reflexivity]. split; [|split]; intros; reflexivity.
  - apply Hres; [|reflexivity]. split; [|split]; intros; reflexivity.
Qed.

(** Only the 32 buffers of [bcache.buf] are ever linked. *)
Definition range_ok (s : bstate) : Prop :=
  (forall i, In i (lru s) -> (i < NBUF)%nat) /\
  (forall h i, In i (hash s h) -> (i < NBUF)%nat).

Lemma range_hashed (s : bstate) (i : nat) : range_ok s -> hashed s i -> (i < NBUF)%nat.
Proof. intros [_ H] Hi. exact (H _ _ Hi). Qed.

Lemma remove_first_incl (i j : nat) (l : list nat) : In j (remove_first i l) -> In j l.
Proof.
  induction l as [|a l IH]; cbn [remove_first]; [auto|].
  destruct (Nat.eqb a i); cbn [In]; tauto.
Qed.

Lemma range_bget (D b : Z) (s : bstate) (i : nat) (s' : bstate) :
  range_ok s -> bget D b s = Some (i, s') -> range_ok s'.
Proof.
  intros [Hl Hh]. unfold bget.
  destruct (find _ (hash s (buf_hash D b))) as [i0|] eqn:Hfind.
  - unfold acquiresleep. destruct (locked _); cbn [obind]; [discriminate|].
    intros E; inversion E; subst. split; [exact Hl|exact Hh].
  - destruct (find _ (rev (lru s))) as [i0|] eqn:Hv; [|discriminate].
    apply find_some in Hv. destruct Hv as [Hin _]. apply in_rev in Hin.
    unfold acquiresleep. destruct (locked _); cbn [obind]; [discriminate|].
    intros E; inversion E; subst. split; [exact Hl|].
    intros h j. unfold hash_insert, hash_remove. cbn_st.
    rewrite ?Nat.eqb_refl. cbn_st.
    repeat match goal with
           | |- context [if ?c then _ else _] => destruct c
           end; cbn [In]; intros Hj;
      repeat match goal with
             | H : _ \/ _ |- _ => destruct H
             | H : In _ (remove_first _ _) |- _ => apply remove_first_incl in H
             end; subst; eauto.
Qed.

Lemma range_bread (D b : Z) (s : bstate) (i : nat) (s' : bstate) :
  range_ok s -> bread D b s = Some (i, s') -> range_ok s'.
Proof.
  intros Hr. unfold bread.
  destruct (bget D b s) as [[i0 s1]|] eqn:Hg; cbn [obind]; [|discriminate].
  pose proof (range_bget _ _ _ _ _ Hr Hg) as Hr1.
  destruct (_ =? 0); intros E; inversion E; subst; exact Hr1.
Qed.

Lemma range_bwrite (s : bstate) (i : nat) (s' : bstate) :
  range_ok s -> bwrite i s = Some s' -> range_ok s'.
Proof.
  intros Hr. unfold bwrite. destruct (negb _); [discriminate|].
  intros E; inversion E; subst. exact Hr.
Qed.

Lemma range_brelse (s : bstate) (i : nat) (s' : bstate) :
  range_ok s -> hashed s i -> brelse i s = Some s' -> range_ok s'.
Proof.
  intros Hr Hi. pose proof (range_hashed _ _ Hr Hi) as Hlt. destruct Hr as [Hl Hh].
  unfold brelse. destruct (negb _); [discriminate|].
  destruct (_ =? 0); intros E; inversion E; subst; split; try exact Hh; try exact Hl.
  cbn_st. intros j [<-|Hj]; [exact Hlt|]. apply remove_first_incl in Hj. apply Hl, Hj.
Qed.

Lemma range_set_buf (s : bstate) (i : nat) (b : buf) : range_ok s -> range_ok (set_buf i b s).
Proof. intros H; exact H. Qed.

Lemma range_init (d : Z -> block) : range_ok (bcache_init d).
Proof.
  split.
  - intros i Hi. unfold bcache_init, lru in Hi. rewrite <- in_rev in Hi.
    rewrite in_seq in Hi. unfold NBUF in *. lia.
  - intros h i Hi. destruct Hi.
Qed.

Lemma clear_cache_frame (s : bstate) :
  lru (clear_cache s) = lru s /\ hash (clear_cache s) = hash s /\
  disk (clear_cache s) = disk s.
Proof. exact (clear_loop_frame NBUF 0 s). Qed.

Lemma clear_cache_keys (s : bstate) (i : nat) :
  dev (bufs (clear_cache s) i) = dev (bufs s i) /\
  blockno (bufs (clear_cache s) i) = blockno (bufs s i) /\
  locked (bufs (clear_cache s) i) = locked (bufs s i).
Proof.
  unfold clear_cache. rewrite clear_loop_bufs.
  destruct (Nat.leb 0 i && Nat.ltb i (0 + NBUF))%bool; auto.
Qed.

Lemma clear_cache_hashed (s : bstate) (i : nat) : hashed (clear_cache s) i <-> hashed s i.
Proof.
  unfold hashed. destruct (clear_cache_frame s) as (_ & Hh & _). rewrite Hh.
  destruct (clear_cache_keys s i) as (-> & -> & _). reflexivity.
Qed.

Lemma clear_cache_ok (D : Z) (L : Z -> option block) (s : bstate) :
  cache_ok D L s -> range_ok s -> (forall i, locked (bufs s i) = false) ->
  cache_ok D (fun _ => None) (clear_cache s) /\ range_ok (clear_cache s) /\
  (forall i, locked (bufs (clear_cache s) i) = false) /\ disk (clear_cache s) = disk s.
Proof.
  intros Hok Hr Hul.
  destruct (clear_cache_frame s) as (Hl & Hh & Hd).
  pose proof (clear_cache_keys s) as Hb.
  assert (Hc : forall i, (i < NBUF)%nat -> bufs (clear_cache s) i = clear_buf (bufs s i))
    by (intros i; apply clear_cache_buf).
  split; [constructor|].
  - intros h i. rewrite Hh. destruct (Hb i) as (-> & -> & _). apply (ok_bucket _ _ _ Hok).
  - intros h. rewrite Hh. apply (ok_nodup _ _ _ Hok).
  - intros i j Hi Hj. apply (proj1 (clear_cache_hashed _ _)) in Hi. apply (proj1 (clear_cache_hashed _ _)) in Hj.
    destruct (Hb i) as (_ & -> & _). destruct (Hb j) as (_ & -> & _).
    intros Hij. apply (ok_unique _ _ _ Hok); assumption.
  - intros i Hi. apply (proj1 (clear_cache_hashed _ _)) in Hi.
    rewrite (Hc i (range_hashed _ _ Hr Hi)). unfold clear_buf, pincount. cbn_st.
    rewrite Hul. reflexivity.
  - intros i Hi. destruct (Hb i) as (_ & _ & ->). split; [|apply Hul].
    assert (Hn : ~ hashed s i) by (intros H; apply Hi, clear_cache_hashed, H).
    unfold clear_cache. rewrite clear_loop_bufs.
    destruct (Nat.leb 0 i && Nat.ltb i (0 + NBUF))%bool; [reflexivity|].
    apply (ok_free _ _ _ Hok i Hn).
  - intros i Hi Hv _. apply (proj1 (clear_cache_hashed _ _)) in Hi.
    rewrite (Hc i (range_hashed _ _ Hr Hi)) in Hv. unfold bvalid, clear_buf in Hv.
    cbn_st in Hv. rewrite land_clear_l in Hv. discriminate.
  - intros b c Hbc. discriminate.
  - split; [|split; [|exact Hd]].
    + destruct Hr as [H1 H2]. split; [rewrite Hl; exact H1|rewrite Hh; exact H2].
    + intros i. destruct (Hb i) as (_ & _ & ->). apply Hul.
Qed.

End Bio.

(** ** The write-ahead log (log.c) *)
Module Log.
Import Bio.

Definition LOG_SIZE : Z := 30.
Definition MAX_OP_BLOCKS : Z := 10.

(** A 32-bit word of a block read as a C [int]. *)
Definition to_int (w : Z) : Z := if w <? 0x80000000 then w else w - two32.
(** A C [int] stored into a 32-bit word. *)
Definition of_int (v : Z) : Z := v mod two32.

Record log_header : Type := mkHeader {
  n : Z;
  lblock : Z -> Z            (* int block[LOG_SIZE] *)
}.

Record log_state : Type := mkLog {
  start : Z;
  size : Z;
  outstanding : Z;
  committing : Z;
  ldev : Z;
  header : log_header
}.

(** The kernel state the log works on: the cache and disk, [g_log], and the
    test hook [crash_stage]. *)
Record state : Type := mkState {
  bs : bstate;
  lg : log_state;
  crash_stage : Z
}.

Definition set_bs (b : bstate) (s : state) : state := mkState b (lg s) (crash_stage s).
Definition set_lg (l : log_state) (s : state) : state := mkState (bs s) l (crash_stage s).
Definition set_header (h : log_header) (l : log_state) : log_state :=
  mkLog (start l) (size l) (outstanding l) (committing l) (ldev l) h.
Definition set_n (v : Z) (s : state) : state :=
  set_lg (set_header (mkHeader v (lblock (header (lg s)))) (lg s)) s.
Definition set_outstanding (v : Z) (s : state) : state :=
  set_lg (mkLog (start (lg s)) (size (lg s)) v (committing (lg s)) (ldev (lg s))
                (header (lg s))) s.
Definition set_committing (v : Z) (s : state) : state :=
  set_lg (mkLog (start (lg s)) (size (lg s)) (outstanding (lg s)) v (ldev (lg s))
                (header (lg s))) s.
Definition set_crash_stage (v : Z) (s : state) : state := mkState (bs s) (lg s) v.

(** Lifting of the cache operations. *)
Definition lift (f : bstate -> option bstate) (s : state) : option state :=
  b <- f (bs s) ;; Some (set_bs b s).
Definition lift_r {A : Type} (f : bstate -> option (A * bstate)) (s : state)
  : option (A * state) :=
  '(a, b) <- f (bs s) ;; Some (a, set_bs b s).
Definition buf_of (s : state) (i : nat) : buf := bufs (bs s) i.
Definition set_data (i : nat) (d : block) (s : state) : state :=
  set_bs (set_buf i (with_data d (buf_of s i)) (bs s)) s.

(** The search loop of [log_block_write]: the first [idx < n] whose slot
    holds [b], or [n]. *)
Fixpoint find_slot (fuel : nat) (idx : Z) (h : log_header) (b : Z) : Z :=
  match fuel with
  | O => idx
  | S fuel' =>
      if idx <? n h then
        if lblock h idx =? b then idx else find_slot fuel' (idx + 1) h b
      else idx
  end.

Definition log_block_write (i : nat) (s : state) : option state :=
  let l := lg s in
  let h := header l in
  if n h >=? size l then None
  else if n h >=? LOG_SIZE then None
  else if outstanding l <? 1 then None
  else
    let b := blockno (buf_of s i) in
    let idx := find_slot (Z.to_nat (n h)) 0 h b in
    let h1 := mkHeader (n h) (upd (lblock h) idx b) in
    if idx =? n h
    then Some (set_lg (set_header (mkHeader (n h + 1) (lblock h1)) l)
                      (set_bs (bpin i (bs s)) s))
    else Some (set_lg (set_header h1 l) s).

Definition read_log_header (s : state) : option state :=
  '(bp, s1) <- lift_r (bread (ldev (lg s)) (start (lg s))) s ;;
  let d := data (buf_of s1 bp) in
  let n' := to_int (d 0) in
  if (n' <? 0) || (n' >? LOG_SIZE) then None
  else
    let blk := fun i => if (0 <=? i) && (i <? n') then to_int (d (1 + i))
                        else lblock (header (lg s1)) i in
    let s2 := set_lg (set_header (mkHeader n' blk) (lg s1)) s1 in
    lift (brelse bp) s2.

Definition write_log_header (s : state) : option state :=
  '(bp, s1) <- lift_r (bread (ldev (lg s)) (start (lg s))) s ;;
  let h := header (lg s1) in
  let d := data (buf_of s1 bp) in
  let d' := fun w => if w =? 0 then of_int (n h)
                     else if (1 <=? w) && (w <=? n h) then of_int (lblock h (w - 1))
                     else d w in
  s2 <- lift (bwrite bp) (set_data bp d' s1) ;;
  lift (brelse bp) s2.

Fixpoint write_log_blocks_loop (fuel : nat) (i : Z) (s : state) : option state :=
  match fuel with
  | O => Some s
  | S fuel' =>
      '(to, s1) <- lift_r (bread (ldev (lg s)) (start (lg s) + i + 1)) s ;;
      '(from, s2) <- lift_r (bread (ldev (lg s1)) (lblock (header (lg s1)) i)) s1 ;;
      let s3 := set_data to (data (buf_of s2 from)) s2 in
      s4 <- lift (bwrite to) s3 ;;
      s5 <- lift (brelse from) s4 ;;
      s6 <- lift (brelse to) s5 ;;
      write_log_blocks_loop fuel' (i + 1) s6
  end.

Definition write_log_blocks (s : state) : option state :=
  write_log_blocks_loop (Z.to_nat (n (header (lg s)))) 0 s.

Fixpoint install_loop (fuel : nat) (recovering : bool) (i : Z) (s : state) : option state :=
  match fuel with
  | O => Some s
  | S fuel' =>
      '(log_bp, s1) <- lift_r (bread (ldev (lg s)) (start (lg s) + i + 1)) s ;;
      '(dst_bp, s2) <- lift_r (bread (ldev (lg s1)) (lblock (header (lg s1)) i)) s1 ;;
      let s3 := set_data dst_bp (data (buf_of s2 log_bp)) s2 in
      s4 <- lift (bwrite dst_bp) s3 ;;
      let s5 := if recovering then s4 else set_bs (bunpin dst_bp (bs s4)) s4 in
      s6 <- lift (brelse log_bp) s5 ;;
      s7 <- lift (brelse dst_bp) s6 ;;
      install_loop fuel' recovering (i + 1) s7
  end.

Definition install_transaction (recovering : bool) (s : state) : option state :=
  install_loop (Z.to_nat (n (header (lg s)))) recovering 0 s.

Definition recover_log (s : state) : option state :=
  s1 <- read_log_header s ;;
  s2 <- install_transaction true s1 ;;
  write_log_header (set_n 0 s2).

Definition commit_transaction (s : state) : option state :=
  if n (header (lg s)) =? 0 then Some s
  else
    s1 <- write_log_blocks s ;;
    if crash_stage s1 =? 2 then Some s1
    else
      s2 <- write_log_header s1 ;;
      if crash_stage s2 =? 1 then Some s2
      else
        s3 <- install_transaction false s2 ;;
        write_log_header (set_n 0 s3).

(** [begin_transaction]: with a single process, either branch that sleeps
    would sleep for ever. *)
Definition begin_transaction (s : state) : option state :=
  let l := lg s in
  if negb (committing l =? 0) then None
  else if n (header l) + (outstanding l + 1) * MAX_OP_BLOCKS >? size l then None
  else Some (set_outstanding (outstanding l + 1) s).

Definition end_transaction (s : state) : option state :=
  if outstanding (lg s) <? 1 then None
  else
    let s1 := set_outstanding (outstanding (lg s) - 1) s in
    if negb (committing (lg s1) =? 0) then None
    else if outstanding (lg s1) =? 0 then
      s2 <- commit_transaction (set_committing 1 s1) ;;
      Some (set_committing 0 s2)
    else Some s1.

(** [log_init]. *)
Definition log_init (d logstart nlog : Z) (b : bstate) (stage : Z) : option state :=
  recover_log (mkState b (mkLog logstart nlog 0 0 d (mkHeader 0 (fun _ => 0))) stage).

(** What a file-system operation does to one block inside a transaction:
    [bread], change the buffer, [log_block_write], [brelse]. *)
Definition logged_update (b : Z) (f : block -> block) (s : state) : option state :=
  '(bp, s1) <- lift_r (bread (ldev (lg s)) b) s ;;
  let s2 := set_data bp (f (data (buf_of s1 bp))) s1 in
  s3 <- log_block_write bp s2 ;;
  lift (brelse bp) s3.

Fixpoint logged_updates (ws : list (Z * (block -> block))) (s : state) : option state :=
  match ws with
  | [] => Some s
  | (b, f) :: ws' => s1 <- logged_update b f s ;; logged_updates ws' s1
  end.

(** A transaction: the updates bracketed by begin/end. *)
Definition transaction (ws : list (Z * (block -> block))) (s : state) : option state :=
  s1 <- begin_transaction s ;;
  s2 <- logged_updates ws s1 ;;
  end_transaction s2.

(** The test's [simulate_restart]: [clear_cache] then [recover_log]. *)
Definition simulate_restart (s : state) : option state :=
  recover_log (set_bs (clear_cache (bs s)) s).


(** *** The log over a well-formed cache *)

Definition quiet (D : Z) (L : Z -> option block) (s : bstate) : Prop :=
  cache_ok D L s /\ (forall i, locked (bufs s i) = false) /\ range_ok s.

Definition in_log (l : log_state) (b : Z) : Prop := start l <= b < start l + size l.

Definition noL : Z -> option block := fun _ => None.

Lemma lift_r_Some {A} (f : bstate -> option (A * bstate)) (s : state) (a : A) (s' : state) :
  lift_r f s = Some (a, s') -> exists b, f (bs s) = Some (a, b) /\ s' = set_bs b s.
Proof.
  unfold lift_r. destruct (f (bs s)) as [[a0 b]|]; cbn [obind]; [|discriminate].
  intros E; inversion E; subst. eauto.
Qed.

Lemma lift_Some (f : bstate -> option bstate) (s s' : state) :
  lift f s = Some s' -> exists b, f (bs s) = Some b /\ s' = set_bs b s.
Proof.
  unfold lift. destruct (f (bs s)) as [b|]; cbn [obind]; [|discriminate].
  intros E; inversion E; subst. eauto.
Qed.

Tactic Notation "cbn_lg" :=
  unfold buf_of, set_data;
  cbn [bs lg crash_stage set_bs set_lg set_header set_n set_outstanding set_committing
       set_crash_stage set_data buf_of start size outstanding committing ldev header n lblock].
Tactic Notation "cbn_lg" "in" hyp(H) :=
  unfold buf_of, set_data in H;
  cbn [bs lg crash_stage set_bs set_lg set_header set_n set_outstanding set_committing
       set_crash_stage set_data buf_of start size outstanding committing ldev header n lblock]
    in H.

(** Read a block, replace its content, write it through, release it. *)
Definition rewrite_block (b : Z) (g : block -> block) (s : state) : option state :=
  '(bp, s1) <- lift_r (bread (ldev (lg s)) b) s ;;
  s2 <- lift (bwrite bp) (set_data bp (g (data (buf_of s1 bp))) s1) ;;
  lift (brelse bp) s2.

Lemma rewrite_block_spec (b : Z) (g : block -> block) (L : Z -> option block) (s s' : state) :
  quiet (ldev (lg s)) L (bs s) -> L b = None ->
  rewrite_block b g s = Some s' ->
  quiet (ldev (lg s)) L (bs s') /\ lg s' = lg s /\ crash_stage s' = crash_stage s /\
  (forall k, disk (bs s') k = if k =? b then g (disk (bs s) b) else disk (bs s) k).
Proof.
  intros (Hok & Hq & Hrg) HL. unfold rewrite_block.
  destruct (lift_r _ s) as [[bp s1]|] eqn:E1; cbn [obind]; [|discriminate].
  apply lift_r_Some in E1. destruct E1 as [b1 [Hbr ->]].
  destruct (bread_spec _ _ _ _ _ _ Hok Hbr)
    as (Hok1 & Hh1 & Hd1 & Hbn1 & Hl1 & Hv1 & Hdat1 & Hdisk1 & _ & Hoth1 & Hhoth1).
  destruct (lift (bwrite bp) _) as [s2|] eqn:E2; cbn [obind]; [|discriminate].
  apply lift_Some in E2. destruct E2 as [b2 [Hbw ->]]. cbn_lg in Hbw.
  intros E3. apply lift_Some in E3. destruct E3 as [b3 [Hbre ->]]. cbn_lg in Hbre.
  cbn_lg.
  set (bm := with_data (g (data (bufs b1 bp))) (bufs b1 bp)) in *.
  assert (Hokm : cache_ok (ldev (lg s)) L (set_buf bp bm b1)).
  { apply cache_ok_locked_modify;
      [exact Hok1 | exact Hh1 | exact Hl1 | reflexivity | reflexivity | exact Hl1
      | reflexivity | intros _; exact Hv1 | intros _; exact Hv1]. }
  assert (Hhm : forall j, hashed (set_buf bp bm b1) j <-> hashed b1 j)
    by (intros j; apply hashed_set_buf; reflexivity).
  assert (Hbm : bufs (set_buf bp bm b1) bp = bm) by apply bufs_set_buf_same.
  destruct (bwrite_spec _ _ _ _ _ Hokm (proj2 (Hhm bp) Hh1) Hbw)
    as (_ & Hok2 & Hdisk2 & Hoth2 & Hh2 & Hd2 & Hbn2 & Hl2 & Hr2 & Hdat2 & Hv2).
  rewrite Hbm in *. subst bm. cbn_st in Hdisk2. cbn_st in Hbn2. cbn_st in Hdat2.
  assert (Hhb2 : hashed b2 bp) by (apply Hh2, Hhm; exact Hh1).
  assert (Hcont : bvalid (bufs b2 bp) = true ->
                  data (bufs b2 bp) = lview L (disk b2) (blockno (bufs b2 bp))).
  { intros _. rewrite Hdat2, Hbn2, Hbn1. unfold lview. rewrite HL, Hdisk2, Hbn1, Z.eqb_refl.
    reflexivity. }
  destruct (brelse_spec _ _ _ _ _ Hok2 Hhb2 Hcont Hbre)
    as (_ & Hok3 & Hdisk3 & Hoth3 & Hh3 & Hb3).
  split; [split; [exact Hok3|split]|].
  - intros j. destruct (Nat.eq_dec j bp) as [->|Hne].
    + rewrite Hb3. reflexivity.
    + rewrite (Hoth3 j Hne), (Hoth2 j Hne), bufs_set_buf_other, (Hoth1 j Hne) by assumption.
      apply Hq.
  - eapply range_brelse; [|exact Hhb2|exact Hbre].
    eapply range_bwrite; [|exact Hbw]. apply range_set_buf.
    eapply range_bread; [exact Hrg|exact Hbr].
  - split; [reflexivity|]. split; [reflexivity|].
    intros k. rewrite Hdisk3, Hdisk2, Hbn1.
    destruct (Z.eqb_spec k b); [|rewrite Hdisk1; reflexivity].
    rewrite Hdat1. unfold lview. rewrite HL. reflexivity.
Qed.

(** One iteration of [write_log_blocks]. *)
Definition wlb_step (slot blk : Z) (s : state) : option state :=
  '(to, s1) <- lift_r (bread (ldev (lg s)) slot) s ;;
  '(from, s2) <- lift_r (bread (ldev (lg s1)) blk) s1 ;;
  let s3 := set_data to (data (buf_of s2 from)) s2 in
  s4 <- lift (bwrite to) s3 ;;
  s5 <- lift (brelse from) s4 ;;
  lift (brelse to) s5.

Lemma wlb_step_spec (slot blk : Z) (L : Z -> option block) (s s' : state) :
  quiet (ldev (lg s)) L (bs s) -> L slot = None -> slot <> blk ->
  wlb_step slot blk s = Some s' ->
  quiet (ldev (lg s)) L (bs s') /\ lg s' = lg s /\ crash_stage s' = crash_stage s /\
  (forall k, disk (bs s') k
             = if k =? slot then lview L (disk (bs s)) blk else disk (bs s) k).
Proof.
  intros (Hok & Hq & Hrg) HL Hne. unfold wlb_step.
  destruct (lift_r _ s) as [[to s1]|] eqn:E1; cbn [obind]; [|discriminate].
  apply lift_r_Some in E1. destruct E1 as [b1 [Hbr1 ->]].
  destruct (bread_spec _ _ _ _ _ _ Hok Hbr1)
    as (Hok1 & Hh1 & Hd1 & Hbn1 & Hl1 & Hv1 & Hdat1 & Hdisk1 & _ & Hoth1 & Hhoth1).
  cbn_lg.
  destruct (lift_r _ (set_bs b1 s)) as [[from s2]|] eqn:E2; cbn [obind]; [|discriminate].
  apply lift_r_Some in E2. destruct E2 as [b2 [Hbr2 ->]]. cbn_lg in Hbr2.
  destruct (bread_spec _ _ _ _ _ _ Hok1 Hbr2)
    as (Hok2 & Hh2 & Hd2 & Hbn2 & Hl2 & Hv2 & Hdat2 & Hdisk2 & Hul2 & Hoth2 & Hhoth2).
  assert (Hft : from <> to) by (intros ->; congruence).
  assert (Htf : to <> from) by auto.
  cbn_lg.
  destruct (lift (bwrite to) _) as [s4|] eqn:E4; cbn [obind]; [|discriminate].
  apply lift_Some in E4. destruct E4 as [b4 [Hbw ->]]. cbn_lg in Hbw.
  destruct (lift (brelse from) _) as [s5|] eqn:E5; cbn [obind]; [|discriminate].
  apply lift_Some in E5. destruct E5 as [b5 [Hbre5 ->]]. cbn_lg in Hbre5.
  intros E6. apply lift_Some in E6. destruct E6 as [b6 [Hbre6 ->]]. cbn_lg in Hbre6.
  cbn_lg.
  (* the buffer [to] in b2 *)
  assert (Hto2 : bufs b2 to = bufs b1 to) by (apply Hoth2; exact Htf).
  assert (Hhto2 : hashed b2 to) by (apply Hhoth2; [exact Htf|exact Hh1]).
  set (c := data (bufs b2 from)) in *.
  set (bm := with_data c (bufs b2 to)) in *.
  assert (Hlto2 : locked (bufs b2 to) = true) by (rewrite Hto2; exact Hl1).
  assert (Hvto2 : bvalid (bufs b2 to) = true) by (rewrite Hto2; exact Hv1).
  assert (Hokm : cache_ok (ldev (lg s)) L (set_buf to bm b2)).
  { apply cache_ok_locked_modify;
      [exact Hok2 | exact Hhto2 | exact Hlto2 | reflexivity | reflexivity
      | exact Hlto2 | reflexivity
      | intros _; exact Hvto2 | intros _; exact Hvto2]. }
  assert (Hhm : forall j, hashed (set_buf to bm b2) j <-> hashed b2 j)
    by (intros j; apply hashed_set_buf; reflexivity).
  assert (Hbm : bufs (set_buf to bm b2) to = bm) by apply bufs_set_buf_same.
  destruct (bwrite_spec _ _ _ _ _ Hokm (proj2 (Hhm to) Hhto2) Hbw)
    as (_ & Hok4 & Hdisk4 & Hoth4 & Hh4 & Hd4 & Hbn4 & Hl4 & Hr4 & Hdat4 & Hv4).
  rewrite Hbm in *. subst bm. cbn_st in Hdisk4. cbn_st in Hbn4. cbn_st in Hdat4.
  rewrite Hto2, Hbn1 in Hdisk4, Hbn4.
  (* release [from] *)
  assert (Hfrom4 : bufs b4 from = bufs b2 from).
  { rewrite (Hoth4 from Hft). apply bufs_set_buf_other. exact Hft. }
  assert (Hhfrom4 : hashed b4 from) by (apply Hh4, Hhm; exact Hh2).
  assert (Hc : c = lview L (disk (bs s)) blk).
  { subst c. rewrite Hdat2, Hdisk1. reflexivity. }
  assert (Hview4 : lview L (disk b4) blk = lview L (disk (bs s)) blk).
  { unfold lview. destruct (L blk); [reflexivity|]. rewrite Hdisk4.
    destruct (Z.eqb_spec blk slot); [congruence|]. rewrite Hdisk2, Hdisk1. reflexivity. }
  assert (Hcont5 : bvalid (bufs b4 from) = true ->
                   data (bufs b4 from) = lview L (disk b4) (blockno (bufs b4 from))).
  { intros _. rewrite Hfrom4, Hbn2, Hview4. exact Hc. }
  destruct (brelse_spec _ _ _ _ _ Hok4 Hhfrom4 Hcont5 Hbre5)
    as (_ & Hok5 & Hdisk5 & Hoth5 & Hh5 & Hb5).
  (* release [to] *)
  assert (Hto5 : bufs b5 to = bufs b4 to) by (apply Hoth5; exact Htf).
  assert (Hhto5 : hashed b5 to) by (apply Hh5, Hh4, Hhm; exact Hhto2).
  assert (Hcont6 : bvalid (bufs b5 to) = true ->
                   data (bufs b5 to) = lview L (disk b5) (blockno (bufs b5 to))).
  { intros _. rewrite Hto5, Hdat4, Hbn4, Hdisk5. unfold lview. rewrite HL, Hdisk4, Z.eqb_refl.
    reflexivity. }
  destruct (brelse_spec _ _ _ _ _ Hok5 Hhto5 Hcont6 Hbre6)
    as (_ & Hok6 & Hdisk6 & Hoth6 & Hh6 & Hb6).
  split; [split; [exact Hok6|split]|].
  - intros j. destruct (Nat.eq_dec j to) as [->|Hjt]; [rewrite Hb6; reflexivity|].
    rewrite (Hoth6 j Hjt).
    destruct (Nat.eq_dec j from) as [->|Hjf]; [rewrite Hb5; reflexivity|].
    rewrite (Hoth5 j Hjf), (Hoth4 j Hjt), bufs_set_buf_other, (Hoth2 j Hjf), (Hoth1 j Hjt)
      by assumption.
    apply Hq.
  - eapply range_brelse; [|exact Hhto5|exact Hbre6].
    eapply range_brelse; [|exact Hhfrom4|exact Hbre5].
    eapply range_bwrite; [|exact Hbw]. apply range_set_buf.
    eapply range_bread; [|exact Hbr2]. eapply range_bread; [exact Hrg|exact Hbr1].
  - split; [reflexivity|]. split; [reflexivity|].
    intros k. rewrite Hdisk6, Hdisk5, Hdisk4.
    destruct (Z.eqb_spec k slot); [exact Hc|]. rewrite Hdisk2, Hdisk1. reflexivity.
Qed.

(** One iteration of [install_transaction]. *)
Definition install_step (recovering : bool) (slot blk : Z) (s : state) : option state :=
  '(log_bp, s1) <- lift_r (bread (ldev (lg s)) slot) s ;;
  '(dst_bp, s2) <- lift_r (bread (ldev (lg s1)) blk) s1 ;;
  let s3 := set_data dst_bp (data (buf_of s2 log_bp)) s2 in
  s4 <- lift (bwrite dst_bp) s3 ;;
  let s5 := if recovering then s4 else set_bs (bunpin dst_bp (bs s4)) s4 in
  s6 <- lift (brelse log_bp) s5 ;;
  lift (brelse dst_bp) s6.

Lemma install_step_spec (r : bool) (slot blk : Z) (L : Z -> option block) (s s' : state) :
  quiet (ldev (lg s)) L (bs s) -> L slot = None -> slot <> blk ->
  (if r then L blk = None else L blk <> None) ->
  install_step r slot blk s = Some s' ->
  quiet (ldev (lg s)) (updL L blk None) (bs s') /\ lg s' = lg s /\
  crash_stage s' = crash_stage s /\
  (forall k, disk (bs s') k = if k =? blk then disk (bs s) slot else disk (bs s) k).
Proof.
  intros (Hok & Hq & Hrg) HL Hne Hpin. unfold install_step.
  destruct (lift_r _ s) as [[lb s1]|] eqn:E1; cbn [obind]; [|discriminate].
  apply lift_r_Some in E1. destruct E1 as [b1 [Hbr1 ->]].
  destruct (bread_spec _ _ _ _ _ _ Hok Hbr1)
    as (Hok1 & Hh1 & Hd1 & Hbn1 & Hl1 & Hv1 & Hdat1 & Hdisk1 & _ & Hoth1 & Hhoth1).
  cbn_lg.
  destruct (lift_r _ (set_bs b1 s)) as [[db s2]|] eqn:E2; cbn [obind]; [|discriminate].
  apply lift_r_Some in E2. destruct E2 as [b2 [Hbr2 ->]]. cbn_lg in Hbr2.
  destruct (bread_spec _ _ _ _ _ _ Hok1 Hbr2)
    as (Hok2 & Hh2 & Hd2 & Hbn2 & Hl2 & Hv2 & Hdat2 & Hdisk2 & Hul2 & Hoth2 & Hhoth2).
  assert (Hdl : db <> lb) by (intros ->; congruence).
  assert (Hld : lb <> db) by auto.
  cbn_lg.
  destruct (lift (bwrite db) _) as [s4|] eqn:E4; cbn [obind]; [|discriminate].
  apply lift_Some in E4. destruct E4 as [b4 [Hbw ->]]. cbn_lg in Hbw.
  assert (Hlb2 : bufs b2 lb = bufs b1 lb) by (apply Hoth2; exact Hld).
  assert (Hhlb2 : hashed b2 lb) by (apply Hhoth2; [exact Hld|exact Hh1]).
  assert (Hc : data (bufs b2 lb) = disk (bs s) slot).
  { rewrite Hlb2, Hdat1. unfold lview. rewrite HL. reflexivity. }
  set (bm := with_data (data (bufs b2 lb)) (bufs b2 db)) in *.
  assert (Hokm : cache_ok (ldev (lg s)) L (set_buf db bm b2)).
  { apply cache_ok_locked_modify;
      [exact Hok2 | exact Hh2 | exact Hl2 | reflexivity | reflexivity
      | exact Hl2 | reflexivity | intros _; exact Hv2 | intros _; exact Hv2]. }
  assert (Hhm : forall j, hashed (set_buf db bm b2) j <-> hashed b2 j)
    by (intros j; apply hashed_set_buf; reflexivity).
  assert (Hbm : bufs (set_buf db bm b2) db = bm) by apply bufs_set_buf_same.
  destruct (bwrite_spec _ _ _ _ _ Hokm (proj2 (Hhm db) Hh2) Hbw)
    as (_ & Hok4 & Hdisk4 & Hoth4 & Hh4 & Hd4 & Hbn4 & Hl4 & Hr4 & Hdat4 & Hv4).
  rewrite Hbm in *. subst bm. cbn_st in Hdisk4. cbn_st in Hbn4. cbn_st in Hdat4.
  cbn_st in Hr4. cbn_st in Hv4. rewrite Hbn2 in Hdisk4, Hbn4. rewrite Hc in Hdisk4, Hdat4.
  assert (Hhdb4 : hashed b4 db) by (apply Hh4, Hhm; exact Hh2).
  assert (Hvdb4 : bvalid (bufs b4 db) = true) by (rewrite Hv4; exact Hv2).
  (* the pin is dropped (commit) or was never there (recovery) *)
  set (b5 := if r then b4 else bunpin db b4).
  match goal with
  | |- context [lift (brelse lb) ?t] =>
      replace t with (set_bs b5 s) by (subst b5; destruct r; reflexivity)
  end.
  assert (H5 : cache_ok (ldev (lg s)) (updL L blk None) b5 /\
               (forall j, j <> db -> bufs b5 j = bufs b4 j) /\
               (forall j, hashed b5 j <-> hashed b4 j) /\ disk b5 = disk b4 /\
               blockno (bufs b5 db) = blk /\ data (bufs b5 db) = disk (bs s) slot /\
               locked (bufs b5 db) = true).
  { subst b5. destruct r.
    - split.
      { apply (cache_ok_ext _ L); [|exact Hok4].
        intros k. unfold updL. destruct (Z.eqb_spec k blk); congruence. }
      repeat split; auto; intros; tauto.
    - unfold bunpin.
      set (bu := with_refcnt _ (bufs b4 db)).
      split.
      { rewrite <- Hbn4. apply cache_ok_locked_update;
          [exact Hok4 | exact Hhdb4 | exact Hl4 | reflexivity | reflexivity | exact Hl4
          | | intros H; congruence | intros _; exact Hvdb4].
        subst bu. cbn_st. rewrite (ok_refcnt _ _ _ Hok4 db Hhdb4), Hl4, Hbn4.
        unfold pincount. destruct (L blk); [reflexivity|congruence]. }
      split; [intros j Hj; apply bufs_set_buf_other; exact Hj|].
      split; [intros j; apply hashed_set_buf; reflexivity|].
      split; [reflexivity|]. rewrite bufs_set_buf_same. subst bu. cbn_st. auto. }
  destruct H5 as (Hok5 & Hoth5 & Hh5 & Hdisk5 & Hbn5 & Hdat5 & Hl5).
  set (L' := updL L blk None) in *.
  assert (HL'slot : L' slot = None).
  { subst L'. unfold updL. destruct (Z.eqb_spec slot blk); [reflexivity|exact HL]. }
  assert (HL'blk : L' blk = None) by (subst L'; unfold updL; rewrite Z.eqb_refl; reflexivity).
  cbn_lg.
  destruct (lift (brelse lb) _) as [s6|] eqn:E6; cbn [obind]; [|discriminate].
  apply lift_Some in E6. destruct E6 as [b6 [Hbre6 ->]]. cbn_lg in Hbre6.
  intros E7. apply lift_Some in E7. destruct E7 as [b7 [Hbre7 ->]]. cbn_lg in Hbre7.
  cbn_lg.
  assert (Hlb5 : bufs b5 lb = bufs b1 lb).
  { rewrite (Hoth5 lb Hld), (Hoth4 lb Hld), bufs_set_buf_other by exact Hld. exact Hlb2. }
  assert (Hhlb5 : hashed b5 lb) by (apply Hh5, Hh4, Hhm; exact Hhlb2).
  assert (Hcont6 : bvalid (bufs b5 lb) = true ->
                   data (bufs b5 lb) = lview L' (disk b5) (blockno (bufs b5 lb))).
  { intros _. rewrite Hlb5, Hbn1, Hdat1. unfold lview. rewrite HL, HL'slot, Hdisk5, Hdisk4.
    destruct (Z.eqb_spec slot blk); [contradiction|]. rewrite Hdisk2, Hdisk1. reflexivity. }
  destruct (brelse_spec _ _ _ _ _ Hok5 Hhlb5 Hcont6 Hbre6)
    as (_ & Hok6 & Hdisk6 & Hoth6 & Hh6 & Hb6).
  assert (Hdb6 : bufs b6 db = bufs b5 db) by (apply Hoth6; exact Hdl).
  assert (Hhdb6 : hashed b6 db) by (apply Hh6, Hh5; exact Hhdb4).
  assert (Hcont7 : bvalid (bufs b6 db) = true ->
                   data (bufs b6 db) = lview L' (disk b6) (blockno (bufs b6 db))).
  { intros _. rewrite Hdb6, Hbn5, Hdat5, Hdisk6, Hdisk5. unfold lview.
    rewrite HL'blk, Hdisk4, Z.eqb_refl. reflexivity. }
  destruct (brelse_spec _ _ _ _ _ Hok6 Hhdb6 Hcont7 Hbre7)
    as (_ & Hok7 & Hdisk7 & Hoth7 & Hh7 & Hb7).
  split; [split; [exact Hok7|split]|].
  - intros j. destruct (Nat.eq_dec j db) as [->|Hjd]; [rewrite Hb7; reflexivity|].
    rewrite (Hoth7 j Hjd).
    destruct (Nat.eq_dec j lb) as [->|Hjl]; [rewrite Hb6; reflexivity|].
    rewrite (Hoth6 j Hjl), (Hoth5 j Hjd), (Hoth4 j Hjd), bufs_set_buf_other,
      (Hoth2 j Hjd), (Hoth1 j Hjl) by assumption.
    apply Hq.
  - eapply range_brelse; [|exact Hhdb6|exact Hbre7].
    eapply range_brelse; [|exact Hhlb5|exact Hbre6].
    assert (Hrg4 : range_ok b4).
    { eapply range_bwrite; [|exact Hbw]. apply range_set_buf.
      eapply range_bread; [|exact Hbr2]. eapply range_bread; [exact Hrg|exact Hbr1]. }
    subst b5. destruct r; [exact Hrg4|exact Hrg4].
  - split; [reflexivity|]. split; [reflexivity|].
    intros k. rewrite Hdisk7, Hdisk6, Hdisk5, Hdisk4.
    destruct (Z.eqb_spec k blk); [reflexivity|]. rewrite Hdisk2, Hdisk1. reflexivity.
Qed.

Lemma write_log_blocks_loop_S (fuel : nat) (i : Z) (s : state) :
  write_log_blocks_loop (S fuel) i s
  = (s' <- wlb_step (start (lg s) + i + 1) (lblock (header (lg s)) i) s ;;
     write_log_blocks_loop fuel (i + 1) s').
Proof.
  cbn [write_log_blocks_loop]. unfold wlb_step, lift_r, lift.
  destruct (bread (ldev (lg s)) (start (lg s) + i + 1) (bs s)) as [[to b1]|];
    cbn [obind]; [|reflexivity].
  cbn_lg.
  destruct (bread (ldev (lg s)) (lblock (header (lg s)) i) b1) as [[from b2]|];
    cbn [obind]; [|reflexivity].
  cbn_lg.
  destruct (bwrite to _) as [b4|]; cbn [obind]; [|reflexivity]. cbn_lg.
  destruct (brelse from b4) as [b5|]; cbn [obind]; [|reflexivity]. cbn_lg.
  destruct (brelse to b5) as [b6|]; cbn [obind]; reflexivity.
Qed.

Lemma install_loop_S (fuel : nat) (r : bool) (i : Z) (s : state) :
  install_loop (S fuel) r i s
  = (s' <- install_step r (start (lg s) + i + 1) (lblock (header (lg s)) i) s ;;
     install_loop fuel r (i + 1) s').
Proof.
  cbn [install_loop]. unfold install_step, lift_r, lift.
  destruct (bread (ldev (lg s)) (start (lg s) + i + 1) (bs s)) as [[lb b1]|];
    cbn [obind]; [|reflexivity].
  cbn_lg.
  destruct (bread (ldev (lg s)) (lblock (header (lg s)) i) b1) as [[db b2]|];
    cbn [obind]; [|reflexivity].
  cbn_lg.
  destruct (bwrite db _) as [b4|]; cbn [obind]; [|reflexivity]. cbn_lg.
  destruct r; cbn_lg.
  - destruct (brelse lb b4) as [b6|]; cbn [obind]; [|reflexivity]. cbn_lg.
    destruct (brelse db b6) as [b7|]; cbn [obind]; reflexivity.
  - destruct (brelse lb (bunpin db b4)) as [b6|]; cbn [obind]; [|reflexivity]. cbn_lg.
    destruct (brelse db b6) as [b7|]; cbn [obind]; reflexivity.
Qed.

(** The blocks a header lists. *)
Definition listed (h : log_header) (lo : Z) (b : Z) : Prop :=
  exists k, lo <= k < n h /\ lblock h k = b.

Record header_ok (l : log_state) : Prop := mkHeaderOk {
  hk_n : 0 <= n (header l) < size l;
  hk_distinct : forall j k, 0 <= j < n (header l) -> 0 <= k < n (header l) ->
      lblock (header l) j = lblock (header l) k -> j = k;
  hk_outside : forall k, 0 <= k < n (header l) -> ~ in_log l (lblock (header l) k)
}.

(** [write_log_blocks]: slot [start+1+j] receives what the file system sees
    for block [block[j]]; nothing else on the disk changes. *)
Lemma write_log_blocks_loop_spec (L : Z -> option block) (fuel : nat) :
  forall (i : Z) (s s' : state),
  quiet (ldev (lg s)) L (bs s) -> header_ok (lg s) ->
  (forall b, in_log (lg s) b -> L b = None) ->
  (forall j, 0 <= j < n (header (lg s)) -> L (lblock (header (lg s)) j) <> None) ->
  0 <= i -> i + Z.of_nat fuel = n (header (lg s)) ->
  write_log_blocks_loop fuel i s = Some s' ->
  quiet (ldev (lg s)) L (bs s') /\ lg s' = lg s /\ crash_stage s' = crash_stage s /\
  (forall j, i <= j < n (header (lg s)) ->
     disk (bs s') (start (lg s) + j + 1) = lview L (disk (bs s)) (lblock (header (lg s)) j)) /\
  (forall b, ~ (start (lg s) + i + 1 <= b <= start (lg s) + n (header (lg s))) ->
     disk (bs s') b = disk (bs s) b).
Proof.
  induction fuel as [|fuel IH]; intros i s s' Hq Hh HLlog HLpin Hi Hn.
  - cbn [write_log_blocks_loop]. intros E; inversion E; subst s'; clear E.
    split; [exact Hq|]. split; [reflexivity|]. split; [reflexivity|].
    split; [|reflexivity]. intros j Hj. cbn [Z.of_nat] in Hn. lia.
  - rewrite write_log_blocks_loop_S.
    destruct (wlb_step _ _ s) as [s1|] eqn:Hstep; cbn [obind]; [|discriminate].
    intros Hloop.
    assert (Hin : 0 <= i < n (header (lg s))) by lia.
    assert (Hslot : in_log (lg s) (start (lg s) + i + 1)).
    { unfold in_log. pose proof (hk_n _ Hh). lia. }
    assert (Hne : start (lg s) + i + 1 <> lblock (header (lg s)) i).
    { intros He. apply (hk_outside _ Hh i Hin). rewrite <- He. exact Hslot. }
    destruct (wlb_step_spec _ _ L _ _ Hq (HLlog _ Hslot) Hne Hstep)
      as (Hq1 & Hlg1 & Hcs1 & Hdisk1).
    assert (Hq1' : quiet (ldev (lg s1)) L (bs s1)) by (rewrite Hlg1; exact Hq1).
    specialize (IH (i + 1) s1 s' Hq1').
    rewrite Hlg1 in IH.
    destruct (IH Hh HLlog HLpin ltac:(lia) ltac:(lia) Hloop) as (Hq2 & Hlg2 & Hcs2 & Hslots & Hrest).
    split; [exact Hq2|]. split; [exact Hlg2|]. split; [congruence|].
    assert (Hview : forall d d' j, 0 <= j < n (header (lg s)) ->
              lview L d (lblock (header (lg s)) j) = lview L d' (lblock (header (lg s)) j)).
    { intros d d' j Hj. unfold lview. specialize (HLpin j Hj).
      destruct (L (lblock (header (lg s)) j)); [reflexivity|congruence]. }
    split.
    + intros j Hj. destruct (Z.eq_dec j i) as [->|Hji].
      * rewrite Hrest by lia. rewrite Hdisk1, Z.eqb_refl. reflexivity.
      * rewrite Hslots by lia. apply Hview. lia.
    + intros b Hb. rewrite Hrest by lia. rewrite Hdisk1.
      destruct (Z.eqb_spec b (start (lg s) + i + 1)); [lia|reflexivity].
Qed.

(** [install_transaction] during recovery: no block is pinned. *)
Lemma install_loop_recover_spec (fuel : nat) :
  forall (i : Z) (s s' : state),
  quiet (ldev (lg s)) noL (bs s) -> header_ok (lg s) ->
  0 <= i -> i + Z.of_nat fuel = n (header (lg s)) ->
  install_loop fuel true i s = Some s' ->
  quiet (ldev (lg s)) noL (bs s') /\ lg s' = lg s /\ crash_stage s' = crash_stage s /\
  (forall j, i <= j < n (header (lg s)) ->
     disk (bs s') (lblock (header (lg s)) j) = disk (bs s) (start (lg s) + j + 1)) /\
  (forall b, ~ listed (header (lg s)) i b -> disk (bs s') b = disk (bs s) b).
Proof.
  induction fuel as [|fuel IH]; intros i s s' Hq Hh Hi Hn.
  - cbn [install_loop]. intros E; inversion E; subst s'; clear E.
    split; [exact Hq|]. split; [reflexivity|]. split; [reflexivity|].
    split; [|reflexivity]. intros j Hj. cbn [Z.of_nat] in Hn. lia.
  - rewrite install_loop_S.
    destruct (install_step _ _ _ s) as [s1|] eqn:Hstep; cbn [obind]; [|discriminate].
    intros Hloop.
    assert (Hin : 0 <= i < n (header (lg s))) by lia.
    assert (Hslot : forall j, 0 <= j < n (header (lg s)) -> in_log (lg s) (start (lg s) + j + 1)).
    { intros j Hj. unfold in_log. pose proof (hk_n _ Hh). lia. }
    assert (Hne : forall j k, 0 <= j < n (header (lg s)) -> 0 <= k < n (header (lg s)) ->
                  start (lg s) + j + 1 <> lblock (header (lg s)) k).
    { intros j k Hj Hk He. apply (hk_outside _ Hh k Hk). rewrite <- He. apply Hslot, Hj. }
    destruct (install_step_spec true _ _ noL _ _ Hq eq_refl (Hne i i Hin Hin) eq_refl Hstep)
      as (Hq1 & Hlg1 & Hcs1 & Hdisk1).
    assert (Hq1' : quiet (ldev (lg s1)) noL (bs s1)).
    { rewrite Hlg1. destruct Hq1 as [Hok1 Hul1]. split; [|exact Hul1].
      apply (cache_ok_ext _ (updL noL (lblock (header (lg s)) i) None)); [|exact Hok1].
      intros b. unfold updL, noL. destruct (_ =? _); reflexivity. }
    specialize (IH (i + 1) s1 s' Hq1').
    rewrite Hlg1 in IH.
    destruct (IH Hh ltac:(lia) ltac:(lia) Hloop) as (Hq2 & Hlg2 & Hcs2 & Hinst & Hrest).
    split; [exact Hq2|]. split; [exact Hlg2|]. split; [congruence|].
    split.
    + intros j Hj. destruct (Z.eq_dec j i) as [->|Hji].
      * rewrite Hrest.
        -- rewrite Hdisk1, Z.eqb_refl. reflexivity.
        -- intros (k & Hk & Hek). assert (k = i) by (apply (hk_distinct _ Hh); [lia|lia|exact Hek]).
           lia.
      * rewrite Hinst by lia. rewrite Hdisk1.
        destruct (Z.eqb_spec (start (lg s) + j + 1) (lblock (header (lg s)) i)) as [He|];
          [|reflexivity].
        elim (Hne j i ltac:(lia) Hin He).
    + intros b Hb. rewrite Hrest.
      * rewrite Hdisk1. destruct (Z.eqb_spec b (lblock (header (lg s)) i)) as [->|]; [|reflexivity].
        elim Hb. exists i. split; [lia|reflexivity].
      * intros (k & Hk & Hek). apply Hb. exists k. split; [lia|exact Hek].
Qed.

(** [install_transaction] at commit: every listed block is pinned, and the
    loop drops the pins one by one. *)
Fixpoint unpin_range (h : log_header) (fuel : nat) (i : Z) (L : Z -> option block)
  : Z -> option block :=
  match fuel with
  | O => L
  | S fuel' => unpin_range h fuel' (i + 1) (updL L (lblock h i) None)
  end.

Lemma unpin_range_None (h : log_header) (fuel : nat) : forall i L b,
  L b = None -> unpin_range h fuel i L b = None.
Proof.
  induction fuel as [|fuel IH]; intros i L b Hb; cbn [unpin_range]; [exact Hb|].
  apply IH. unfold updL. destruct (_ =? _); [reflexivity|exact Hb].
Qed.

Lemma unpin_range_listed (h : log_header) (fuel : nat) : forall i L b,
  (exists k, i <= k < i + Z.of_nat fuel /\ lblock h k = b) ->
  unpin_range h fuel i L b = None.
Proof.
  induction fuel as [|fuel IH]; intros i L b (k & Hk & Hb); cbn [unpin_range].
  - cbn [Z.of_nat] in Hk. lia.
  - destruct (Z.eq_dec k i) as [->|Hne].
    + apply unpin_range_None. unfold updL. rewrite Hb, Z.eqb_refl. reflexivity.
    + apply IH. exists k. split; [lia|exact Hb].
Qed.

Lemma install_loop_commit_spec (fuel : nat) :
  forall (i : Z) (L : Z -> option block) (s s' : state),
  quiet (ldev (lg s)) L (bs s) -> header_ok (lg s) ->
  (forall b, in_log (lg s) b -> L b = None) ->
  (forall j, i <= j < n (header (lg s)) -> L (lblock (header (lg s)) j) <> None) ->
  0 <= i -> i + Z.of_nat fuel = n (header (lg s)) ->
  install_loop fuel false i s = Some s' ->
  quiet (ldev (lg s)) (unpin_range (header (lg s)) fuel i L) (bs s') /\
  lg s' = lg s /\ crash_stage s' = crash_stage s /\
  (forall j, i <= j < n (header (lg s)) ->
     disk (bs s') (lblock (header (lg s)) j) = disk (bs s) (start (lg s) + j + 1)) /\
  (forall b, ~ listed (header (lg s)) i b -> disk (bs s') b = disk (bs s) b).
Proof.
  induction fuel as [|fuel IH]; intros i L s s' Hq Hh HLlog HLpin Hi Hn.
  - cbn [install_loop unpin_range]. intros E; inversion E; subst s'; clear E.
    split; [exact Hq|]. split; [reflexivity|]. split; [reflexivity|].
    split; [|reflexivity]. intros j Hj. cbn [Z.of_nat] in Hn. lia.
  - rewrite install_loop_S. cbn [unpin_range].
    destruct (install_step _ _ _ s) as [s1|] eqn:Hstep; cbn [obind]; [|discriminate].
    intros Hloop.
    assert (Hin : 0 <= i < n (header (lg s))) by lia.
    assert (Hslot : forall j, 0 <= j < n (header (lg s)) -> in_log (lg s) (start (lg s) + j + 1)).
    { intros j Hj. unfold in_log. pose proof (hk_n _ Hh). lia. }
    assert (Hne : forall j k, 0 <= j < n (header (lg s)) -> 0 <= k < n (header (lg s)) ->
                  start (lg s) + j + 1 <> lblock (header (lg s)) k).
    { intros j k Hj Hk He. apply (hk_outside _ Hh k Hk). rewrite <- He. apply Hslot, Hj. }
    destruct (install_step_spec false _ _ L _ _ Hq (HLlog _ (Hslot i Hin)) (Hne i i Hin Hin)
                (HLpin i ltac:(lia)) Hstep)
      as (Hq1 & Hlg1 & Hcs1 & Hdisk1).
    set (L1 := updL L (lblock (header (lg s)) i) None) in *.
    assert (Hq1' : quiet (ldev (lg s1)) L1 (bs s1)) by (rewrite Hlg1; exact Hq1).
    specialize (IH (i + 1) L1 s1 s' Hq1').
    rewrite Hlg1 in IH.
    assert (HLlog1 : forall b, in_log (lg s) b -> L1 b = None).
    { intros b Hb. subst L1. unfold updL. destruct (_ =? _); [reflexivity|apply HLlog, Hb]. }
    assert (HLpin1 : forall j, i + 1 <= j < n (header (lg s)) ->
                     L1 (lblock (header (lg s)) j) <> None).
    { intros j Hj. subst L1. unfold updL.
      destruct (Z.eqb_spec (lblock (header (lg s)) j) (lblock (header (lg s)) i)) as [He|].
      - assert (j = i) by (apply (hk_distinct _ Hh); [lia|lia|exact He]). lia.
      - apply HLpin. lia. }
    destruct (IH Hh HLlog1 HLpin1 ltac:(lia) ltac:(lia) Hloop)
      as (Hq2 & Hlg2 & Hcs2 & Hinst & Hrest).
    split; [exact Hq2|]. split; [exact Hlg2|]. split; [congruence|].
    split.
    + intros j Hj. destruct (Z.eq_dec j i) as [->|Hji].
      * rewrite Hrest.
        -- rewrite Hdisk1, Z.eqb_refl. reflexivity.
        -- intros (k & Hk & Hek). assert (k = i) by (apply (hk_distinct _ Hh); [lia|lia|exact Hek]).
           lia.
      * rewrite Hinst by lia. rewrite Hdisk1.
        destruct (Z.eqb_spec (start (lg s) + j + 1) (lblock (header (lg s)) i)) as [He|];
          [|reflexivity].
        elim (Hne j i ltac:(lia) Hin He).
    + intros b Hb. rewrite Hrest.
      * rewrite Hdisk1. destruct (Z.eqb_spec b (lblock (header (lg s)) i)) as [->|]; [|reflexivity].
        elim Hb. exists i. split; [lia|reflexivity].
      * intros (k & Hk & Hek). apply Hb. exists k. split; [lia|exact Hek].
Qed.

(** The header block as [write_log_header] leaves it. *)
Definition hdr_image (h : log_header) (d : block) : block :=
  fun w => if w =? 0 then of_int (n h)
           else if (1 <=? w) && (w <=? n h) then of_int (lblock h (w - 1))
           else d w.

Lemma write_log_header_eq (s : state) :
  write_log_header s = rewrite_block (start (lg s)) (hdr_image (header (lg s))) s.
Proof.
  unfold write_log_header, rewrite_block, lift_r.
  destruct (bread (ldev (lg s)) (start (lg s)) (bs s)) as [[bp b1]|]; cbn [obind]; reflexivity.
Qed.

Lemma to_int_of_int (v : Z) : 0 <= v < 0x80000000 -> to_int (of_int v) = v.
Proof.
  intros Hv. unfold to_int, of_int, two32. rewrite Z.mod_small by lia.
  destruct (Z.ltb_spec v 0x80000000); [reflexivity|lia].
Qed.

(** [read_log_header]: the in-memory header becomes what the disk's header
    block says. *)
Lemma read_log_header_spec (L : Z -> option block) (s s' : state) :
  quiet (ldev (lg s)) L (bs s) -> L (start (lg s)) = None ->
  read_log_header s = Some s' ->
  quiet (ldev (lg s)) L (bs s') /\ crash_stage s' = crash_stage s /\
  disk (bs s') = disk (bs s) /\
  start (lg s') = start (lg s) /\ size (lg s') = size (lg s) /\ ldev (lg s') = ldev (lg s) /\
  outstanding (lg s') = outstanding (lg s) /\ committing (lg s') = committing (lg s) /\
  n (header (lg s')) = to_int (disk (bs s) (start (lg s)) 0) /\
  0 <= n (header (lg s')) <= LOG_SIZE /\
  (forall k, 0 <= k < n (header (lg s')) ->
     lblock (header (lg s')) k = to_int (disk (bs s) (start (lg s)) (1 + k))).
Proof.
  intros (Hok & Hq & Hrg) HL. unfold read_log_header.
  destruct (lift_r _ s) as [[bp s1]|] eqn:E1; cbn [obind]; [|discriminate].
  apply lift_r_Some in E1. destruct E1 as [b1 [Hbr ->]].
  destruct (bread_spec _ _ _ _ _ _ Hok Hbr)
    as (Hok1 & Hh1 & Hd1 & Hbn1 & Hl1 & Hv1 & Hdat1 & Hdisk1 & _ & Hoth1 & Hhoth1).
  cbv zeta. cbn_lg. rewrite Hdat1. unfold lview. rewrite HL.
  set (n' := to_int (disk (bs s) (start (lg s)) 0)).
  destruct ((n' <? 0) || (n' >? LOG_SIZE))%bool eqn:Hrange; [discriminate|].
  apply orb_false_iff in Hrange. destruct Hrange as [Hlo Hhi].
  apply Z.ltb_ge in Hlo. rewrite Z.gtb_ltb in Hhi. apply Z.ltb_ge in Hhi.
  intros E. apply lift_Some in E. destruct E as [b2 [Hbre ->]]. cbn_lg in Hbre. cbn_lg.
  assert (Hcont : bvalid (bufs b1 bp) = true ->
                  data (bufs b1 bp) = lview L (disk b1) (blockno (bufs b1 bp))).
  { intros _. rewrite Hdat1, Hbn1, Hdisk1. reflexivity. }
  destruct (brelse_spec _ _ _ _ _ Hok1 Hh1 Hcont Hbre) as (_ & Hok2 & Hdisk2 & Hoth2 & Hh2 & Hb2).
  split; [split; [exact Hok2|split]|].
  - intros j. destruct (Nat.eq_dec j bp) as [->|Hne]; [rewrite Hb2; reflexivity|].
    rewrite (Hoth2 j Hne), (Hoth1 j Hne). apply Hq.
  - eapply range_brelse; [|exact Hh1|exact Hbre]. eapply range_bread; [exact Hrg|exact Hbr].
  - split; [reflexivity|]. split; [congruence|].
    repeat (split; [reflexivity|]).
    split; [lia|]. intros k Hk.
    destruct (Z.leb_spec 0 k); [|lia]. destruct (Z.ltb_spec k n'); [|lia]. reflexivity.
Qed.

(** The pinned blocks are exactly the blocks the in-memory header lists. *)
Definition sync (L : Z -> option block) (h : log_header) : Prop :=
  forall b, L b <> None <-> listed h 0 b.

Lemma sync_log_None (L : Z -> option block) (l : log_state) :
  sync L (header l) -> header_ok l -> forall b, in_log l b -> L b = None.
Proof.
  intros Hs Hh b Hb. destruct (L b) eqn:E; [|reflexivity].
  assert (Hl : listed (header l) 0 b) by (apply Hs; congruence).
  destruct Hl as (k & Hk & <-). elim (hk_outside _ Hh k Hk Hb).
Qed.

Lemma find_slot_spec (h : log_header) (b : Z) (fuel : nat) : forall idx,
  0 <= idx -> idx + Z.of_nat fuel = n h ->
  idx <= find_slot fuel idx h b <= n h /\
  (find_slot fuel idx h b < n h -> lblock h (find_slot fuel idx h b) = b) /\
  (forall k, idx <= k < find_slot fuel idx h b -> lblock h k <> b).
Proof.
  induction fuel as [|fuel IH]; intros idx Hi Hn; cbn [find_slot].
  - cbn [Z.of_nat] in Hn. split; [lia|]. split; [lia|]. intros k Hk; lia.
  - destruct (Z.ltb_spec idx (n h)); [|lia].
    destruct (Z.eqb_spec (lblock h idx) b) as [He|Hne].
    + split; [lia|]. split; [auto|]. intros k Hk; lia.
    + destruct (IH (idx + 1) ltac:(lia) ltac:(lia)) as (H1 & H2 & H3).
      split; [lia|]. split; [exact H2|].
      intros k Hk. destruct (Z.eq_dec k idx) as [->|]; [exact Hne|apply H3; lia].
Qed.

Lemma logged_update_spec (b : Z) (f : block -> block) (L : Z -> option block) (s s' : state) :
  quiet (ldev (lg s)) L (bs s) -> header_ok (lg s) -> sync L (header (lg s)) ->
  ~ in_log (lg s) b -> n (header (lg s)) + 1 < size (lg s) ->
  logged_update b f s = Some s' ->
  quiet (ldev (lg s)) (updL L b (Some (f (lview L (disk (bs s)) b)))) (bs s') /\
  header_ok (lg s') /\
  sync (updL L b (Some (f (lview L (disk (bs s)) b)))) (header (lg s')) /\
  disk (bs s') = disk (bs s) /\ crash_stage s' = crash_stage s /\
  start (lg s') = start (lg s) /\ size (lg s') = size (lg s) /\ ldev (lg s') = ldev (lg s) /\
  outstanding (lg s') = outstanding (lg s) /\ committing (lg s') = committing (lg s) /\
  n (header (lg s)) <= n (header (lg s')) <= n (header (lg s)) + 1.
Proof.
  intros (Hok & Hq & Hrg) Hh Hsync Hnl Hroom. unfold logged_update.
  destruct (lift_r _ s) as [[bp s1]|] eqn:E1; cbn [obind]; [|discriminate].
  apply lift_r_Some in E1. destruct E1 as [b1 [Hbr ->]].
  destruct (bread_spec _ _ _ _ _ _ Hok Hbr)
    as (Hok1 & Hh1 & Hd1 & Hbn1 & Hl1 & Hv1 & Hdat1 & Hdisk1 & _ & Hoth1 & Hhoth1).
  cbn_lg. rewrite Hdat1.
  set (c := f (lview L (disk (bs s)) b)).
  set (bm := with_data c (bufs b1 bp)).
  set (bM := set_buf bp bm b1).
  assert (HokM : cache_ok (ldev (lg s)) L bM).
  { apply cache_ok_locked_modify;
      [exact Hok1 | exact Hh1 | exact Hl1 | reflexivity | reflexivity | exact Hl1
      | reflexivity | intros _; exact Hv1 | intros _; exact Hv1]. }
  assert (HhM : forall j, hashed bM j <-> hashed b1 j)
    by (intros j; apply hashed_set_buf; reflexivity).
  assert (HbM : bufs bM bp = bm) by apply bufs_set_buf_same.
  assert (HhbpM : hashed bM bp) by (apply HhM; exact Hh1).
  assert (HbnM : blockno (bufs bM bp) = b) by (rewrite HbM; exact Hbn1).
  assert (HrM : refcnt bm = pincount L b + 1).
  { subst bm. cbn_st. rewrite (ok_refcnt _ _ _ Hok1 bp Hh1), Hl1, Hbn1. reflexivity. }
  (* log_block_write *)
  unfold log_block_write. cbn_lg. fold bm. fold bM. rewrite HbM.
  replace (blockno bm) with b by (subst bm; cbn_st; congruence).
  destruct (n (header (lg s)) >=? size (lg s)); [discriminate|].
  destruct (n (header (lg s)) >=? LOG_SIZE); [discriminate|].
  destruct (outstanding (lg s) <? 1); [discriminate|].
  pose proof (hk_n _ Hh) as Hn0.
  destruct (find_slot_spec (header (lg s)) b (Z.to_nat (n (header (lg s)))) 0
              ltac:(lia) ltac:(rewrite Z2Nat.id; lia)) as (Hr1 & Hr2 & Hr3).
  set (r := find_slot _ 0 (header (lg s)) b) in *.
  set (L' := updL L b (Some c)).
  (* the cache after the (possible) pin, and the new header *)
  assert (Hfin : forall (bP : bstate) (h' : log_header),
     cache_ok (ldev (lg s)) L' bP -> hashed bP bp -> range_ok bP ->
     (forall j, j <> bp -> bufs bP j = bufs b1 j) ->
     locked (bufs bP bp) = true -> blockno (bufs bP bp) = b -> data (bufs bP bp) = c ->
     disk bP = disk b1 ->
     n (header (lg s)) <= n h' <= n (header (lg s)) + 1 ->
     (forall x, listed h' 0 x <-> listed (header (lg s)) 0 x \/ x = b) ->
     (forall j k, 0 <= j < n h' -> 0 <= k < n h' -> lblock h' j = lblock h' k -> j = k) ->
     lift (brelse bp) (set_lg (set_header h' (lg s)) (set_bs bP (set_bs bM (set_bs b1 s))))
       = Some s' ->
     quiet (ldev (lg s)) L' (bs s') /\ header_ok (lg s') /\ sync L' (header (lg s')) /\
     disk (bs s') = disk (bs s) /\ crash_stage s' = crash_stage s /\
     start (lg s') = start (lg s) /\ size (lg s') = size (lg s) /\
     ldev (lg s') = ldev (lg s) /\ outstanding (lg s') = outstanding (lg s) /\
     committing (lg s') = committing (lg s) /\
     n (header (lg s)) <= n (header (lg s')) <= n (header (lg s)) + 1).
  { intros bP h' HokP HhP HrgP HothP HlP HbnP HdatP HdiskP Hnh Hlist Hdist E.
    apply lift_Some in E. destruct E as [b3 [Hbre ->]]. cbn_lg in Hbre. cbn_lg.
    assert (Hcont : bvalid (bufs bP bp) = true ->
                    data (bufs bP bp) = lview L' (disk bP) (blockno (bufs bP bp))).
    { intros _. rewrite HdatP, HbnP. unfold lview. subst L'. unfold updL.
      rewrite Z.eqb_refl. reflexivity. }
    destruct (brelse_spec _ _ _ _ _ HokP HhP Hcont Hbre)
      as (_ & Hok3 & Hdisk3 & Hoth3 & Hh3 & Hb3).
    split; [split; [exact Hok3|split]|].
    - intros j. destruct (Nat.eq_dec j bp) as [->|Hne]; [rewrite Hb3; reflexivity|].
      rewrite (Hoth3 j Hne), (HothP j Hne), (Hoth1 j Hne). apply Hq.
    - eapply range_brelse; [exact HrgP|exact HhP|exact Hbre].
    - split.
      { constructor; cbn_lg.
        - lia.
        - exact Hdist.
        - intros k Hk. assert (Hl : listed h' 0 (lblock h' k)) by (exists k; auto).
          apply Hlist in Hl. destruct Hl as [(k0 & Hk0 & He)|He].
          + rewrite <- He. apply (hk_outside _ Hh k0 Hk0).
          + rewrite He. exact Hnl. }
      split.
      { intros x. cbn_lg. rewrite Hlist. subst L'. unfold updL.
        destruct (Z.eqb_spec x b) as [->|Hne].
        - split; [auto|intros _; congruence].
        - rewrite (Hsync x). split; [auto|intros [H|H]; [exact H|contradiction]]. }
      split; [congruence|]. repeat (split; [reflexivity|]). exact Hnh. }
  assert (Hrg1 : range_ok b1) by (eapply range_bread; [exact Hrg|exact Hbr]).
  destruct (Z.eqb_spec r (n (header (lg s)))) as [Hnew|Hold]; intros E.
  - (* a new slot: the buffer is pinned *)
    assert (HLb : L b = None).
    { destruct (L b) eqn:EL; [|reflexivity].
      assert (Hl : listed (header (lg s)) 0 b) by (apply Hsync; congruence).
      destruct Hl as (k & Hk & He). elim (Hr3 k ltac:(lia) He). }
    eapply (Hfin (bpin bp bM)); [| | | | | | | | | | |exact E].
    + unfold bpin. subst L'.
      match goal with
      | |- cache_ok _ _ (set_buf _ ?B _) =>
          pose proof (cache_ok_locked_update _ L bM bp B (Some c) HokM HhbpM) as HX
      end.
      rewrite HbnM in HX. apply HX.
      * rewrite HbM; exact Hl1.
      * reflexivity.
      * exact HbnM.
      * rewrite HbM; exact Hl1.
      * cbn_st. rewrite HbM, HrM. unfold pincount. rewrite HLb. reflexivity.
      * intros _. rewrite HbM. exact Hv1.
      * intros _. rewrite HbM. exact Hv1.
    + unfold bpin. apply hashed_set_buf; [reflexivity|reflexivity|exact HhbpM].
    + exact Hrg1.
    + intros j Hj. unfold bpin. subst bM. rewrite !bufs_set_buf_other by exact Hj. reflexivity.
    + unfold bpin. rewrite bufs_set_buf_same, HbM. exact Hl1.
    + unfold bpin. rewrite bufs_set_buf_same, HbM. exact Hbn1.
    + unfold bpin. rewrite bufs_set_buf_same, HbM. reflexivity.
    + reflexivity.
    + cbn_lg. lia.
    + intros x. unfold listed. cbn_lg. unfold upd. split.
      * intros (k & Hk & He). destruct (Z.eqb_spec k r) as [->|Hkr]; [auto|].
        left. exists k. split; [lia|exact He].
      * intros [(k & Hk & He)| ->].
        -- exists k. split; [lia|]. destruct (Z.eqb_spec k r); [lia|exact He].
        -- exists r. split; [lia|]. rewrite Z.eqb_refl. reflexivity.
    + cbn_lg. unfold upd. intros j k Hj Hk.
      destruct (Z.eqb_spec j r) as [->|Hjr], (Z.eqb_spec k r) as [->|Hkr]; intros He.
      * reflexivity.
      * elim (Hr3 k ltac:(lia)). auto.
      * elim (Hr3 j ltac:(lia)). auto.
      * apply (hk_distinct _ Hh); [lia|lia|exact He].
  - (* the block is already in the log *)
    assert (Hrb : lblock (header (lg s)) r = b) by (apply Hr2; lia).
    assert (HLb : L b <> None) by (apply Hsync; exists r; split; [lia|exact Hrb]).
    eapply (Hfin bM); [| | | | | | | | | | |exact E].
    + apply (cache_ok_same _ _ (set_buf bp bm bM)).
      { split; [|split; [reflexivity|intros; reflexivity]].
        intros j. destruct (Nat.eq_dec j bp) as [->|Hj].
        - rewrite bufs_set_buf_same. exact HbM.
        - rewrite bufs_set_buf_other by exact Hj. reflexivity. }
      subst L'.
      pose proof (cache_ok_locked_update _ L bM bp bm (Some c) HokM HhbpM) as HX.
      rewrite HbnM in HX. apply HX.
      * rewrite HbM; exact Hl1.
      * rewrite HbM; reflexivity.
      * rewrite <- HbM; exact HbnM.
      * exact Hl1.
      * rewrite HrM. unfold pincount. destruct (L b); [reflexivity|congruence].
      * intros _. exact Hv1.
      * intros _. exact Hv1.
    + exact HhbpM.
    + exact Hrg1.
    + intros j Hj. subst bM. rewrite bufs_set_buf_other by exact Hj. reflexivity.
    + rewrite HbM. exact Hl1.
    + rewrite HbM. exact Hbn1.
    + rewrite HbM. reflexivity.
    + reflexivity.
    + cbn_lg. lia.
    + intros x. unfold listed. cbn_lg. unfold upd. split.
      * intros (k & Hk & He). left. exists k. split; [exact Hk|].
        destruct (Z.eqb_spec k r) as [->|]; congruence.
      * intros [(k & Hk & He)| ->].
        -- exists k. split; [exact Hk|]. destruct (Z.eqb_spec k r) as [->|]; congruence.
        -- exists r. split; [lia|]. rewrite Z.eqb_refl. reflexivity.
    + cbn_lg. unfold upd. intros j k Hj Hk He. apply (hk_distinct _ Hh); [exact Hj|exact Hk|].
      destruct (Z.eqb_spec j r) as [->|], (Z.eqb_spec k r) as [->|]; congruence.
Qed.

(** The effect of a list of block updates on a block store. *)
Definition updb (d : Z -> block) (b : Z) (c : block) : Z -> block :=
  fun k => if k =? b then c else d k.

Fixpoint apply_updates (ws : list (Z * (block -> block))) (d : Z -> block) : Z -> block :=
  match ws with
  | [] => d
  | (b, f) :: ws' => apply_updates ws' (updb d b (f (d b)))
  end.

Lemma apply_updates_ext (ws : list (Z * (block -> block))) : forall d1 d2,
  (forall k, d1 k = d2 k) -> forall k, apply_updates ws d1 k = apply_updates ws d2 k.
Proof.
  induction ws as [|[b f] ws IH]; intros d1 d2 H k; cbn [apply_updates]; [apply H|].
  apply IH. intros j. unfold updb. rewrite (H b), (H j). reflexivity.
Qed.

Lemma apply_updates_other (ws : list (Z * (block -> block))) : forall d k,
  ~ In k (map fst ws) -> apply_updates ws d k = d k.
Proof.
  induction ws as [|[b f] ws IH]; intros d k Hk; cbn [apply_updates]; [reflexivity|].
  cbn [map fst In] in Hk. rewrite IH by tauto. unfold updb.
  destruct (Z.eqb_spec k b); [subst; tauto|reflexivity].
Qed.

Lemma logged_updates_spec (ws : list (Z * (block -> block))) :
  forall (L : Z -> option block) (s s' : state),
  quiet (ldev (lg s)) L (bs s) -> header_ok (lg s) -> sync L (header (lg s)) ->
  (forall b, In b (map fst ws) -> ~ in_log (lg s) b) ->
  n (header (lg s)) + Z.of_nat (length ws) < size (lg s) ->
  logged_updates ws s = Some s' ->
  exists L',
    quiet (ldev (lg s)) L' (bs s') /\ header_ok (lg s') /\ sync L' (header (lg s')) /\
    disk (bs s') = disk (bs s) /\ crash_stage s' = crash_stage s /\
    start (lg s') = start (lg s) /\ size (lg s') = size (lg s) /\
    ldev (lg s') = ldev (lg s) /\ outstanding (lg s') = outstanding (lg s) /\
    committing (lg s') = committing (lg s) /\
    (forall b, L' b <> None -> L b <> None \/ In b (map fst ws)) /\
    (forall k, lview L' (disk (bs s)) k = apply_updates ws (lview L (disk (bs s))) k).
Proof.
  induction ws as [|[b f] ws IH]; intros L s s' Hq Hh Hs Hout Hroom E.
  - cbn [logged_updates] in E. inversion E; subst s'. exists L.
    repeat (split; [assumption || reflexivity|]). split; [auto|reflexivity].
  - cbn [logged_updates] in E.
    destruct (logged_update b f s) as [s1|] eqn:E1; cbn [obind] in E; [|discriminate].
    cbn [length] in Hroom. rewrite Nat2Z.inj_succ in Hroom.
    pose proof (hk_n _ Hh) as Hn.
    destruct (logged_update_spec b f L s s1 Hq Hh Hs
                (Hout b ltac:(cbn [map fst In]; auto)) ltac:(lia) E1)
      as (Hq1 & Hh1 & Hs1 & Hd1 & Hc1 & Hst1 & Hsz1 & Hdv1 & Ho1 & Hcm1 & Hn1).
    assert (Hil : forall x, in_log (lg s1) x <-> in_log (lg s) x)
      by (intros x; unfold in_log; rewrite Hst1, Hsz1; reflexivity).
    rewrite <- Hdv1 in Hq1.
    destruct (IH _ s1 s' Hq1 Hh1 Hs1) as (L' & Hq' & Hh' & Hs' & Hd' & Hc' & Hst' & Hsz' & Hdv'
                                          & Ho' & Hcm' & Hsub & Hview).
    + intros x Hx. rewrite Hil. apply Hout. cbn [map fst In]. auto.
    + lia.
    + exact E.
    + exists L'. rewrite Hdv1 in Hq'.
      split; [exact Hq'|]. split; [exact Hh'|]. split; [exact Hs'|].
      split; [congruence|]. split; [congruence|]. split; [congruence|].
      split; [congruence|]. split; [congruence|]. split; [congruence|].
      split; [congruence|]. split.
      * intros x Hx. destruct (Hsub x Hx) as [H|H].
        -- unfold updL in H. cbn [map fst In].
           destruct (Z.eqb_spec x b); [right; left; congruence|left; exact H].
        -- right. cbn [map fst In]. auto.
      * intros k. rewrite Hd1 in Hview. rewrite Hview. cbn [apply_updates].
        apply apply_updates_ext. intros j. unfold lview, updL, updb.
        destruct (Z.eqb_spec j b); reflexivity.
Qed.

Lemma quiet_ext (D : Z) (L L' : Z -> option block) (s : bstate) :
  (forall b, L b = L' b) -> quiet D L s -> quiet D L' s.
Proof.
  intros H (Hok & Hq & Hr). split; [|split; assumption].
  eapply cache_ok_ext; [exact H|exact Hok].
Qed.

Lemma write_log_header_spec (L : Z -> option block) (s s' : state) :
  quiet (ldev (lg s)) L (bs s) -> L (start (lg s)) = None ->
  write_log_header s = Some s' ->
  quiet (ldev (lg s)) L (bs s') /\ lg s' = lg s /\ crash_stage s' = crash_stage s /\
  (forall k, disk (bs s') k
             = if k =? start (lg s)
               then hdr_image (header (lg s)) (disk (bs s) (start (lg s)))
               else disk (bs s) k).
Proof.
  intros Hq HL E. rewrite write_log_header_eq in E.
  exact (rewrite_block_spec _ _ _ _ _ Hq HL E).
Qed.

(** The header as it is stored in the first block of the log region. *)
Definition disk_header (s : state) : log_header :=
  mkHeader (to_int (disk (bs s) (start (lg s)) 0))
           (fun k => to_int (disk (bs s) (start (lg s)) (1 + k))).

Lemma recover_log_spec (s s' : state) :
  quiet (ldev (lg s)) noL (bs s) ->
  header_ok (set_header (disk_header s) (lg s)) ->
  recover_log s = Some s' ->
  quiet (ldev (lg s)) noL (bs s') /\
  n (header (lg s')) = 0 /\ disk (bs s') (start (lg s)) 0 = 0 /\
  crash_stage s' = crash_stage s /\
  start (lg s') = start (lg s) /\ size (lg s') = size (lg s) /\
  ldev (lg s') = ldev (lg s) /\ outstanding (lg s') = outstanding (lg s) /\
  committing (lg s') = committing (lg s) /\
  (forall j, 0 <= j < n (disk_header s) ->
     disk (bs s') (lblock (disk_header s) j) = disk (bs s) (start (lg s) + j + 1)) /\
  (forall b, b <> start (lg s) -> ~ listed (disk_header s) 0 b ->
     disk (bs s') b = disk (bs s) b).
Proof.
  intros Hq Hh. unfold recover_log.
  destruct (read_log_header s) as [s1|] eqn:E1; cbn [obind]; [|discriminate].
  destruct (read_log_header_spec noL s s1 Hq eq_refl E1)
    as (Hq1 & Hc1 & Hd1 & Hst1 & Hsz1 & Hdv1 & Ho1 & Hcm1 & Hn1 & Hr1 & Hb1).
  pose proof (hk_n _ Hh) as Hn0. cbn_lg in Hn0. unfold disk_header in Hn0. cbn_lg in Hn0.
  assert (Hh1 : header_ok (lg s1)).
  { constructor.
    - rewrite Hn1, Hsz1. exact Hn0.
    - intros j k Hj Hk. rewrite (Hb1 j Hj), (Hb1 k Hk). rewrite Hn1 in Hj, Hk.
      apply (hk_distinct _ Hh j k); cbn_lg; unfold disk_header; cbn_lg; assumption.
    - intros k Hk. rewrite (Hb1 k Hk). rewrite Hn1 in Hk.
      pose proof (hk_outside _ Hh k) as Ho. cbn_lg in Ho. unfold disk_header in Ho.
      cbn_lg in Ho. unfold in_log in *. cbn_lg in Ho. rewrite Hst1, Hsz1. apply Ho. exact Hk. }
  unfold install_transaction.
  destruct (install_loop _ true 0 s1) as [s2|] eqn:E2; cbn [obind]; [|discriminate].
  rewrite <- Hdv1 in Hq1.
  destruct (install_loop_recover_spec (Z.to_nat (n (header (lg s1)))) 0 s1 s2 Hq1 Hh1
              ltac:(lia)
              ltac:(rewrite Z2Nat.id; lia) E2)
    as (Hq2 & Hlg2 & Hc2 & Hins & Hoth2).
  intros E3.
  assert (Hq2' : quiet (ldev (lg (set_n 0 s2))) noL (bs (set_n 0 s2))).
  { cbn_lg. rewrite Hlg2. exact Hq2. }
  destruct (write_log_header_spec noL _ _ Hq2' eq_refl E3) as (Hq3 & Hlg3 & Hc3 & Hd3).
  cbn_lg in Hq3. cbn_lg in Hd3. cbn_lg in Hc3.
  rewrite Hlg2 in Hq3, Hd3. rewrite Hdv1 in Hq3. rewrite Hst1 in Hd3.
  split; [exact Hq3|]. rewrite Hlg3. cbn_lg. rewrite Hlg2.
  split; [reflexivity|]. split.
  { rewrite Hd3, Z.eqb_refl. unfold hdr_image. cbn_lg. reflexivity. }
  split; [congruence|].
  repeat (split; [assumption|]).
  assert (Hin : in_log (lg s) (start (lg s))) by (unfold in_log; lia).
  split.
  - intros j Hj. unfold disk_header in Hj |- *. cbn_lg in Hj. cbn_lg.
    rewrite <- Hn1 in Hj. rewrite <- (Hb1 j Hj). rewrite Hd3.
    destruct (Z.eqb_spec (lblock (header (lg s1)) j) (start (lg s))) as [He|_].
    + elim (hk_outside _ Hh1 j Hj). unfold in_log. rewrite He, Hst1, Hsz1. exact Hin.
    + rewrite (Hins j Hj), Hst1, Hd1. reflexivity.
  - intros b Hb Hnl. rewrite Hd3. destruct (Z.eqb_spec b (start (lg s))); [contradiction|].
    rewrite Hoth2; [rewrite Hd1; reflexivity|].
    intros (k & Hk & He). apply Hnl. exists k. unfold disk_header. cbn_lg.
    rewrite <- Hn1. split; [exact Hk|]. rewrite <- (Hb1 k Hk). exact He.
Qed.

Lemma unpin_all (L : Z -> option block) (h : log_header) :
  0 <= n h -> sync L h -> forall b, unpin_range h (Z.to_nat (n h)) 0 L b = noL b.
Proof.
  intros Hn Hs b. unfold noL. destruct (L b) eqn:E.
  - apply unpin_range_listed. assert (Hl : listed h 0 b) by (apply Hs; congruence).
    destruct Hl as (k & Hk & He). exists k. rewrite Z2Nat.id by lia. split; [lia|exact He].
  - apply unpin_range_None. exact E.
Qed.

(** [commit_transaction] on a non-empty transaction, by crash stage. *)
Lemma commit_transaction_spec (L : Z -> option block) (s s' : state) :
  quiet (ldev (lg s)) L (bs s) -> header_ok (lg s) -> sync L (header (lg s)) ->
  n (header (lg s)) <> 0 ->
  commit_transaction s = Some s' ->
  crash_stage s' = crash_stage s /\
  start (lg s') = start (lg s) /\ size (lg s') = size (lg s) /\
  ldev (lg s') = ldev (lg s) /\ outstanding (lg s') = outstanding (lg s) /\
  committing (lg s') = committing (lg s) /\
  (forall b, ~ in_log (lg s) b ->
     disk (bs s') b = if (crash_stage s =? 2) || (crash_stage s =? 1)
                      then disk (bs s) b else lview L (disk (bs s)) b) /\
  (crash_stage s = 2 ->
     quiet (ldev (lg s)) L (bs s') /\
     disk (bs s') (start (lg s)) = disk (bs s) (start (lg s))) /\
  (crash_stage s = 1 ->
     quiet (ldev (lg s)) L (bs s') /\
     disk (bs s') (start (lg s))
     = hdr_image (header (lg s)) (disk (bs s) (start (lg s))) /\
     (forall j, 0 <= j < n (header (lg s)) ->
        disk (bs s') (start (lg s) + j + 1)
        = lview L (disk (bs s)) (lblock (header (lg s)) j))) /\
  (crash_stage s <> 2 -> crash_stage s <> 1 ->
     quiet (ldev (lg s)) noL (bs s') /\ n (header (lg s')) = 0 /\
     disk (bs s') (start (lg s)) 0 = 0).
Proof.
  intros Hq Hh Hs Hn. unfold commit_transaction.
  destruct (Z.eqb_spec (n (header (lg s))) 0) as [|_]; [contradiction|].
  pose proof (hk_n _ Hh) as Hn0.
  assert (HlogNone : forall b, in_log (lg s) b -> L b = None)
    by (apply sync_log_None; assumption).
  assert (Hpinned : forall j, 0 <= j < n (header (lg s)) ->
                              L (lblock (header (lg s)) j) <> None)
    by (intros j Hj; apply Hs; exists j; auto).
  assert (Hstart : in_log (lg s) (start (lg s))) by (unfold in_log; lia).
  unfold write_log_blocks.
  destruct (write_log_blocks_loop _ 0 s) as [s1|] eqn:E1; cbn [obind]; [|discriminate].
  destruct (write_log_blocks_loop_spec L (Z.to_nat (n (header (lg s)))) 0 s s1 Hq Hh
              HlogNone Hpinned ltac:(lia) ltac:(rewrite Z2Nat.id; lia) E1)
    as (Hq1 & Hlg1 & Hc1 & Hslots & Hoth1).
  rewrite Hc1.
  destruct (Z.eqb_spec (crash_stage s) 2) as [H2|H2].
  { intros E; inversion E; subst s'; clear E. rewrite Hlg1.
    split; [exact Hc1|]. repeat (split; [reflexivity|]).
    cbn [orb]. split.
    - intros b Hb. apply Hoth1. unfold in_log in Hb. lia.
    - split; [|split; [intros H1; lia|intros; contradiction]].
      intros _. split; [exact Hq1|]. apply Hoth1. lia. }
  destruct (write_log_header s1) as [s2|] eqn:E2; cbn [obind]; [|discriminate].
  assert (Hq1' : quiet (ldev (lg s1)) L (bs s1)) by (rewrite Hlg1; exact Hq1).
  destruct (write_log_header_spec L s1 s2 Hq1'
              ltac:(rewrite Hlg1; apply HlogNone; exact Hstart) E2)
    as (Hq2 & Hlg2 & Hc2 & Hd2).
  rewrite Hlg1 in Hq2, Hd2. rewrite Hc2, Hc1.
  assert (Hnl2 : forall b, ~ in_log (lg s) b -> disk (bs s2) b = disk (bs s) b).
  { intros b Hb. rewrite Hd2. destruct (Z.eqb_spec b (start (lg s))); [subst; contradiction|].
    apply Hoth1. unfold in_log in Hb. lia. }
  assert (Hsl2 : forall j, 0 <= j < n (header (lg s)) ->
                 disk (bs s2) (start (lg s) + j + 1)
                 = lview L (disk (bs s)) (lblock (header (lg s)) j)).
  { intros j Hj. rewrite Hd2. destruct (Z.eqb_spec (start (lg s) + j + 1) (start (lg s)));
      [lia|]. apply Hslots. exact Hj. }
  destruct (Z.eqb_spec (crash_stage s) 1) as [H1|H1].
  { intros E; inversion E; subst s'; clear E. rewrite Hlg2, Hlg1.
    split; [congruence|]. repeat (split; [reflexivity|]).
    cbn [orb]. split; [exact Hnl2|].
    split; [intros; contradiction|]. split; [|intros; contradiction].
    intros _. split; [exact Hq2|]. split; [|exact Hsl2].
    rewrite Hd2, Z.eqb_refl. f_equal. apply Hoth1. lia. }
  unfold install_transaction.
  destruct (install_loop _ false 0 s2) as [s3|] eqn:E3; cbn [obind]; [|discriminate].
  assert (Hlg2' : lg s2 = lg s) by congruence.
  assert (Hq2' : quiet (ldev (lg s2)) L (bs s2)) by (rewrite Hlg2'; exact Hq2).
  destruct (install_loop_commit_spec (Z.to_nat (n (header (lg s2)))) 0 L s2 s3 Hq2'
              ltac:(rewrite Hlg2'; exact Hh)
              ltac:(rewrite Hlg2'; exact HlogNone)
              ltac:(rewrite Hlg2'; exact Hpinned)
              ltac:(lia) ltac:(rewrite Hlg2', Z2Nat.id; lia) E3)
    as (Hq3 & Hlg3 & Hc3 & Hins & Hoth3).
  rewrite Hlg2' in Hq3, Hlg3, Hins, Hoth3.
  apply (quiet_ext _ _ noL) in Hq3; [|apply unpin_all; [lia|exact Hs]].
  intros E4.
  assert (Hq3' : quiet (ldev (lg (set_n 0 s3))) noL (bs (set_n 0 s3))).
  { cbn_lg. rewrite Hlg3. exact Hq3. }
  destruct (write_log_header_spec noL _ _ Hq3' eq_refl E4) as (Hq4 & Hlg4 & Hc4 & Hd4).
  cbn_lg in Hq4. cbn_lg in Hd4. cbn_lg in Hc4. rewrite Hlg3 in Hq4, Hd4.
  rewrite Hlg4. cbn_lg. rewrite Hlg3.
  split; [congruence|]. repeat (split; [reflexivity|]).
  destruct (Z.eqb_spec (crash_stage s) 2) as [|_]; [contradiction|].
  destruct (Z.eqb_spec (crash_stage s) 1) as [|_]; [contradiction|].
  cbn [orb]. split.
  - intros b Hb. rewrite Hd4. destruct (Z.eqb_spec b (start (lg s))); [subst; contradiction|].
    unfold lview. destruct (L b) eqn:EL.
    + assert (Hl : listed (header (lg s)) 0 b) by (apply Hs; congruence).
      destruct Hl as (k & Hk & He). rewrite <- He, (Hins k Hk), (Hsl2 k Hk).
      unfold lview. rewrite He, EL. reflexivity.
    + rewrite Hoth3; [apply Hnl2; exact Hb|].
      intros Hl. apply Hs in Hl. contradiction.
  - split; [intros; contradiction|]. split; [intros; contradiction|].
    intros _ _. split; [exact Hq4|]. split; [reflexivity|].
    rewrite Hd4, Z.eqb_refl. unfold hdr_image. cbn_lg. reflexivity.
Qed.

Lemma header_ok_ext (l : log_state) (h' : log_header) :
  header_ok l -> n h' = n (header l) ->
  (forall k, 0 <= k < n h' -> lblock h' k = lblock (header l) k) ->
  header_ok (set_header h' l).
Proof.
  intros Hh Hn Hb. constructor; cbn_lg.
  - rewrite Hn. apply (hk_n _ Hh).
  - intros j k Hj Hk. rewrite (Hb j Hj), (Hb k Hk). rewrite Hn in Hj, Hk.
    apply (hk_distinct _ Hh); assumption.
  - intros k Hk. rewrite (Hb k Hk). rewrite Hn in Hk.
    pose proof (hk_outside _ Hh k Hk) as Ho. unfold in_log in *. cbn_lg. exact Ho.
Qed.

Lemma header_ok_empty (l : log_state) (h' : log_header) :
  0 < size l -> n h' = 0 -> header_ok (set_header h' l).
Proof.
  intros Hs Hn. constructor; cbn_lg; rewrite Hn; try lia; intros; lia.
Qed.

Lemma disk_header_image (s : state) (h : log_header) (d : block) :
  disk (bs s) (start (lg s)) = hdr_image h d -> 0 <= n h < 0x80000000 ->
  (forall k, 0 <= k < n h -> 0 <= lblock h k < 0x80000000) ->
  n (disk_header s) = n h /\
  (forall k, 0 <= k < n h -> lblock (disk_header s) k = lblock h k).
Proof.
  intros Hd Hn Hb. unfold disk_header. cbn_lg. rewrite Hd. unfold hdr_image.
  rewrite Z.eqb_refl. split; [apply to_int_of_int; exact Hn|].
  intros k Hk. destruct (Z.eqb_spec (1 + k) 0); [lia|].
  destruct (Z.leb_spec 1 (1 + k)); [|lia]. destruct (Z.leb_spec (1 + k) (n h)); [|lia].
  cbn [andb]. replace (1 + k - 1) with k by lia. apply to_int_of_int. apply Hb. exact Hk.
Qed.

Lemma recover_after_clear (c : bstate) (s s' : state) :
  quiet (ldev (lg s)) noL c -> disk c = disk (bs s) ->
  header_ok (set_header (disk_header s) (lg s)) ->
  recover_log (set_bs c s) = Some s' ->
  quiet (ldev (lg s)) noL (bs s') /\
  n (header (lg s')) = 0 /\ disk (bs s') (start (lg s)) 0 = 0 /\
  crash_stage s' = crash_stage s /\
  start (lg s') = start (lg s) /\ size (lg s') = size (lg s) /\
  ldev (lg s') = ldev (lg s) /\ outstanding (lg s') = outstanding (lg s) /\
  committing (lg s') = committing (lg s) /\
  (forall j, 0 <= j < n (disk_header s) ->
     disk (bs s') (lblock (disk_header s) j) = disk (bs s) (start (lg s) + j + 1)) /\
  (forall b, b <> start (lg s) -> ~ listed (disk_header s) 0 b ->
     disk (bs s') b = disk (bs s) b).
Proof.
  intros Hq Hd Hh E.
  assert (Hdh : disk_header (set_bs c s) = disk_header s).
  { unfold disk_header. cbn_lg. rewrite Hd. reflexivity. }
  assert (Hht : header_ok (set_header (disk_header (set_bs c s)) (lg (set_bs c s)))).
  { rewrite Hdh. exact Hh. }
  pose proof (recover_log_spec (set_bs c s) s' Hq Hht E) as H.
  rewrite Hdh in H. cbn_lg in H. rewrite Hd in H. exact H.
Qed.

Lemma simulate_restart_eq (s : state) :
  simulate_restart s = recover_log (set_bs (clear_cache (bs s)) s).
Proof. reflexivity. Qed.

(** [simulate_restart] from any state in which no buffer is locked. *)
Lemma simulate_restart_spec (L : Z -> option block) (s s' : state) :
  quiet (ldev (lg s)) L (bs s) ->
  header_ok (set_header (disk_header s) (lg s)) ->
  simulate_restart s = Some s' ->
  quiet (ldev (lg s)) noL (bs s') /\
  n (header (lg s')) = 0 /\ disk (bs s') (start (lg s)) 0 = 0 /\
  crash_stage s' = crash_stage s /\
  start (lg s') = start (lg s) /\ size (lg s') = size (lg s) /\
  ldev (lg s') = ldev (lg s) /\ outstanding (lg s') = outstanding (lg s) /\
  committing (lg s') = committing (lg s) /\
  (forall j, 0 <= j < n (disk_header s) ->
     disk (bs s') (lblock (disk_header s) j) = disk (bs s) (start (lg s) + j + 1)) /\
  (forall b, b <> start (lg s) -> ~ listed (disk_header s) 0 b ->
     disk (bs s') b = disk (bs s) b).
Proof.
  intros (Hok & Hq & Hrg) Hh E. rewrite simulate_restart_eq in E.
  destruct (clear_cache_ok _ _ _ Hok Hrg Hq) as (Hok' & Hrg' & Hq' & Hd').
  apply (recover_after_clear (clear_cache (bs s)) s s'); [|exact Hd'|exact Hh|exact E].
  split; [exact Hok'|split; assumption].
Qed.

(** A state between system calls in which the log is empty, in memory and
    on disk. *)
Record clean (s : state) : Prop := mkClean {
  cl_quiet : quiet (ldev (lg s)) noL (bs s);
  cl_n : n (header (lg s)) = 0;
  cl_disk : disk (bs s) (start (lg s)) 0 = 0;
  cl_out : outstanding (lg s) = 0;
  cl_com : committing (lg s) = 0;
  cl_size : 0 < size (lg s) <= LOG_SIZE
}.

(** The log parameters two states share. *)
Definition same_log (s s' : state) : Prop :=
  start (lg s') = start (lg s) /\ size (lg s') = size (lg s) /\ ldev (lg s') = ldev (lg s).

Lemma to_int_0 : to_int 0 = 0.
Proof. reflexivity. Qed.

Lemma restart_clean (L : Z -> option block) (s s' : state) :
  quiet (ldev (lg s)) L (bs s) -> disk (bs s) (start (lg s)) 0 = 0 ->
  outstanding (lg s) = 0 -> committing (lg s) = 0 -> 0 < size (lg s) <= LOG_SIZE ->
  simulate_restart s = Some s' ->
  clean s' /\ same_log s s' /\
  (forall b, ~ in_log (lg s) b -> disk (bs s') b = disk (bs s) b).
Proof.
  intros Hq Hd Ho Hc Hsz E.
  assert (Hn : n (disk_header s) = 0) by (unfold disk_header; cbn_lg; rewrite Hd; reflexivity).
  destruct (simulate_restart_spec L s s' Hq (header_ok_empty _ _ (proj1 Hsz) Hn) E)
    as (Hq' & Hn' & Hd' & Hcs & Hst & Hsize & Hdv & Ho' & Hc' & _ & Hoth).
  split; [|split; [repeat split; assumption|]].
  - constructor; [rewrite Hdv; exact Hq'|congruence|rewrite Hst; exact Hd'|congruence
                 |congruence|rewrite Hsize; exact Hsz].
  - intros b Hb. apply Hoth.
    + intros ->. apply Hb. unfold in_log. lia.
    + intros (k & Hk & _). lia.
Qed.

(** A block a transaction may update: its number fits the [int] slots of
    the log header and it lies outside the log region. *)
Definition data_block (l : log_state) (b : Z) : Prop :=
  0 <= b < 0x80000000 /\ ~ in_log l b.

Lemma header_ok_params (l l' : log_state) :
  header_ok l -> start l' = start l -> size l' = size l -> header l' = header l ->
  header_ok l'.
Proof.
  intros Hh Hst Hsz Hhd. constructor; rewrite Hhd.
  - rewrite Hsz. apply (hk_n _ Hh).
  - apply (hk_distinct _ Hh).
  - intros k Hk. unfold in_log. rewrite Hst, Hsz. apply (hk_outside _ Hh k Hk).
Qed.

Lemma end_transaction_commit (s2 s3 : state) :
  outstanding (lg s2) = 1 -> committing (lg s2) = 0 ->
  end_transaction s2 = Some s3 ->
  exists s4, commit_transaction (set_committing 1 (set_outstanding 0 s2)) = Some s4 /\
             s3 = set_committing 0 s4.
Proof.
  intros Ho Hc E. unfold end_transaction in E. rewrite Ho in E.
  change (1 <? 1) with false in E. cbv iota zeta in E. cbn_lg in E. rewrite Hc in E.
  change (1 - 1) with 0 in E. change (0 =? 0) with true in E. cbn [negb] in E.
  destruct (commit_transaction _) as [s4|] eqn:Ec; cbn [obind] in E; [|discriminate].
  exists s4. split; [reflexivity|]. inversion E; reflexivity.
Qed.

Lemma apply_updates_agree (P : Z -> Prop) (ws : list (Z * (block -> block))) :
  forall d1 d2,
  (forall k, P k -> d1 k = d2 k) -> (forall b, In b (map fst ws) -> P b) ->
  forall k, P k -> apply_updates ws d1 k = apply_updates ws d2 k.
Proof.
  induction ws as [|[b f] ws IH]; intros d1 d2 H Hin k Hk; cbn [apply_updates]; [auto|].
  apply IH; [|intros x Hx; apply Hin; cbn [map fst In]; auto|exact Hk].
  intros j Hj. unfold updb. destruct (Z.eqb_spec j b); [|auto].
  rewrite (H b); [reflexivity|]. apply Hin. cbn [map fst In]. auto.
Qed.

Lemma cache_ok_init (D : Z) (d : Z -> block) : cache_ok D noL (bcache_init d).
Proof.
  constructor; unfold hashed; cbn_st.
  - intros h i [].
  - intros h. constructor.
  - intros i j [].
  - intros i [].
  - intros i _. split; reflexivity.
  - intros i [].
  - intros b c H. discriminate H.
Qed.

(** A freshly formatted disk (all zero), log at blocks 2..31, nothing cached. *)
Definition demo_fs : state :=
  mkState (bcache_init (fun _ _ => 0)) (mkLog 2 30 0 0 1 (mkHeader 0 (fun _ => 0))) 0.

Lemma demo_fs_clean : clean demo_fs.
Proof.
  constructor; unfold demo_fs; cbn_lg; try reflexivity.
  - split; [apply cache_ok_init|]. split; [reflexivity|apply range_init].
  - unfold LOG_SIZE. lia.
Qed.

Definition txA : list (Z * (block -> block)) := [(100, fun _ _ => 11)].
Definition txB : list (Z * (block -> block)) := [(100, fun _ _ => 22); (101, fun _ _ => 33)].
Definition txC : list (Z * (block -> block)) := [(102, fun _ _ => 44)].

Definition is_some {A : Type} (o : option A) : bool :=
  match o with Some _ => true | None => false end.

(** The scenario behind the original wording: a commit stopped at stage 1,
    then, with no restart in between, a commit stopped at stage 2 that
    touches the same block, then [clear_cache] and [recover_log]. *)
Definition mixed_stages : option (Z * Z) :=
  s1 <- transaction txA (set_crash_stage 1 demo_fs) ;;
  s2 <- transaction txB (set_crash_stage 2 s1) ;;
  s3 <- simulate_restart s2 ;;
  Some (disk (bs s3) 100 0, disk (bs s3) 101 0).

(** What blocks 100 and 101 hold after the transactions [ts] are applied
    to the empty disk. *)
Definition applied (ts : list (list (Z * (block -> block)))) : Z * Z :=
  let d := fold_left (fun d ws => apply_updates ws d) ts (disk (bs demo_fs)) in
  (d 100 0, d 101 0).

(** C2, counterexample to the original wording: recovery installs the first
    block of the stage-2 transaction and not its second one, so the disk is
    the result of no sub-sequence of the transactions. *)
Lemma recovery_installs_partial_transaction :
  mixed_stages = Some (22, 0) /\
  applied [] = (0, 0) /\ applied [txA] = (11, 0) /\
  applied [txB] = (22, 33) /\ applied [txA; txB] = (22, 33).
Proof.
  split; [vm_compute; reflexivity|]. repeat split.
Qed.


(** *** Crash tests

    A crash test is a sequence of the three things fstest.c does: set the
    hook ([set_crash_stage]), run a file-system operation (a transaction),
    and restart ([clear_cache] then [recover_log]).  The hook stays as it
    is until it is set again, so several commits can be cut short at the
    same stage before one restart. *)
Inductive step : Type :=
| SetStage (stage : Z)
| Tx (ws : list (Z * (block -> block)))
| SimulateRestart.

Definition run_step (st : step) (s : state) : option state :=
  match st with
  | SetStage stage => Some (set_crash_stage stage s)
  | Tx ws => transaction ws s
  | SimulateRestart => simulate_restart s
  end.

Fixpoint run_steps (l : list step) (s : state) : option state :=
  match l with
  | [] => Some s
  | st :: l' => s1 <- run_step st s ;; run_steps l' s1
  end.

(** The disk the test describes: every transaction whose commit got past
    stage 2 applied in order, the others dropped. *)
Fixpoint committed (l : list step) (stage : Z) (d : Z -> block) : Z -> block :=
  match l with
  | [] => d
  | SetStage st :: l' => committed l' st d
  | Tx ws :: l' => committed l' stage (if stage =? 2 then d else apply_updates ws d)
  | SimulateRestart :: l' => committed l' stage d
  end.

(** What is left in the log since the last restart or complete commit:
    nothing, commits cut short at stage 1, or commits cut short at stage 2. *)
Inductive mode : Type := Idle | Pending1 | Pending2.

(** Commits cut short at different stages are not mixed: after one cut at
    stage 2 nothing is committed before the next restart, and after one cut
    at stage 1 none is cut at stage 2 before the next restart or complete
    commit. *)
Definition after_tx (stage : Z) (m : mode) : option mode :=
  if stage =? 2 then match m with Pending1 => None | _ => Some Pending2 end
  else if stage =? 1 then match m with Pending2 => None | _ => Some Pending1 end
  else match m with Pending2 => None | _ => Some Idle end.

(** A test the claim is about: stages are not mixed, every transaction
    updates blocks outside the log region whose numbers fit an [int], and
    the blocks logged since the last restart or complete commit, counted
    with repetition, are fewer than the log has room for. *)
Fixpoint staged (l : log_state) (steps : list step) (stage : Z) (m : mode) (c : Z) : Prop :=
  match steps with
  | [] => True
  | SetStage st :: rest => staged l rest st m c
  | Tx ws :: rest =>
      (forall b, In b (map fst ws) -> data_block l b) /\
      c + Z.of_nat (length ws) < size l /\
      match after_tx stage m with
      | Some m' =>
          staged l rest stage m'
                 (match m' with Idle => 0 | _ => c + Z.of_nat (length ws) end)
      | None => False
      end
  | SimulateRestart :: rest => staged l rest stage Idle 0
  end.

(** The state between two steps: the log bookkeeping is consistent, the
    pinned blocks [L] are the ones the in-memory header lists, and what the
    disk holds depends on the mode.  [t] is the disk the steps so far
    describe. *)
Record pend (m : mode) (c : Z) (t : Z -> block) (L : Z -> option block) (s : state)
  : Prop := mkPend {
  pd_quiet : quiet (ldev (lg s)) L (bs s);
  pd_hdr : header_ok (lg s);
  pd_sync : sync L (header (lg s));
  pd_out : outstanding (lg s) = 0;
  pd_com : committing (lg s) = 0;
  pd_size : 0 < size (lg s) <= LOG_SIZE;
  pd_count : n (header (lg s)) <= c;
  pd_range : forall b, L b <> None -> 0 <= b < 0x80000000;
  pd_mode :
    match m with
    | Idle =>
        n (header (lg s)) = 0 /\ disk (bs s) (start (lg s)) 0 = 0 /\
        (forall b, ~ in_log (lg s) b -> disk (bs s) b = t b)
    | Pending1 =>
        disk (bs s) (start (lg s)) 0 = of_int (n (header (lg s))) /\
        (forall k, 0 <= k < n (header (lg s)) ->
           disk (bs s) (start (lg s)) (1 + k) = of_int (lblock (header (lg s)) k)) /\
        (forall j, 0 <= j < n (header (lg s)) ->
           disk (bs s) (start (lg s) + j + 1)
           = lview L (disk (bs s)) (lblock (header (lg s)) j)) /\
        (forall b, ~ in_log (lg s) b -> lview L (disk (bs s)) b = t b)
    | Pending2 =>
        disk (bs s) (start (lg s)) 0 = 0 /\
        (forall b, ~ in_log (lg s) b -> disk (bs s) b = t b)
    end
}.

Lemma clean_pend (s : state) : clean s -> pend Idle 0 (disk (bs s)) noL s.
Proof.
  intros [Hq Hn Hd Ho Hcm Hsz]. constructor; try assumption.
  - constructor; rewrite Hn; [lia|intros; lia|intros; lia].
  - intros b. split; [intros H; elim H; reflexivity|].
    intros (k & Hk & _). lia.
  - lia.
  - intros b H. elim H. reflexivity.
  - split; [exact Hn|]. split; [exact Hd|]. reflexivity.
Qed.

Lemma sync_empty (L : Z -> option block) (h : log_header) :
  sync L h -> n h = 0 -> forall b, L b = None.
Proof.
  intros Hs Hn b. destruct (L b) eqn:E; [|reflexivity].
  assert (Hl : listed h 0 b) by (apply Hs; congruence).
  destruct Hl as (k & Hk & _). lia.
Qed.

Lemma pend_clean (c : Z) (t : Z -> block) (L : Z -> option block) (s : state) :
  pend Idle c t L s -> clean s.
Proof.
  intros [Hq Hh Hs Ho Hcm Hsz _ _ (Hn & Hd & _)].
  constructor; try assumption.
  apply (quiet_ext _ L); [|exact Hq]. intros b. apply (sync_empty L _ Hs Hn).
Qed.

(** What the pinned blocks and the disk show outside the log region, in
    every mode but [Pending1], is the disk itself. *)
Lemma lview_None (L : Z -> option block) (d : Z -> block) (b : Z) :
  L b = None -> lview L d b = d b.
Proof. intros H. unfold lview. rewrite H. reflexivity. Qed.

Lemma lift_r_lg {A : Type} (f : bstate -> option (A * bstate)) (s : state) (a : A)
    (s' : state) :
  lift_r f s = Some (a, s') -> lg s' = lg s.
Proof. intros H. apply lift_r_Some in H. destruct H as (b & _ & ->). reflexivity. Qed.

Lemma lift_lg (f : bstate -> option bstate) (s s' : state) :
  lift f s = Some s' -> lg s' = lg s.
Proof. intros H. apply lift_Some in H. destruct H as (b & _ & ->). reflexivity. Qed.

(** [log_block_write] appends at most one block number. *)
Lemma log_block_write_n (i : nat) (s s' : state) :
  Log.log_block_write i s = Some s' ->
  n (header (lg s)) <= n (header (lg s')) <= n (header (lg s)) + 1.
Proof.
  unfold Log.log_block_write. intros H.
  destruct (_ >=? size (lg s)); [discriminate H|].
  destruct (_ >=? LOG_SIZE); [discriminate H|].
  destruct (_ <? 1); [discriminate H|].
  destruct (_ =? n (header (lg s))); injection H as <-; cbn_lg; lia.
Qed.

Lemma logged_update_n (b : Z) (f : block -> block) (s s' : state) :
  logged_update b f s = Some s' ->
  n (header (lg s)) <= n (header (lg s')) <= n (header (lg s)) + 1.
Proof.
  unfold logged_update. intros H.
  destruct (lift_r _ s) as [[bp s1]|] eqn:E1; cbn [obind] in H; [|discriminate H].
  apply lift_r_lg in E1.
  destruct (Log.log_block_write bp _) as [s3|] eqn:E3; cbn [obind] in H; [|discriminate H].
  apply log_block_write_n in E3. cbn_lg in E3. apply lift_lg in H.
  rewrite H. rewrite E1 in E3. exact E3.
Qed.

Lemma logged_updates_n (ws : list (Z * (block -> block))) : forall (s s' : state),
  logged_updates ws s = Some s' ->
  n (header (lg s)) <= n (header (lg s')) <= n (header (lg s)) + Z.of_nat (length ws).
Proof.
  induction ws as [|[b f] ws IH]; intros s s' H; cbn [logged_updates] in H.
  - injection H as <-. cbn [length]. lia.
  - destruct (logged_update b f s) as [s1|] eqn:E1; cbn [obind] in H; [|discriminate H].
    apply logged_update_n in E1. apply IH in H. cbn [length]. lia.
Qed.

(** A commit cut short leaves [g_log] as it was. *)
Lemma commit_cut_short_lg (L : Z -> option block) (s s' : state) :
  quiet (ldev (lg s)) L (bs s) -> header_ok (lg s) -> sync L (header (lg s)) ->
  crash_stage s = 1 \/ crash_stage s = 2 ->
  commit_transaction s = Some s' -> lg s' = lg s.
Proof.
  intros Hq Hh Hs Hst. unfold commit_transaction.
  destruct (n (header (lg s)) =? 0); [intros H; injection H as <-; reflexivity|].
  unfold write_log_blocks.
  destruct (write_log_blocks_loop _ 0 s) as [s1|] eqn:E1; cbn [obind]; [|discriminate].
  pose proof (hk_n _ Hh) as Hn0.
  destruct (write_log_blocks_loop_spec L (Z.to_nat (n (header (lg s)))) 0 s s1 Hq Hh)
    with (5 := E1) as (Hq1 & Hl1 & Hc1 & _).
  { apply sync_log_None; assumption. }
  { intros j Hj. apply Hs. exists j. auto. }
  { lia. }
  { rewrite Z2Nat.id by lia. lia. }
  rewrite Hc1. destruct (Z.eqb_spec (crash_stage s) 2) as [|H2].
  - intros H; injection H as <-. exact Hl1.
  - destruct (write_log_header s1) as [s2|] eqn:E2; cbn [obind]; [|discriminate].
    assert (HL : L (start (lg s1)) = None).
    { rewrite Hl1. apply (sync_log_None L (lg s) Hs Hh). unfold in_log. lia. }
    destruct (write_log_header_spec L s1 s2 ltac:(rewrite Hl1; exact Hq1) HL E2)
      as (_ & Hl2 & Hc2 & _).
    rewrite Hc2, Hc1. destruct (Z.eqb_spec (crash_stage s) 1) as [|H1]; [|lia].
    intros H; injection H as <-. congruence.
Qed.

Lemma of_int_0 : of_int 0 = 0.
Proof. reflexivity. Qed.

Ltac outside_log Hb H1 H2 :=
  let Hx := fresh "Hx" in
  intros Hx; apply Hb; unfold in_log in Hx |- *; cbn_lg in Hx;
  rewrite ?H1, ?H2 in Hx; exact Hx.

(** One transaction, whatever the log holds from commits cut short
    before, as long as the stages are not mixed. *)
Lemma tx_step (ws : list (Z * (block -> block))) (m m' : mode) (c : Z) (t : Z -> block)
    (L : Z -> option block) (s s' : state) :
  pend m c t L s -> after_tx (crash_stage s) m = Some m' ->
  (forall b, In b (map fst ws) -> data_block (lg s) b) ->
  c + Z.of_nat (length ws) < size (lg s) ->
  transaction ws s = Some s' ->
  same_log s s' /\ crash_stage s' = crash_stage s /\
  exists L',
    pend m' (match m' with Idle => 0 | _ => c + Z.of_nat (length ws) end)
         (if crash_stage s =? 2 then t else apply_updates ws t) L' s'.
Proof.
  intros [Hq Hh Hs Ho Hcm Hsz Hcnt Hrg Hm] Haft Hblocks Hroom E.
  unfold transaction in E.
  destruct (begin_transaction s) as [s1|] eqn:Eb; cbn [obind] in E; [|discriminate E].
  unfold begin_transaction in Eb. rewrite Hcm, Ho in Eb.
  change (0 =? 0) with true in Eb. cbn [negb] in Eb.
  destruct (_ >? _) in Eb; [discriminate Eb|]. injection Eb as <-.
  set (s1 := set_outstanding 1 s) in *.
  destruct (logged_updates ws s1) as [s2|] eqn:El; cbn [obind] in E; [|discriminate E].
  pose proof (logged_updates_n ws s1 s2 El) as Hmono. unfold s1 in Hmono. cbn_lg in Hmono.
  pose proof (hk_n _ Hh) as Hn0.
  destruct (logged_updates_spec ws L s1 s2) with (6 := El)
    as (L' & Hq2 & Hh2 & Hs2 & Hd2 & Hc2 & Hst2 & Hsz2 & Hdv2 & Ho2 & Hcm2 & Hsub & Hview).
  { exact Hq. }
  { apply (header_ok_params (lg s)); auto. }
  { exact Hs. }
  { intros b Hb. destruct (Hblocks b Hb) as [_ H]. exact H. }
  { unfold s1. cbn_lg. lia. }
  unfold s1 in Hq2, Hd2, Hc2, Hst2, Hsz2, Hdv2, Ho2, Hcm2, Hview.
  cbn_lg in Hq2. cbn_lg in Hd2. cbn_lg in Hc2. cbn_lg in Hst2. cbn_lg in Hsz2.
  cbn_lg in Hdv2. cbn_lg in Ho2. cbn_lg in Hcm2. cbn_lg in Hview.
  destruct (end_transaction_commit s2 s' Ho2 ltac:(congruence) E) as (s4 & Ec & ->).
  set (sc := set_committing 1 (set_outstanding 0 s2)) in *.
  assert (Hqc : quiet (ldev (lg sc)) L' (bs sc)) by (unfold sc; cbn_lg; rewrite Hdv2; exact Hq2).
  assert (Hhc : header_ok (lg sc)) by (apply (header_ok_params (lg s2)); auto).
  assert (Hil : forall b, in_log (lg sc) b <-> in_log (lg s) b).
  { intros b. unfold in_log, sc. cbn_lg. rewrite Hst2, Hsz2. reflexivity. }
  assert (Hrg' : forall b, L' b <> None -> 0 <= b < 0x80000000).
  { intros b Hb. destruct (Hsub b Hb) as [H|H]; [exact (Hrg b H)|].
    destruct (Hblocks b H) as [H' _]. exact H'. }
  assert (Hstart : in_log (lg s) (start (lg s))) by (unfold in_log; lia).
  (* what the pinned blocks show after the updates *)
  assert (Hnew : (forall b, ~ in_log (lg s) b -> lview L (disk (bs s)) b = t b) ->
                 forall b, ~ in_log (lg s) b ->
                 lview L' (disk (bs s)) b = apply_updates ws t b).
  { intros Hold b Hb. rewrite Hview.
    apply (apply_updates_agree (fun k => ~ in_log (lg s) k)); [exact Hold| |exact Hb].
    intros x Hx. destruct (Hblocks x Hx) as [_ H]. exact H. }
  assert (Hidle : m = Idle -> forall b, lview L (disk (bs s)) b = disk (bs s) b).
  { intros -> b. destruct Hm as (Hn & _). apply lview_None. exact (sync_empty L _ Hs Hn b). }
  (* a commit that is cut short, or has nothing to do *)
  assert (Hcut : crash_stage s = 1 \/ crash_stage s = 2 \/ n (header (lg s2)) = 0 ->
                 lg s4 = lg sc).
  { intros Hx. destruct (Z.eq_dec (n (header (lg s2))) 0) as [Hz|Hz].
    - unfold commit_transaction in Ec. unfold sc in Ec. cbn_lg in Ec. rewrite Hz in Ec.
      change (0 =? 0) with true in Ec. cbv iota in Ec. injection Ec as <-. reflexivity.
    - apply (commit_cut_short_lg L' sc s4 Hqc Hhc Hs2); [|exact Ec].
      unfold sc. cbn_lg. rewrite Hc2. destruct Hx as [H|[H|H]]; auto. contradiction. }
  assert (Hbase : quiet (ldev (lg s)) L' (bs s4) /\
                  (forall b, ~ in_log (lg s) b -> disk (bs s4) b = disk (bs s) b) /\
                  disk (bs s4) (start (lg s)) = disk (bs s) (start (lg s)) \/
                  n (header (lg s2)) <> 0 /\ crash_stage s <> 2).
  { destruct (Z.eq_dec (n (header (lg s2))) 0) as [Hz|Hz].
    - left. unfold commit_transaction in Ec. unfold sc in Ec. cbn_lg in Ec. rewrite Hz in Ec.
      change (0 =? 0) with true in Ec. cbv iota in Ec. injection Ec as <-. cbn_lg.
      rewrite Hd2. split; [exact Hq2|]. split; reflexivity.
    - destruct (Z.eq_dec (crash_stage s) 2) as [H2|H2]; [left|right; auto].
      destruct (commit_transaction_spec L' sc s4 Hqc Hhc Hs2 Hz Ec)
        as (_ & _ & _ & _ & _ & _ & Hnl4 & Hstage2 & _).
      unfold sc in Hnl4, Hstage2. cbn_lg in Hnl4. cbn_lg in Hstage2. rewrite Hc2 in *.
      destruct (Hstage2 H2) as (Hq4 & Hd4). rewrite Hdv2 in Hq4. rewrite Hst2, Hd2 in Hd4.
      split; [exact Hq4|]. split; [|exact Hd4].
      intros b Hb. rewrite Hnl4 by (outside_log Hb Hst2 Hsz2).
      rewrite H2. cbn [Z.eqb Pos.eqb orb]. rewrite Hd2. reflexivity. }
  split; [repeat split; cbn_lg|].
  { destruct (Z.eq_dec (n (header (lg s2))) 0) as [Hz|Hz].
    - rewrite (Hcut (or_intror (or_intror Hz))). unfold sc. cbn_lg. exact Hst2.
    - destruct (commit_transaction_spec L' sc s4 Hqc Hhc Hs2 Hz Ec) as (_ & H & _).
      rewrite H. unfold sc. cbn_lg. exact Hst2. }
  { destruct (Z.eq_dec (n (header (lg s2))) 0) as [Hz|Hz].
    - rewrite (Hcut (or_intror (or_intror Hz))). unfold sc. cbn_lg. exact Hsz2.
    - destruct (commit_transaction_spec L' sc s4 Hqc Hhc Hs2 Hz Ec) as (_ & _ & H & _).
      rewrite H. unfold sc. cbn_lg. exact Hsz2. }
  { destruct (Z.eq_dec (n (header (lg s2))) 0) as [Hz|Hz].
    - rewrite (Hcut (or_intror (or_intror Hz))). unfold sc. cbn_lg. exact Hdv2.
    - destruct (commit_transaction_spec L' sc s4 Hqc Hhc Hs2 Hz Ec) as (_ & _ & _ & H & _).
      rewrite H. unfold sc. cbn_lg. exact Hdv2. }
  split.
  { cbn_lg. destruct (Z.eq_dec (n (header (lg s2))) 0) as [Hz|Hz].
    - unfold commit_transaction in Ec. unfold sc in Ec. cbn_lg in Ec. rewrite Hz in Ec.
      change (0 =? 0) with true in Ec. cbv iota in Ec. injection Ec as <-. exact Hc2.
    - destruct (commit_transaction_spec L' sc s4 Hqc Hhc Hs2 Hz Ec) as (H & _).
      rewrite H. unfold sc. cbn_lg. exact Hc2. }
  unfold after_tx in Haft.
  destruct (Z.eqb_spec (crash_stage s) 2) as [H2|H2].
  - (* stage 2: nothing reaches the header block *)
    assert (Hm2 : disk (bs s) (start (lg s)) 0 = 0 /\
                  (forall b, ~ in_log (lg s) b -> disk (bs s) b = t b)).
    { destruct m; [destruct Hm as (_ & H1 & H2'); auto|discriminate Haft|exact Hm]. }
    assert (Em : m' = Pending2) by (destruct m; congruence). subst m'.
    destruct Hbase as [(Hq4 & Hnl4 & Hd4)|[_ Hx]]; [|contradiction].
    pose proof (Hcut (or_intror (or_introl H2))) as Hl4.
    exists L'. constructor; cbn_lg; rewrite ?Hl4; unfold sc; cbn_lg.
    + rewrite Hdv2. exact Hq4.
    + apply (header_ok_params (lg s2)); auto.
    + exact Hs2.
    + reflexivity.
    + reflexivity.
    + rewrite Hsz2. exact Hsz.
    + lia.
    + exact Hrg'.
    + rewrite Hst2, Hsz2. split.
      * rewrite Hd4. apply Hm2.
      * intros b Hb. unfold in_log in Hb. cbn_lg in Hb. rewrite ?Hst2, ?Hsz2 in Hb.
        rewrite Hnl4 by exact Hb. apply Hm2. exact Hb.
  - assert (Hold : forall b, ~ in_log (lg s) b -> lview L (disk (bs s)) b = t b).
    { destruct m.
      - intros b Hb. rewrite (Hidle eq_refl). destruct Hm as (_ & _ & H). apply H. exact Hb.
      - destruct Hm as (_ & _ & _ & H). exact H.
      - destruct (crash_stage s =? 1); discriminate Haft. }
    pose proof (Hnew Hold) as Hnew'.
    destruct (Z.eqb_spec (crash_stage s) 1) as [H1|H1].
    + (* stage 1: the header is on the disk *)
      assert (Em : m' = Pending1) by (destruct m; congruence). subst m'.
      pose proof (Hcut (or_introl H1)) as Hl4.
      assert (Hw0 : disk (bs s) (start (lg s)) 0 = of_int (n (header (lg s))) ).
      { destruct m; [destruct Hm as (Hn & Hd & _); rewrite Hn, Hd; reflexivity
                    |destruct Hm as (H & _); exact H|discriminate Haft]. }
      exists L'. constructor; cbn_lg; rewrite ?Hl4; unfold sc; cbn_lg.
      * rewrite Hdv2. destruct Hbase as [(Hq4 & _)|[Hz _]]; [exact Hq4|].
        destruct (commit_transaction_spec L' sc s4 Hqc Hhc Hs2 Hz Ec)
          as (_ & _ & _ & _ & _ & _ & _ & _ & Hstage1 & _).
        unfold sc in Hstage1. cbn_lg in Hstage1. rewrite Hc2, Hdv2 in Hstage1.
        apply (Hstage1 H1).
      * apply (header_ok_params (lg s2)); auto.
      * exact Hs2.
      * reflexivity.
      * reflexivity.
      * rewrite Hsz2. exact Hsz.
      * lia.
      * exact Hrg'.
      * rewrite Hst2.
        destruct (Z.eq_dec (n (header (lg s2))) 0) as [Hz|Hz].
        -- destruct Hbase as [(Hq4 & Hnl4 & Hd4)|[Hx _]]; [|contradiction].
           rewrite Hz. split; [|split; [intros; lia|split; [intros; lia|]]].
           ++ rewrite Hd4, Hw0. assert (n (header (lg s)) = 0) by lia. congruence.
           ++ intros b Hb. unfold in_log in Hb. cbn_lg in Hb. rewrite ?Hst2, ?Hsz2 in Hb.
              rewrite <- (Hnew' b Hb). unfold lview.
              destruct (L' b); [reflexivity|]. apply Hnl4. exact Hb.
        -- destruct (commit_transaction_spec L' sc s4 Hqc Hhc Hs2 Hz Ec)
             as (_ & _ & _ & _ & _ & _ & Hnl4 & _ & Hstage1 & _).
           unfold sc in Hnl4, Hstage1. cbn_lg in Hnl4. cbn_lg in Hstage1.
           rewrite Hc2, Hst2 in *.
           destruct (Hstage1 H1) as (Hq4 & Hd4 & Hslots).
           assert (Hout : forall b, ~ in_log (lg s) b -> disk (bs s4) b = disk (bs s) b).
           { intros b Hb. rewrite Hnl4 by (outside_log Hb Hst2 Hsz2).
             rewrite H1. cbn [Z.eqb Pos.eqb orb]. rewrite Hd2. reflexivity. }
           assert (Hlv4 : forall b, ~ in_log (lg s) b ->
                          lview L' (disk (bs s4)) b = lview L' (disk (bs s)) b).
           { intros b Hb. unfold lview. destruct (L' b); [reflexivity|]. apply Hout. exact Hb. }
           assert (Hlo : forall j, 0 <= j < n (header (lg s2)) ->
                         ~ in_log (lg s) (lblock (header (lg s2)) j)).
           { intros j Hj Hx. apply (hk_outside _ Hh2 j Hj). unfold in_log.
             rewrite Hst2, Hsz2. exact Hx. }
           split; [|split; [|split]].
           ++ rewrite Hd4. unfold hdr_image. reflexivity.
           ++ intros k Hk. rewrite Hd4. unfold hdr_image.
              destruct (Z.eqb_spec (1 + k) 0); [lia|].
              destruct (Z.leb_spec 1 (1 + k)); [|lia].
              destruct (Z.leb_spec (1 + k) (n (header (lg s2)))); [|lia].
              cbn [andb]. f_equal. f_equal. lia.
           ++ intros j Hj. rewrite (Hslots j Hj), Hd2.
              symmetry. apply Hlv4. apply Hlo. exact Hj.
           ++ intros b Hb. unfold in_log in Hb. cbn_lg in Hb. rewrite ?Hst2, ?Hsz2 in Hb.
              rewrite (Hlv4 b Hb). apply Hnew'. exact Hb.
    + (* the commit runs to its end *)
      assert (Em : m' = Idle) by (destruct m; congruence). subst m'.
      destruct (Z.eq_dec (n (header (lg s2))) 0) as [Hz|Hz].
      * destruct Hbase as [(Hq4 & Hnl4 & Hd4)|[Hx _]]; [|contradiction].
        pose proof (Hcut (or_intror (or_intror Hz))) as Hl4.
        assert (Hw0 : disk (bs s) (start (lg s)) 0 = 0).
        { destruct m; [destruct Hm as (_ & Hd & _); exact Hd| |discriminate Haft].
          destruct Hm as (H & _). rewrite H. assert (E0 : n (header (lg s)) = 0) by lia.
          rewrite E0. reflexivity. }
        exists L'. constructor; cbn_lg; rewrite ?Hl4; unfold sc; cbn_lg.
        -- rewrite Hdv2. exact Hq4.
        -- apply (header_ok_params (lg s2)); auto.
        -- exact Hs2.
        -- reflexivity.
        -- reflexivity.
        -- rewrite Hsz2. exact Hsz.
        -- lia.
        -- exact Hrg'.
        -- rewrite Hst2, Hsz2. split; [exact Hz|]. split; [rewrite Hd4; exact Hw0|].
           intros b Hb. unfold in_log in Hb. cbn_lg in Hb. rewrite ?Hst2, ?Hsz2 in Hb.
           rewrite <- (Hnew' b Hb). unfold lview.
           rewrite (sync_empty L' _ Hs2 Hz b). apply Hnl4. exact Hb.
      * destruct (commit_transaction_spec L' sc s4 Hqc Hhc Hs2 Hz Ec)
          as (_ & Hst4 & Hsz4 & Hdv4 & Ho4 & Hcm4 & Hnl4 & _ & _ & Hstage0).
        unfold sc in Hst4, Hsz4, Hdv4, Ho4, Hnl4, Hstage0.
        cbn_lg in Hst4. cbn_lg in Hsz4. cbn_lg in Hdv4. cbn_lg in Ho4.
        cbn_lg in Hnl4. cbn_lg in Hstage0. rewrite Hc2 in *.
        destruct (Hstage0 H2 H1) as (Hq4 & Hn4 & Hd4).
        exists noL. constructor; cbn_lg.
        -- rewrite Hdv4, Hdv2. rewrite Hdv2 in Hq4. exact Hq4.
        -- constructor; cbn_lg; rewrite Hn4; [rewrite Hsz4, Hsz2; lia|intros; lia|intros; lia].
        -- intros b. split; [intros H; elim H; reflexivity|].
           intros (k & Hk & _). cbn_lg in Hk. lia.
        -- exact Ho4.
        -- reflexivity.
        -- rewrite Hsz4, Hsz2. exact Hsz.
        -- lia.
        -- intros b H. elim H. reflexivity.
        -- rewrite Hst4, Hst2. split; [exact Hn4|]. split; [rewrite Hst2 in Hd4; exact Hd4|].
           intros b Hb. unfold in_log in Hb. cbn_lg in Hb. rewrite ?Hst4, ?Hsz4, ?Hst2, ?Hsz2 in Hb.
           rewrite Hnl4 by (outside_log Hb Hst2 Hsz2).
           destruct (Z.eqb_spec (crash_stage s) 2); [contradiction|].
           destruct (Z.eqb_spec (crash_stage s) 1); [contradiction|]. cbn [orb].
           rewrite Hd2. apply Hnew'. exact Hb.
Qed.

(** A restart, whatever the log holds: what stage 1 left is installed, what
    stage 2 left is dropped. *)
Lemma restart_step (m : mode) (c : Z) (t : Z -> block) (L : Z -> option block)
    (s s' : state) :
  pend m c t L s -> simulate_restart s = Some s' ->
  same_log s s' /\ crash_stage s' = crash_stage s /\ pend Idle 0 t noL s'.
Proof.
  intros [Hq Hh Hs Ho Hcm Hsz Hcnt Hrg Hm] E.
  pose proof (hk_n _ Hh) as Hn0.
  assert (Hdh : n (disk_header s) = (match m with Pending1 => n (header (lg s)) | _ => 0 end)
                /\ (forall k, 0 <= k < n (disk_header s) ->
                      lblock (disk_header s) k = lblock (header (lg s)) k)).
  { unfold disk_header. cbn_lg. destruct m.
    - destruct Hm as (_ & Hd & _). rewrite Hd. split; [reflexivity|]. intros k Hk.
      change (to_int 0) with 0 in Hk. lia.
    - destruct Hm as (Hw0 & Hwk & _). rewrite Hw0.
      assert (En : to_int (of_int (n (header (lg s)))) = n (header (lg s))).
      { apply to_int_of_int. unfold LOG_SIZE in Hsz. lia. }
      rewrite En. split; [reflexivity|]. intros k Hk. rewrite (Hwk k Hk).
      apply to_int_of_int. apply Hrg. apply Hs. exists k. auto.
    - destruct Hm as (Hd & _). rewrite Hd. split; [reflexivity|]. intros k Hk.
      change (to_int 0) with 0 in Hk. lia. }
  destruct Hdh as (Hdn & Hdb).
  assert (Hht : header_ok (set_header (disk_header s) (lg s))).
  { destruct m; [apply header_ok_empty; [lia|exact Hdn]| |apply header_ok_empty; [lia|exact Hdn]].
    apply header_ok_ext; [exact Hh|exact Hdn|exact Hdb]. }
  destruct (simulate_restart_spec L s s' Hq Hht E)
    as (Hq' & Hn' & Hd' & Hcs' & Hst' & Hsz' & Hdv' & Ho' & Hcm' & Hins & Hoth).
  split; [repeat split; assumption|]. split; [exact Hcs'|].
  constructor.
  - rewrite Hdv'. exact Hq'.
  - constructor; rewrite Hn'; [rewrite Hsz'; lia|intros; lia|intros; lia].
  - intros b. split; [intros H; elim H; reflexivity|]. intros (k & Hk & _). lia.
  - congruence.
  - congruence.
  - rewrite Hsz'. exact Hsz.
  - lia.
  - intros b H. elim H. reflexivity.
  - rewrite Hst'. split; [exact Hn'|]. split; [exact Hd'|].
    intros b Hb. unfold in_log in Hb. rewrite Hst', Hsz' in Hb.
    assert (Hbs : b <> start (lg s)) by (intros ->; apply Hb; lia).
    destruct m.
    + destruct Hm as (_ & _ & Hdisk). rewrite Hoth; [apply Hdisk; exact Hb|exact Hbs|].
      intros (k & Hk & _). lia.
    + destruct Hm as (_ & _ & Hslots & Hlv). rewrite <- (Hlv b Hb).
      destruct (L b) eqn:EL.
      * assert (Hl : listed (header (lg s)) 0 b) by (apply Hs; congruence).
        destruct Hl as (k & Hk & He).
        rewrite <- He, <- (Hdb k ltac:(rewrite Hdn; exact Hk)).
        rewrite (Hins k ltac:(rewrite Hdn; exact Hk)). rewrite (Hslots k Hk).
        rewrite (Hdb k ltac:(rewrite Hdn; exact Hk)). reflexivity.
      * rewrite (lview_None L _ b EL). apply Hoth; [exact Hbs|].
        intros (k & Hk & He). rewrite Hdn in Hk. rewrite (Hdb k ltac:(rewrite Hdn; exact Hk)) in He.
        assert (Hl : L b <> None) by (apply Hs; exists k; auto). contradiction.
    + destruct Hm as (_ & Hdisk). rewrite Hoth; [apply Hdisk; exact Hb|exact Hbs|].
      intros (k & Hk & _). lia.
Qed.

Lemma pend_set_stage (stage : Z) (m : mode) (c : Z) (t : Z -> block)
    (L : Z -> option block) (s : state) :
  pend m c t L s -> pend m c t L (set_crash_stage stage s).
Proof. intros [H1 H2 H3 H4 H5 H6 H7 H8 H9]. constructor; assumption. Qed.

Lemma staged_same_log (l l' : log_state) (steps : list step) :
  start l' = start l -> size l' = size l ->
  forall stage m c, staged l steps stage m c -> staged l' steps stage m c.
Proof.
  intros Hst Hsz. induction steps as [|[st|ws|] rest IH]; intros stage m c H;
    cbn [staged] in *; auto.
  destruct H as (Hb & Hr & H). split; [|split; [rewrite Hsz; exact Hr|]].
  - intros b Hin. destruct (Hb b Hin) as [H1 H2]. split; [exact H1|].
    unfold in_log. rewrite Hst, Hsz. exact H2.
  - destruct (after_tx stage m); [apply IH; exact H|exact H].
Qed.

Lemma run_steps_cons (st : step) (l : list step) (s s' : state) :
  run_steps (st :: l) s = Some s' ->
  exists s1, run_step st s = Some s1 /\ run_steps l s1 = Some s'.
Proof.
  cbn [run_steps]. destruct (run_step st s) as [s1|]; cbn [obind]; [|discriminate].
  intros H. exists s1. split; [reflexivity|exact H].
Qed.

Lemma run_step_restart (s : state) : run_step SimulateRestart s = simulate_restart s.
Proof. reflexivity. Qed.

Lemma run_step_tx (ws : list (Z * (block -> block))) (s : state) :
  run_step (Tx ws) s = transaction ws s.
Proof. reflexivity. Qed.

Lemma run_step_stage (stage : Z) (s : state) :
  run_step (SetStage stage) s = Some (set_crash_stage stage s).
Proof. reflexivity. Qed.

(** The steps of a test, from any state between two steps. *)
Lemma run_steps_pend (steps : list step) :
  forall (m : mode) (c : Z) (t : Z -> block) (L : Z -> option block) (s s' : state),
  pend m c t L s -> staged (lg s) steps (crash_stage s) m c ->
  run_steps (steps ++ [SimulateRestart]) s = Some s' ->
  same_log s s' /\ pend Idle 0 (committed steps (crash_stage s) t) noL s'.
Proof.
  induction steps as [|[st|ws|] rest IH]; intros m c t L s s' Hp Hst E.
  - rewrite app_nil_l in E. apply run_steps_cons in E. destruct E as (s1 & E1 & E).
    rewrite run_step_restart in E1. cbn [run_steps] in E. injection E as <-.
    destruct (restart_step m c t L s s1 Hp E1) as (Hsl & _ & Hp1).
    split; [exact Hsl|exact Hp1].
  - rewrite <- app_comm_cons in E. apply run_steps_cons in E. destruct E as (s1 & E1 & E).
    rewrite run_step_stage in E1. injection E1 as <-.
    cbn [staged] in Hst. cbn [committed].
    destruct (IH m c t L (set_crash_stage st s) s' (pend_set_stage st m c t L s Hp) Hst E)
      as (Hsl & Hp').
    split; [exact Hsl|exact Hp'].
  - rewrite <- app_comm_cons in E. apply run_steps_cons in E. destruct E as (s1 & E1 & E).
    rewrite run_step_tx in E1.
    cbn [staged] in Hst. cbn [committed].
    destruct Hst as (Hb & Hr & Hst).
    destruct (after_tx (crash_stage s) m) as [m'|] eqn:Ea; [|contradiction].
    destruct (tx_step ws m m' c t L s s1 Hp Ea Hb Hr E1) as ((H1 & H2 & H3) & Hcs & L' & Hp1).
    destruct (IH m' _ _ L' s1 s' Hp1) with (2 := E) as ((H1' & H2' & H3') & Hp').
    { rewrite Hcs. apply (staged_same_log (lg s)); assumption. }
    rewrite Hcs in Hp'. split; [repeat split; congruence|exact Hp'].
  - rewrite <- app_comm_cons in E. apply run_steps_cons in E. destruct E as (s1 & E1 & E).
    rewrite run_step_restart in E1.
    cbn [staged] in Hst. cbn [committed].
    destruct (restart_step m c t L s s1 Hp E1) as ((H1 & H2 & H3) & Hcs & Hp1).
    destruct (IH Idle 0 t noL s1 s' Hp1) with (2 := E) as ((H1' & H2' & H3') & Hp').
    { rewrite Hcs. apply (staged_same_log (lg s)); assumption. }
    rewrite Hcs in Hp'. split; [repeat split; congruence|exact Hp'].
Qed.

(** C2 (as amended).  A crash test on a log that is clean at the start:
    any sequence of [set_crash_stage], transactions and restarts
    ([clear_cache] then [recover_log]) in which commits cut short at
    different stages are not mixed between two restarts, ended by a
    restart.  If the test runs to its end, the log is clean again and every
    block outside the log region holds the result of applying, in order,
    the updates of exactly the transactions run with [crash_stage] other
    than 2: what stage 2 cut short is dropped by recovery, what stage 1 cut
    short is installed by recovery, however many commits were cut short
    before the restart. *)
Theorem recovery_applies_committed (steps : list step) (s s' : state) :
  clean s -> staged (lg s) steps (crash_stage s) Idle 0 ->
  run_steps (steps ++ [SimulateRestart]) s = Some s' ->
  clean s' /\ same_log s s' /\
  (forall b, ~ in_log (lg s) b ->
     disk (bs s') b = committed steps (crash_stage s) (disk (bs s)) b).
Proof.
  intros Hc Hst E.
  destruct (run_steps_pend steps Idle 0 (disk (bs s)) noL s s' (clean_pend s Hc) Hst E)
    as (Hsl & Hp).
  split; [exact (pend_clean _ _ _ _ Hp)|]. split; [exact Hsl|].
  intros b Hb. destruct Hp as [_ _ _ _ _ _ _ _ (_ & _ & Hd)]. apply Hd.
  destruct Hsl as (H1 & H2 & _). unfold in_log. rewrite H1, H2. exact Hb.
Qed.

(** The crash-recovery test of fstest.c in small: two transactions under
    stage 1 and a restart, two under stage 2 and a restart, one complete
    commit. *)
Definition demo_steps : list step :=
  [SetStage 1; Tx txA; Tx txB; SetStage 0; SimulateRestart;
   SetStage 2; Tx txC; Tx txA; SetStage 0; SimulateRestart;
   Tx txC].

Lemma demo_steps_staged : staged (lg demo_fs) demo_steps (crash_stage demo_fs) Idle 0.
Proof.
  assert (H : forall b, b = 100 \/ b = 101 \/ b = 102 -> data_block (lg demo_fs) b).
  { intros b Hb. split; [lia|]. unfold in_log, demo_fs. cbn_lg. lia. }
  unfold demo_steps. cbn [staged after_tx Z.eqb Pos.eqb crash_stage demo_fs].
  do 5 (split; [intros b Hb; apply H; cbn [txA txB txC map fst In] in Hb; lia
               |split; [reflexivity|]]).
  exact I.
Qed.

Lemma recovery_applies_committed_witness :
  exists s',
    run_steps (demo_steps ++ [SimulateRestart]) demo_fs = Some s' /\
    clean s' /\ same_log demo_fs s' /\
    (forall b, ~ in_log (lg demo_fs) b ->
       disk (bs s') b = committed demo_steps (crash_stage demo_fs) (disk (bs demo_fs)) b) /\
    (committed demo_steps 0 (disk (bs demo_fs)) 100 0,
     committed demo_steps 0 (disk (bs demo_fs)) 101 0,
     committed demo_steps 0 (disk (bs demo_fs)) 102 0) = (22, 33, 44).
Proof.
  destruct (run_steps (demo_steps ++ [SimulateRestart]) demo_fs) as [s'|] eqn:E.
  - exists s'. split; [reflexivity|].
    destruct (recovery_applies_committed demo_steps demo_fs s'
                demo_fs_clean demo_steps_staged E) as (H1 & H2 & H3).
    split; [exact H1|]. split; [exact H2|]. split; [exact H3|reflexivity].
  - assert (H : is_some (run_steps (demo_steps ++ [SimulateRestart]) demo_fs) = true)
      by (vm_compute; reflexivity).
    rewrite E in H. discriminate H.
Defined.

End Log.

(** ** Virtual memory (vm.c, riscv.h) *)
Module Vm.
Import Pmm.

Definition PTE_V : Z := 1.
Definition PTE_R : Z := 2.
Definition PTE_W : Z := 4.
Definition PTE_X : Z := 8.
Definition PTE_U : Z := 16.
Definition PTE_COW : Z := 256.
Definition MAXVA : Z := 0x4000000000.
Definition TRAMPOLINE : Z := MAXVA - PGSIZE.

(** [PA2PTE] cannot overflow 64 bits; [PTE2PA] can, and wraps. *)
Definition PA2PTE (pa : Z) : Z := Z.shiftl (Z.shiftr pa 12) 10.
Definition PTE2PA (pte : Z) : Z := wrap64 (Z.shiftl (Z.shiftr pte 10) 12).
Definition PTE_FLAGS (pte : Z) : Z := Z.land pte 0x3FF.
Definition PX (level va : Z) : Z := Z.land (Z.shiftr va (12 + 9 * level)) 0x1FF.

(** [&pt[idx]]: page-table entries are 8 bytes wide. *)
Definition pte_at (pt idx : Z) : Z := pt + 8 * idx.

(** A flag test [(pte & F) != 0]. *)
Definition has (pte f : Z) : bool := negb (Z.land pte f =? 0).

(** [walk_lookup]: [None] is the panic, [Some 0] the null pointer.  The
    loop over levels 2 and 1 is unrolled. *)
Definition walk_lookup (pt va : Z) (s : kmem) : option Z :=
  if va >=? MAXVA then None
  else
    let pte2 := mem s (pte_at pt (PX 2 va)) in
    if negb (has pte2 PTE_V) then Some 0
    else
      let pt1 := PTE2PA pte2 in
      let pte1 := mem s (pte_at pt1 (PX 1 va)) in
      if negb (has pte1 PTE_V) then Some 0
      else Some (pte_at (PTE2PA pte1) (PX 0 va)).

(** One iteration of the loop of [walk_create]: the next-level table, or
    [None] when [alloc_page] fails. *)
Definition walk_create_step (level pt va : Z) (s : kmem) : option Z * kmem :=
  let a := pte_at pt (PX level va) in
  if has (mem s a) PTE_V then (Some (PTE2PA (mem s a)), s)
  else
    let '(p, s1) := alloc_page s in
    if p =? 0 then (None, s1)
    else
      let s2 := set_mem (zero_range (mem s1) p PGSIZE) s1 in
      (Some p, set_mem (upd (mem s2) a (Z.lor (PA2PTE p) PTE_V)) s2).

Definition walk_create (pt va : Z) (s : kmem) : option (Z * kmem) :=
  if va >=? MAXVA then None
  else
    match walk_create_step 2 pt va s with
    | (None, s1) => Some (0, s1)
    | (Some pt1, s1) =>
        match walk_create_step 1 pt1 va s1 with
        | (None, s2) => Some (0, s2)
        | (Some pt0, s2) => Some (pte_at pt0 (PX 0 va), s2)
        end
    end.

Definition create_pagetable (s : kmem) : Z * kmem :=
  let '(p, s1) := alloc_page s in
  if p =? 0 then (0, s1) else (p, set_mem (zero_range (mem s1) p PGSIZE) s1).

(** [map_page]; [None] is the panic on a remap. *)
Definition map_page (pt va pa perm : Z) (s : kmem) : option (Z * kmem) :=
  if negb (va mod PGSIZE =? 0) || negb (pa mod PGSIZE =? 0) then Some (-1, s)
  else
    '(pte, s1) <- walk_create pt va s ;;
    if pte =? 0 then Some (-1, s1)
    else if has (mem s1 pte) PTE_V then None
    else Some (0, set_mem (upd (mem s1) pte (Z.lor (Z.lor (PA2PTE pa) perm) PTE_V)) s1).

(** [uvmunmap]: the loop runs [npages] times ([va + npages*PGSIZE] is taken
    not to wrap). *)
Fixpoint uvmunmap_loop (fuel : nat) (pt a : Z) (do_free : bool) (s : kmem) : option kmem :=
  match fuel with
  | O => Some s
  | S fuel' =>
      pte <- walk_lookup pt a s ;;
      if pte =? 0 then uvmunmap_loop fuel' pt (a + PGSIZE) do_free s
      else if negb (has (mem s pte) PTE_V) then uvmunmap_loop fuel' pt (a + PGSIZE) do_free s
      else
        s1 <- (if do_free
               then '(_, s1) <- page_decref (PTE2PA (mem s pte)) s ;; Some s1
               else Some s) ;;
        uvmunmap_loop fuel' pt (a + PGSIZE) do_free (set_mem (upd (mem s1) pte 0) s1)
  end.

Definition uvmunmap (pt va npages : Z) (do_free : bool) (s : kmem) : option kmem :=
  if negb (va mod PGSIZE =? 0) then None
  else uvmunmap_loop (Z.to_nat npages) pt va do_free s.

(** [cow_clone_page]. *)
Definition cow_clone_page (pt va0 : Z) (s : kmem) : option (Z * kmem) :=
  pte <- walk_lookup pt va0 s ;;
  if pte =? 0 then Some (-1, s)
  else if negb (has (mem s pte) PTE_V) || negb (has (mem s pte) PTE_U) then Some (-1, s)
  else if negb (has (mem s pte) PTE_COW) then Some (-1, s)
  else
    let pa := PTE2PA (mem s pte) in
    let '(m, s1) := alloc_page s in
    if m =? 0 then Some (-1, s1)
    else
      let s2 := set_mem (copy_range (mem s1) m pa PGSIZE) s1 in
      let flags := Z.land (Z.lor (PTE_FLAGS (mem s2 pte)) PTE_W) (Z.lnot PTE_COW) in
      let s3 := set_mem (upd (mem s2) pte (Z.lor (PA2PTE m) flags)) s2 in
      '(_, s4) <- page_decref pa s3 ;;
      Some (0, s4).

Definition cow_resolve (pt faultva : Z) (s : kmem) : option (Z * kmem) :=
  cow_clone_page pt (PGROUNDDOWN faultva) s.

(** The flags [uvmcopy] gives the child, and the parent's rewritten entry. *)
Definition cow_candidate (pte : Z) : bool := has pte PTE_W && has pte PTE_U.
Definition new_flags (pte : Z) : Z :=
  if cow_candidate pte
  then Z.lor (Z.land (PTE_FLAGS pte) (Z.lnot PTE_W)) PTE_COW
  else PTE_FLAGS pte.
Definition child_perm (pte : Z) : Z :=
  Z.land (new_flags pte)
         (Z.lor (Z.lor (Z.lor (Z.lor PTE_R PTE_W) PTE_X) PTE_U) PTE_COW).

(** The body of the loop of [uvmcopy] for one page: [true] to go on,
    [false] for [goto err]. *)
Definition uvmcopy_page (old newp va : Z) (s : kmem) : option (bool * kmem) :=
  pte <- walk_lookup old va s ;;
  if (pte =? 0) || negb (has (mem s pte) PTE_V) then Some (false, s)
  else
    let v := mem s pte in
    let pa := PTE2PA v in
    s1 <- page_incref pa s ;;
    '(r, s2) <- map_page newp va pa (child_perm v) s1 ;;
    if r <? 0 then
      '(_, s3) <- page_decref pa s2 ;; Some (false, s3)
    else if cow_candidate v
    then Some (true, set_mem (upd (mem s2) pte (Z.lor (PA2PTE pa) (Z.lor (new_flags v) PTE_V))) s2)
    else Some (true, s2).


(** The loop after [err:] that takes the COW marks back. *)
Fixpoint revert_loop (fuel : nat) (old va : Z) (s : kmem) : option kmem :=
  match fuel with
  | O => Some s
  | S fuel' =>
      pte <- walk_lookup old va s ;;
      if pte =? 0 then revert_loop fuel' old (va + PGSIZE) s
      else if negb (has (mem s pte) PTE_COW) then revert_loop fuel' old (va + PGSIZE) s
      else
        rc <- page_refcount (PTE2PA (mem s pte)) s ;;
        revert_loop fuel' old (va + PGSIZE)
          (if rc =? 1
           then set_mem (upd (mem s) pte
                             (Z.land (Z.lor (mem s pte) PTE_W) (Z.lnot PTE_COW))) s
           else s)
  end.


(** [memmove] of [n] bytes from a kernel buffer [src] to physical memory. *)
Definition store_bytes (m : Z -> Z) (dst : Z) (src : Z -> Z) (n : Z) : Z -> Z :=
  fun a => if (dst <=? a) && (a <? dst + n) then src (a - dst) else m a.

(** [copyout]: every turn of the loop moves at least one byte, so [len]
    turns are enough fuel. *)
Fixpoint copyout_loop (fuel : nat) (pt dstva : Z) (src : Z -> Z) (len : Z) (s : kmem)
  : option (Z * kmem) :=
  if len <=? 0 then Some (0, s)
  else
    match fuel with
    | O => None
    | S fuel' =>
        let va0 := PGROUNDDOWN dstva in
        pte <- walk_lookup pt va0 s ;;
        if (pte =? 0) || negb (has (mem s pte) PTE_V) || negb (has (mem s pte) PTE_U)
        then Some (-1, s)
        else
          '(r, s1) <- (if has (mem s pte) PTE_COW then cow_resolve pt va0 s else Some (0, s)) ;;
          if r <? 0 then Some (-1, s1)
          else
            pte' <- walk_lookup pt va0 s1 ;;
            if (pte' =? 0) || negb (has (mem s1 pte') PTE_V) || negb (has (mem s1 pte') PTE_U)
            then Some (-1, s1)
            else if negb (has (mem s1 pte') PTE_W) then Some (-1, s1)
            else
              let pa0 := PTE2PA (mem s1 pte') in
              let offset := dstva - va0 in
              let n := Z.min (PGSIZE - offset) len in
              copyout_loop fuel' pt (dstva + n) (fun k => src (k + n)) (len - n)
                (set_mem (store_bytes (mem s1) (pa0 + offset) src n) s1)
    end.

Definition copyout (pt dstva : Z) (src : Z -> Z) (len : Z) (s : kmem) : option (Z * kmem) :=
  copyout_loop (Z.to_nat len) pt dstva src len s.

(** [copyin]: the bytes read are returned front to back. *)
Fixpoint copyin_loop (fuel : nat) (pt srcva len : Z) (s : kmem) : option (Z * list Z) :=
  if len <=? 0 then Some (0, [])
  else
    match fuel with
    | O => None
    | S fuel' =>
        let va0 := PGROUNDDOWN srcva in
        pte <- walk_lookup pt va0 s ;;
        if (pte =? 0) || negb (has (mem s pte) PTE_V) || negb (has (mem s pte) PTE_U)
        then Some (-1, [])
        else
          let pa0 := PTE2PA (mem s pte) in
          let offset := srcva - va0 in
          let n := Z.min (PGSIZE - offset) len in
          '(r, bytes) <- copyin_loop fuel' pt (srcva + n) (len - n) s ;;
          Some (r, map (fun k => mem s (pa0 + offset + Z.of_nat k)) (seq 0 (Z.to_nat n)) ++ bytes)
    end.

Definition copyin (pt srcva len : Z) (s : kmem) : option (Z * list Z) :=
  copyin_loop (Z.to_nat len) pt srcva len s.

End Vm.

(** ** The user trap handler (trap.c) *)
Module Trap.
Import Pmm Vm.

Definition SSTATUS_SPP : Z := 256.
Definition INTR_BIT : Z := 0x8000000000000000.

(** The fields of [struct proc] the handler touches ([epc] is
    [p->trapframe->epc]). *)
Record proc : Type := mkProc {
  pid : Z;
  killed : Z;
  epc : Z;
  pagetable : Z
}.

Definition set_killed (v : Z) (p : proc) : proc := mkProc (pid p) v (epc p) (pagetable p).
Definition set_epc (v : Z) (p : proc) : proc := mkProc (pid p) (killed p) v (pagetable p).

(** How [usertrap] ends: in [exit_process(status)], which does not return,
    or in [usertrapret()]. *)
Inductive resume : Type :=
| Exited (status : Z)
| ToUser.

Section Usertrap.

(** What the handler calls outside trap.c: [syscall()], and
    [handle_interrupt_chain(irq)] with the [yield()] after a timer tick. *)
Variable syscall : proc -> kmem -> option (proc * kmem).
Variable handle_interrupt : Z -> proc -> kmem -> option (proc * kmem).

(** The tail of [usertrap]: [if(p->killed) exit_process(-1); usertrapret();] *)
Definition finish (p : proc) (s : kmem) : option (resume * proc * kmem) :=
  if negb (killed p =? 0) then Some (Exited (-1), p, s) else Some (ToUser, p, s).

(** [usertrap]; [p] is [myproc()], [None] the two panics.  [stval] is only
    printed. *)
Definition usertrap (sstatus scause sepc stval : Z) (p : option proc) (s : kmem)
  : option (resume * proc * kmem) :=
  if has sstatus SSTATUS_SPP then None
  else
    match p with
    | None => None
    | Some p0 =>
        let p1 := set_epc sepc p0 in
        if scause =? 8 then
          if negb (killed p1 =? 0) then Some (Exited (-1), p1, s)
          else
            '(p2, s2) <- syscall (set_epc (wrap64 (epc p1 + 4)) p1) s ;;
            finish p2 s2
        else if has scause INTR_BIT then
          '(p2, s2) <- handle_interrupt (Z.land scause (Z.lnot INTR_BIT)) p1 s ;;
          finish p2 s2
        else finish (set_killed 1 p1) s
    end.

End Usertrap.

(** *** A forked child writing to a shared page *)

Definition no_syscall (p : proc) (s : kmem) : option (proc * kmem) := Some (p, s).
Definition no_interrupt (irq : Z) (p : proc) (s : kmem) : option (proc * kmem) := Some (p, s).

End Trap.


(** ** The file system (fs.c, file.c, sysfile.c, syscall.c)

    The block layer is taken at its specification: [blocks s b] is the
    content of block [b] as [bread] returns it (the cache over the disk,
    see [Bio.bread_spec]), a buffer changed and handed to [log_block_write]
    changes that content, and of the log only the bookkeeping that can make
    [log_block_write] panic is kept.  Pointers to in-memory inodes and to
    open files are indices into [itable] and [ftable]. *)
Module Fs.
Import Vm.

Definition BLOCK_SIZE : Z := 4096.
Definition FS_TOTAL_BLOCKS : Z := 2000.
Definition LOG_START : Z := 2.
Definition LOG_SIZE : Z := 30.
Definition INODE_START : Z := 32.
Definition INODE_BLOCKS : Z := 13.
Definition BMAP_START : Z := 45.
Definition DATA_START : Z := 46.
Definition ROOTDEV : Z := 1.
Definition ROOTINO : Z := 1.
Definition NDIRECT : Z := 12.
Definition NINDIRECT : Z := 1024.
Definition NDOUBLE : Z := NINDIRECT * NINDIRECT.
Definition MAX_FILE_SIZE : Z := (NDIRECT + NINDIRECT + NDOUBLE) * BLOCK_SIZE.
Definition BPB : Z := BLOCK_SIZE * 8.
Definition DINODE_SIZE : Z := 68.        (* sizeof(struct dinode) *)
Definition IPB : Z := 60.                (* BLOCK_SIZE / sizeof(struct dinode) *)
Definition DIRENT_SIZE : Z := 16.        (* sizeof(struct dirent) *)
Definition T_DIR : Z := 1.
Definition T_FILE : Z := 2.
Definition T_DEV : Z := 3.
Definition T_SYMLINK : Z := 4.
Definition DIRSIZ : Z := 14.
Definition NINODE : nat := 50.
Definition MAXPATH : Z := 128.
Definition MAX_SYMLINK_DEPTH : Z := 8.
Definition MAX_OP_BLOCKS : Z := 10.
Definition FD_NONE : Z := 0.
Definition FD_INODE : Z := 2.
Definition sb_ninodes : Z := INODE_BLOCKS * IPB.
Definition sb_nblocks : Z := FS_TOTAL_BLOCKS - DATA_START.
Definition two32 : Z := 0x100000000.

Definition IBLOCK (i : Z) : Z := i / IPB + INODE_START.
Definition BBLOCK (b : Z) : Z := b / BPB + BMAP_START.

(** *** Integers in memory (little endian) and C conversions *)

Definition get16 (d : Z -> Z) (o : Z) : Z := d o + 256 * d (o + 1).
Definition get32 (d : Z -> Z) (o : Z) : Z :=
  d o + 256 * d (o + 1) + 65536 * d (o + 2) + 16777216 * d (o + 3).
Definition put16 (d : Z -> Z) (o v : Z) : Z -> Z :=
  upd (upd d o (v mod 256)) (o + 1) ((v / 256) mod 256).
Definition put32 (d : Z -> Z) (o v : Z) : Z -> Z :=
  upd (upd (upd (upd d o (v mod 256)) (o + 1) ((v / 256) mod 256))
           (o + 2) ((v / 65536) mod 256)) (o + 3) ((v / 16777216) mod 256).
(** A 16-bit value read as a [short]; a [short] stored in 16 bits. *)
Definition to_short (w : Z) : Z := if w <? 32768 then w else w - 65536.
Definition of_short (v : Z) : Z := v mod 65536.
(** A [uint32] returned as an [int]. *)
Definition to_int (w : Z) : Z := if w <? 0x80000000 then w else w - two32.
Definition u32 (v : Z) : Z := v mod two32.

(** *** State *)

Record inode : Type := mkInode {
  i_dev : Z;
  i_inum : Z;
  i_ref : Z;
  i_locked : bool;              (* the sleeplock *)
  i_valid : Z;
  i_type : Z;
  i_major : Z;
  i_minor : Z;
  i_nlink : Z;
  i_size : Z;
  i_addrs : Z -> Z
}.

Record file : Type := mkFile {
  f_type : Z;
  f_ref : Z;
  f_readable : Z;
  f_writable : Z;
  f_ip : option nat;
  f_off : Z;
  f_major : Z
}.

Record state : Type := mkState {
  blocks : Z -> Z -> Z;          (* block number -> byte offset -> byte *)
  itable : nat -> inode;         (* itable.inode[NINODE] *)
  lg : Log.log_state;            (* g_log *)
  ftable : nat -> file;          (* ftable.file[NFILE] *)
  ofile : Z -> option nat;       (* myproc()->ofile[NOFILE] *)
  cwd : option nat;              (* myproc()->cwd *)
  tf : Z -> Z;                   (* myproc()->trapframe->a0 .. a5 *)
  upt : Z;                       (* myproc()->pagetable *)
  km : kmem                      (* physical memory and the frame allocator *)
}.

Definition set_blocks (b : Z -> Z -> Z) (s : state) : state :=
  mkState b (itable s) (lg s) (ftable s) (ofile s) (cwd s) (tf s) (upt s) (km s).
Definition set_itable (t : nat -> inode) (s : state) : state :=
  mkState (blocks s) t (lg s) (ftable s) (ofile s) (cwd s) (tf s) (upt s) (km s).
Definition set_lg (l : Log.log_state) (s : state) : state :=
  mkState (blocks s) (itable s) l (ftable s) (ofile s) (cwd s) (tf s) (upt s) (km s).
Definition set_km (k : kmem) (s : state) : state :=
  mkState (blocks s) (itable s) (lg s) (ftable s) (ofile s) (cwd s) (tf s) (upt s) k.

Definition set_inode (ip : nat) (i : inode) (s : state) : state :=
  set_itable (fun j => if Nat.eqb j ip then i else itable s j) s.
Definition set_block (b : Z) (d : Z -> Z) (s : state) : state :=
  set_blocks (fun k => if k =? b then d else blocks s k) s.

Definition with_ref (v : Z) (i : inode) : inode :=
  mkInode (i_dev i) (i_inum i) v (i_locked i) (i_valid i) (i_type i) (i_major i)
          (i_minor i) (i_nlink i) (i_size i) (i_addrs i).
Definition with_locked (v : bool) (i : inode) : inode :=
  mkInode (i_dev i) (i_inum i) (i_ref i) v (i_valid i) (i_type i) (i_major i)
          (i_minor i) (i_nlink i) (i_size i) (i_addrs i).
Definition with_valid (v : Z) (i : inode) : inode :=
  mkInode (i_dev i) (i_inum i) (i_ref i) (i_locked i) v (i_type i) (i_major i)
          (i_minor i) (i_nlink i) (i_size i) (i_addrs i).
Definition with_type (v : Z) (i : inode) : inode :=
  mkInode (i_dev i) (i_inum i) (i_ref i) (i_locked i) (i_valid i) v (i_major i)
          (i_minor i) (i_nlink i) (i_size i) (i_addrs i).
Definition with_nlink (v : Z) (i : inode) : inode :=
  mkInode (i_dev i) (i_inum i) (i_ref i) (i_locked i) (i_valid i) (i_type i) (i_major i)
          (i_minor i) v (i_size i) (i_addrs i).
Definition with_size (v : Z) (i : inode) : inode :=
  mkInode (i_dev i) (i_inum i) (i_ref i) (i_locked i) (i_valid i) (i_type i) (i_major i)
          (i_minor i) (i_nlink i) v (i_addrs i).
Definition with_addrs (a : Z -> Z) (i : inode) : inode :=
  mkInode (i_dev i) (i_inum i) (i_ref i) (i_locked i) (i_valid i) (i_type i) (i_major i)
          (i_minor i) (i_nlink i) (i_size i) a.

(** *** The log as the file system sees it (log.c) *)

(** [log_block_write]: its three panics, and the header entry. *)
Definition log_block_write (blockno : Z) (s : state) : option state :=
  let l := lg s in
  let h := Log.header l in
  if Log.n h >=? Log.size l then None
  else if Log.n h >=? Log.LOG_SIZE then None
  else if Log.outstanding l <? 1 then None
  else
    let idx := Log.find_slot (Z.to_nat (Log.n h)) 0 h blockno in
    let blk := upd (Log.lblock h) idx blockno in
    Some (set_lg (Log.set_header
                    (Log.mkHeader (if idx =? Log.n h then Log.n h + 1 else Log.n h) blk) l) s).

Definition with_outstanding (v : Z) (l : Log.log_state) : Log.log_state :=
  Log.mkLog (Log.start l) (Log.size l) v (Log.committing l) (Log.ldev l) (Log.header l).

(** [begin_transaction]: a call that would sleep never returns in a run of
    one process. *)
Definition begin_transaction (s : state) : option state :=
  let l := lg s in
  if negb (Log.committing l =? 0) then None
  else if Log.n (Log.header l) + (Log.outstanding l + 1) * MAX_OP_BLOCKS >? Log.size l
  then None
  else Some (set_lg (with_outstanding (Log.outstanding l + 1) l) s).

(** [end_transaction]: the commit of the last outstanding operation writes
    the logged blocks home and empties the header; the content of the
    blocks as the cache shows it does not change. *)
Definition end_transaction (s : state) : option state :=
  let l := lg s in
  if Log.outstanding l <? 1 then None
  else if negb (Log.committing l =? 0) then None
  else if Log.outstanding l - 1 =? 0
  then Some (set_lg (Log.set_header (Log.mkHeader 0 (Log.lblock (Log.header l)))
                       (with_outstanding 0 l)) s)
  else Some (set_lg (with_outstanding (Log.outstanding l - 1) l) s).

(** *** Inodes (fs.c) *)

Definition slots : list nat := seq 0 NINODE.

(** [iget]; [None] is the panic (and the overflow of [ref++]). *)
Definition iget (dev inum : Z) (s : state) : option (nat * state) :=
  match find (fun i => (0 <? i_ref (itable s i)) && (i_dev (itable s i) =? dev)
                       && (i_inum (itable s i) =? inum)) slots with
  | Some i =>
      if i_ref (itable s i) =? INT_MAX then None
      else Some (i, set_inode i (with_ref (i_ref (itable s i) + 1) (itable s i)) s)
  | None =>
      match find (fun i => i_ref (itable s i) =? 0) slots with
      | Some i =>
          let o := itable s i in
          Some (i, set_inode i (mkInode dev inum 1 (i_locked o) 0 (i_type o) (i_major o)
                                        (i_minor o) (i_nlink o) (i_size o) (i_addrs o)) s)
      | None => None
      end
  end.

Definition idup (ip : nat) (s : state) : option (nat * state) :=
  if i_ref (itable s ip) =? INT_MAX then None
  else Some (ip, set_inode ip (with_ref (i_ref (itable s ip) + 1) (itable s ip)) s).

(** Where the dinode of inode [inum] starts in its block. *)
Definition dinode_off (inum : Z) : Z := (inum mod IPB) * DINODE_SIZE.

(** [ilock]; a held sleeplock is waited for, for ever in a run of one
    process. *)
Definition ilock (ip : nat) (s : state) : option state :=
  let i := itable s ip in
  if i_ref i <? 1 then None
  else if i_locked i then None
  else if i_valid i =? 0 then
    let d := blocks s (IBLOCK (i_inum i)) in
    let o := dinode_off (i_inum i) in
    let i' := mkInode (i_dev i) (i_inum i) (i_ref i) true 1
                (to_short (get16 d o)) (to_short (get16 d (o + 2)))
                (to_short (get16 d (o + 4))) (to_short (get16 d (o + 6)))
                (get32 d (o + 8))
                (fun k => if (0 <=? k) && (k <? NDIRECT + 2) then get32 d (o + 12 + 4 * k)
                          else i_addrs i k) in
    if i_type i' =? 0 then None else Some (set_inode ip i' s)
  else Some (set_inode ip (with_locked true i) s).

Definition iunlock (ip : nat) (s : state) : option state :=
  let i := itable s ip in
  if negb (i_locked i) || (i_ref i <? 1) then None
  else Some (set_inode ip (with_locked false i) s).

(** The 14 block pointers written one after the other. *)
Fixpoint put_addrs (k : nat) (d : Z -> Z) (o : Z) (a : Z -> Z) : Z -> Z :=
  match k with
  | O => d
  | S k' => put32 (put_addrs k' d o a) (o + 12 + 4 * Z.of_nat k') (a (Z.of_nat k'))
  end.

Definition iupdate (ip : nat) (s : state) : option state :=
  let i := itable s ip in
  let b := IBLOCK (i_inum i) in
  let o := dinode_off (i_inum i) in
  let d0 := blocks s b in
  let d1 := put16 d0 o (of_short (i_type i)) in
  let d2 := put16 d1 (o + 2) (of_short (i_major i)) in
  let d3 := put16 d2 (o + 4) (of_short (i_minor i)) in
  let d4 := put16 d3 (o + 6) (of_short (i_nlink i)) in
  let d5 := put32 d4 (o + 8) (i_size i) in
  let d6 := put_addrs (Z.to_nat (NDIRECT + 2)) d5 o (i_addrs i) in
  log_block_write b (set_block b d6 s).

(** [balloc]: the scan of the bitmap from block [b + DATA_START]. *)
Fixpoint balloc_loop (fuel : nat) (b : Z) (s : state) : option (Z * state) :=
  match fuel with
  | O => None
  | S fuel' =>
      let bno := b + DATA_START in
      let bb := BBLOCK bno in
      let bi := bno mod BPB in
      let mask := Z.shiftl 1 (bi mod 8) in
      let byte := blocks s bb (bi / 8) in
      if Z.land byte mask =? 0 then
        s1 <- log_block_write bb
                (set_block bb (upd (blocks s bb) (bi / 8) (Z.lor byte mask)) s) ;;
        s2 <- log_block_write bno (set_block bno (fun _ => 0) s1) ;;
        Some (bno, s2)
      else balloc_loop fuel' (b + 1) s
  end.

Definition balloc (s : state) : option (Z * state) :=
  balloc_loop (Z.to_nat sb_nblocks) 0 s.

Definition bfree (b : Z) (s : state) : option state :=
  let bb := BBLOCK b in
  let bi := b mod BPB in
  let byte := blocks s bb (bi / 8) in
  log_block_write bb
    (set_block bb (upd (blocks s bb) (bi / 8)
                       (Z.land byte (Z.lxor 255 (Z.shiftl 1 (bi mod 8))))) s).

Definition set_addr (ip : nat) (k v : Z) (s : state) : state :=
  set_inode ip (with_addrs (upd (i_addrs (itable s ip)) k v) (itable s ip)) s.

(** An entry of a block of block numbers, allocated on demand and logged. *)
Definition ensure_entry (blk idx : Z) (s : state) : option (Z * state) :=
  if get32 (blocks s blk) (4 * idx) =? 0 then
    '(nb, s1) <- balloc s ;;
    s2 <- log_block_write blk (set_block blk (put32 (blocks s1 blk) (4 * idx) nb) s1) ;;
    Some (nb, s2)
  else Some (get32 (blocks s blk) (4 * idx), s).

(** A block pointer of the inode, allocated on demand. *)
Definition ensure_addr (ip : nat) (k : Z) (s : state) : option (Z * state) :=
  if i_addrs (itable s ip) k =? 0 then
    '(nb, s1) <- balloc s ;; Some (nb, set_addr ip k nb s1)
  else Some (i_addrs (itable s ip) k, s).

Definition bmap (ip : nat) (bn : Z) (s : state) : option (Z * state) :=
  if bn <? NDIRECT then ensure_addr ip bn s
  else
    let bn1 := bn - NDIRECT in
    if bn1 <? NINDIRECT then
      '(ib, s1) <- ensure_addr ip NDIRECT s ;;
      ensure_entry ib bn1 s1
    else
      let bn2 := bn1 - NINDIRECT in
      if bn2 >=? NDOUBLE then None
      else
        '(db, s1) <- ensure_addr ip (NDIRECT + 1) s ;;
        '(fb, s2) <- ensure_entry db (bn2 / NINDIRECT) s1 ;;
        ensure_entry fb (bn2 mod NINDIRECT) s2.

(** [itrunc]: the loop over the entries [j .. ] of a block of block
    numbers, freeing what they point to and zeroing them in the buffer
    (the buffer is not logged). *)
Fixpoint free_entries (fuel : nat) (blk j : Z) (s : state) : option state :=
  match fuel with
  | O => Some s
  | S fuel' =>
      let a := get32 (blocks s blk) (4 * j) in
      if negb (a =? 0) then
        s1 <- bfree a s ;;
        free_entries fuel' blk (j + 1) (set_block blk (put32 (blocks s1 blk) (4 * j) 0) s1)
      else free_entries fuel' blk (j + 1) s
  end.

Fixpoint free_direct (fuel : nat) (ip : nat) (i : Z) (s : state) : option state :=
  match fuel with
  | O => Some s
  | S fuel' =>
      let a := i_addrs (itable s ip) i in
      if negb (a =? 0) then
        s1 <- bfree a s ;; free_direct fuel' ip (i + 1) (set_addr ip i 0 s1)
      else free_direct fuel' ip (i + 1) s
  end.

(** The outer loop over the double-indirect block. *)
Fixpoint free_double (fuel : nat) (dblk i : Z) (s : state) : option state :=
  match fuel with
  | O => Some s
  | S fuel' =>
      let a := get32 (blocks s dblk) (4 * i) in
      if negb (a =? 0) then
        s1 <- free_entries (Z.to_nat NINDIRECT) a 0 s ;;
        s2 <- bfree a s1 ;;
        free_double fuel' dblk (i + 1) (set_block dblk (put32 (blocks s2 dblk) (4 * i) 0) s2)
      else free_double fuel' dblk (i + 1) s
  end.

Definition itrunc (ip : nat) (s : state) : option state :=
  s1 <- free_direct (Z.to_nat NDIRECT) ip 0 s ;;
  s2 <- (let a := i_addrs (itable s1 ip) NDIRECT in
         if negb (a =? 0) then
           t1 <- free_entries (Z.to_nat NINDIRECT) a 0 s1 ;;
           t2 <- bfree a t1 ;;
           Some (set_addr ip NDIRECT 0 t2)
         else Some s1) ;;
  s3 <- (let a := i_addrs (itable s2 ip) (NDIRECT + 1) in
         if negb (a =? 0) then
           t1 <- free_double (Z.to_nat NINDIRECT) a 0 s2 ;;
           t2 <- bfree a t1 ;;
           Some (set_addr ip (NDIRECT + 1) 0 t2)
         else Some s2) ;;
  iupdate ip (set_inode ip (with_size 0 (itable s3 ip)) s3).

Definition iput (ip : nat) (s : state) : option state :=
  let i := itable s ip in
  s1 <- (if (i_ref i =? 1) && negb (i_valid i =? 0) && (i_nlink i =? 0) then
           t1 <- ilock ip s ;;
           t2 <- itrunc ip t1 ;;
           t3 <- iupdate ip (set_inode ip (with_type 0 (itable t2 ip)) t2) ;;
           Some (set_inode ip (with_locked false (with_valid 0 (itable t3 ip))) t3)
         else Some s) ;;
  Some (set_inode ip (with_ref (i_ref (itable s1 ip) - 1) (itable s1 ip)) s1).

Definition iunlockput (ip : nat) (s : state) : option state :=
  s1 <- iunlock ip s ;; iput ip s1.

(** The bytes [d o .. d (o + m - 1)]. *)
Definition bytes_of (d : Z -> Z) (o m : Z) : list Z :=
  map (fun k => d (o + Z.of_nat k)) (seq 0 (Z.to_nat m)).

(** [readi]: every turn of the loop moves at least one byte.  The bytes
    moved to a kernel buffer are the second component of the result; a
    user buffer is written through [copyout]. *)
Fixpoint readi_loop (fuel : nat) (ip : nat) (user_dst : bool) (dst off n tot : Z)
    (acc : list Z) (s : state) : option (Z * list Z * state) :=
  if negb (tot <? n) then Some (to_int n, acc, s)
  else
    match fuel with
    | O => None
    | S fuel' =>
        '(b, s1) <- bmap ip ((off + tot) / BLOCK_SIZE) s ;;
        let block_off := (off + tot) mod BLOCK_SIZE in
        let m := Z.min (n - tot) (BLOCK_SIZE - block_off) in
        if user_dst then
          '(r, k1) <- copyout (upt s1) (dst + tot) (fun k => blocks s1 b (block_off + k)) m
                        (km s1) ;;
          if r <? 0 then Some (-1, acc, set_km k1 s1)
          else readi_loop fuel' ip user_dst dst off n (tot + m) acc (set_km k1 s1)
        else
          readi_loop fuel' ip user_dst dst off n (tot + m)
                     (acc ++ bytes_of (blocks s1 b) block_off m) s1
    end.

Definition readi (ip : nat) (user_dst : bool) (dst off n : Z) (s : state)
  : option (Z * list Z * state) :=
  let size := i_size (itable s ip) in
  if (off >? size) || (u32 (off + n) <? off) then Some (-1, [], s)
  else
    let n' := if u32 (off + n) >? size then size - off else n in
    readi_loop (Z.to_nat n') ip user_dst dst off n' 0 [] s.

(** [memmove] of a list of bytes into a buffer. *)
Fixpoint put_bytes (d : Z -> Z) (o : Z) (l : list Z) : Z -> Z :=
  match l with
  | [] => d
  | c :: l' => put_bytes (upd d o c) (o + 1) l'
  end.

(** [writei]; a kernel source is given by its bytes [src 0, src 1, ...],
    a user source by its address. *)
Fixpoint writei_loop (fuel : nat) (ip : nat) (user_src : bool) (srcva : Z) (src : Z -> Z)
    (off n tot : Z) (s : state) : option (bool * state) :=
  if negb (tot <? n) then Some (true, s)
  else
    match fuel with
    | O => None
    | S fuel' =>
        '(b, s1) <- bmap ip ((off + tot) / BLOCK_SIZE) s ;;
        let block_off := (off + tot) mod BLOCK_SIZE in
        let m := Z.min (n - tot) (BLOCK_SIZE - block_off) in
        '(ok, bytes) <-
           (if user_src then
              '(r, l) <- copyin (upt s1) (srcva + tot) m (km s1) ;; Some (negb (r <? 0), l)
            else Some (true, bytes_of src tot m)) ;;
        let s2 := set_block b (put_bytes (blocks s1 b) block_off bytes) s1 in
        if ok then
          s3 <- log_block_write b s2 ;;
          writei_loop fuel' ip user_src srcva src off n (tot + m) s3
        else Some (false, s2)
    end.

Definition writei (ip : nat) (user_src : bool) (srcva : Z) (src : Z -> Z) (off n : Z)
    (s : state) : option (Z * state) :=
  if (off >? i_size (itable s ip)) || (u32 (off + n) <? off) then Some (-1, s)
  else if u32 (off + n) >? MAX_FILE_SIZE then Some (-1, s)
  else
    '(ok, s1) <- writei_loop (Z.to_nat n) ip user_src srcva src off n 0 s ;;
    if ok then
      let i := itable s1 ip in
      let s2 := if u32 (off + n) >? i_size i
                then set_inode ip (with_size (u32 (off + n)) i) s1 else s1 in
      s3 <- iupdate ip s2 ;;
      Some (to_int n, s3)
    else Some (-1, s1).

(** *** Directories and paths (fs.c) *)

(** A C string is the list of its bytes before the terminating NUL; a
    name buffer of [DIRSIZ] bytes is a list read with [nth _ _ 0]. *)
Fixpoint cstr_of (l : list Z) : list Z :=
  match l with
  | [] => []
  | c :: l' => if c =? 0 then [] else c :: cstr_of l'
  end.

(** [namecmp]: at most [DIRSIZ] bytes, stopping at a NUL. *)
Fixpoint namecmp_from (fuel : nat) (i : nat) (s t : list Z) : Z :=
  match fuel with
  | O => 0
  | S fuel' =>
      let cs := nth i s 0 in
      let ct := nth i t 0 in
      if negb (cs =? ct) then cs - ct
      else if cs =? 0 then 0
      else namecmp_from fuel' (S i) s t
  end.

Definition namecmp (s t : list Z) : Z := namecmp_from (Z.to_nat DIRSIZ) 0 s t.

(** A directory entry as [readi] delivers it: 16 bytes. *)
Definition de_inum (de : list Z) : Z := nth 0 de 0 + 256 * nth 1 de 0.
Definition de_name (de : list Z) : list Z := skipn 2 de.

(** [dirlookup]: the result is the inode found (or null) and [*poff]. *)
Fixpoint dirlookup_loop (fuel : nat) (dp : nat) (name : list Z) (off : Z) (s : state)
  : option (option nat * Z * state) :=
  if negb (off <? i_size (itable s dp)) then Some (None, 0, s)
  else
    match fuel with
    | O => None
    | S fuel' =>
        '(r, de, s1) <- readi dp false 0 off DIRENT_SIZE s ;;
        if negb (r =? DIRENT_SIZE) then None
        else if de_inum de =? 0 then dirlookup_loop fuel' dp name (off + DIRENT_SIZE) s1
        else if namecmp name (de_name de) =? 0 then
          '(ip, s2) <- iget (i_dev (itable s1 dp)) (de_inum de) s1 ;;
          Some (Some ip, off, s2)
        else dirlookup_loop fuel' dp name (off + DIRENT_SIZE) s1
    end.

Definition dirlookup (dp : nat) (name : list Z) (s : state)
  : option (option nat * Z * state) :=
  if negb (i_type (itable s dp) =? T_DIR) then None
  else dirlookup_loop (Z.to_nat (i_size (itable s dp) / DIRENT_SIZE + 1)) dp name 0 s.

(** The search of [dirlink] for a free slot: the offset it stops at. *)
Fixpoint dirlink_scan (fuel : nat) (dp : nat) (off : Z) (s : state) : option (Z * state) :=
  if negb (off <? i_size (itable s dp)) then Some (off, s)
  else
    match fuel with
    | O => None
    | S fuel' =>
        '(r, de, s1) <- readi dp false 0 off DIRENT_SIZE s ;;
        if negb (r =? DIRENT_SIZE) then None
        else if de_inum de =? 0 then Some (off, s1)
        else dirlink_scan fuel' dp (off + DIRENT_SIZE) s1
    end.

(** The entry [dirlink] builds: [inum] as a [uint16], then at most 13
    bytes of the name, zero filled. *)
Definition make_dirent (name : list Z) (inum : Z) : list Z :=
  let nm := firstn 13 (cstr_of name) in
  [inum mod 256; (inum / 256) mod 256] ++ nm ++ repeat 0 (14 - length nm).

Definition dirlink (dp : nat) (name : list Z) (inum : Z) (s : state) : option (Z * state) :=
  '(found, _, s1) <- dirlookup dp name s ;;
  match found with
  | Some _ => Some (-1, s1)
  | None =>
      '(off, s2) <-
         dirlink_scan (Z.to_nat (i_size (itable s1 dp) / DIRENT_SIZE + 1)) dp 0 s1 ;;
      let de := make_dirent name inum in
      '(r, s3) <- writei dp false 0 (fun k => nth (Z.to_nat k) de 0) off DIRENT_SIZE s2 ;;
      if negb (r =? DIRENT_SIZE) then None else Some (0, s3)
  end.

(** [skipelem]: the next path element as a [DIRSIZ]-byte name and the
    rest of the path, or null. *)
Fixpoint skip_slashes (p : list Z) : list Z :=
  match p with
  | c :: r => if c =? 47 then skip_slashes r else p
  | [] => []
  end.

Fixpoint span_elem (p : list Z) : list Z * list Z :=
  match p with
  | [] => ([], [])
  | c :: r => if c =? 47 then ([], p) else (c :: fst (span_elem r), snd (span_elem r))
  end.

Definition elem_name (e : list Z) : list Z :=
  let e' := firstn 13 e in e' ++ repeat 0 (14 - length e').

Definition skipelem (path : list Z) : option (list Z * list Z) :=
  match skip_slashes path with
  | [] => None
  | p => Some (skip_slashes (snd (span_elem p)), elem_name (fst (span_elem p)))
  end.

(** [build_symlink_path]: [target], or [target/rest]; [None] is -1. *)
Definition build_symlink_path (target rest : list Z) : option (list Z) :=
  let dst := firstn (Z.to_nat (MAXPATH - 1)) target in
  match rest with
  | [] => Some dst
  | _ =>
      let len := Z.of_nat (length dst) in
      if len + 1 >=? MAXPATH then None
      else if Z.of_nat (length rest) >=? MAXPATH - (len + 1) then None
      else Some (dst ++ [47] ++ rest)
  end.

(** How a call ends when its recursion is bounded by fuel: with a result,
    in a panic (or a sleep nobody ends), or out of fuel. *)
Inductive outcome (A : Type) : Type :=
| Returned (a : A)
| Panicked
| OutOfFuel.
Arguments Returned {A} a.
Arguments Panicked {A}.
Arguments OutOfFuel {A}.

Definition pbind {A B : Type} (c : option A) (k : A -> outcome B) : outcome B :=
  match c with
  | Some a => k a
  | None => Panicked
  end.

Notation "x <-- c ;; k" := (pbind c (fun x => k))
  (at level 61, c at next level, right associativity).
Notation "' p <-- c ;; k" := (pbind c (fun x => match x with p => k end))
  (at level 61, p pattern, c at next level, right associativity).

Definition is_nil (l : list Z) : bool := match l with [] => true | _ => false end.

(** [namex_from]: the result is the inode (or null), the buffer [name],
    and the state.  One unit of fuel pays for one turn of the loop or one
    recursive call. *)
Fixpoint namex_from (fuel : nat) (ip : nat) (path : list Z) (nameiparent : bool)
    (name : list Z) (depth : Z) (s : state) : outcome (option nat * list Z * state) :=
  match fuel with
  | O => OutOfFuel
  | S fuel' =>
      match skipelem path with
      | None =>
          if nameiparent then s1 <-- iput ip s ;; Returned (None, name, s1)
          else Returned (Some ip, name, s)
      | Some (path', elem) =>
          s1 <-- ilock ip s ;;
          if negb (i_type (itable s1 ip) =? T_DIR) then
            s2 <-- iunlockput ip s1 ;; Returned (None, name, s2)
          else if nameiparent && is_nil path' then
            s2 <-- iunlock ip s1 ;; Returned (Some ip, elem, s2)
          else
            '(next, _, s2) <-- dirlookup ip elem s1 ;;
            match next with
            | None => s3 <-- iunlockput ip s2 ;; Returned (None, name, s3)
            | Some nx =>
                s3 <-- iunlock ip s2 ;;
                if (i_type (itable s3 nx) =? T_SYMLINK) && negb (nameiparent && is_nil path')
                then
                  if depth >=? MAX_SYMLINK_DEPTH then
                    s4 <-- iunlockput nx s3 ;;
                    s5 <-- iput ip s4 ;;
                    Returned (None, name, s5)
                  else
                    s4 <-- ilock nx s3 ;;
                    let stored := i_size (itable s4 nx) in
                    if (stored =? 0) || (stored >? MAXPATH) then
                      s5 <-- iunlockput nx s4 ;;
                      s6 <-- iput ip s5 ;;
                      Returned (None, name, s6)
                    else
                      '(r, bytes, s5) <-- readi nx false 0 0 stored s4 ;;
                      if negb (r =? stored) then
                        s6 <-- iunlockput nx s5 ;;
                        s7 <-- iput ip s6 ;;
                        Returned (None, name, s7)
                      else
                        let target := cstr_of (firstn (Z.to_nat (stored - 1)) bytes) in
                        s6 <-- iunlock nx s5 ;;
                        s7 <-- iput nx s6 ;;
                        if nth 0 target 0 =? 47 then
                          '(root, s8) <-- iget ROOTDEV ROOTINO s7 ;;
                          s9 <-- iput ip s8 ;;
                          match build_symlink_path target path' with
                          | None => s10 <-- iput root s9 ;; Returned (None, name, s10)
                          | Some combined =>
                              namex_from fuel' root combined nameiparent name (depth + 1) s9
                          end
                        else
                          match build_symlink_path target path' with
                          | None => s8 <-- iput ip s7 ;; Returned (None, name, s8)
                          | Some combined =>
                              namex_from fuel' ip combined nameiparent name (depth + 1) s7
                          end
                else
                  s4 <-- iput ip s3 ;;
                  namex_from fuel' nx path' nameiparent name depth s4
            end
      end
  end.

(** Fuel that is enough for any path: a path of [k] bytes has at most [k]
    elements, and each of the at most 8 expansions restarts on a path
    shorter than [MAXPATH]. *)
Definition namex_fuel (path : list Z) : nat :=
  (length path + 1 + Z.to_nat ((MAX_SYMLINK_DEPTH + 1) * (MAXPATH + 1)))%nat.

Definition namex (path : list Z) (nameiparent : bool) (s : state)
  : outcome (option nat * list Z * state) :=
  match path with
  | [] => Returned (None, [], s)
  | c :: _ =>
      '(start, s1) <-- (match cwd s with
                        | Some d => if c =? 47 then iget ROOTDEV ROOTINO s else idup d s
                        | None => iget ROOTDEV ROOTINO s
                        end) ;;
      namex_from (namex_fuel path) start path nameiparent [] 0 s1
  end.

Definition namei (path : list Z) (s : state) := namex path false s.
Definition nameiparent (path : list Z) (s : state) := namex path true s.

(** *** System-call arguments (syscall.c) *)

(** [check_user_range]: one turn of the loop per page. *)
Fixpoint check_range_loop (fuel : nat) (pt start end_ : Z) (write : bool) (k : kmem)
  : option Z :=
  if negb (start <? end_) then Some 0
  else
    match fuel with
    | O => None
    | S fuel' =>
        let va0 := PGROUNDDOWN start in
        pte <- walk_lookup pt va0 k ;;
        if (pte =? 0) || negb (has (mem k pte) PTE_V) || negb (has (mem k pte) PTE_U)
        then Some (-1)
        else if write && negb (has (mem k pte) PTE_W) then Some (-1)
        else
          let next := wrap64 (va0 + PGSIZE) in
          if next <=? start then Some (-1)
          else check_range_loop fuel' pt (if next >? end_ then end_ else next) end_ write k
    end.

Definition check_user_range (addr size : Z) (write : bool) (s : state) : option Z :=
  if size <? 0 then Some (-1)
  else if size =? 0 then Some 0
  else if addr >=? MAXVA then Some (-1)
  else if wrap64 (addr + size) <? addr then Some (-1)
  else if wrap64 (addr + size) >? MAXVA then Some (-1)
  else check_range_loop (Z.to_nat (size / PGSIZE + 2)) (upt s) addr (addr + size) write (km s).

Definition check_user_ptr (ptr size : Z) (s : state) : option Z :=
  check_user_range ptr size false s.


(** [argaddr]: [None] stands for the result -1. *)
Definition argaddr (k : Z) (s : state) : option (option Z) :=
  let val := tf s k in
  if negb (val =? 0) then
    r <- check_user_ptr val 1 s ;;
    if r <? 0 then Some None else Some (Some val)
  else Some (Some val).

(** [fetchstr]: the string, or [None] for -1. *)
Fixpoint fetchstr_loop (fuel : nat) (addr : Z) (acc : list Z) (s : state)
  : option (option (list Z)) :=
  match fuel with
  | O => Some None
  | S fuel' =>
      '(r, bytes) <- copyin (upt s) addr 1 (km s) ;;
      if r <? 0 then Some None
      else
        let c := nth 0 bytes 0 in
        if c =? 0 then Some (Some acc)
        else fetchstr_loop fuel' (addr + 1) (acc ++ [c]) s
  end.

Definition fetchstr (addr max : Z) (s : state) : option (option (list Z)) :=
  if max <=? 0 then Some None else fetchstr_loop (Z.to_nat max) addr [] s.

Definition argstr (k max : Z) (s : state) : option (option (list Z)) :=
  a <- argaddr k s ;;
  match a with
  | None => Some None
  | Some addr => fetchstr addr max s
  end.


(** *** Files (file.c) and the file system calls (sysfile.c) *)

Section Devices.

(** [devsw]: the read and write callbacks of the registered devices. *)
Variable devsw_read : Z -> option (Z -> Z -> state -> option (Z * state)).
Variable devsw_write : Z -> option (Z -> Z -> state -> option (Z * state)).






End Devices.

(** [isdirempty]. *)
Fixpoint isdirempty_loop (fuel : nat) (dp : nat) (off : Z) (s : state)
  : option (bool * state) :=
  if negb (off <? i_size (itable s dp)) then Some (true, s)
  else
    match fuel with
    | O => None
    | S fuel' =>
        '(r, de, s1) <- readi dp false 0 off DIRENT_SIZE s ;;
        if negb (r =? DIRENT_SIZE) then None
        else if negb (de_inum de =? 0) then Some (false, s1)
        else isdirempty_loop fuel' dp (off + DIRENT_SIZE) s1
    end.

Definition isdirempty (dp : nat) (s : state) : option (bool * state) :=
  isdirempty_loop (Z.to_nat (i_size (itable s dp) / DIRENT_SIZE + 1)) dp (2 * DIRENT_SIZE) s.

Definition is_special_dirname (name : list Z) : bool :=
  ((nth 0 name 0 =? 46) && (nth 1 name 0 =? 0))
  || ((nth 0 name 0 =? 46) && (nth 1 name 0 =? 46) && (nth 2 name 0 =? 0)).

(** [sys_unlink]. *)
Definition sys_unlink (s : state) : outcome (Z * state) :=
  p <-- argstr 0 MAXPATH s ;;
  match p with
  | None => Returned (-1, s)
  | Some path =>
      match nameiparent path s with
      | OutOfFuel => OutOfFuel
      | Panicked => Panicked
      | Returned (None, _, s1) => Returned (-1, s1)
      | Returned (Some dp, name, s1) =>
          s2 <-- ilock dp s1 ;;
          if is_special_dirname name then
            s3 <-- iunlockput dp s2 ;; Returned (-1, s3)
          else
            '(found, off, s3) <-- dirlookup dp name s2 ;;
            match found with
            | None => s4 <-- iunlockput dp s3 ;; Returned (-1, s4)
            | Some ip =>
                s4 <-- ilock ip s3 ;;
                if i_nlink (itable s4 ip) <? 1 then Panicked
                else
                  '(empty, s5) <-- (if i_type (itable s4 ip) =? T_DIR then isdirempty ip s4
                                    else Some (true, s4)) ;;
                  if negb empty then
                    s6 <-- iunlockput ip s5 ;;
                    s7 <-- iunlockput dp s6 ;;
                    Returned (-1, s7)
                  else
                    '(r, s6) <-- writei dp false 0 (fun _ => 0) off DIRENT_SIZE s5 ;;
                    if negb (r =? DIRENT_SIZE) then Panicked
                    else
                      s7 <-- (if i_type (itable s6 ip) =? T_DIR then
                                iupdate dp (set_inode dp
                                  (with_nlink (to_short (of_short (i_nlink (itable s6 dp) - 1)))
                                              (itable s6 dp)) s6)
                              else Some s6) ;;
                      s8 <-- iunlockput dp s7 ;;
                      s9 <-- iupdate ip (set_inode ip
                               (with_nlink (to_short (of_short (i_nlink (itable s8 ip) - 1)))
                                           (itable s8 ip)) s8) ;;
                      s10 <-- iunlockput ip s9 ;;
                      Returned (0, s10)
            end
      end
  end.

(** *** A small disk: the root directory, nine symbolic links, one file

    Inode 1 is the root directory (block 46), inodes 2..10 are the links
    [l1] .. [l9], [l1 -> l2 -> ... -> l9 -> t], and inode 11 is the file
    [t]. *)

Definition ch_l : Z := 108.
Definition ch_t : Z := 116.
Definition digit (k : Z) : Z := 48 + k.

(** The name and the content of link [k] (1..9). *)
Definition link_name (k : Z) : list Z := [ch_l; digit k].
Definition link_target (k : Z) : list Z := if k <? 9 then link_name (k + 1) else [ch_t].

Definition demo_dinode (inum : Z) : Z -> Z :=
  let mk := fun type size addr =>
    put32 (put32 (put16 (put16 (fun _ => 0) 0 type) 6 1) 8 size) 12 addr in
  if inum =? 1 then mk T_DIR (12 * DIRENT_SIZE) 46
  else if (2 <=? inum) && (inum <=? 10)
       then mk T_SYMLINK (Z.of_nat (length (link_target (inum - 1))) + 1) (45 + inum)
  else if inum =? 11 then mk T_FILE 5 56
  else fun _ => 0.

Definition demo_dir : list Z :=
  make_dirent [46] 1 ++ make_dirent [46; 46] 1
  ++ flat_map (fun k => make_dirent (link_name (Z.of_nat k)) (Z.of_nat k + 1)) (seq 1 9)
  ++ make_dirent [ch_t] 11.

Definition demo_blocks (b : Z) : Z -> Z :=
  if b =? 32 then fun o => demo_dinode (o / DINODE_SIZE) (o mod DINODE_SIZE)
  else if b =? 46 then fun o => nth (Z.to_nat o) demo_dir 0
  else if (47 <=? b) && (b <=? 55) then fun o => nth (Z.to_nat o) (link_target (b - 46)) 0
  else if b =? 56 then fun o => nth (Z.to_nat o) [104; 101; 108; 108; 111] 0
  else fun _ => 0.

Definition empty_inode : inode := mkInode 0 0 0 false 0 0 0 0 0 0 (fun _ => 0).
Definition empty_file : file := mkFile FD_NONE 0 0 0 None 0 0.

(** The state after [fs_init]: nothing cached, no transaction open. *)
Definition demo_cold : state :=
  mkState demo_blocks (fun _ => empty_inode)
          (Log.mkLog LOG_START LOG_SIZE 0 0 ROOTDEV (Log.mkHeader 0 (fun _ => 0)))
          (fun _ => empty_file) (fun _ => None) None (fun _ => 0) 0 Pmm.demo_boot.

(** The same disk with the inodes [lo .. lo + k - 1] held by someone else
    (as open files are): cached, loaded, unlocked, [ref = 1]. *)
Fixpoint hold (k : nat) (lo : Z) (s : state) : option state :=
  match k with
  | O => Some s
  | S k' =>
      '(ip, s1) <- iget ROOTDEV lo s ;;
      s2 <- ilock ip s1 ;;
      s3 <- iunlock ip s2 ;;
      hold k' (lo + 1) s3
  end.

Definition demo_warm : option state := hold 11 1 demo_cold.

(** What a lookup returns: the inode number and type behind the pointer. *)
Definition seen (r : outcome (option nat * list Z * state)) : outcome (option (Z * Z)) :=
  match r with
  | Returned (Some ip, _, s) =>
      match ilock ip s with
      | Some s1 => Returned (Some (i_inum (itable s1 ip), i_type (itable s1 ip)))
      | None => Panicked
      end
  | Returned (None, _, _) => Returned None
  | Panicked => Panicked
  | OutOfFuel => OutOfFuel
  end.

Definition path_l (k : Z) : list Z := 47 :: link_name k.

Example demo_lookups :
  match demo_warm with
  | Some w =>
      seen (namei (path_l 3) w) = Returned (Some (11, T_FILE)) /\
      seen (namei (path_l 2) w) = Returned (Some (11, T_FILE)) /\
      seen (namei (path_l 1) w) = Panicked /\
      seen (namei (path_l 3) demo_cold) = Returned (Some (4, T_SYMLINK))
  | None => False
  end.
Proof. vm_compute. repeat split; reflexivity. Qed.

(** C7 (the code diverges).  When the loop of [namex_from] has looked up a
    path element, finds a symbolic link behind it and is at depth 8 or
    more, it does not return null: the link's inode is not locked at that
    point, so the [iunlockput] of the depth check panics in [iunlock]. *)
Theorem namex_from_depth_limit_panics (fuel : nat) (ip nx : nat) (path rest elem name : list Z)
    (nameiparent : bool) (depth off : Z) (s s1 s2 s3 : state) :
  skipelem path = Some (rest, elem) ->
  ilock ip s = Some s1 -> i_type (itable s1 ip) = T_DIR ->
  (nameiparent && is_nil rest)%bool = false ->
  dirlookup ip elem s1 = Some (Some nx, off, s2) ->
  iunlock ip s2 = Some s3 ->
  i_type (itable s3 nx) = T_SYMLINK -> i_locked (itable s3 nx) = false ->
  MAX_SYMLINK_DEPTH <= depth ->
  namex_from (S fuel) ip path nameiparent name depth s = Panicked.
Proof.
  intros Hsk Hl Hty Hnp Hdl Hul Hsym Hlk Hd.
  cbn [namex_from]. rewrite Hsk. rewrite Hl. cbn [pbind]. rewrite Hty.
  change (T_DIR =? T_DIR) with true. cbn [negb]. rewrite Hnp.
  rewrite Hdl. cbn [pbind]. rewrite Hul. cbn [pbind]. rewrite Hsym.
  change (T_SYMLINK =? T_SYMLINK) with true. cbn [negb andb].
  destruct (Z.geb_spec depth MAX_SYMLINK_DEPTH) as [_|Hlt]; [|lia].
  unfold iunlockput, iunlock. rewrite Hlk. reflexivity.
Qed.

(** The value of a computation that is known to return. *)
Definition get {A : Type} (d : A) (o : option A) : A :=
  match o with Some a => a | None => d end.
Definition is_some {A : Type} (o : option A) : bool :=
  match o with Some _ => true | None => false end.

Lemma get_some {A : Type} (d : A) (o : option A) : is_some o = true -> o = Some (get d o).
Proof. destruct o; [reflexivity|discriminate]. Qed.

(** The lookup of [l9] in the root directory at depth 8, every inode
    cached. *)
Definition limit_w : state := get demo_cold demo_warm.
Definition limit_w1 : state := get limit_w (ilock 0 limit_w).
Definition limit_r2 : option nat * Z * state :=
  get (None, 0, limit_w1) (dirlookup 0 (elem_name (link_name 9)) limit_w1).
Definition limit_w3 : state := get limit_w1 (iunlock 0 (snd limit_r2)).

Lemma namex_from_depth_limit_panics_witness :
  namex_from 1 0 (path_l 9) false [] 8 limit_w = Panicked.
Proof.
  apply (namex_from_depth_limit_panics 0 0 9 (path_l 9) [] (elem_name (link_name 9)) []
           false 8 (snd (fst limit_r2)) limit_w limit_w1 (snd limit_r2) limit_w3).
  - reflexivity.
  - apply get_some. vm_compute. reflexivity.
  - vm_compute. reflexivity.
  - reflexivity.
  - assert (H : fst (fst limit_r2) = Some 9%nat) by (vm_compute; reflexivity).
    rewrite <- H. unfold limit_r2.
    rewrite (get_some (None, 0, limit_w1)
               (dirlookup 0 (elem_name (link_name 9)) limit_w1)) at 1
      by (vm_compute; reflexivity).
    destruct (get _ _) as [[a b] c]. reflexivity.
  - apply get_some. vm_compute. reflexivity.
  - vm_compute. reflexivity.
  - vm_compute. reflexivity.
  - unfold MAX_SYMLINK_DEPTH. lia.
Defined.

(** *** Reading a file whose blocks are all there *)

(** The block [bmap] finds for block index [bn] when nothing has to be
    allocated. *)
Definition bmap_ro (ip : nat) (bn : Z) (s : state) : Z :=
  if bn <? NDIRECT then i_addrs (itable s ip) bn
  else if bn - NDIRECT <? NINDIRECT then
    get32 (blocks s (i_addrs (itable s ip) NDIRECT)) (4 * (bn - NDIRECT))
  else
    let bn2 := bn - NDIRECT - NINDIRECT in
    get32 (blocks s (get32 (blocks s (i_addrs (itable s ip) (NDIRECT + 1)))
                           (4 * (bn2 / NINDIRECT))))
          (4 * (bn2 mod NINDIRECT)).

(** Block index [bn] of the inode is mapped: no pointer on the way to it
    is 0, and it is within the range of the double-indirect block. *)
Definition mapped (ip : nat) (bn : Z) (s : state) : Prop :=
  bmap_ro ip bn s <> 0 /\
  (NDIRECT <= bn -> bn - NDIRECT < NINDIRECT -> i_addrs (itable s ip) NDIRECT <> 0) /\
  (NDIRECT + NINDIRECT <= bn ->
     bn - NDIRECT - NINDIRECT < NDOUBLE /\
     i_addrs (itable s ip) (NDIRECT + 1) <> 0 /\
     get32 (blocks s (i_addrs (itable s ip) (NDIRECT + 1)))
           (4 * ((bn - NDIRECT - NINDIRECT) / NINDIRECT)) <> 0).

Lemma ensure_addr_mapped (ip : nat) (k : Z) (s : state) :
  i_addrs (itable s ip) k <> 0 -> ensure_addr ip k s = Some (i_addrs (itable s ip) k, s).
Proof.
  intros H. unfold ensure_addr. destruct (Z.eqb_spec (i_addrs (itable s ip) k) 0); [contradiction|].
  reflexivity.
Qed.

Lemma ensure_entry_mapped (blk idx : Z) (s : state) :
  get32 (blocks s blk) (4 * idx) <> 0 ->
  ensure_entry blk idx s = Some (get32 (blocks s blk) (4 * idx), s).
Proof.
  intros H. unfold ensure_entry.
  destruct (Z.eqb_spec (get32 (blocks s blk) (4 * idx)) 0); [contradiction|]. reflexivity.
Qed.

Lemma bmap_mapped (ip : nat) (bn : Z) (s : state) :
  mapped ip bn s -> bmap ip bn s = Some (bmap_ro ip bn s, s).
Proof.
  intros (Hro & H1 & H2). unfold bmap, bmap_ro in *.
  destruct (Z.ltb_spec bn NDIRECT) as [Hd|Hd].
  - apply ensure_addr_mapped. exact Hro.
  - destruct (Z.ltb_spec (bn - NDIRECT) NINDIRECT) as [Hi|Hi].
    + rewrite ensure_addr_mapped by (apply H1; assumption). cbn [obind].
      apply ensure_entry_mapped. exact Hro.
    + destruct (H2 ltac:(lia)) as (Hr & Ha & He).
      destruct (Z.geb_spec (bn - NDIRECT - NINDIRECT) NDOUBLE) as [|_]; [lia|].
      rewrite ensure_addr_mapped by exact Ha. cbn [obind].
      rewrite ensure_entry_mapped by exact He. cbn [obind].
      apply ensure_entry_mapped. exact Hro.
Qed.

(** Byte [p] of the file, and the [r] bytes from [off] on. *)
Definition file_byte (ip : nat) (s : state) (p : Z) : Z :=
  blocks s (bmap_ro ip (p / BLOCK_SIZE) s) (p mod BLOCK_SIZE).
Definition file_bytes (ip : nat) (s : state) (off r : Z) : list Z :=
  map (fun k => file_byte ip s (off + Z.of_nat k)) (seq 0 (Z.to_nat r)).

Lemma map_seq_shift {A : Type} (len : nat) : forall (f : nat -> A) (start : nat),
  map f (seq start len) = map (fun k => f (start + k)%nat) (seq 0 len).
Proof.
  induction len as [|len IH]; intros f start; [reflexivity|].
  cbn [seq map]. rewrite Nat.add_0_r. f_equal.
  rewrite (IH f (S start)), (IH (fun k => f (start + k)%nat) 1%nat). apply map_ext. intros k.
  f_equal. lia.
Qed.

Lemma file_bytes_app (ip : nat) (s : state) (off a b : Z) :
  0 <= a -> 0 <= b ->
  file_bytes ip s off (a + b) = file_bytes ip s off a ++ file_bytes ip s (off + a) b.
Proof.
  intros Ha Hb. unfold file_bytes.
  rewrite Z2Nat.inj_add by assumption. rewrite seq_app, map_app. f_equal.
  cbn [Nat.add]. rewrite map_seq_shift. apply map_ext. intros k.
  rewrite Nat2Z.inj_add, Z2Nat.id by assumption. f_equal. lia.
Qed.

Lemma to_int_small (v : Z) : 0 <= v <= INT_MAX -> to_int v = v.
Proof.
  unfold to_int, INT_MAX. intros H. destruct (Z.ltb_spec v 0x80000000); [reflexivity|lia].
Qed.

Lemma same_block (a k : Z) :
  0 <= k < BLOCK_SIZE - a mod BLOCK_SIZE ->
  (a + k) / BLOCK_SIZE = a / BLOCK_SIZE /\ (a + k) mod BLOCK_SIZE = a mod BLOCK_SIZE + k.
Proof.
  unfold BLOCK_SIZE. intros Hk.
  pose proof (Z.div_mod a 4096 ltac:(lia)) as Ha.
  pose proof (Z.mod_pos_bound a 4096 ltac:(lia)) as Hm.
  assert (Hq : (a + k) / 4096 = a / 4096).
  { symmetry. apply (Z.div_unique (a + k) 4096 (a / 4096) (a mod 4096 + k)); lia. }
  split; [exact Hq|].
  symmetry. apply (Z.mod_unique (a + k) 4096 (a / 4096) (a mod 4096 + k)); lia.
Qed.

Lemma chunk_bytes (ip : nat) (s : state) (a m : Z) :
  0 <= m <= BLOCK_SIZE - a mod BLOCK_SIZE ->
  bytes_of (blocks s (bmap_ro ip (a / BLOCK_SIZE) s)) (a mod BLOCK_SIZE) m
  = file_bytes ip s a m.
Proof.
  intros Hm. unfold bytes_of, file_bytes. apply map_ext_in. intros k Hk.
  apply in_seq in Hk. unfold file_byte.
  destruct (same_block a (Z.of_nat k)) as [-> ->]; [lia|reflexivity].
Qed.

Lemma readi_loop_kernel (ip : nat) (dst off n : Z) (s : state) :
  0 <= off -> 0 <= n <= INT_MAX ->
  (forall p, off <= p < off + n -> mapped ip (p / BLOCK_SIZE) s) ->
  forall (fuel : nat) (tot : Z) (acc : list Z),
  0 <= tot <= n -> n - tot <= Z.of_nat fuel ->
  readi_loop fuel ip false dst off n tot acc s
  = Some (n, acc ++ file_bytes ip s (off + tot) (n - tot), s).
Proof.
  intros Hoff Hn Hmap. induction fuel as [|fuel IH]; intros tot acc Ht Hf.
  - assert (tot = n) by lia. subst tot. cbn [readi_loop].
    rewrite Z.ltb_irrefl. cbn [negb]. rewrite to_int_small by exact Hn.
    rewrite Z.sub_diag. unfold file_bytes. cbn [Z.to_nat seq map]. rewrite app_nil_r.
    reflexivity.
  - cbn [readi_loop]. destruct (Z.ltb_spec tot n) as [Hlt|Hge]; cbn [negb].
    + rewrite bmap_mapped by (apply Hmap; lia). cbn [obind].
      pose proof (Z.mod_pos_bound (off + tot) BLOCK_SIZE ltac:(unfold BLOCK_SIZE; lia)) as Hb.
      set (m := Z.min (n - tot) (BLOCK_SIZE - (off + tot) mod BLOCK_SIZE)).
      assert (Hm : 1 <= m <= n - tot) by (unfold m; lia).
      assert (Hm' : m <= BLOCK_SIZE - (off + tot) mod BLOCK_SIZE) by (unfold m; lia).
      rewrite (IH (tot + m) _ ltac:(lia) ltac:(lia)).
      rewrite chunk_bytes by lia. rewrite <- app_assoc.
      replace (n - tot) with (m + (n - (tot + m))) by lia.
      rewrite file_bytes_app by lia.
      replace (off + (tot + m)) with (off + tot + m) by lia.
      replace (m + (n - (tot + m)) - m) with (n - (tot + m)) by lia.
      reflexivity.
    + assert (tot = n) by lia. subst tot. rewrite to_int_small by exact Hn.
      rewrite Z.sub_diag. unfold file_bytes. cbn [Z.to_nat seq map]. rewrite app_nil_r.
      reflexivity.
Qed.

(** [readi] into a kernel buffer, on a file whose size fits an [int] and
    whose blocks under the range read are all mapped. *)
Lemma readi_kernel_spec (ip : nat) (dst off n : Z) (s : state) :
  0 <= off < two32 -> 0 <= n < two32 -> 0 <= i_size (itable s ip) <= INT_MAX ->
  (forall p, off <= p < off + Z.min n (i_size (itable s ip) - off) ->
             mapped ip (p / BLOCK_SIZE) s) ->
  readi ip false dst off n s
  = if (off >? i_size (itable s ip)) || (two32 <=? off + n)
    then Some (-1, [], s)
    else Some (Z.min n (i_size (itable s ip) - off),
               file_bytes ip s off (Z.min n (i_size (itable s ip) - off)), s).
Proof.
  intros Hoff Hn Hsz Hmap. unfold readi. set (size := i_size (itable s ip)) in *.
  destruct (Z.gtb_spec off size) as [Hgt|Hle]; cbn [orb]; [reflexivity|].
  destruct (Z.leb_spec two32 (off + n)) as [Hov|Hno].
  - assert (Hu : u32 (off + n) = off + n - two32).
    { unfold u32. symmetry. apply (Z.mod_unique (off + n) two32 1); unfold two32 in *; lia. }
    rewrite Hu. destruct (Z.ltb_spec (off + n - two32) off); [reflexivity|lia].
  - assert (Hu : u32 (off + n) = off + n)
      by (unfold u32; apply Z.mod_small; lia).
    rewrite Hu. destruct (Z.ltb_spec (off + n) off); [lia|].
    set (n' := if off + n >? size then size - off else n).
    assert (Hn' : n' = Z.min n (size - off)).
    { unfold n'. destruct (Z.gtb_spec (off + n) size); lia. }
    rewrite Hn'.
    rewrite (readi_loop_kernel ip dst off (Z.min n (size - off)) s ltac:(lia) ltac:(lia) Hmap
               (Z.to_nat (Z.min n (size - off))) 0 [] ltac:(lia) ltac:(rewrite Z2Nat.id; lia)).
    rewrite Z.add_0_r, Z.sub_0_r. reflexivity.
Qed.

(** C6.  [readi] into a kernel buffer, on a file whose size fits an [int]
    and whose blocks under the range read are all mapped: when [off] is past
    the end of the file or [off + n] overflows 32 bits the result is -1 and
    no byte is moved; otherwise it returns [min n (size - off)], the bytes
    moved are the bytes of the file from [off] on, and nothing else changes. *)
Theorem readi_kernel_exact (ip : nat) (dst off n : Z) (s : state) :
  0 <= off < two32 -> 0 <= n < two32 -> 0 <= i_size (itable s ip) <= INT_MAX ->
  (forall p, off <= p < off + Z.min n (i_size (itable s ip) - off) ->
             mapped ip (p / BLOCK_SIZE) s) ->
  readi ip false dst off n s
  = if (off >? i_size (itable s ip)) || (two32 <=? off + n)
    then Some (-1, [], s)
    else Some (Z.min n (i_size (itable s ip) - off),
               file_bytes ip s off (Z.min n (i_size (itable s ip) - off)), s).
Proof. exact (readi_kernel_spec ip dst off n s). Qed.

Lemma readi_kernel_exact_witness :
  readi 10 false 0 1 100 limit_w
  = if (1 >? i_size (itable limit_w 10)) || (two32 <=? 1 + 100)
    then Some (-1, [], limit_w)
    else Some (Z.min 100 (i_size (itable limit_w 10) - 1),
               file_bytes 10 limit_w 1 (Z.min 100 (i_size (itable limit_w 10) - 1)), limit_w).
Proof.
  assert (Hs : i_size (itable limit_w 10) = 5) by (vm_compute; reflexivity).
  apply (readi_kernel_exact 10 0 1 100 limit_w).
  - unfold two32. lia.
  - unfold two32. lia.
  - rewrite Hs. unfold INT_MAX. lia.
  - rewrite Hs. intros p Hp. rewrite Z.div_small by (unfold BLOCK_SIZE; lia).
    split; [vm_compute; discriminate|]. split; [unfold NDIRECT; lia|].
    unfold NDIRECT, NINDIRECT. lia.
Defined.

Example demo_readi :
  option_map (fun r => fst r) (readi 10 false 0 1 100 limit_w) = Some (4, [101; 108; 108; 111]).
Proof. vm_compute. reflexivity. Qed.

(** *** Directories: reading entries, and [dirlink] on a name that exists *)

(** Entry [k] of directory [dp], as the 16 bytes [readi] delivers. *)
Definition dirent_at (dp : nat) (s : state) (k : Z) : list Z :=
  file_bytes dp s (DIRENT_SIZE * k) DIRENT_SIZE.

(** A directory that [readi] reads without allocating. *)
Definition dir_ok (dp : nat) (s : state) : Prop :=
  i_type (itable s dp) = T_DIR /\
  0 <= i_size (itable s dp) <= INT_MAX /\
  (forall p, 0 <= p < i_size (itable s dp) -> mapped dp (p / BLOCK_SIZE) s).

Lemma readi_dirent (dp : nat) (s : state) (dst k : Z) :
  dir_ok dp s -> 0 <= k -> DIRENT_SIZE * k + DIRENT_SIZE <= i_size (itable s dp) ->
  readi dp false dst (DIRENT_SIZE * k) DIRENT_SIZE s = Some (DIRENT_SIZE, dirent_at dp s k, s).
Proof.
  intros (Hty & Hsz & Hmap) Hk Hin. unfold DIRENT_SIZE, INT_MAX in *.
  rewrite readi_kernel_spec.
  - destruct (Z.gtb_spec (16 * k) (i_size (itable s dp))); [lia|].
    destruct (Z.leb_spec two32 (16 * k + 16)); [unfold two32 in *; lia|].
    cbn [orb]. rewrite Z.min_l by lia. reflexivity.
  - unfold two32. lia.
  - unfold two32. lia.
  - unfold INT_MAX. lia.
  - intros p Hp. apply Hmap. lia.
Qed.

(** Entry [k] is the first one that is in use and carries [name]. *)
Definition first_match (dp : nat) (name : list Z) (s : state) (k : Z) : Prop :=
  0 <= k /\ DIRENT_SIZE * k + DIRENT_SIZE <= i_size (itable s dp) /\
  de_inum (dirent_at dp s k) <> 0 /\ namecmp name (de_name (dirent_at dp s k)) = 0 /\
  (forall j, 0 <= j < k ->
     de_inum (dirent_at dp s j) = 0 \/ namecmp name (de_name (dirent_at dp s j)) <> 0).

Lemma dirlookup_loop_finds (dp : nat) (name : list Z) (s s1 : state) (k : Z) (ip : nat) :
  dir_ok dp s -> first_match dp name s k ->
  iget (i_dev (itable s dp)) (de_inum (dirent_at dp s k)) s = Some (ip, s1) ->
  forall (n fuel : nat) (j : Z), k - j = Z.of_nat n -> 0 <= j -> (n < fuel)%nat ->
  dirlookup_loop fuel dp name (DIRENT_SIZE * j) s = Some (Some ip, DIRENT_SIZE * k, s1).
Proof.
  intros Hd (Hk & Hin & Hnz & Hcmp & Hbefore) Hget.
  induction n as [|n IH]; intros fuel j Hj Hj0 Hf.
  - assert (j = k) by lia. subst j. destruct fuel as [|fuel]; [lia|].
    cbn [dirlookup_loop].
    destruct (Z.ltb_spec (DIRENT_SIZE * k) (i_size (itable s dp)));
      [|unfold DIRENT_SIZE in *; lia].
    cbn [negb]. rewrite readi_dirent by assumption. cbn [obind].
    rewrite Z.eqb_refl. cbn [negb].
    destruct (Z.eqb_spec (de_inum (dirent_at dp s k)) 0) as [E|_]; [contradiction|].
    rewrite Hcmp. rewrite Z.eqb_refl. rewrite Hget. reflexivity.
  - destruct fuel as [|fuel]; [lia|]. cbn [dirlookup_loop].
    destruct (Z.ltb_spec (DIRENT_SIZE * j) (i_size (itable s dp)));
      [|unfold DIRENT_SIZE in *; lia].
    cbn [negb]. rewrite readi_dirent by (try assumption; unfold DIRENT_SIZE in *; lia).
    cbn [obind]. rewrite Z.eqb_refl. cbn [negb].
    replace (DIRENT_SIZE * j + DIRENT_SIZE) with (DIRENT_SIZE * (j + 1))
      by (unfold DIRENT_SIZE; lia).
    destruct (Z.eqb_spec (de_inum (dirent_at dp s j)) 0) as [E|Hne].
    + apply IH; lia.
    + destruct (Hbefore j ltac:(lia)) as [E|Hn]; [contradiction|].
      destruct (Z.eqb_spec (namecmp name (de_name (dirent_at dp s j))) 0) as [E|_];
        [contradiction|].
      apply IH; lia.
Qed.

Lemma dirlookup_finds (dp : nat) (name : list Z) (s s1 : state) (k : Z) (ip : nat) :
  dir_ok dp s -> first_match dp name s k ->
  iget (i_dev (itable s dp)) (de_inum (dirent_at dp s k)) s = Some (ip, s1) ->
  dirlookup dp name s = Some (Some ip, DIRENT_SIZE * k, s1).
Proof.
  intros Hd Hm Hget. unfold dirlookup.
  destruct Hd as (Hty & Hsz & Hmap). rewrite Hty. change (T_DIR =? T_DIR) with true.
  cbn [negb]. change 0 with (DIRENT_SIZE * 0) at 1.
  destruct Hm as (Hk & Hin & Hrest).
  apply (dirlookup_loop_finds dp name s s1 k ip (conj Hty (conj Hsz Hmap))
           (conj Hk (conj Hin Hrest)) Hget (Z.to_nat k)); try lia.
  unfold DIRENT_SIZE in *.
  assert (k + 1 <= i_size (itable s dp) / 16) by (apply Z.div_le_lower_bound; lia).
  lia.
Qed.

Lemma iget_takes_ref (dev inum : Z) (s s1 : state) (ip : nat) :
  iget dev inum s = Some (ip, s1) ->
  blocks s1 = blocks s /\ lg s1 = lg s /\
  i_dev (itable s1 ip) = dev /\ i_inum (itable s1 ip) = inum /\
  i_ref (itable s1 ip) = i_ref (itable s ip) + 1 /\
  (forall j, j <> ip -> itable s1 j = itable s j).
Proof.
  unfold iget. intros H.
  destruct (find _ slots) as [i|] eqn:Ef.
  - apply find_some in Ef. destruct Ef as [_ Ef].
    apply andb_prop in Ef. destruct Ef as [Ef Ei]. apply andb_prop in Ef.
    destruct Ef as [_ Ed]. apply Z.eqb_eq in Ei. apply Z.eqb_eq in Ed.
    destruct (i_ref (itable s i) =? INT_MAX); [discriminate|].
    injection H as <- <-. cbn. rewrite Nat.eqb_refl. cbn.
    repeat split; try assumption; try reflexivity.
    intros j Hj. destruct (Nat.eqb_spec j i); [contradiction|reflexivity].
  - clear Ef. cbv beta iota in H. destruct (find _ slots) as [i|] eqn:Eg; [|discriminate].
    apply find_some in Eg. destruct Eg as [_ Eg]. apply Z.eqb_eq in Eg.
    injection H as <- <-. cbn. rewrite Nat.eqb_refl. cbn.
    repeat split; try reflexivity; [lia|].
    intros j Hj. destruct (Nat.eqb_spec j i); [contradiction|reflexivity].
Qed.

(** C9.  When the first entry of directory [dp] that carries [name] is
    entry [k], [dirlink dp name inum] returns -1; the disk blocks and the
    log are as before, and the only change is in the inode table: the slot
    of the inode that entry names has one reference more than before the
    call, which [dirlink] does not give back. *)
Theorem dirlink_existing_name_keeps_ref (dp : nat) (name : list Z) (inum : Z)
    (s s1 : state) (k : Z) (ip : nat) :
  dir_ok dp s -> first_match dp name s k ->
  iget (i_dev (itable s dp)) (de_inum (dirent_at dp s k)) s = Some (ip, s1) ->
  dirlink dp name inum s = Some (-1, s1) /\
  blocks s1 = blocks s /\ lg s1 = lg s /\
  i_inum (itable s1 ip) = de_inum (dirent_at dp s k) /\
  i_ref (itable s1 ip) = i_ref (itable s ip) + 1 /\
  (forall j, j <> ip -> itable s1 j = itable s j).
Proof.
  intros Hd Hm Hget. unfold dirlink.
  rewrite (dirlookup_finds dp name s s1 k ip Hd Hm Hget). cbn [obind].
  destruct (iget_takes_ref _ _ _ _ _ Hget) as (Hb & Hl & _ & Hi & Hr & Ho).
  repeat split; assumption.
Qed.

Definition leak_r : nat * state := get (0%nat, limit_w) (iget ROOTDEV 11 limit_w).

Lemma limit_w1_root : dir_ok 0 limit_w1.
Proof.
  assert (Hs : i_size (itable limit_w1 0) = 192) by (vm_compute; reflexivity).
  split; [vm_compute; reflexivity|]. rewrite Hs. split; [unfold INT_MAX; lia|].
  intros p Hp. rewrite Z.div_small by (unfold BLOCK_SIZE; lia).
  split; [vm_compute; discriminate|]. split; [unfold NDIRECT; lia|].
  unfold NDIRECT, NINDIRECT. lia.
Qed.

Lemma dirlink_existing_name_keeps_ref_witness :
  dirlink 0 [ch_t] 7 limit_w1 = Some (-1, snd (get (0%nat, limit_w1) (iget ROOTDEV 11 limit_w1)))
  /\ i_ref (itable limit_w1 10) = 1
  /\ i_ref (itable (snd (get (0%nat, limit_w1) (iget ROOTDEV 11 limit_w1))) 10) = 2.
Proof.
  assert (Hg : iget (i_dev (itable limit_w1 0)) (de_inum (dirent_at 0 limit_w1 11)) limit_w1
               = Some (10%nat, snd (get (0%nat, limit_w1) (iget ROOTDEV 11 limit_w1)))).
  { assert (Hd : i_dev (itable limit_w1 0) = ROOTDEV) by (vm_compute; reflexivity).
    assert (Hn : de_inum (dirent_at 0 limit_w1 11) = 11) by (vm_compute; reflexivity).
    rewrite Hd, Hn.
    assert (Hf : fst (get (0%nat, limit_w1) (iget ROOTDEV 11 limit_w1)) = 10%nat)
      by (vm_compute; reflexivity).
    rewrite <- Hf.
    rewrite (get_some (0%nat, limit_w1) (iget ROOTDEV 11 limit_w1)) at 1
      by (vm_compute; reflexivity).
    destruct (get _ _) as [a b]. reflexivity. }
  assert (Hm : first_match 0 [ch_t] limit_w1 11).
  { split; [lia|]. split; [vm_compute; discriminate|].
    split; [vm_compute; discriminate|]. split; [vm_compute; reflexivity|].
    intros j Hj.
    assert (Hc : j = 0 \/ j = 1 \/ j = 2 \/ j = 3 \/ j = 4 \/ j = 5 \/ j = 6 \/ j = 7
                 \/ j = 8 \/ j = 9 \/ j = 10) by lia.
    right. repeat (destruct Hc as [-> | Hc]; [vm_compute; discriminate|]).
    subst j. vm_compute. discriminate. }
  destruct (dirlink_existing_name_keeps_ref 0 [ch_t] 7 limit_w1 _ 11 10 limit_w1_root Hm Hg)
    as (Hr & _ & _ & _ & Href & _).
  split; [exact Hr|]. split; [vm_compute; reflexivity|].
  rewrite Href. vm_compute. reflexivity.
Defined.

(** *** Outside a transaction nothing reaches the disk *)

(** No transaction is open. *)
Definition outside (s : state) : Prop := Log.outstanding (lg s) < 1.

(** The blocks and the log of [s'] are those of [s]. *)
Definition same_disk (s s' : state) : Prop := blocks s' = blocks s /\ lg s' = lg s.

Lemma same_disk_refl (s : state) : same_disk s s.
Proof. split; reflexivity. Qed.

Lemma log_block_write_outside (s0 t : state) (b : Z) :
  outside s0 -> lg t = lg s0 -> log_block_write b t = None.
Proof.
  unfold outside, log_block_write. intros Ho ->.
  destruct (_ >=? _); [reflexivity|]. destruct (_ >=? _); [reflexivity|].
  destruct (Z.ltb_spec (Log.outstanding (lg s0)) 1); [reflexivity|lia].
Qed.

Lemma iupdate_outside (s0 t : state) (ip : nat) :
  outside s0 -> lg t = lg s0 -> iupdate ip t = None.
Proof. intros Ho Hl. unfold iupdate. apply (log_block_write_outside s0); assumption. Qed.

Lemma bfree_outside (s0 t : state) (b : Z) :
  outside s0 -> lg t = lg s0 -> bfree b t = None.
Proof. intros Ho Hl. unfold bfree. apply (log_block_write_outside s0); assumption. Qed.

Lemma balloc_loop_outside (s0 t : state) :
  outside s0 -> lg t = lg s0 -> forall (fuel : nat) (b : Z), balloc_loop fuel b t = None.
Proof.
  intros Ho Hl. induction fuel as [|fuel IH]; intros b; [reflexivity|].
  cbn [balloc_loop]. destruct (_ =? 0); [|apply IH].
  rewrite (log_block_write_outside s0) by assumption. reflexivity.
Qed.

Lemma ensure_addr_outside (s0 t t' : state) (ip : nat) (k r : Z) :
  outside s0 -> lg t = lg s0 -> ensure_addr ip k t = Some (r, t') -> t' = t.
Proof.
  intros Ho Hl. unfold ensure_addr, balloc. destruct (_ =? 0).
  - rewrite (balloc_loop_outside s0) by assumption. discriminate.
  - intros H. injection H as _ <-. reflexivity.
Qed.

Lemma ensure_entry_outside (s0 t t' : state) (blk idx r : Z) :
  outside s0 -> lg t = lg s0 -> ensure_entry blk idx t = Some (r, t') -> t' = t.
Proof.
  intros Ho Hl. unfold ensure_entry, balloc. destruct (_ =? 0).
  - rewrite (balloc_loop_outside s0) by assumption. discriminate.
  - intros H. injection H as _ <-. reflexivity.
Qed.

Lemma bmap_outside (s0 t t' : state) (ip : nat) (bn r : Z) :
  outside s0 -> lg t = lg s0 -> bmap ip bn t = Some (r, t') -> t' = t.
Proof.
  intros Ho Hl. unfold bmap. destruct (bn <? NDIRECT).
  - apply (ensure_addr_outside s0); assumption.
  - destruct (_ <? NINDIRECT).
    + destruct (ensure_addr ip NDIRECT t) as [[ib t1]|] eqn:E1; [|discriminate].
      apply (ensure_addr_outside s0) in E1; try assumption. subst t1. cbn [obind].
      apply (ensure_entry_outside s0); assumption.
    + destruct (_ >=? NDOUBLE); [discriminate|].
      destruct (ensure_addr ip (NDIRECT + 1) t) as [[db t1]|] eqn:E1; [|discriminate].
      apply (ensure_addr_outside s0) in E1; try assumption. subst t1. cbn [obind].
      destruct (ensure_entry db _ t) as [[fb t2]|] eqn:E2; [|discriminate].
      apply (ensure_entry_outside s0) in E2; try assumption. subst t2. cbn [obind].
      apply (ensure_entry_outside s0); assumption.
Qed.

Lemma readi_loop_frame (s0 : state) (ip : nat) (u : bool) (dst off n : Z) :
  outside s0 ->
  forall (fuel : nat) (tot : Z) (acc : list Z) (t t' : state) (r : Z) (l : list Z),
  readi_loop fuel ip u dst off n tot acc t = Some (r, l, t') ->
  same_disk s0 t -> same_disk s0 t'.
Proof.
  intros Ho. induction fuel as [|fuel IH]; intros tot acc t t' r l H Hs.
  - cbn [readi_loop] in H. destruct (negb _); [|discriminate]. injection H as _ _ <-. exact Hs.
  - cbn [readi_loop] in H. destruct (negb _); [injection H as _ _ <-; exact Hs|].
    destruct (bmap ip _ t) as [[b t1]|] eqn:Eb; [|discriminate].
    apply (bmap_outside s0) in Eb; [|assumption|apply Hs]. subst t1. cbn [obind] in H.
    destruct u.
    + destruct (copyout _ _ _ _ _) as [[rc k1]|]; [|discriminate]. cbn [obind] in H.
      destruct (rc <? 0).
      * injection H as _ _ <-. exact Hs.
      * apply IH in H; [exact H|exact Hs].
    + apply IH in H; [exact H|exact Hs].
Qed.

Lemma readi_frame (s0 t t' : state) (ip : nat) (u : bool) (dst off n r : Z) (l : list Z) :
  readi ip u dst off n t = Some (r, l, t') ->
  outside s0 -> same_disk s0 t -> same_disk s0 t'.
Proof.
  unfold readi. intros H Ho Hs. destruct (_ || _).
  - injection H as _ _ <-. exact Hs.
  - apply (readi_loop_frame s0) in H; assumption.
Qed.

Lemma ilock_frame (s0 t t' : state) (ip : nat) :
  ilock ip t = Some t' -> outside s0 -> same_disk s0 t -> same_disk s0 t'.
Proof.
  unfold ilock. intros H _ Hs. destruct (_ <? 1); [discriminate|].
  destruct (i_locked _); [discriminate|]. destruct (_ =? 0).
  - destruct (_ =? 0); [discriminate|]. injection H as <-. exact Hs.
  - injection H as <-. exact Hs.
Qed.

Lemma iunlock_frame (s0 t t' : state) (ip : nat) :
  iunlock ip t = Some t' -> outside s0 -> same_disk s0 t -> same_disk s0 t'.
Proof.
  unfold iunlock. intros H _ Hs. destruct (_ || _); [discriminate|].
  injection H as <-. exact Hs.
Qed.

Lemma iget_frame (s0 t t' : state) (dev inum : Z) (ip : nat) :
  iget dev inum t = Some (ip, t') -> outside s0 -> same_disk s0 t -> same_disk s0 t'.
Proof.
  intros H _ [Hb Hl]. destruct (iget_takes_ref _ _ _ _ _ H) as (Hb' & Hl' & _).
  split; congruence.
Qed.

Lemma idup_frame (s0 t t' : state) (d ip : nat) :
  idup d t = Some (ip, t') -> outside s0 -> same_disk s0 t -> same_disk s0 t'.
Proof.
  unfold idup. intros H _ Hs. destruct (_ =? INT_MAX); [discriminate|].
  injection H as _ <-. exact Hs.
Qed.

Lemma free_direct_outside (s0 : state) (ip : nat) :
  outside s0 -> forall (fuel : nat) (i : Z) (t t' : state),
  lg t = lg s0 -> free_direct fuel ip i t = Some t' -> t' = t.
Proof.
  intros Ho. induction fuel as [|fuel IH]; intros i t t' Hl H.
  - injection H as <-. reflexivity.
  - cbn [free_direct] in H. destruct (negb _).
    + rewrite (bfree_outside s0) in H by assumption. discriminate.
    + apply IH in H; assumption.
Qed.

Lemma free_entries_outside (s0 : state) (blk : Z) :
  outside s0 -> forall (fuel : nat) (j : Z) (t t' : state),
  lg t = lg s0 -> free_entries fuel blk j t = Some t' -> t' = t.
Proof.
  intros Ho. induction fuel as [|fuel IH]; intros j t t' Hl H.
  - injection H as <-. reflexivity.
  - cbn [free_entries] in H. destruct (negb _).
    + rewrite (bfree_outside s0) in H by assumption. discriminate.
    + apply IH in H; assumption.
Qed.

Lemma free_double_outside (s0 : state) (dblk : Z) :
  outside s0 -> forall (fuel : nat) (i : Z) (t t' : state),
  lg t = lg s0 -> free_double fuel dblk i t = Some t' -> t' = t.
Proof.
  intros Ho. induction fuel as [|fuel IH]; intros i t t' Hl H.
  - injection H as <-. reflexivity.
  - cbn [free_double] in H. destruct (negb _).
    + destruct (free_entries _ _ _ t) as [t1|] eqn:E1; [|discriminate].
      apply (free_entries_outside s0) in E1; try assumption. subst t1. cbn [obind] in H.
      rewrite (bfree_outside s0) in H by assumption. discriminate.
    + apply IH in H; assumption.
Qed.

Lemma itrunc_outside (s0 t : state) (ip : nat) :
  outside s0 -> lg t = lg s0 -> itrunc ip t = None.
Proof.
  intros Ho Hl. unfold itrunc.
  destruct (free_direct _ ip 0 t) as [t1|] eqn:E1; [|reflexivity].
  apply (free_direct_outside s0) in E1; try assumption. subst t1. cbn [obind].
  cbv zeta. destruct (negb (i_addrs (itable t ip) NDIRECT =? 0)).
  - destruct (free_entries _ _ 0 t) as [u1|] eqn:E2; [|reflexivity].
    apply (free_entries_outside s0) in E2; try assumption. subst u1. cbn [obind].
    rewrite (bfree_outside s0) by assumption. reflexivity.
  - cbn [obind]. destruct (negb (i_addrs (itable t ip) (NDIRECT + 1) =? 0)).
    + destruct (free_double _ _ 0 t) as [u1|] eqn:E2; [|reflexivity].
      apply (free_double_outside s0) in E2; try assumption. subst u1. cbn [obind].
      rewrite (bfree_outside s0) by assumption. reflexivity.
    + cbn [obind]. apply (iupdate_outside s0); assumption.
Qed.

Lemma iput_frame (s0 t t' : state) (ip : nat) :
  iput ip t = Some t' -> outside s0 -> same_disk s0 t -> same_disk s0 t'.
Proof.
  unfold iput. intros H Ho Hs. destruct (_ && _).
  - destruct (ilock ip t) as [t1|] eqn:E1; [|discriminate].
    apply (ilock_frame s0) in E1; try assumption. cbn [obind] in H.
    rewrite (itrunc_outside s0) in H by (try assumption; apply E1). discriminate.
  - cbn [obind] in H. injection H as <-. exact Hs.
Qed.

Lemma iunlockput_frame (s0 t t' : state) (ip : nat) :
  iunlockput ip t = Some t' -> outside s0 -> same_disk s0 t -> same_disk s0 t'.
Proof.
  unfold iunlockput. intros H Ho Hs.
  destruct (iunlock ip t) as [t1|] eqn:E1; [|discriminate]. cbn [obind] in H.
  apply (iput_frame s0) in H; try assumption. apply (iunlock_frame s0) in E1; assumption.
Qed.

Lemma dirlookup_loop_frame (s0 : state) (dp : nat) (name : list Z) :
  outside s0 ->
  forall (fuel : nat) (off : Z) (t t' : state) (r : option nat) (o : Z),
  dirlookup_loop fuel dp name off t = Some (r, o, t') ->
  same_disk s0 t -> same_disk s0 t'.
Proof.
  intros Ho. induction fuel as [|fuel IH]; intros off t t' r o H Hs.
  - cbn [dirlookup_loop] in H. destruct (negb _); [|discriminate]. injection H as _ _ <-.
    exact Hs.
  - cbn [dirlookup_loop] in H. destruct (negb _); [injection H as _ _ <-; exact Hs|].
    destruct (readi dp false 0 off DIRENT_SIZE t) as [[[rr de] t1]|] eqn:Er; [|discriminate].
    apply (readi_frame s0) in Er; try assumption. cbn [obind] in H.
    destruct (negb _); [discriminate|]. destruct (_ =? 0).
    + apply IH in H; assumption.
    + destruct (_ =? 0).
      * destruct (iget _ _ t1) as [[ip t2]|] eqn:Eg; [|discriminate]. cbn [obind] in H.
        injection H as _ _ <-. apply (iget_frame s0) in Eg; assumption.
      * apply IH in H; assumption.
Qed.

Lemma dirlookup_frame (s0 t t' : state) (dp : nat) (name : list Z) (r : option nat) (o : Z) :
  dirlookup dp name t = Some (r, o, t') -> outside s0 -> same_disk s0 t -> same_disk s0 t'.
Proof.
  unfold dirlookup. intros H Ho Hs. destruct (negb _); [discriminate|].
  apply (dirlookup_loop_frame s0) in H; assumption.
Qed.

Lemma isdirempty_loop_frame (s0 : state) (dp : nat) :
  outside s0 ->
  forall (fuel : nat) (off : Z) (t t' : state) (r : bool),
  isdirempty_loop fuel dp off t = Some (r, t') -> same_disk s0 t -> same_disk s0 t'.
Proof.
  intros Ho. induction fuel as [|fuel IH]; intros off t t' r H Hs.
  - cbn [isdirempty_loop] in H. destruct (negb _); [|discriminate]. injection H as _ <-.
    exact Hs.
  - cbn [isdirempty_loop] in H. destruct (negb _); [injection H as _ <-; exact Hs|].
    destruct (readi dp false 0 off DIRENT_SIZE t) as [[[rr de] t1]|] eqn:Er; [|discriminate].
    apply (readi_frame s0) in Er; try assumption. cbn [obind] in H.
    destruct (negb _); [discriminate|]. destruct (negb _).
    + injection H as _ <-. exact Er.
    + apply IH in H; assumption.
Qed.

Lemma isdirempty_frame (s0 t t' : state) (dp : nat) (r : bool) :
  isdirempty dp t = Some (r, t') -> outside s0 -> same_disk s0 t -> same_disk s0 t'.
Proof.
  unfold isdirempty. intros H Ho Hs. apply (isdirempty_loop_frame s0) in H; assumption.
Qed.

Create HintDb frame.
#[local] Hint Resolve ilock_frame iunlock_frame iget_frame idup_frame iput_frame
  iunlockput_frame readi_frame dirlookup_frame isdirempty_frame : frame.

(** Opens the next step of a computation in hypothesis [H]. *)
Ltac split_prods :=
  repeat match goal with x : (_ * _)%type |- _ => destruct x end.

Ltac open_step H :=
  lazymatch type of H with
  | pbind ?c _ = _ =>
      let E := fresh "E" in
      destruct c eqn:E; cbn [pbind] in H; [split_prods|discriminate H]
  | obind ?c _ = _ =>
      let E := fresh "E" in
      destruct c eqn:E; cbn [obind] in H; [split_prods|discriminate H]
  | (if ?c then _ else _) = _ => let C := fresh "C" in destruct c eqn:C
  | match ?x with _ => _ end = _ => let M := fresh "M" in destruct x eqn:M
  end.

Lemma namex_from_frame (s0 : state) :
  outside s0 ->
  forall (fuel : nat) (ip : nat) (path : list Z) (np : bool) (name : list Z) (depth : Z)
         (t t' : state) (r : option nat) (nm : list Z),
  namex_from fuel ip path np name depth t = Returned (r, nm, t') ->
  same_disk s0 t -> same_disk s0 t'.
Proof.
  intros Ho. induction fuel as [|fuel IH]; intros ip path np name depth t t' r nm H Hs;
    [discriminate|].
  cbn [namex_from] in H.
  repeat (first
    [ match type of H with
      | Returned _ = Returned _ => injection H as <- <- <-; eauto 12 with frame
      | Panicked = _ => discriminate H
      | OutOfFuel = _ => discriminate H
      | namex_from fuel _ _ _ _ _ _ = _ => apply IH in H; [exact H|eauto 12 with frame]
      end
    | open_step H ]).
Qed.

Lemma namex_frame (s0 t t' : state) (path : list Z) (np : bool) (r : option nat)
    (nm : list Z) :
  namex path np t = Returned (r, nm, t') -> outside s0 -> same_disk s0 t -> same_disk s0 t'.
Proof.
  unfold namex. intros H Ho Hs. destruct path as [|c path]; [injection H as _ _ <-; exact Hs|].
  open_step H. apply (namex_from_frame s0) in H; [exact H|exact Ho|].
  destruct (cwd t); [destruct (c =? 47)|]; eauto with frame.
Qed.

(** A [writei] of at least one byte from a kernel buffer cannot succeed
    outside a transaction: it fails or panics in [log_block_write]. *)
Lemma writei_kernel_outside (s0 t t' : state) (ip : nat) (srcva : Z) (src : Z -> Z)
    (off n r : Z) :
  outside s0 -> same_disk s0 t -> 0 < n ->
  writei ip false srcva src off n t = Some (r, t') -> r = -1 /\ t' = t.
Proof.
  intros Ho Hs Hn. unfold writei.
  destruct (_ || _); [intros H; injection H as <- <-; split; reflexivity|].
  destruct (_ >? MAX_FILE_SIZE); [intros H; injection H as <- <-; split; reflexivity|].
  destruct (Z.to_nat n) as [|k] eqn:Ek; [lia|]. cbn [writei_loop].
  destruct (Z.ltb_spec 0 n); [|lia]. cbn [negb].
  destruct (bmap ip _ t) as [[b t1]|] eqn:Eb; [|discriminate].
  apply (bmap_outside s0) in Eb; [|assumption|apply Hs]. subst t1. cbn [obind].
  rewrite (log_block_write_outside s0) by (try assumption; apply Hs). discriminate.
Qed.


(** *** Unlinking on the small disk *)

(** The value of a call that is known to return. *)
Definition returned {A : Type} (d : A) (o : outcome A) : A :=
  match o with Returned a => a | _ => d end.
Definition is_returned {A : Type} (o : outcome A) : bool :=
  match o with Returned _ => true | _ => false end.

Lemma returned_eq {A : Type} (d : A) (o : outcome A) :
  is_returned o = true -> o = Returned (returned d o).
Proof. destruct o; [reflexivity|discriminate|discriminate]. Qed.

(** A process whose only user page, at address 0, is readable and holds
    the string [path] at address 16; [a0] is 16. *)
Definition demo_user (perm : Z) (path : list Z) (s : state) : option state :=
  '(pt, k1) <- Some (create_pagetable (km s)) ;;
  '(frame, k2) <- Some (Pmm.alloc_page k1) ;;
  '(_, k3) <- map_page pt 0 frame perm
                (set_mem (store_bytes (mem k2) (frame + 16)
                                      (fun k => nth (Z.to_nat k) path 0)
                                      (Z.of_nat (length path) + 1)) k2) ;;
  Some (mkState (blocks s) (itable s) (lg s) (ftable s) (ofile s) (cwd s)
                (fun k => if k =? 0 then 16 else 0) pt k3).

Definition unlink_t : state := get limit_w (demo_user (Z.lor PTE_R PTE_U) [47; ch_t] limit_w).

(** [unlink("/t")]: the system call as it is panics; with a transaction
    opened around it, it clears entry 11 of the root directory and brings
    the link count of inode 11 to 0. *)
Example demo_unlink :
  sys_unlink unlink_t = Panicked /\
  match begin_transaction unlink_t with
  | Some u =>
      match sys_unlink u with
      | Returned (r, u') =>
          r = 0 /\ de_inum (dirent_at 0 u 11) = 11 /\ de_inum (dirent_at 0 u' 11) = 0 /\
          i_nlink (itable u 10) = 1 /\ i_nlink (itable u' 10) = 0
      | _ => False
      end
  | None => False
  end.
Proof. vm_compute. repeat split; reflexivity. Qed.


(** *** User buffers of [read] and [write] *)






(** A process with one user page at address 0 with permissions [perm],
    descriptor 0 open for reading on the file [t] at offset [off], and the
    registers of [read(0, buf, n)]. *)
Definition demo_reader (perm off buf n : Z) : state :=
  let u := get limit_w (demo_user perm [] limit_w) in
  mkState (blocks u) (itable u) (lg u)
          (fun f => match f with
                    | O => mkFile FD_INODE 1 1 0 (Some 10%nat) off 0
                    | _ => empty_file
                    end)
          (fun fd => if fd =? 0 then Some 0%nat else None) (cwd u)
          (fun k => if k =? 1 then buf else if k =? 2 then n else 0) (upt u) (km u).



End Fs.


(** ** Copy-on-write fork: one turn of the loop of [uvmcopy] (vm.c) *)
Module Uvm.
Import Pmm Vm.

(** A frame that is allocated, and one that is free. *)
Definition used (s : kmem) (t : Z) : Prop :=
  valid_page t = true /\ bitmap_test (page_index t) s = 1.
Definition fresh (s : kmem) (t : Z) : Prop :=
  valid_page t = true /\ bitmap_test (page_index t) s = 0.

(** Address [a] lies in the page that starts at [t]. *)
Definition in_page (t a : Z) : Prop := t <= a < t + PGSIZE.

(** The tables [walk_lookup] goes through for [va], as far as they exist. *)
Definition table1 (pt va : Z) (s : kmem) : Z := PTE2PA (mem s (pte_at pt (PX 2 va))).
Definition table0 (pt va : Z) (s : kmem) : Z :=
  PTE2PA (mem s (pte_at (table1 pt va s) (PX 1 va))).
Definition path_pages (pt va : Z) (s : kmem) : list Z :=
  pt :: (if has (mem s (pte_at pt (PX 2 va))) PTE_V
         then table1 pt va s
              :: (if has (mem s (pte_at (table1 pt va s) (PX 1 va))) PTE_V
                  then [table0 pt va s] else [])
         else []).

(** The tables on the path of [va] are distinct allocated frames. *)
Definition path_ok (pt va : Z) (s : kmem) : Prop :=
  NoDup (path_pages pt va s) /\ Forall (used s) (path_pages pt va s).

(** No table on the path of [va] in [old] is one on its path in [newp]. *)
Definition apart (old newp va : Z) (s : kmem) : Prop :=
  forall t, In t (path_pages old va s) -> ~ In t (path_pages newp va s).

Lemma PX_range (level va : Z) : 0 <= PX level va < 512.
Proof.
  unfold PX. change 0x1FF with (Z.ones 9). rewrite Z.land_ones by lia.
  change (2 ^ 9) with 512. apply Z.mod_pos_bound. lia.
Qed.

Lemma valid_page_facts (t : Z) :
  valid_page t = true -> t mod PGSIZE = 0 /\ KERNBASE <= t < PHYSTOP.
Proof.
  unfold valid_page. rewrite !andb_true_iff. intros [[Hm Hlo] Hhi].
  apply Z.eqb_eq in Hm. apply Z.leb_le in Hlo. apply Z.ltb_lt in Hhi. lia.
Qed.

Lemma pte_at_in_page (t i : Z) : 0 <= i < 512 -> in_page t (pte_at t i).
Proof. unfold in_page, pte_at, PGSIZE. lia. Qed.

Lemma in_page_same (t u a : Z) :
  t mod PGSIZE = 0 -> u mod PGSIZE = 0 -> in_page t a -> in_page u a -> t = u.
Proof.
  unfold in_page, PGSIZE. intros Ht Hu Ha Hb.
  apply Z.mod_divide in Ht; [|lia]. apply Z.mod_divide in Hu; [|lia].
  destruct Ht as [k ->]. destruct Hu as [j ->]. assert (k = j) by lia. subst. reflexivity.
Qed.

Lemma page_index_round (t : Z) :
  valid_page t = true -> index_to_page (page_index t) = t.
Proof.
  intros H. apply valid_page_facts in H. destruct H as [Hm Hr].
  unfold index_to_page, page_index, PGSIZE, KERNBASE in *.
  assert (Hd : (t - 0x80000000) mod 4096 = 0).
  { rewrite Zminus_mod, Hm. reflexivity. }
  pose proof (Z.div_mod (t - 0x80000000) 4096 ltac:(lia)). lia.
Qed.

Lemma index_page_round (idx : Z) : page_index (index_to_page idx) = idx.
Proof.
  unfold index_to_page, page_index, PGSIZE.
  replace (KERNBASE + idx * 4096 - KERNBASE) with (idx * 4096) by lia.
  apply Z.div_mul. lia.
Qed.

Lemma valid_index_to_page (idx : Z) : 0 <= idx < NPAGES -> valid_page (index_to_page idx) = true.
Proof.
  change NPAGES with 32768. intros H.
  unfold valid_page, index_to_page, PHYSTOP, KERNBASE, PGSIZE.
  rewrite !andb_true_iff. repeat split.
  - apply Z.eqb_eq. rewrite Z.mod_add by lia. reflexivity.
  - apply Z.leb_le. lia.
  - apply Z.ltb_lt. lia.
Qed.

Lemma used_not_fresh (s : kmem) (t u : Z) : used s t -> fresh s u -> t <> u.
Proof. intros [_ H1] [_ H0] ->. lia. Qed.

Lemma used_fresh_index (s : kmem) (t u : Z) :
  valid_page t = true -> bitmap_test (page_index t) s <> 0 -> fresh s u ->
  page_index u <> page_index t.
Proof. intros _ H1 [_ H0] E. rewrite E in H0. contradiction. Qed.

(** *** Table entries *)

Lemma has_V_table (p : Z) : has (Z.lor (PA2PTE p) PTE_V) PTE_V = true.
Proof.
  unfold has, PTE_V. rewrite land_1_testbit, Z.lor_spec.
  change (Z.testbit 1 0) with true. rewrite Bool.orb_true_r. reflexivity.
Qed.

Lemma PTE2PA_PA2PTE (p f : Z) :
  valid_page p = true -> 0 <= f < 1024 -> PTE2PA (Z.lor (PA2PTE p) f) = p.
Proof.
  intros Hv Hf. apply valid_page_facts in Hv. destruct Hv as [Hm Hr].
  unfold PTE2PA, PA2PTE. rewrite Z.shiftr_lor.
  rewrite Z.shiftr_shiftl_l by lia. rewrite Z.sub_diag, Z.shiftl_0_r.
  assert (Hz : Z.shiftr f 10 = 0).
  { rewrite Z.shiftr_div_pow2 by lia. apply Z.div_small. change (2 ^ 10) with 1024. lia. }
  rewrite Hz, Z.lor_0_r. rewrite Z.shiftl_mul_pow2, Z.shiftr_div_pow2 by lia.
  change (2 ^ 12) with 4096. unfold PGSIZE in Hm.
  pose proof (Z.div_mod p 4096 ltac:(lia)) as Hd.
  unfold wrap64. rewrite Z.mod_small; unfold two64, PHYSTOP, KERNBASE in *; lia.
Qed.

Lemma PTE2PA_table (p : Z) : valid_page p = true -> PTE2PA (Z.lor (PA2PTE p) PTE_V) = p.
Proof. intros H. apply PTE2PA_PA2PTE; [exact H|unfold PTE_V; lia]. Qed.

(** *** The allocator, as [walk_create] uses it *)

Lemma find_in_word_spec (fuel : nat) : forall (i j : Z) (s : kmem) (idx : Z),
  0 <= i -> 0 <= j -> find_in_word fuel i j s = Some idx ->
  0 <= idx < NPAGES /\ bitmap_test idx s = 0.
Proof.
  induction fuel as [|fuel IH]; intros i j s idx Hi Hj H; [discriminate|].
  cbn [find_in_word] in H.
  destruct (Z.ltb_spec (i * BITS_PER_WORD + j) NPAGES) as [Hlt|]; cbn [andb] in H.
  - destruct (Z.eqb_spec (bitmap_test (i * BITS_PER_WORD + j) s) 0) as [Hz|].
    + injection H as <-. unfold BITS_PER_WORD in *. split; [lia|exact Hz].
    + apply IH in H; [exact H|lia|lia].
  - apply IH in H; [exact H|lia|lia].
Qed.

Lemma find_from_word_spec (fuel : nat) : forall (i : Z) (s : kmem) (idx : Z),
  0 <= i -> find_from_word fuel i s = Some idx ->
  0 <= idx < NPAGES /\ bitmap_test idx s = 0.
Proof.
  induction fuel as [|fuel IH]; intros i s idx Hi H; [discriminate|].
  cbn [find_from_word] in H. destruct (negb _).
  - destruct (find_in_word _ i 0 s) as [k|] eqn:E.
    + injection H as <-. apply find_in_word_spec in E; [exact E|lia|lia].
    + apply IH in H; [exact H|lia].
  - apply IH in H; [exact H|lia].
Qed.

Lemma alloc_page_cases (s : kmem) :
  fst (alloc_page s) = 0 \/
  exists idx, 0 <= idx < NPAGES /\ bitmap_test idx s = 0 /\
    alloc_page s
    = (index_to_page idx,
       set_mem (zero_range (mem s) (index_to_page idx) PGSIZE)
               (set_refcount idx 1 (set_free (free_pages_count s - 1) (bitmap_set idx s)))).
Proof.
  unfold alloc_page.
  destruct (free_pages_count s <=? 0); [left; reflexivity|].
  unfold find_first_free_page.
  destruct (find_from_word (Z.to_nat BITMAP_WORDS) 0 s) as [idx|] eqn:Ef; [|left; reflexivity].
  right. exists idx. apply find_from_word_spec in Ef; [|lia]. destruct Ef as [Hr Hz].
  split; [exact Hr|]. split; [exact Hz|]. reflexivity.
Qed.

Lemma alloc_page_spec (s s1 : kmem) (p : Z) :
  alloc_page s = (p, s1) -> p <> 0 ->
  fresh s p /\ mem s1 = zero_range (mem s) p PGSIZE /\
  refcount s1 = upd (refcount s) (page_index p) 1 /\
  bitmap_test (page_index p) s1 = 1 /\
  (forall f, f <> page_index p -> bitmap_test f s1 = bitmap_test f s).
Proof.
  intros H Hp. destruct (alloc_page_cases s) as [E|(idx & Hr & Hz & E)].
  - rewrite H in E. cbn [fst] in E. contradiction.
  - rewrite E in H. injection H as <- <-. rewrite index_page_round.
    split; [split; [apply valid_index_to_page; exact Hr|rewrite index_page_round; exact Hz]|].
    split; [reflexivity|]. split; [reflexivity|]. split.
    + change (bitmap_test idx (set_mem _ _)) with (bitmap_test idx (bitmap_set idx s)).
      apply bitmap_test_set_same.
    + intros f Hf.
      change (bitmap_test f (set_mem _ _)) with (bitmap_test f (bitmap_set idx s)).
      apply bitmap_test_set_other. exact Hf.
Qed.

(** *** Memory after a table has been created *)

Lemma uz_same (m : Z -> Z) (t e x : Z) : upd (zero_range m t PGSIZE) e x e = x.
Proof. unfold upd. rewrite Z.eqb_refl. reflexivity. Qed.

Lemma uz_zero (m : Z -> Z) (t e x a : Z) :
  a <> e -> in_page t a -> upd (zero_range m t PGSIZE) e x a = 0.
Proof.
  unfold upd, zero_range, in_page. intros Hne Hin.
  destruct (Z.eqb_spec a e); [contradiction|].
  destruct (Z.leb_spec t a); [|lia]. destruct (Z.ltb_spec a (t + PGSIZE)); [|lia]. reflexivity.
Qed.

Lemma uz_other (m : Z -> Z) (t e x a : Z) :
  a <> e -> ~ in_page t a -> upd (zero_range m t PGSIZE) e x a = m a.
Proof.
  unfold upd, zero_range, in_page. intros Hne Hin.
  destruct (Z.eqb_spec a e); [contradiction|].
  destruct (Z.leb_spec t a); [|reflexivity].
  destruct (Z.ltb_spec a (t + PGSIZE)); [lia|reflexivity].
Qed.

Lemma other_page (t u a : Z) :
  valid_page t = true -> valid_page u = true -> t <> u -> in_page t a -> ~ in_page u a.
Proof.
  intros Ht Hu Hne Ha Hb. apply Hne.
  apply (in_page_same t u a); try assumption.
  - apply valid_page_facts in Ht. apply Ht.
  - apply valid_page_facts in Hu. apply Hu.
Qed.

Lemma other_entry (t u a b : Z) :
  valid_page t = true -> valid_page u = true -> t <> u -> in_page t a -> in_page u b -> a <> b.
Proof. intros Ht Hu Hne Ha Hb ->. exact (other_page t u b Ht Hu Hne Ha Hb). Qed.

Lemma has_zero (f : Z) : has 0 f = false.
Proof. unfold has. rewrite Z.land_0_l. reflexivity. Qed.

(** One step of [walk_create]: the table was there, or a free frame has
    been taken, zeroed and entered. *)
Lemma walk_create_step_cases (level pt va : Z) (s s' : kmem) (t : Z) :
  walk_create_step level pt va s = (Some t, s') ->
  (has (mem s (pte_at pt (PX level va))) PTE_V = true /\
   t = PTE2PA (mem s (pte_at pt (PX level va))) /\ s' = s)
  \/
  (has (mem s (pte_at pt (PX level va))) PTE_V = false /\ fresh s t /\
   (forall a, mem s' a
              = upd (zero_range (mem s) t PGSIZE) (pte_at pt (PX level va))
                    (Z.lor (PA2PTE t) PTE_V) a) /\
   (forall f, refcount s' f = upd (refcount s) (page_index t) 1 f) /\
   bitmap_test (page_index t) s' = 1 /\
   (forall f, f <> page_index t -> bitmap_test f s' = bitmap_test f s)).
Proof.
  unfold walk_create_step. intros H.
  destruct (has (mem s (pte_at pt (PX level va))) PTE_V).
  - left. injection H as <- <-. repeat split; reflexivity.
  - right. destruct (alloc_page s) as [p s1] eqn:Ea.
    destruct (Z.eqb_spec p 0) as [|Hp]; [discriminate H|].
    injection H as <- <-.
    destruct (alloc_page_spec s s1 p Ea Hp) as (Hf & Hm & Hr & Hb1 & Hb).
    split; [reflexivity|]. split; [exact Hf|]. split; [|split; [|split]].
    + intros a. cbn [mem set_mem]. rewrite Hm. unfold upd, zero_range.
      destruct (a =? _); [reflexivity|].
      destruct ((p <=? a) && (a <? p + PGSIZE)); reflexivity.
    + intros f. cbn [refcount set_mem]. rewrite Hr. reflexivity.
    + exact Hb1.
    + exact Hb.
Qed.

Lemma used_valid (s : kmem) (t : Z) : used s t -> valid_page t = true.
Proof. intros [H _]. exact H. Qed.

Lemma fresh_valid (s : kmem) (t : Z) : fresh s t -> valid_page t = true.
Proof. intros [H _]. exact H. Qed.

Create HintDb uvm.
#[local] Hint Resolve used_valid fresh_valid pte_at_in_page PX_range used_not_fresh : uvm.

(** [walk_create] on a path whose tables are distinct allocated frames:
    afterwards the walk for [va] goes through [t1] and [t0], each a table
    that was on the path or a frame that was free; allocated frames off the
    path keep their content, and no reference count of an allocated frame
    changes. *)
Lemma walk_create_spec (newp va : Z) (s sw : kmem) (cpte : Z) :
  path_ok newp va s -> walk_create newp va s = Some (cpte, sw) -> cpte <> 0 ->
  exists t1 t0,
    cpte = pte_at t0 (PX 0 va) /\
    has (mem sw (pte_at newp (PX 2 va))) PTE_V = true /\
    PTE2PA (mem sw (pte_at newp (PX 2 va))) = t1 /\
    has (mem sw (pte_at t1 (PX 1 va))) PTE_V = true /\
    PTE2PA (mem sw (pte_at t1 (PX 1 va))) = t0 /\
    NoDup [newp; t1; t0] /\ valid_page t1 = true /\ valid_page t0 = true /\
    (In t1 (path_pages newp va s) \/ fresh s t1) /\
    (In t0 (path_pages newp va s) \/ fresh s t0) /\
    (forall u a, used s u -> ~ In u (path_pages newp va s) -> in_page u a ->
                 mem sw a = mem s a) /\
    (forall f, bitmap_test f s <> 0 ->
               bitmap_test f sw = bitmap_test f s /\ refcount sw f = refcount s f).
Proof.
  intros [Hnd Hus] H Hc. unfold walk_create in H.
  destruct (va >=? MAXVA); [discriminate H|].
  destruct (walk_create_step 2 newp va s) as [[t1|] sa] eqn:E2;
    [|injection H as <- _; contradiction].
  destruct (walk_create_step 1 t1 va sa) as [[t0|] sb] eqn:E1;
    [|injection H as <- _; contradiction].
  injection H as <- <-. exists t1, t0. split; [reflexivity|].
  pose proof (PX_range 2 va) as R2. pose proof (PX_range 1 va) as R1.
  apply walk_create_step_cases in E2. apply walk_create_step_cases in E1.
  unfold path_pages, table0, table1 in *.
  destruct E2 as [(V2 & T1 & ->)|(V2 & F1 & M2 & C2 & B2 & O2)].
  - rewrite V2 in *. subst t1.
    set (t1 := PTE2PA (mem s (pte_at newp (PX 2 va)))) in *.
    destruct E1 as [(V1 & T0 & ->)|(V1 & F0 & M1 & C1 & B1 & O1)].
    + rewrite V1 in *. subst t0.
      set (t0 := PTE2PA (mem s (pte_at t1 (PX 1 va)))) in *.
      inversion Hus as [|? ? U0 Hus1]; subst. inversion Hus1 as [|? ? U1 Hus2]; subst.
      inversion Hus2 as [|? ? U2 _]; subst.
      repeat split; eauto with uvm.
      * left. right. left. reflexivity.
      * left. right. right. left. reflexivity.
    + rewrite V1 in *.
      inversion Hus as [|? ? U0 Hus1]; subst. inversion Hus1 as [|? ? U1 _]; subst.
      assert (N01 : newp <> t1).
      { inversion Hnd as [|? ? Hn _]; subst. intros E. apply Hn. left. symmetry. exact E. }
      assert (N0 : newp <> t0) by eauto with uvm.
      assert (N1 : t1 <> t0) by eauto with uvm.
      assert (Me2 : mem sb (pte_at newp (PX 2 va)) = mem s (pte_at newp (PX 2 va))).
      { rewrite M1. apply uz_other.
        - apply (other_entry newp t1); eauto with uvm.
        - apply (other_page newp t0); eauto with uvm. }
      repeat split.
      * rewrite Me2. exact V2.
      * rewrite Me2. reflexivity.
      * rewrite M1, uz_same. apply has_V_table.
      * rewrite M1, uz_same. apply PTE2PA_table. eauto with uvm.
      * repeat constructor; cbn [In]; intuition congruence.
      * eauto with uvm.
      * eauto with uvm.
      * left. right. left. reflexivity.
      * right. exact F0.
      * intros u a Hu Hn Ha. rewrite M1. apply uz_other.
        -- apply (other_entry u t1); eauto with uvm.
           intros E. apply Hn. right. left. symmetry. exact E.
        -- apply (other_page u t0); eauto with uvm.
      * apply O1. intros E. destruct F0 as [_ F0]. rewrite <- E in F0. contradiction.
      * rewrite C1. unfold upd. destruct (Z.eqb_spec f (page_index t0)) as [E|]; [|reflexivity].
        destruct F0 as [_ F0]. rewrite <- E in F0. contradiction.
  - rewrite V2 in *.
    inversion Hus as [|? ? U0 _]; subst.
    assert (N01 : newp <> t1) by eauto with uvm.
    assert (Z1 : mem sa (pte_at t1 (PX 1 va)) = 0).
    { rewrite M2. apply uz_zero; [|eauto with uvm].
      apply (other_entry t1 newp); eauto with uvm. }
    destruct E1 as [(V1 & T0 & ->)|(V1 & F0 & M1 & C1 & B1 & O1)].
    + rewrite Z1, has_zero in V1. discriminate V1.
    + assert (I10 : page_index t0 <> page_index t1).
      { intros E. destruct F0 as [_ F0]. rewrite E in F0. lia. }
      assert (F0s : fresh s t0).
      { destruct F0 as [Fv Fb]. split; [exact Fv|]. rewrite <- (O2 _ I10). exact Fb. }
      assert (N0 : newp <> t0) by eauto with uvm.
      assert (N1 : t1 <> t0) by (intros E; apply I10; rewrite E; reflexivity).
      assert (Me2 : mem sb (pte_at newp (PX 2 va)) = Z.lor (PA2PTE t1) PTE_V).
      { rewrite M1, uz_other.
        - rewrite M2. apply uz_same.
        - apply (other_entry newp t1); eauto with uvm.
        - apply (other_page newp t0); eauto with uvm. }
      repeat split.
      * rewrite Me2. apply has_V_table.
      * rewrite Me2. apply PTE2PA_table. eauto with uvm.
      * rewrite M1, uz_same. apply has_V_table.
      * rewrite M1, uz_same. apply PTE2PA_table. eauto with uvm.
      * repeat constructor; cbn [In]; intuition congruence.
      * eauto with uvm.
      * eauto with uvm.
      * right. exact F1.
      * right. exact F0s.
      * intros u a Hu Hn Ha.
        assert (Nu : u <> newp) by (intros E; apply Hn; left; symmetry; exact E).
        rewrite M1, uz_other.
        -- rewrite M2. apply uz_other.
           ++ apply (other_entry u newp); eauto with uvm.
           ++ apply (other_page u t1); eauto with uvm.
        -- apply (other_entry u t1); eauto with uvm.
        -- apply (other_page u t0); eauto with uvm.
      * rewrite O1, O2; [reflexivity| |].
        -- intros E. destruct F1 as [_ F1]. rewrite <- E in F1. contradiction.
        -- intros E. destruct F0s as [_ F0s]. rewrite <- E in F0s. contradiction.
      * rewrite C1. unfold upd. destruct (Z.eqb_spec f (page_index t0)) as [E|].
        { destruct F0s as [_ F0s]. rewrite <- E in F0s. contradiction. }
        rewrite C2. unfold upd. destruct (Z.eqb_spec f (page_index t1)) as [E|]; [|reflexivity].
        destruct F1 as [_ F1]. rewrite <- E in F1. contradiction.
Qed.

Lemma walk_lookup_inv (pt va : Z) (s : kmem) (pte : Z) :
  walk_lookup pt va s = Some pte -> pte <> 0 ->
  (va >=? MAXVA) = false /\
  has (mem s (pte_at pt (PX 2 va))) PTE_V = true /\
  has (mem s (pte_at (table1 pt va s) (PX 1 va))) PTE_V = true /\
  pte = pte_at (table0 pt va s) (PX 0 va).
Proof.
  unfold walk_lookup, table0, table1. intros H Hp.
  destruct (va >=? MAXVA); [discriminate H|].
  destruct (has (mem s (pte_at pt (PX 2 va))) PTE_V); cbn [negb] in H;
    [|injection H as <-; contradiction].
  destruct (has (mem s (pte_at _ (PX 1 va))) PTE_V); cbn [negb] in H;
    [|injection H as <-; contradiction].
  injection H as <-. repeat split; reflexivity.
Qed.

Lemma walk_lookup_through (pt va : Z) (s : kmem) (t1 t0 : Z) :
  (va >=? MAXVA) = false ->
  has (mem s (pte_at pt (PX 2 va))) PTE_V = true ->
  PTE2PA (mem s (pte_at pt (PX 2 va))) = t1 ->
  has (mem s (pte_at t1 (PX 1 va))) PTE_V = true ->
  PTE2PA (mem s (pte_at t1 (PX 1 va))) = t0 ->
  walk_lookup pt va s = Some (pte_at t0 (PX 0 va)).
Proof.
  intros Hva V2 T1 V1 T0. unfold walk_lookup. rewrite Hva, V2. cbn [negb].
  rewrite T1, V1. cbn [negb]. rewrite T0. reflexivity.
Qed.

Lemma page_incref_spec (pa : Z) (s s1 : kmem) :
  page_incref pa s = Some s1 ->
  valid_page pa = true /\ bitmap_test (page_index pa) s <> 0 /\
  s1 = set_refcount (page_index pa) (refcount s (page_index pa) + 1) s.
Proof.
  unfold page_incref. intros H.
  destruct (valid_page pa); cbn [negb] in H; [|discriminate H].
  destruct (Z.eqb_spec (bitmap_test (page_index pa) s) 0); [discriminate H|].
  destruct (_ =? INT_MAX); [discriminate H|].
  injection H as <-. repeat split; assumption.
Qed.

Lemma map_page_inv (pt va pa perm : Z) (s s2 : kmem) (r : Z) :
  map_page pt va pa perm s = Some (r, s2) -> (r <? 0) = false ->
  exists cpte sw,
    walk_create pt va s = Some (cpte, sw) /\ cpte <> 0 /\
    s2 = set_mem (upd (mem sw) cpte (Z.lor (Z.lor (PA2PTE pa) perm) PTE_V)) sw.
Proof.
  unfold map_page. intros H Hr.
  destruct (_ || _); [injection H as <- _; discriminate Hr|].
  destruct (walk_create pt va s) as [[cpte sw]|]; [|discriminate H]. cbn [obind] in H.
  destruct (Z.eqb_spec cpte 0); [injection H as <- _; discriminate Hr|].
  destruct (has _ PTE_V); [discriminate H|].
  injection H as _ <-. exists cpte, sw. repeat split; [assumption].
Qed.


(** *** The flag bits of the two entries *)

Lemma land_bit (x k : Z) :
  0 <= k -> Z.land x (Z.shiftl 1 k) = Z.shiftl (Z.b2z (Z.testbit x k)) k.
Proof.
  intros Hk. apply Z.bits_inj'. intros n Hn.
  rewrite Z.land_spec, !Z.shiftl_spec by lia.
  destruct (Z.eq_dec n k) as [->|Hne].
  - rewrite Z.sub_diag. change (Z.testbit 1 0) with true. rewrite Z.b2z_bit0.
    apply Bool.andb_true_r.
  - assert (H1 : Z.testbit 1 (n - k) = false).
    { destruct (Z.ltb_spec (n - k) 0); [apply Z.testbit_neg_r; lia|].
      change 1 with (Z.ones 1). rewrite Z.testbit_ones by lia.
      destruct (Z.leb_spec 0 (n - k)); [|lia]. destruct (Z.ltb_spec (n - k) 1); [lia|].
      reflexivity. }
    rewrite H1, Bool.andb_false_r.
    destruct (Z.testbit x k); cbn [Z.b2z]; [symmetry; exact H1|].
    symmetry. apply Z.testbit_0_l.
Qed.

Lemma has_bit (x k : Z) : 0 <= k -> has x (Z.shiftl 1 k) = Z.testbit x k.
Proof.
  intros Hk. unfold has. rewrite land_bit by exact Hk.
  destruct (Z.testbit x k); cbn [Z.b2z].
  - rewrite Z.shiftl_mul_pow2 by lia.
    destruct (Z.eqb_spec (1 * 2 ^ k) 0) as [E|]; [|reflexivity].
    pose proof (Z.pow_pos_nonneg 2 k ltac:(lia) Hk). lia.
  - rewrite Z.shiftl_0_l. reflexivity.
Qed.

Lemma has_W (x : Z) : has x PTE_W = Z.testbit x 2.
Proof. exact (has_bit x 2 ltac:(lia)). Qed.
Lemma has_COW (x : Z) : has x PTE_COW = Z.testbit x 8.
Proof. exact (has_bit x 8 ltac:(lia)). Qed.

Lemma PA2PTE_low (pa k : Z) : 0 <= k < 10 -> Z.testbit (PA2PTE pa) k = false.
Proof. intros Hk. unfold PA2PTE. apply Z.shiftl_spec_low. lia. Qed.



(** *** A fork of a one-page process *)

(** A parent with one user page at address 0 mapped with [perm], whose
    entry has then got the bits [hw] (the accessed and dirty bits are set
    by the hardware), and an empty page table for the child. *)
Definition demo_parent (perm hw : Z) : option (Z * Z * kmem) :=
  '(parent, s1) <- Some (create_pagetable demo_boot) ;;
  '(frame, s2) <- Some (alloc_page s1) ;;
  '(_, s3) <- map_page parent 0 frame perm s2 ;;
  pte <- walk_lookup parent 0 s3 ;;
  '(child, s4) <- Some (create_pagetable
                          (set_mem (upd (mem s3) pte (Z.lor (mem s3 pte) hw)) s3)) ;;
  Some (parent, child, s4).

(** The flags of the entry for [va]. *)
Definition flags_at (pt va : Z) (s : kmem) : option Z :=
  pte <- walk_lookup pt va s ;; Some (PTE_FLAGS (mem s pte)).


Definition fork_w : Z * Z * kmem :=
  Fs.get (0, 0, demo_boot) (demo_parent (Z.lor (Z.lor PTE_R PTE_W) PTE_U) 0).
Definition fork_old : Z := fst (fst fork_w).
Definition fork_new : Z := snd (fst fork_w).
Definition fork_s : kmem := snd fork_w.
Definition fork_pte : Z := Fs.get 0 (walk_lookup fork_old 0 fork_s).
Definition fork_s' : kmem :=
  snd (Fs.get (false, fork_s) (uvmcopy_page fork_old fork_new 0 fork_s)).




End Uvm.


(** ** The frame allocator: what its callers rely on (kalloc.c) *)
Module KallocProps.
Import Pmm Vm Uvm.

(** [alloc_page] that does not fail hands out a frame that was free, marks
    it allocated with one reference, takes it off the free count and fills
    it with zeros; no other frame and no other memory changes. *)
Theorem alloc_page_takes_free_frame (s s1 : kmem) (p : Z) :
  alloc_page s = (p, s1) -> p <> 0 ->
  valid_page p = true /\
  bitmap_test (page_index p) s = 0 /\ bitmap_test (page_index p) s1 = 1 /\
  refcount s1 (page_index p) = 1 /\
  free_pages_count s1 = free_pages_count s - 1 /\
  (forall a, in_page p a -> mem s1 a = 0) /\
  (forall a, ~ in_page p a -> mem s1 a = mem s a) /\
  (forall f, f <> page_index p ->
     bitmap_test f s1 = bitmap_test f s /\ refcount s1 f = refcount s f).
Proof.
  intros H Hp. destruct (alloc_page_cases s) as [E|(idx & Hr & Hz & E)].
  - rewrite H in E. cbn [fst] in E. contradiction.
  - rewrite E in H. injection H as <- <-. rewrite index_page_round.
    split; [apply valid_index_to_page; exact Hr|]. split; [exact Hz|]. split.
    { change (bitmap_test idx (set_mem _ _)) with (bitmap_test idx (bitmap_set idx s)).
      apply bitmap_test_set_same. }
    split. { cbn [refcount set_mem set_refcount]. unfold upd. rewrite Z.eqb_refl. reflexivity. }
    split; [reflexivity|]. split; [|split].
    + intros a [Ha1 Ha2]. cbn [mem set_mem]. unfold zero_range.
      destruct (Z.leb_spec (index_to_page idx) a); [|lia].
      destruct (Z.ltb_spec a (index_to_page idx + PGSIZE)); [reflexivity|lia].
    + intros a Ha. cbn [mem set_mem]. unfold zero_range, in_page in *.
      destruct (Z.leb_spec (index_to_page idx) a); [|reflexivity].
      destruct (Z.ltb_spec a (index_to_page idx + PGSIZE)); [lia|reflexivity].
    + intros f Hf. split.
      * change (bitmap_test f (set_mem _ _)) with (bitmap_test f (bitmap_set idx s)).
        apply bitmap_test_set_other. exact Hf.
      * cbn [refcount set_mem set_refcount]. unfold upd.
        destruct (Z.eqb_spec f idx); [contradiction|reflexivity].
Qed.

Lemma alloc_page_takes_free_frame_witness :
  bitmap_test (page_index (fst (alloc_page demo_boot))) demo_boot = 0 /\
  refcount (snd (alloc_page demo_boot)) (page_index (fst (alloc_page demo_boot))) = 1.
Proof.
  destruct (alloc_page_takes_free_frame demo_boot (snd (alloc_page demo_boot))
              (fst (alloc_page demo_boot))) as (_ & H0 & _ & H1 & _).
  - apply surjective_pairing.
  - vm_compute. discriminate.
  - split; [exact H0|exact H1].
Defined.

(** [free_page] on the last reference frees the frame: its bit is clear,
    its count is zero, the free count is one higher and the frame holds
    zeros; a second [free_page] and a [page_incref] of it then panic. *)
Theorem free_page_last_reference (p : Z) (s s' : kmem) :
  free_page p s = Some s' -> refcount s (page_index p) = 1 ->
  bitmap_test (page_index p) s' = 0 /\ refcount s' (page_index p) = 0 /\
  free_pages_count s' = free_pages_count s + 1 /\
  (forall a, in_page p a -> mem s' a = 0) /\
  free_page p s' = None /\ page_incref p s' = None.
Proof.
  unfold free_page at 1. intros H H1.
  destruct (valid_page p) eqn:Hv; cbn [negb] in H; [|discriminate H].
  destruct (bitmap_test (page_index p) s =? 0); [discriminate H|].
  destruct (refcount s (page_index p) <=? 0); [discriminate H|].
  unfold set_refcount at 1 in H. cbn [refcount] in H. unfold upd at 1 in H.
  rewrite Z.eqb_refl, H1 in H. change (1 - 1 >? 0) with false in H. cbv iota in H.
  injection H as <-.
  assert (Hb : bitmap_test (page_index p)
                 (set_mem (zero_range (mem s) p PGSIZE)
                    (set_free (free_pages_count s + 1)
                       (bitmap_clear (page_index p) (set_refcount (page_index p) 0 s)))) = 0).
  { change (bitmap_test (page_index p) (set_mem _ _))
      with (bitmap_test (page_index p)
              (bitmap_clear (page_index p) (set_refcount (page_index p) 0 s))).
    apply bitmap_test_clear_same. }
  split; [exact Hb|]. split.
  { cbn [refcount set_mem set_free bitmap_clear set_refcount]. unfold upd.
    rewrite Z.eqb_refl. reflexivity. }
  split; [reflexivity|]. split; [|split].
  - intros a [Ha1 Ha2]. cbn [mem set_mem]. unfold zero_range.
    destruct (Z.leb_spec p a); [|lia]. destruct (Z.ltb_spec a (p + PGSIZE)); [reflexivity|lia].
  - unfold free_page. rewrite Hv. cbn [negb]. rewrite Hb. reflexivity.
  - unfold page_incref. rewrite Hv. cbn [negb]. rewrite Hb. reflexivity.
Qed.

Lemma free_page_last_reference_witness :
  free_page (index_to_page 34)
    (Fs.get demo_boot (free_page (index_to_page 34) (snd (alloc_page demo_boot)))) = None.
Proof.
  destruct (free_page_last_reference (index_to_page 34) (snd (alloc_page demo_boot))
              (Fs.get demo_boot (free_page (index_to_page 34) (snd (alloc_page demo_boot)))))
    as (_ & _ & _ & _ & H & _).
  - apply Fs.get_some. vm_compute. reflexivity.
  - vm_compute. reflexivity.
  - exact H.
Defined.

(** A reference taken with [page_incref] and given back with [page_decref]
    leaves the allocator and the memory as they were: the frame is neither
    freed nor zeroed, and [page_decref] reports the count before the pair. *)
Theorem incref_decref_restores (p : Z) (s s1 : kmem) :
  page_incref p s = Some s1 -> 0 < refcount s (page_index p) ->
  exists s2,
    page_decref p s1 = Some (refcount s (page_index p), s2) /\
    (forall f, refcount s2 f = refcount s f) /\
    (forall f, bitmap_test f s2 = bitmap_test f s) /\
    (forall a, mem s2 a = mem s a) /\
    free_pages_count s2 = free_pages_count s.
Proof.
  intros H Hpos. destruct (page_incref_spec p s s1 H) as (Hv & Hb & ->).
  set (idx := page_index p) in *.
  unfold page_decref, free_page. rewrite Hv. cbn [negb]. fold idx.
  change (bitmap_test idx (set_refcount idx (refcount s idx + 1) s)) with (bitmap_test idx s).
  destruct (Z.eqb_spec (bitmap_test idx s) 0); [contradiction|].
  assert (Hu : upd (refcount s) idx (refcount s idx + 1) idx = refcount s idx + 1)
    by (unfold upd; rewrite Z.eqb_refl; reflexivity).
  cbn [refcount set_refcount]. rewrite !Hu.
  destruct (Z.leb_spec (refcount s idx + 1) 0); [lia|].
  assert (Hu2 : upd (upd (refcount s) idx (refcount s idx + 1)) idx (refcount s idx + 1 - 1) idx
                = refcount s idx) by (unfold upd; rewrite Z.eqb_refl; lia).
  rewrite !Hu2.
  destruct (Z.gtb_spec (refcount s idx) 0); [|lia].
  eexists. split.
  - apply f_equal. apply (f_equal2 pair); [|reflexivity].
    cbn [refcount set_refcount]. exact Hu2.
  - split; [|split; [|split]]; try reflexivity.
    intros f. cbn [refcount set_refcount]. unfold upd.
    destruct (Z.eqb_spec f idx) as [E|]; [rewrite E; lia|reflexivity].
Qed.

Lemma incref_decref_restores_witness :
  exists s2,
    page_decref (index_to_page 34)
      (Fs.get demo_boot (page_incref (index_to_page 34) (snd (alloc_page demo_boot))))
    = Some (refcount (snd (alloc_page demo_boot)) (page_index (index_to_page 34)), s2).
Proof.
  destruct (incref_decref_restores (index_to_page 34) (snd (alloc_page demo_boot))
              (Fs.get demo_boot (page_incref (index_to_page 34) (snd (alloc_page demo_boot)))))
    as (s2 & H & _).
  - apply Fs.get_some. vm_compute. reflexivity.
  - vm_compute. reflexivity.
  - exists s2. exact H.
Defined.

End KallocProps.

(** ** The buffer cache and the log: what their callers rely on
    (bio.c, log.c) *)
Module CacheProps.
Import Bio Log.

(** [bread] on a well-formed cache returns a locked, valid buffer for the
    block asked for; it holds the block's current content (the pinned
    content if the log has it pinned, else the disk's), and the disk is
    not changed. *)
Theorem bread_returns_current_block (D b : Z) (L : Z -> option block) (s s' : bstate)
    (i : nat) :
  cache_ok D L s -> bread D b s = Some (i, s') ->
  cache_ok D L s' /\ dev (bufs s' i) = D /\ blockno (bufs s' i) = b /\
  locked (bufs s' i) = true /\ bvalid (bufs s' i) = true /\
  data (bufs s' i) = lview L (disk s) b /\ disk s' = disk s.
Proof.
  intros Hok H.
  destruct (bread_spec D b L s i s' Hok H) as (H1 & _ & H2 & H3 & H4 & H5 & H6 & H7 & _).
  exact (conj H1 (conj H2 (conj H3 (conj H4 (conj H5 (conj H6 H7)))))).
Qed.

Definition numbered : Z -> block := fun b _ => b.

Lemma bread_returns_current_block_witness :
  data (bufs (snd (Fs.get (0%nat, bcache_init numbered) (bread 1 7 (bcache_init numbered))))
             (fst (Fs.get (0%nat, bcache_init numbered) (bread 1 7 (bcache_init numbered)))))
  = numbered 7.
Proof.
  destruct (bread_returns_current_block 1 7 noL (bcache_init numbered)
              (snd (Fs.get (0%nat, bcache_init numbered) (bread 1 7 (bcache_init numbered))))
              (fst (Fs.get (0%nat, bcache_init numbered) (bread 1 7 (bcache_init numbered)))))
    as (_ & _ & _ & _ & _ & H & _).
  - apply cache_ok_init.
  - rewrite <- surjective_pairing. apply Fs.get_some. vm_compute. reflexivity.
  - exact H.
Defined.

(** [bget] for one block neither recycles nor alters a buffer that is in
    use ([refcnt] > 0) for another block. *)
Theorem bget_spares_buffers_in_use (D b : Z) (L : Z -> option block) (s s' : bstate)
    (i j : nat) :
  cache_ok D L s -> bget D b s = Some (i, s') ->
  0 < refcnt (bufs s j) -> blockno (bufs s j) <> b ->
  j <> i /\ bufs s' j = bufs s j /\ (hashed s' j <-> hashed s j).
Proof.
  intros Hok H Hr Hb.
  pose proof (bget_spec D b L s i s' Hok H) as Hp.
  assert (Hji : j <> i).
  { destruct Hp as (_ & _ & _ & _ & _ & _ & _ & _ & _ & [(_ & Hbn & _)|(_ & Hz & _)]).
    - intros ->. contradiction.
    - intros ->. lia. }
  split; [exact Hji|]. split.
  - destruct Hp as (_ & _ & Ho & _). apply Ho. exact Hji.
  - apply (bget_hashed_other D b s i s' j Hp Hji).
Qed.

Lemma bget_spares_buffers_in_use_witness :
  bufs (snd (Fs.get (0%nat, bcache_init numbered)
               (bget 1 7 (snd (Fs.get (0%nat, bcache_init numbered)
                                  (bread 1 9 (bcache_init numbered)))))))
       (fst (Fs.get (0%nat, bcache_init numbered) (bread 1 9 (bcache_init numbered))))
  = bufs (snd (Fs.get (0%nat, bcache_init numbered) (bread 1 9 (bcache_init numbered))))
         (fst (Fs.get (0%nat, bcache_init numbered) (bread 1 9 (bcache_init numbered)))).
Proof.
  set (r9 := Fs.get (0%nat, bcache_init numbered) (bread 1 9 (bcache_init numbered))).
  assert (E9 : bread 1 9 (bcache_init numbered) = Some (fst r9, snd r9)).
  { rewrite <- surjective_pairing. apply Fs.get_some. vm_compute. reflexivity. }
  destruct (bread_spec 1 9 noL _ _ _ (cache_ok_init 1 numbered) E9) as (Hok & _).
  destruct (bget_spares_buffers_in_use 1 7 noL (snd r9)
              (snd (Fs.get (0%nat, bcache_init numbered) (bget 1 7 (snd r9))))
              (fst (Fs.get (0%nat, bcache_init numbered) (bget 1 7 (snd r9))))
              (fst r9) Hok) as (_ & H & _).
  - rewrite <- surjective_pairing. apply Fs.get_some. vm_compute. reflexivity.
  - vm_compute. reflexivity.
  - vm_compute. discriminate.
  - exact H.
Defined.

(** What [bwrite] has written is what [bread] returns after the cache has
    been dropped: a block read, changed to [g] of its content, written and
    released is on the disk, and a [bread] after [clear_cache] delivers
    it. *)
Theorem written_block_survives_cache_drop (b : Z) (g : block -> block)
    (L : Z -> option block) (s s' : state) (i : nat) (c : bstate) :
  quiet (ldev (lg s)) L (bs s) -> L b = None ->
  rewrite_block b g s = Some s' ->
  bread (ldev (lg s)) b (clear_cache (bs s')) = Some (i, c) ->
  data (bufs c i) = g (disk (bs s) b) /\ disk c b = g (disk (bs s) b).
Proof.
  intros Hq HL Hw Hr.
  destruct (rewrite_block_spec b g L s s' Hq HL Hw) as ((Hok & Hul & Hrg) & _ & _ & Hd).
  destruct (clear_cache_ok _ _ _ Hok Hrg Hul) as (Hok' & _ & _ & Hd').
  destruct (bread_spec _ _ _ _ _ _ Hok' Hr) as (_ & _ & _ & _ & _ & _ & Hdat & Hdisk & _).
  assert (E : disk (clear_cache (bs s')) b = g (disk (bs s) b)).
  { rewrite Hd', Hd, Z.eqb_refl. reflexivity. }
  split.
  - rewrite Hdat. unfold lview. exact E.
  - rewrite Hdisk. exact E.
Qed.

Definition bump : block -> block := fun d w => d w + 1.

Lemma written_block_survives_cache_drop_witness :
  exists i c,
    bread 1 100 (clear_cache (bs (Fs.get demo_fs (rewrite_block 100 bump demo_fs)))) = Some (i, c)
    /\ data (bufs c i) = bump (disk (bs demo_fs) 100).
Proof.
  set (s' := Fs.get demo_fs (rewrite_block 100 bump demo_fs)).
  set (r := Fs.get (0%nat, bs demo_fs) (bread 1 100 (clear_cache (bs s')))).
  assert (Er : bread 1 100 (clear_cache (bs s')) = Some (fst r, snd r)).
  { rewrite <- surjective_pairing. apply Fs.get_some. vm_compute. reflexivity. }
  exists (fst r), (snd r). split; [exact Er|].
  destruct (written_block_survives_cache_drop 100 bump noL demo_fs s' (fst r) (snd r))
    as [H _].
  - exact (cl_quiet _ demo_fs_clean).
  - reflexivity.
  - apply Fs.get_some. vm_compute. reflexivity.
  - exact Er.
  - exact H.
Defined.

(** [log_block_write] absorbs a block that the transaction has logged
    already: the header and the pin counts stay as they are.  A block
    logged for the first time takes the next slot and is pinned. *)
Theorem log_block_write_absorbs (i : nat) (s s' : state) :
  0 <= n (header (lg s)) ->
  Log.log_block_write i s = Some s' ->
  (listed (header (lg s)) 0 (blockno (buf_of s i)) ->
   n (header (lg s')) = n (header (lg s)) /\
   (forall k, lblock (header (lg s')) k = lblock (header (lg s)) k) /\
   bs s' = bs s) /\
  (~ listed (header (lg s)) 0 (blockno (buf_of s i)) ->
   n (header (lg s')) = n (header (lg s)) + 1 /\
   lblock (header (lg s')) (n (header (lg s))) = blockno (buf_of s i) /\
   (forall k, k <> n (header (lg s)) -> lblock (header (lg s')) k = lblock (header (lg s)) k) /\
   bs s' = bpin i (bs s)).
Proof.
  intros Hn H. unfold Log.log_block_write in H.
  destruct (_ >=? size (lg s)); [discriminate H|].
  destruct (_ >=? LOG_SIZE); [discriminate H|].
  destruct (_ <? 1); [discriminate H|].
  set (h := header (lg s)) in *. set (b := blockno (buf_of s i)) in *.
  destruct (find_slot_spec h b (Z.to_nat (n h)) 0 ltac:(lia) ltac:(rewrite Z2Nat.id; lia))
    as (Hr & Hhit & Hmiss).
  set (idx := find_slot (Z.to_nat (n h)) 0 h b) in *.
  destruct (Z.eqb_spec idx (n h)) as [E|Hne]; injection H as <-; cbn_lg.
  - split.
    + intros (k & Hk & Hb). exfalso. apply (Hmiss k); [lia|exact Hb].
    + intros _. split; [reflexivity|]. split; [|split; [|reflexivity]].
      * unfold upd. rewrite E, Z.eqb_refl. reflexivity.
      * intros k Hk. unfold upd. rewrite E. destruct (Z.eqb_spec k (n h)); [contradiction|].
        reflexivity.
  - split.
    + intros _. split; [reflexivity|]. split; [|reflexivity].
      intros k. unfold upd. destruct (Z.eqb_spec k idx) as [->|]; [|reflexivity].
      symmetry. apply Hhit. lia.
    + intros Hnl. exfalso. apply Hnl. exists idx. split; [lia|]. apply Hhit. lia.
Qed.

(** Inside a transaction, block 100 read and logged once. *)
Definition logged_once : nat * state :=
  Fs.get (0%nat, demo_fs)
    (s0 <- Log.begin_transaction demo_fs ;;
     '(bp, s1) <- lift_r (bread 1 100) s0 ;;
     s2 <- Log.log_block_write bp s1 ;;
     Some (bp, s2)).

Lemma log_block_write_absorbs_witness :
  n (header (lg (Fs.get demo_fs (Log.log_block_write (fst logged_once) (snd logged_once)))))
  = n (header (lg (snd logged_once))).
Proof.
  destruct (log_block_write_absorbs (fst logged_once) (snd logged_once)
              (Fs.get demo_fs (Log.log_block_write (fst logged_once) (snd logged_once))))
    as [H _].
  - vm_compute. discriminate.
  - apply Fs.get_some. vm_compute. reflexivity.
  - destruct H as (H & _); [|exact H].
    exists 0. split; [vm_compute; split; [discriminate|reflexivity]|vm_compute; reflexivity].
Defined.

(** The log header survives the trip to the disk: what [write_log_header]
    stores, [read_log_header] loads again, whatever the in-memory header
    was in between, for a header of at most [LOG_SIZE] block numbers that
    fit an [int]. *)
Theorem log_header_roundtrip (L : Z -> option block) (s s1 s2 : state) (h' : log_header) :
  quiet (ldev (lg s)) L (bs s) -> L (start (lg s)) = None ->
  0 <= n (header (lg s)) <= LOG_SIZE ->
  (forall k, 0 <= k < n (header (lg s)) -> 0 <= lblock (header (lg s)) k < 0x80000000) ->
  write_log_header s = Some s1 ->
  read_log_header (set_lg (set_header h' (lg s1)) s1) = Some s2 ->
  n (header (lg s2)) = n (header (lg s)) /\
  (forall k, 0 <= k < n (header (lg s)) ->
     lblock (header (lg s2)) k = lblock (header (lg s)) k).
Proof.
  intros Hq HL Hn Hb Hw Hr.
  destruct (write_log_header_spec L s s1 Hq HL Hw) as (Hq1 & Hlg & _ & Hd).
  assert (Hq1' : quiet (ldev (lg (set_lg (set_header h' (lg s1)) s1))) L
                       (bs (set_lg (set_header h' (lg s1)) s1))).
  { cbn_lg. rewrite Hlg. exact Hq1. }
  assert (HL' : L (start (lg (set_lg (set_header h' (lg s1)) s1))) = None).
  { cbn_lg. rewrite Hlg. exact HL. }
  destruct (read_log_header_spec L _ s2 Hq1' HL' Hr)
    as (_ & _ & _ & _ & _ & _ & _ & _ & Hn2 & _ & Hb2).
  cbn_lg in Hn2. cbn_lg in Hb2. rewrite Hlg in Hn2, Hb2.
  assert (Himg : disk (bs s1) (start (lg s))
                 = hdr_image (header (lg s)) (disk (bs s) (start (lg s)))).
  { rewrite Hd, Z.eqb_refl. reflexivity. }
  rewrite Himg in Hn2, Hb2. unfold LOG_SIZE in Hn.
  assert (En : n (header (lg s2)) = n (header (lg s))).
  { rewrite Hn2. unfold hdr_image. rewrite Z.eqb_refl. apply to_int_of_int. lia. }
  split; [exact En|]. intros k Hk. rewrite Hb2 by (rewrite En; exact Hk).
  unfold hdr_image. destruct (Z.eqb_spec (1 + k) 0); [lia|].
  destruct (Z.leb_spec 1 (1 + k)); [|lia].
  destruct (Z.leb_spec (1 + k) (n (header (lg s)))); [|lia]. cbn [andb].
  replace (1 + k - 1) with k by lia. apply to_int_of_int. apply Hb. exact Hk.
Qed.

Definition two_listed : state :=
  set_lg (set_header (mkHeader 2 (fun k => 100 + k)) (lg demo_fs)) demo_fs.

Lemma log_header_roundtrip_witness :
  n (header (lg (Fs.get demo_fs
                   (read_log_header
                      (set_lg (set_header (mkHeader 0 (fun _ => 0))
                                          (lg (Fs.get demo_fs (write_log_header two_listed))))
                              (Fs.get demo_fs (write_log_header two_listed)))))))
  = 2.
Proof.
  destruct (log_header_roundtrip noL two_listed
              (Fs.get demo_fs (write_log_header two_listed))
              (Fs.get demo_fs
                 (read_log_header
                    (set_lg (set_header (mkHeader 0 (fun _ => 0))
                                        (lg (Fs.get demo_fs (write_log_header two_listed))))
                            (Fs.get demo_fs (write_log_header two_listed)))))
              (mkHeader 0 (fun _ => 0))) as [H _].
  - exact (cl_quiet _ demo_fs_clean).
  - reflexivity.
  - unfold two_listed, LOG_SIZE. cbn_lg. lia.
  - unfold two_listed. cbn_lg. intros k Hk. lia.
  - apply Fs.get_some. vm_compute. reflexivity.
  - apply Fs.get_some. vm_compute. reflexivity.
  - exact H.
Defined.

(** Recovery is idempotent: a second [recover_log] right after the first
    finds an empty log and changes no block but the header block. *)
Theorem recover_log_idempotent (s s1 s2 : state) :
  quiet (ldev (lg s)) noL (bs s) ->
  header_ok (set_header (disk_header s) (lg s)) ->
  recover_log s = Some s1 -> recover_log s1 = Some s2 ->
  n (header (lg s2)) = 0 /\
  (forall b, b <> start (lg s) -> disk (bs s2) b = disk (bs s1) b).
Proof.
  intros Hq Hh H1 H2.
  destruct (recover_log_spec s s1 Hq Hh H1)
    as (Hq1 & _ & Hd1 & _ & Hst & Hsz & Hdv & _).
  assert (Hn1 : n (disk_header s1) = 0).
  { unfold disk_header. cbn_lg. rewrite Hst, Hd1. reflexivity. }
  assert (Hpos : 0 < size (lg s1)).
  { pose proof (hk_n _ Hh) as Hk. cbn_lg in Hk. rewrite Hsz. lia. }
  rewrite <- Hdv in Hq1.
  destruct (recover_log_spec s1 s2 Hq1 (header_ok_empty _ _ Hpos Hn1) H2)
    as (_ & Hn2 & _ & _ & _ & _ & _ & _ & _ & _ & Hoth).
  split; [exact Hn2|]. intros b Hb. apply Hoth.
  - rewrite Hst. exact Hb.
  - intros (k & Hk & _). lia.
Qed.

(** A disk on which a committed transaction waits in the log: the header
    block lists block 100 and log slot 0 holds its new content. *)
Definition crashed : state :=
  mkState (bcache_init (fun b w => if b =? 2 then (if w =? 0 then 1 else if w =? 1 then 100 else 0)
                                   else if b =? 3 then 7 else 0))
          (mkLog 2 30 0 0 1 (mkHeader 0 (fun _ => 0))) 0.

Lemma recover_log_idempotent_witness :
  disk (bs (Fs.get crashed (recover_log (Fs.get crashed (recover_log crashed))))) 100 0 = 7.
Proof.
  destruct (recover_log_idempotent crashed (Fs.get crashed (recover_log crashed))
              (Fs.get crashed (recover_log (Fs.get crashed (recover_log crashed)))))
    as [_ H].
  - split; [apply cache_ok_init|]. split; [reflexivity|apply range_init].
  - assert (E0 : n (disk_header crashed) = 1) by (vm_compute; reflexivity).
    assert (E1 : lblock (disk_header crashed) 0 = 100) by (vm_compute; reflexivity).
    constructor; cbn_lg; rewrite E0.
    + change (size (lg crashed)) with 30. lia.
    + intros j k Hj Hk _. lia.
    + intros k Hk. assert (k = 0) by lia. subst k. rewrite E1.
      unfold in_log. cbn_lg. change (start (lg crashed)) with 2.
      change (size (lg crashed)) with 30. lia.
  - apply Fs.get_some. vm_compute. reflexivity.
  - apply Fs.get_some. vm_compute. reflexivity.
  - rewrite H by (vm_compute; discriminate). vm_compute. reflexivity.
Defined.

End CacheProps.

(** ** Page tables and user copies: what their callers rely on (vm.c) *)
Module VmProps.
Import Pmm Vm Uvm.

#[local] Hint Resolve used_valid fresh_valid pte_at_in_page PX_range used_not_fresh : uvm.

(** An entry built from a frame address and flag bits gives both back:
    [PTE2PA] and [PTE_FLAGS] undo [PA2PTE pa | flags], for a page-aligned
    frame of RAM and flags below bit 10. *)
Theorem pte_encoding_roundtrip (pa f : Z) :
  valid_page pa = true -> 0 <= f < 1024 ->
  PTE2PA (Z.lor (PA2PTE pa) f) = pa /\ PTE_FLAGS (Z.lor (PA2PTE pa) f) = f.
Proof.
  intros Hv Hf. split; [apply PTE2PA_PA2PTE; assumption|].
  unfold PTE_FLAGS, PA2PTE. change 0x3FF with (Z.ones 10).
  rewrite Z.land_lor_distr_l. rewrite !Z.land_ones by lia.
  rewrite Z.shiftl_mul_pow2 by lia. rewrite Z.mod_mul by lia.
  rewrite Z.lor_0_l. apply Z.mod_small. change (2 ^ 10) with 1024. lia.
Qed.

Lemma pte_encoding_roundtrip_witness :
  PTE2PA (Z.lor (PA2PTE 0x80025000) 0x113) = 0x80025000 /\
  PTE_FLAGS (Z.lor (PA2PTE 0x80025000) 0x113) = 0x113.
Proof. apply pte_encoding_roundtrip; [vm_compute; reflexivity|lia]. Defined.

(** After [walk_create] has returned an entry, [walk_lookup] finds the
    same entry; allocated frames that are not tables on the path keep
    their content. *)
Theorem walk_create_then_lookup (pt va : Z) (s sw : kmem) (cpte : Z) :
  path_ok pt va s -> walk_create pt va s = Some (cpte, sw) -> cpte <> 0 ->
  walk_lookup pt va sw = Some cpte /\
  (forall u a, used s u -> ~ In u (path_pages pt va s) -> in_page u a -> mem sw a = mem s a).
Proof.
  intros Hp H Hc.
  destruct (walk_create_spec pt va s sw cpte Hp H Hc)
    as (t1 & t0 & -> & V2 & T1 & V1 & T0 & _ & _ & _ & _ & _ & Hfr & _).
  split; [|exact Hfr].
  apply (walk_lookup_through pt va sw t1 t0); try assumption.
  unfold walk_create in H. destruct (va >=? MAXVA); [discriminate H|reflexivity].
Qed.

Definition one_table : Z * kmem := create_pagetable demo_boot.

Lemma one_table_path : path_ok (fst one_table) 0x3000 (snd one_table).
Proof.
  assert (E : path_pages (fst one_table) 0x3000 (snd one_table) = [0x80022000])
    by (vm_compute; reflexivity).
  unfold path_ok. rewrite E. split.
  - repeat constructor; cbn [In]; lia.
  - repeat (apply Forall_cons; [split; vm_compute; reflexivity|]). apply Forall_nil.
Qed.

Lemma walk_create_then_lookup_witness :
  walk_lookup (fst one_table) 0x3000
    (snd (Fs.get (0, demo_boot) (walk_create (fst one_table) 0x3000 (snd one_table))))
  = Some (fst (Fs.get (0, demo_boot) (walk_create (fst one_table) 0x3000 (snd one_table)))).
Proof.
  destruct (walk_create_then_lookup (fst one_table) 0x3000 (snd one_table)
              (snd (Fs.get (0, demo_boot) (walk_create (fst one_table) 0x3000 (snd one_table))))
              (fst (Fs.get (0, demo_boot) (walk_create (fst one_table) 0x3000 (snd one_table)))))
    as [H _].
  - exact one_table_path.
  - rewrite <- surjective_pairing. apply Fs.get_some. vm_compute. reflexivity.
  - vm_compute. discriminate.
  - exact H.
Defined.

Lemma walk_create_existing (pt va : Z) (s : kmem) (t1 t0 : Z) :
  (va >=? MAXVA) = false ->
  has (mem s (pte_at pt (PX 2 va))) PTE_V = true ->
  PTE2PA (mem s (pte_at pt (PX 2 va))) = t1 ->
  has (mem s (pte_at t1 (PX 1 va))) PTE_V = true ->
  PTE2PA (mem s (pte_at t1 (PX 1 va))) = t0 ->
  walk_create pt va s = Some (pte_at t0 (PX 0 va), s).
Proof.
  intros Hva V2 T1 V1 T0. unfold walk_create, walk_create_step.
  rewrite Hva, V2, T1, V1, T0. reflexivity.
Qed.

(** [map_page] that returns 0 has entered [PA2PTE pa | perm | V] where
    [walk_lookup] finds it, and a second [map_page] of the same page
    panics (remap), whatever aligned frame and permissions it is given. *)
Theorem map_page_then_lookup (pt va pa perm pa' perm' : Z) (s s' : kmem) :
  path_ok pt va s -> map_page pt va pa perm s = Some (0, s') ->
  pa' mod PGSIZE = 0 ->
  (exists pte, walk_lookup pt va s' = Some pte /\ pte <> 0 /\
               mem s' pte = Z.lor (Z.lor (PA2PTE pa) perm) PTE_V) /\
  map_page pt va pa' perm' s' = None.
Proof.
  intros Hp H Hal.
  destruct (map_page_inv pt va pa perm s s' 0 H eq_refl) as (cpte & sw & Ew & Hc & ->).
  destruct (walk_create_spec pt va s sw cpte Hp Ew Hc)
    as (t1 & t0 & -> & V2 & T1 & V1 & T0 & Hnd & Hv1 & Hv0 & _).
  assert (Hva : (va >=? MAXVA) = false).
  { unfold walk_create in Ew. destruct (va >=? MAXVA); [discriminate Ew|reflexivity]. }
  assert (Vp : valid_page pt = true).
  { destruct Hp as [_ Hu]. apply Forall_cons_iff in Hu. destruct Hu as [Hu _].
    eauto with uvm. }
  apply NoDup_cons_iff in Hnd. destruct Hnd as [Cn0 Hnd].
  apply NoDup_cons_iff in Hnd. destruct Hnd as [Cn1 _].
  assert (C02 : pt <> t0) by (intros E; apply Cn0; rewrite E; cbn [In]; auto).
  assert (C01 : t1 <> t0) by (intros E; apply Cn1; rewrite E; cbn [In]; auto).
  pose proof (PX_range 2 va) as R2. pose proof (PX_range 1 va) as R1.
  pose proof (PX_range 0 va) as R0.
  set (cpte := pte_at t0 (PX 0 va)) in *.
  set (X := Z.lor (Z.lor (PA2PTE pa) perm) PTE_V).
  assert (M2 : mem (set_mem (upd (mem sw) cpte X) sw) (pte_at pt (PX 2 va))
               = mem sw (pte_at pt (PX 2 va))).
  { cbn [mem set_mem]. unfold upd.
    destruct (Z.eqb_spec (pte_at pt (PX 2 va)) cpte) as [E|]; [|reflexivity].
    exfalso. revert E. apply (other_entry pt t0); eauto with uvm. }
  assert (M1 : mem (set_mem (upd (mem sw) cpte X) sw) (pte_at t1 (PX 1 va))
               = mem sw (pte_at t1 (PX 1 va))).
  { cbn [mem set_mem]. unfold upd.
    destruct (Z.eqb_spec (pte_at t1 (PX 1 va)) cpte) as [E|]; [|reflexivity].
    exfalso. revert E. apply (other_entry t1 t0); eauto with uvm. }
  assert (M0 : mem (set_mem (upd (mem sw) cpte X) sw) cpte = X).
  { cbn [mem set_mem]. unfold upd. rewrite Z.eqb_refl. reflexivity. }
  split.
  - exists cpte. split; [|split; [exact Hc|exact M0]].
    apply (walk_lookup_through pt va _ t1 t0 Hva).
    + rewrite M2. exact V2.
    + rewrite M2. exact T1.
    + rewrite M1. exact V1.
    + rewrite M1. exact T0.
  - unfold map_page.
    assert (Hav : va mod PGSIZE = 0).
    { unfold map_page in H. destruct (Z.eqb_spec (va mod PGSIZE) 0) as [E|]; [exact E|].
      cbn [negb orb] in H. discriminate H. }
    rewrite Hav, Hal. cbn [Z.eqb negb orb].
    rewrite (walk_create_existing pt va _ t1 t0 Hva).
    + cbn [obind]. fold cpte. destruct (Z.eqb_spec cpte 0); [contradiction|].
      rewrite M0. unfold X, has, PTE_V. rewrite land_1_testbit, Z.lor_spec.
      change (Z.testbit 1 0) with true. rewrite Bool.orb_true_r. reflexivity.
    + rewrite M2. exact V2.
    + rewrite M2. exact T1.
    + rewrite M1. exact V1.
    + rewrite M1. exact T0.
Qed.

Lemma map_page_then_lookup_witness :
  map_page (fst one_table) 0x3000 0x80030000 PTE_R
    (snd (Fs.get (0, demo_boot)
            (map_page (fst one_table) 0x3000 0x80030000 (Z.lor PTE_R PTE_U) (snd one_table))))
  = None.
Proof.
  destruct (map_page_then_lookup (fst one_table) 0x3000 0x80030000 (Z.lor PTE_R PTE_U)
              0x80030000 PTE_R (snd one_table)
              (snd (Fs.get (0, demo_boot)
                      (map_page (fst one_table) 0x3000 0x80030000 (Z.lor PTE_R PTE_U)
                                (snd one_table))))) as [_ H].
  - exact one_table_path.
  - assert (E : fst (Fs.get (0, demo_boot)
                       (map_page (fst one_table) 0x3000 0x80030000 (Z.lor PTE_R PTE_U)
                                 (snd one_table))) = 0) by (vm_compute; reflexivity).
    rewrite <- E at 1. rewrite <- surjective_pairing. apply Fs.get_some.
    vm_compute. reflexivity.
  - reflexivity.
  - exact H.
Defined.

(** *** User copies within one page *)

Lemma bits_above (a n : Z) : 0 <= a < 2 ^ 64 -> 64 <= n -> Z.testbit a n = false.
Proof.
  intros Ha Hn. destruct (Z.eq_dec a 0) as [->|Hne]; [apply Z.testbit_0_l|].
  apply Z.bits_above_log2; [lia|].
  assert (Z.log2 a < 64) by (apply Z.log2_lt_pow2; lia). lia.
Qed.

Lemma PGROUNDDOWN_eq (a : Z) : 0 <= a < two64 -> PGROUNDDOWN a = a - a mod PGSIZE.
Proof.
  intros Ha. unfold PGROUNDDOWN, PGSIZE.
  replace (a - a mod 4096) with (Z.shiftl (Z.shiftr a 12) 12).
  2:{ rewrite Z.shiftl_mul_pow2, Z.shiftr_div_pow2 by lia. change (2 ^ 12) with 4096.
      pose proof (Z.div_mod a 4096 ltac:(lia)). lia. }
  change (Z.lxor mask64 (4096 - 1)) with (Z.shiftl (Z.ones 52) 12).
  apply Z.bits_inj'. intros n Hn. rewrite Z.land_spec.
  destruct (Z.ltb_spec n 12) as [Hlo|Hhi].
  - rewrite !Z.shiftl_spec_low by lia. apply Bool.andb_false_r.
  - rewrite !Z.shiftl_spec_high by lia. rewrite Z.shiftr_spec by lia.
    replace (n - 12 + 12) with n by lia. rewrite Z.testbit_ones by lia.
    destruct (Z.leb_spec 0 (n - 12)); [|lia].
    destruct (Z.ltb_spec (n - 12) 52); cbn [andb].
    + apply Bool.andb_true_r.
    + rewrite Bool.andb_false_r. symmetry. apply bits_above; [exact Ha|lia].
Qed.

(** [copyout] into one writable user page followed by [copyin] of the same
    range gives the bytes back, when the page's frame does not hold the
    page-table entries the walk reads; both return 0 and [copyout] changes
    no memory outside the destination range. *)
Theorem copyout_copyin_roundtrip (pt va : Z) (src : Z -> Z) (len : Z) (s : kmem) (pte : Z) :
  0 <= va < two64 -> 0 < len -> va mod PGSIZE + len <= PGSIZE ->
  walk_lookup pt (PGROUNDDOWN va) s = Some pte -> pte <> 0 ->
  has (mem s pte) PTE_V = true -> has (mem s pte) PTE_U = true ->
  has (mem s pte) PTE_W = true -> has (mem s pte) PTE_COW = false ->
  (forall a, In a [pte_at pt (PX 2 (PGROUNDDOWN va));
                   pte_at (table1 pt (PGROUNDDOWN va) s) (PX 1 (PGROUNDDOWN va)); pte] ->
             ~ (PTE2PA (mem s pte) + va mod PGSIZE <= a
                < PTE2PA (mem s pte) + va mod PGSIZE + len)) ->
  exists s',
    copyout pt va src len s = Some (0, s') /\
    copyin pt va len s' = Some (0, map (fun k => src (Z.of_nat k)) (seq 0 (Z.to_nat len))) /\
    (forall a, ~ (PTE2PA (mem s pte) + va mod PGSIZE <= a
                  < PTE2PA (mem s pte) + va mod PGSIZE + len) -> mem s' a = mem s a).
Proof.
  intros Hva Hlen Hfit Hw Hp HV HU HW HC Hsep.
  pose proof (PGROUNDDOWN_eq va Hva) as Hva0.
  set (va0 := PGROUNDDOWN va) in *. set (off := va mod PGSIZE) in *.
  assert (Hoff : va - va0 = off) by lia.
  pose proof (Z.mod_pos_bound va PGSIZE ltac:(unfold PGSIZE; lia)) as Hob. fold off in Hob.
  set (pa0 := PTE2PA (mem s pte)) in *.
  set (s' := set_mem (store_bytes (mem s) (pa0 + off) src len) s).
  destruct (walk_lookup_inv pt va0 s pte Hw Hp) as (Hlt & V2 & V1 & Hpte).
  assert (Hkeep : forall a, ~ (pa0 + off <= a < pa0 + off + len) -> mem s' a = mem s a).
  { intros a Ha. unfold s'. cbn [mem set_mem]. unfold store_bytes.
    destruct (Z.leb_spec (pa0 + off) a); [|reflexivity].
    destruct (Z.ltb_spec a (pa0 + off + len)); [lia|reflexivity]. }
  assert (K2 : mem s' (pte_at pt (PX 2 va0)) = mem s (pte_at pt (PX 2 va0)))
    by (apply Hkeep, Hsep; cbn [In]; auto).
  assert (K1 : mem s' (pte_at (table1 pt va0 s) (PX 1 va0))
               = mem s (pte_at (table1 pt va0 s) (PX 1 va0)))
    by (apply Hkeep, Hsep; cbn [In]; auto).
  assert (K0 : mem s' pte = mem s pte) by (apply Hkeep, Hsep; cbn [In]; auto).
  assert (Hw' : walk_lookup pt va0 s' = Some pte).
  { rewrite Hpte. apply (walk_lookup_through pt va0 s' (table1 pt va0 s) (table0 pt va0 s) Hlt).
    - rewrite K2. exact V2.
    - rewrite K2. reflexivity.
    - rewrite K1. exact V1.
    - rewrite K1. reflexivity. }
  assert (Hmin : Z.min (PGSIZE - (va - va0)) len = len) by lia.
  destruct (Z.to_nat len) as [|fuel] eqn:Ef; [lia|].
  exists s'. split; [|split; [|exact Hkeep]].
  - unfold copyout. rewrite Ef. cbn [copyout_loop]. fold va0.
    destruct (Z.leb_spec len 0); [lia|]. rewrite Hw. cbn [obind].
    destruct (Z.eqb_spec pte 0); [contradiction|]. rewrite HV, HU, HC. cbn [negb orb obind].
    change (0 <? 0) with false. cbv iota. rewrite Hw. cbn [obind].
    destruct (Z.eqb_spec pte 0); [contradiction|]. rewrite HV, HU, HW. cbn [negb orb].
    cbv zeta. rewrite Hmin, Hoff. fold pa0. fold s'.
    rewrite Z.sub_diag. destruct fuel; reflexivity.
  - unfold copyin. rewrite Ef. cbn [copyin_loop]. fold va0.
    destruct (Z.leb_spec len 0); [lia|]. rewrite Hw'. cbn [obind].
    destruct (Z.eqb_spec pte 0); [contradiction|]. rewrite K0, HV, HU. cbn [negb orb].
    cbv zeta. rewrite Hmin, Hoff. fold pa0. rewrite Z.sub_diag.
    assert (Hrec : copyin_loop fuel pt (va + len) 0 s' = Some (0, [])) by (destruct fuel; reflexivity).
    rewrite Hrec. cbn [obind]. rewrite app_nil_r. rewrite <- Ef. f_equal. f_equal.
    apply map_ext_in. intros k Hk. apply in_seq in Hk.
    unfold s'. cbn [mem set_mem]. unfold store_bytes.
    destruct (Z.leb_spec (pa0 + off) (pa0 + off + Z.of_nat k)); [|lia].
    destruct (Z.ltb_spec (pa0 + off + Z.of_nat k) (pa0 + off + len)); [|lia].
    cbn [andb]. f_equal. lia.
Qed.

Definition abc : Z -> Z := fun k => 65 + k.

Lemma copyout_copyin_roundtrip_witness :
  exists s',
    copyout fork_old 16 abc 3 fork_s = Some (0, s') /\
    copyin fork_old 16 3 s' = Some (0, [65; 66; 67]).
Proof.
  destruct (copyout_copyin_roundtrip fork_old 16 abc 3 fork_s fork_pte) as (s' & H1 & H2 & _).
  - unfold two64. lia.
  - lia.
  - change (16 mod PGSIZE) with 16. unfold PGSIZE. lia.
  - change (PGROUNDDOWN 16) with 0. apply Fs.get_some. vm_compute. reflexivity.
  - vm_compute. discriminate.
  - vm_compute. reflexivity.
  - vm_compute. reflexivity.
  - vm_compute. reflexivity.
  - vm_compute. reflexivity.
  - intros a Ha.
    assert (EL : [pte_at fork_old (PX 2 (PGROUNDDOWN 16));
                  pte_at (table1 fork_old (PGROUNDDOWN 16) fork_s) (PX 1 (PGROUNDDOWN 16));
                  fork_pte] = [2147622912; 2147631104; 2147635200])
      by (vm_compute; reflexivity).
    assert (EP : PTE2PA (mem fork_s fork_pte) + 16 mod PGSIZE = 2147627024)
      by (vm_compute; reflexivity).
    rewrite EL in Ha. rewrite EP. cbn [In] in Ha. lia.
  - exists s'. split; [exact H1|exact H2].
Defined.

End VmProps.

(** ** The file system: what its callers rely on (fs.c, syscall.c) *)
Module FsProps.
Import Vm Fs.

(** *** Path elements *)

Lemma skip_slashes_length (p : list Z) : (length (skip_slashes p) <= length p)%nat.
Proof.
  induction p as [|c p IH]; cbn [skip_slashes length]; [lia|].
  destruct (c =? 47); cbn [length]; lia.
Qed.

Lemma skip_slashes_head (p : list Z) : hd 0 (skip_slashes p) <> 47.
Proof.
  induction p as [|c p IH]; cbn [skip_slashes hd]; [lia|].
  destruct (Z.eqb_spec c 47); [exact IH|cbn [hd]; assumption].
Qed.

Lemma span_elem_length (p : list Z) :
  (length (fst (span_elem p)) + length (snd (span_elem p)) = length p)%nat.
Proof.
  induction p as [|c p IH]; cbn [span_elem fst snd length]; [reflexivity|].
  destruct (c =? 47); cbn [fst snd length]; lia.
Qed.

Lemma span_elem_no_slash (p : list Z) : Forall (fun c => c <> 47) (fst (span_elem p)).
Proof.
  induction p as [|c p IH]; cbn [span_elem fst]; [constructor|].
  destruct (Z.eqb_spec c 47); cbn [fst]; [constructor|].
  constructor; assumption.
Qed.

Lemma elem_name_length (e : list Z) : length (elem_name e) = 14%nat.
Proof.
  unfold elem_name. rewrite length_app, repeat_length.
  pose proof (firstn_le_length 13 e). lia.
Qed.

Lemma elem_name_terminated (e : list Z) : nth 13 (elem_name e) 0 = 0.
Proof.
  unfold elem_name. pose proof (firstn_le_length 13 e) as Hl.
  rewrite app_nth2 by lia. apply nth_repeat.
Qed.

Lemma Forall_firstn_keep {A : Type} (P : A -> Prop) (n : nat) : forall l : list A,
  Forall P l -> Forall P (firstn n l).
Proof.
  induction n as [|n IH]; intros l H; [constructor|].
  destruct l as [|a l]; [constructor|]. cbn [firstn].
  apply Forall_cons_iff in H. destruct H as [Ha Hl]. constructor; [exact Ha|apply IH, Hl].
Qed.

Lemma elem_name_no_slash (e : list Z) :
  Forall (fun c => c <> 47) e -> Forall (fun c => c <> 47) (elem_name e).
Proof.
  intros H. unfold elem_name. apply Forall_app. split.
  - apply Forall_firstn_keep. exact H.
  - apply Forall_forall. intros c Hc. apply repeat_spec in Hc. subst c. lia.
Qed.

(** [skipelem] hands back a name of exactly [DIRSIZ] bytes that ends in
    NUL and contains no slash, and a rest that is strictly shorter than the
    path and does not begin with a slash. *)
Theorem skipelem_name_and_progress (path rest name : list Z) :
  skipelem path = Some (rest, name) ->
  Z.of_nat (length name) = DIRSIZ /\ nth 13 name 0 = 0 /\
  Forall (fun c => c <> 47) name /\
  (length rest < length path)%nat /\ hd 0 rest <> 47.
Proof.
  unfold skipelem. intros H.
  pose proof (skip_slashes_length path) as Hl. pose proof (skip_slashes_head path) as Hh.
  destruct (skip_slashes path) as [|c p] eqn:E; [discriminate H|].
  remember (c :: p) as q eqn:Eq. injection H as <- <-.
  split; [rewrite elem_name_length; reflexivity|]. split; [apply elem_name_terminated|].
  split; [apply elem_name_no_slash, span_elem_no_slash|]. split; [|apply skip_slashes_head].
  pose proof (skip_slashes_length (snd (span_elem q))) as H1.
  pose proof (span_elem_length q) as H2.
  assert (H3 : (1 <= length (fst (span_elem q)))%nat).
  { subst q. cbn [span_elem]. cbn [hd] in Hh. destruct (Z.eqb_spec c 47); [contradiction|].
    cbn [fst length]. lia. }
  lia.
Qed.

(** The path [//ab/c]. *)
Definition slash_ab_c : list Z := [47; 47; 97; 98; 47; 99].

Lemma skipelem_name_and_progress_witness :
  (length (fst (Fs.get ([], []) (skipelem slash_ab_c))) < length slash_ab_c)%nat.
Proof.
  destruct (skipelem_name_and_progress slash_ab_c
              (fst (Fs.get ([], []) (skipelem slash_ab_c)))
              (snd (Fs.get ([], []) (skipelem slash_ab_c))))
    as (_ & _ & _ & H & _); [reflexivity|exact H].
Defined.

(** *** Directory entries *)

Lemma namecmp_from_refl (fuel : nat) : forall (i : nat) (s : list Z),
  namecmp_from fuel i s s = 0.
Proof.
  induction fuel as [|fuel IH]; intros i s; cbn [namecmp_from]; [reflexivity|].
  rewrite Z.eqb_refl. cbn [negb]. destruct (_ =? 0); [reflexivity|apply IH].
Qed.

Lemma cstr_of_padded (e : list Z) (k : nat) :
  Forall (fun c => c <> 0) e -> cstr_of (e ++ repeat 0 k) = e.
Proof.
  induction e as [|c e IH]; intros H.
  - destruct k; reflexivity.
  - apply Forall_cons_iff in H. destruct H as [Hc He]. cbn [app cstr_of].
    destruct (Z.eqb_spec c 0); [contradiction|]. rewrite IH by exact He. reflexivity.
Qed.

(** The entry [dirlink] builds for a name as [skipelem] delivers it holds
    the inode number and the name: it is 16 bytes long, [inum] is read
    back from it, and [namecmp] accepts its name field for the name. *)
Theorem dirent_roundtrip (e : list Z) (inum : Z) :
  Forall (fun c => c <> 0) e -> 0 <= inum < 65536 ->
  length (make_dirent (elem_name e) inum) = 16%nat /\
  de_inum (make_dirent (elem_name e) inum) = inum /\
  de_name (make_dirent (elem_name e) inum) = elem_name e /\
  namecmp (elem_name e) (de_name (make_dirent (elem_name e) inum)) = 0.
Proof.
  intros He Hi.
  assert (Hn : firstn 13 (cstr_of (elem_name e)) = firstn 13 e).
  { unfold elem_name. rewrite cstr_of_padded by (apply Forall_firstn_keep; exact He).
    apply firstn_firstn. }
  assert (Hname : de_name (make_dirent (elem_name e) inum) = elem_name e).
  { unfold make_dirent, de_name. cbv zeta. rewrite Hn. reflexivity. }
  split; [|split; [|split; [exact Hname|]]].
  - unfold make_dirent. cbv zeta. rewrite Hn. cbn [app length]. rewrite length_app, repeat_length.
    pose proof (firstn_le_length 13 e). lia.
  - unfold make_dirent, de_inum. cbn [app nth].
    pose proof (Z.div_mod inum 256 ltac:(lia)) as Hd.
    rewrite (Z.mod_small (inum / 256)); [lia|].
    split; [apply Z.div_pos; lia|apply Z.div_lt_upper_bound; lia].
  - rewrite Hname. apply namecmp_from_refl.
Qed.

Lemma dirent_roundtrip_witness :
  de_inum (make_dirent (elem_name [97; 98]) 300) = 300.
Proof.
  destruct (dirent_roundtrip [97; 98] 300) as (_ & H & _).
  - repeat constructor; lia.
  - lia.
  - exact H.
Defined.

(** A name that no entry in use carries. *)
Definition no_match (dp : nat) (name : list Z) (s : state) : Prop :=
  forall j, 0 <= j -> DIRENT_SIZE * j + DIRENT_SIZE <= i_size (itable s dp) ->
    de_inum (dirent_at dp s j) = 0 \/ namecmp name (de_name (dirent_at dp s j)) <> 0.

Lemma dirlookup_loop_misses (dp : nat) (name : list Z) (s : state) :
  dir_ok dp s -> i_size (itable s dp) mod DIRENT_SIZE = 0 -> no_match dp name s ->
  forall (fuel : nat) (j : Z), 0 <= j ->
  i_size (itable s dp) - DIRENT_SIZE * j < DIRENT_SIZE * Z.of_nat fuel ->
  dirlookup_loop fuel dp name (DIRENT_SIZE * j) s = Some (None, 0, s).
Proof.
  intros Hd Hm Hno. induction fuel as [|fuel IH]; intros j Hj Hf.
  - cbn [dirlookup_loop]. destruct (Z.ltb_spec (DIRENT_SIZE * j) (i_size (itable s dp)));
      [unfold DIRENT_SIZE in *; lia|reflexivity].
  - cbn [dirlookup_loop].
    destruct (Z.ltb_spec (DIRENT_SIZE * j) (i_size (itable s dp))) as [Hlt|]; [|reflexivity].
    cbn [negb].
    assert (Hin : DIRENT_SIZE * j + DIRENT_SIZE <= i_size (itable s dp)).
    { unfold DIRENT_SIZE in *. apply Z.mod_divide in Hm; [|lia]. destruct Hm as [q Hq]. lia. }
    rewrite readi_dirent by assumption. cbn [obind]. rewrite Z.eqb_refl. cbn [negb].
    replace (DIRENT_SIZE * j + DIRENT_SIZE) with (DIRENT_SIZE * (j + 1))
      by (unfold DIRENT_SIZE; lia).
    destruct (Z.eqb_spec (de_inum (dirent_at dp s j)) 0) as [E|Hne].
    + apply IH; unfold DIRENT_SIZE in *; lia.
    + destruct (Hno j Hj Hin) as [E|Hn]; [contradiction|].
      destruct (Z.eqb_spec (namecmp name (de_name (dirent_at dp s j))) 0); [contradiction|].
      apply IH; unfold DIRENT_SIZE in *; lia.
Qed.

(** [dirlookup] of a name that no entry in use carries returns null and
    leaves the state as it was: nothing is allocated and no reference is
    taken. *)
Theorem dirlookup_miss_changes_nothing (dp : nat) (name : list Z) (s : state) :
  dir_ok dp s -> i_size (itable s dp) mod DIRENT_SIZE = 0 -> no_match dp name s ->
  dirlookup dp name s = Some (None, 0, s).
Proof.
  intros Hd Hm Hno. unfold dirlookup. destruct Hd as (Hty & Hsz & Hmap).
  rewrite Hty. change (T_DIR =? T_DIR) with true. cbn [negb].
  change 0 with (DIRENT_SIZE * 0) at 1.
  apply (dirlookup_loop_misses dp name s (conj Hty (conj Hsz Hmap)) Hm Hno); [lia|].
  unfold DIRENT_SIZE in *. rewrite Z2Nat.id.
  - pose proof (Z.div_mod (i_size (itable s dp)) 16 ltac:(lia)).
    pose proof (Z.mod_pos_bound (i_size (itable s dp)) 16 ltac:(lia)). lia.
  - pose proof (Z.div_pos (i_size (itable s dp)) 16 ltac:(lia) ltac:(lia)). lia.
Qed.

Lemma dirlookup_miss_changes_nothing_witness :
  dirlookup 0 (elem_name [120]) limit_w1 = Some (None, 0, limit_w1).
Proof.
  apply dirlookup_miss_changes_nothing.
  - exact limit_w1_root.
  - vm_compute. reflexivity.
  - intros j Hj Hin.
    assert (Hs : i_size (itable limit_w1 0) = 192) by (vm_compute; reflexivity).
    rewrite Hs in Hin. unfold DIRENT_SIZE in Hin.
    assert (Hc : j = 0 \/ j = 1 \/ j = 2 \/ j = 3 \/ j = 4 \/ j = 5 \/ j = 6 \/ j = 7
                 \/ j = 8 \/ j = 9 \/ j = 10 \/ j = 11) by lia.
    right. repeat (destruct Hc as [-> | Hc]; [vm_compute; discriminate|]).
    subst j. vm_compute. discriminate.
Defined.

(** *** Inodes and blocks *)

(** [iput] after [iget] of an inode that somebody holds already gives the
    reference back and nothing else happens: the inode table, the disk
    blocks and the log are as before the pair. *)
Theorem iget_iput_restores (dev inum : Z) (s s1 : state) (ip : nat) :
  iget dev inum s = Some (ip, s1) -> 1 <= i_ref (itable s ip) ->
  exists s2, iput ip s1 = Some s2 /\
             (forall j, itable s2 j = itable s j) /\ blocks s2 = blocks s /\ lg s2 = lg s.
Proof.
  unfold iget. intros H Href.
  destruct (find _ slots) as [i|] eqn:Ef.
  - destruct (i_ref (itable s i) =? INT_MAX); [discriminate H|].
    injection H as -> <-. unfold iput. cbn [itable set_inode set_itable].
    rewrite Nat.eqb_refl. cbn [i_ref with_ref].
    destruct (Z.eqb_spec (i_ref (itable s ip) + 1) 1); [lia|]. cbn [andb obind].
    eexists. split; [reflexivity|]. split; [|split; reflexivity].
    intros j. cbn [itable set_inode set_itable]. destruct (Nat.eqb_spec j ip) as [->|].
    + rewrite Nat.eqb_refl. cbn [i_ref with_ref]. destruct (itable s ip). unfold with_ref.
      cbn [i_dev i_inum i_ref i_locked i_valid i_type i_major i_minor i_nlink i_size i_addrs].
      f_equal. lia.
    + reflexivity.
  - clear Ef. cbv beta iota in H. destruct (find _ slots) as [i|] eqn:Eg; [|discriminate H].
    apply find_some in Eg. destruct Eg as [_ Eg]. apply Z.eqb_eq in Eg.
    injection H as -> _. lia.
Qed.

Lemma iget_iput_restores_witness :
  exists s2, iput 10 (snd (Fs.get (0%nat, limit_w) (iget ROOTDEV 11 limit_w))) = Some s2.
Proof.
  destruct (iget_iput_restores ROOTDEV 11 limit_w
              (snd (Fs.get (0%nat, limit_w) (iget ROOTDEV 11 limit_w))) 10) as (s2 & H & _).
  - assert (E : fst (Fs.get (0%nat, limit_w) (iget ROOTDEV 11 limit_w)) = 10%nat)
      by (vm_compute; reflexivity).
    rewrite <- E at 1. rewrite <- surjective_pairing. apply Fs.get_some.
    vm_compute. reflexivity.
  - vm_compute. discriminate.
  - exists s2. exact H.
Defined.

(** [bmap] allocates only inside a transaction: on a block that is mapped
    it returns the block number and changes nothing, and with no
    transaction open every result it returns comes without a change of
    state (on a hole it panics in [log_block_write]). *)
Theorem bmap_lookup_or_transaction (ip : nat) (bn : Z) (s : state) :
  (mapped ip bn s -> bmap ip bn s = Some (bmap_ro ip bn s, s)) /\
  (outside s -> forall b s', bmap ip bn s = Some (b, s') -> s' = s).
Proof.
  split.
  - apply bmap_mapped.
  - intros Ho b s' H. exact (bmap_outside s s s' ip bn b Ho eq_refl H).
Qed.

Lemma bmap_lookup_or_transaction_witness :
  bmap 10 0 limit_w = Some (bmap_ro 10 0 limit_w, limit_w).
Proof.
  apply (proj1 (bmap_lookup_or_transaction 10 0 limit_w)).
  split; [vm_compute; discriminate|]. split; [unfold NDIRECT; lia|].
  unfold NDIRECT, NINDIRECT. lia.
Defined.

(** Looking a path up never writes: with no transaction open, whatever
    [namex] returns, the disk blocks and the log are as before (a lookup
    that would have to free an inode panics instead). *)
Theorem path_lookup_never_writes (path : list Z) (np : bool) (s s' : state)
    (r : option nat) (nm : list Z) :
  outside s -> namex path np s = Returned (r, nm, s') -> same_disk s s'.
Proof.
  intros Ho H. exact (namex_frame s s s' path np r nm H Ho (same_disk_refl s)).
Qed.

Lemma path_lookup_never_writes_witness :
  same_disk limit_w (snd (returned (None, [], limit_w) (namex (path_l 3) false limit_w))).
Proof.
  apply (path_lookup_never_writes (path_l 3) false limit_w _
           (fst (fst (returned (None, [], limit_w) (namex (path_l 3) false limit_w))))
           (snd (fst (returned (None, [], limit_w) (namex (path_l 3) false limit_w))))).
  - unfold outside. vm_compute. reflexivity.
  - rewrite <- !surjective_pairing. apply returned_eq. vm_compute. reflexivity.
Defined.

(** A [writei] of at least one byte from a kernel buffer needs an open
    transaction: without one it can only return -1, with the state as it
    was. *)
Theorem writei_needs_transaction (ip : nat) (srcva : Z) (src : Z -> Z) (off n r : Z)
    (s s' : state) :
  outside s -> 0 < n -> writei ip false srcva src off n s = Some (r, s') ->
  r = -1 /\ s' = s.
Proof.
  intros Ho Hn H.
  exact (writei_kernel_outside s s s' ip srcva src off n r Ho (same_disk_refl s) Hn H).
Qed.

Lemma writei_needs_transaction_witness :
  fst (Fs.get (0, limit_w) (writei 10 false 0 (fun _ => 0) 4096 16 limit_w)) = -1.
Proof.
  destruct (writei_needs_transaction 10 0 (fun _ => 0) 4096 16
              (fst (Fs.get (0, limit_w) (writei 10 false 0 (fun _ => 0) 4096 16 limit_w)))
              limit_w
              (snd (Fs.get (0, limit_w) (writei 10 false 0 (fun _ => 0) 4096 16 limit_w))))
    as [H _].
  - unfold outside. vm_compute. reflexivity.
  - lia.
  - rewrite <- surjective_pairing. apply Fs.get_some. vm_compute. reflexivity.
  - exact H.
Defined.

(** *** Checking a user range *)

(** The page of address [a] is user memory (and writable, for a write). *)
Definition user_page_ok (write : bool) (pt : Z) (k : kmem) (a : Z) : Prop :=
  exists pte, walk_lookup pt (PGROUNDDOWN a) k = Some pte /\ pte <> 0 /\
              has (mem k pte) PTE_V = true /\ has (mem k pte) PTE_U = true /\
              (write = true -> has (mem k pte) PTE_W = true).

Lemma walk_lookup_returns (pt va : Z) (k : kmem) :
  va < MAXVA -> exists p, walk_lookup pt va k = Some p.
Proof.
  intros H. unfold walk_lookup. destruct (Z.geb_spec va MAXVA); [lia|].
  destruct (negb _); [eexists; reflexivity|]. destruct (negb _); eexists; reflexivity.
Qed.

Lemma same_page_rounddown (a va0 : Z) :
  0 <= va0 -> va0 mod PGSIZE = 0 -> va0 <= a < va0 + PGSIZE -> a < two64 ->
  PGROUNDDOWN a = va0.
Proof.
  intros H0 Hal Ha Hlt. rewrite VmProps.PGROUNDDOWN_eq by lia.
  unfold PGSIZE in *. apply Z.mod_divide in Hal; [|lia]. destruct Hal as [q ->].
  assert (E : a mod 4096 = a - q * 4096).
  { symmetry. apply (Z.mod_unique a 4096 q); lia. }
  lia.
Qed.

Lemma check_range_loop_sound (pt end_ : Z) (write : bool) (k : kmem) :
  end_ <= MAXVA ->
  forall (fuel : nat) (start : Z), 0 <= start ->
  end_ - PGROUNDDOWN start <= PGSIZE * Z.of_nat fuel ->
  exists r, check_range_loop fuel pt start end_ write k = Some r /\ (r = 0 \/ r = -1) /\
            (r = 0 -> forall a, start <= a < end_ -> user_page_ok write pt k a).
Proof.
  intros He. induction fuel as [|fuel IH]; intros start Hs Hf.
  - cbn [check_range_loop]. destruct (Z.ltb_spec start end_) as [Hlt|Hge]; cbn [negb].
    + exfalso. rewrite VmProps.PGROUNDDOWN_eq in Hf by (unfold MAXVA, two64 in *; lia).
      pose proof (Z.mod_pos_bound start PGSIZE ltac:(unfold PGSIZE; lia)). unfold PGSIZE in *.
      lia.
    + exists 0. split; [reflexivity|]. split; [left; reflexivity|]. intros _ a Ha. lia.
  - cbn [check_range_loop]. destruct (Z.ltb_spec start end_) as [Hlt|Hge]; cbn [negb].
    2:{ exists 0. split; [reflexivity|]. split; [left; reflexivity|]. intros _ a Ha. lia. }
    assert (Hs64 : 0 <= start < two64) by (unfold MAXVA, two64 in *; lia).
    pose proof (VmProps.PGROUNDDOWN_eq start Hs64) as Hva0.
    pose proof (Z.mod_pos_bound start PGSIZE ltac:(unfold PGSIZE; lia)) as Hm.
    pose proof (Z.mod_le start PGSIZE ltac:(lia) ltac:(unfold PGSIZE; lia)) as Hm'.
    set (va0 := PGROUNDDOWN start) in *.
    assert (Hal : va0 mod PGSIZE = 0).
    { rewrite Hva0. unfold PGSIZE in *.
      pose proof (Z.div_mod start 4096 ltac:(lia)) as Hd.
      replace (start - start mod 4096) with (start / 4096 * 4096) by lia.
      apply Z.mod_mul. lia. }
    destruct (walk_lookup_returns pt va0 k ltac:(lia)) as [p Hp]. rewrite Hp. cbn [obind].
    destruct ((p =? 0) || negb (has (mem k p) PTE_V) || negb (has (mem k p) PTE_U)) eqn:Ebad.
    { exists (-1). split; [reflexivity|]. split; [right; reflexivity|]. intros E. lia. }
    destruct (write && negb (has (mem k p) PTE_W)) eqn:Ew.
    { exists (-1). split; [reflexivity|]. split; [right; reflexivity|]. intros E. lia. }
    apply orb_false_iff in Ebad. destruct Ebad as [Ebad EU].
    apply orb_false_iff in Ebad. destruct Ebad as [Ep EV].
    apply Z.eqb_neq in Ep. apply negb_false_iff in EV. apply negb_false_iff in EU.
    assert (Hpage : forall a, start <= a -> a < va0 + PGSIZE -> user_page_ok write pt k a).
    { intros a Ha1 Ha2. exists p.
      rewrite (same_page_rounddown a va0) by (unfold MAXVA, two64, PGSIZE in *; lia).
      split; [exact Hp|]. split; [exact Ep|]. split; [exact EV|]. split; [exact EU|].
      intros ->. cbn [andb] in Ew. apply negb_false_iff in Ew. exact Ew. }
    assert (Hnext : wrap64 (va0 + PGSIZE) = va0 + PGSIZE).
    { unfold wrap64. apply Z.mod_small. unfold MAXVA, two64, PGSIZE in *. lia. }
    rewrite Hnext. destruct (Z.leb_spec (va0 + PGSIZE) start); [lia|].
    destruct (Z.gtb_spec (va0 + PGSIZE) end_) as [Hgt|Hle].
    + exists 0. split.
      * destruct fuel; cbn [check_range_loop]; rewrite Z.ltb_irrefl; reflexivity.
      * split; [left; reflexivity|]. intros _ a Ha. apply Hpage; lia.
    + destruct (IH (va0 + PGSIZE) ltac:(lia)) as (r & Hr & Hr01 & Hok).
      { rewrite (same_page_rounddown (va0 + PGSIZE) (va0 + PGSIZE));
          unfold MAXVA, two64, PGSIZE in *; try lia.
        rewrite <- Z.add_mod_idemp_l by lia. rewrite Hal. reflexivity. }
      exists r. split; [exact Hr|]. split; [exact Hr01|]. intros E a Ha.
      destruct (Z.lt_ge_cases a (va0 + PGSIZE)); [apply Hpage; lia|apply (Hok E); lia].
Qed.

(** [check_user_range] never panics: it returns 0 or -1, and when it
    returns 0 every byte of the range lies below [MAXVA] in a page whose
    entry is valid and user-accessible (and writable, if asked for). *)
Theorem check_user_range_sound (addr size : Z) (write : bool) (s : state) :
  0 <= addr < two64 -> size < two32 ->
  exists r, check_user_range addr size write s = Some r /\ (r = 0 \/ r = -1) /\
            (r = 0 -> forall a, addr <= a < addr + size ->
                      a < MAXVA /\ user_page_ok write (upt s) (km s) a).
Proof.
  intros Ha Hsz. unfold check_user_range.
  destruct (Z.ltb_spec size 0).
  { exists (-1). split; [reflexivity|]. split; [right; reflexivity|]. intros E. lia. }
  destruct (Z.eqb_spec size 0).
  { exists 0. split; [reflexivity|]. split; [left; reflexivity|]. intros _ a Hr. lia. }
  destruct (Z.geb_spec addr MAXVA).
  { exists (-1). split; [reflexivity|]. split; [right; reflexivity|]. intros E. lia. }
  assert (Hw : wrap64 (addr + size) = addr + size).
  { unfold wrap64. apply Z.mod_small. unfold MAXVA, two64, two32 in *. lia. }
  rewrite Hw. destruct (Z.ltb_spec (addr + size) addr); [lia|].
  destruct (Z.gtb_spec (addr + size) MAXVA).
  { exists (-1). split; [reflexivity|]. split; [right; reflexivity|]. intros E. lia. }
  destruct (check_range_loop_sound (upt s) (addr + size) write (km s) ltac:(lia)
              (Z.to_nat (size / PGSIZE + 2)) addr ltac:(lia)) as (r & Hr & Hr01 & Hok).
  - rewrite VmProps.PGROUNDDOWN_eq by lia.
    pose proof (Z.mod_pos_bound addr PGSIZE ltac:(unfold PGSIZE; lia)).
    unfold PGSIZE in *. pose proof (Z.div_mod size 4096 ltac:(lia)).
    pose proof (Z.mod_pos_bound size 4096 ltac:(lia)).
    pose proof (Z.div_pos size 4096 ltac:(lia) ltac:(lia)).
    rewrite Z2Nat.id by lia. lia.
  - exists r. split; [exact Hr|]. split; [exact Hr01|]. intros E a Hin.
    split; [lia|apply (Hok E); exact Hin].
Qed.

Lemma check_user_range_sound_witness :
  exists r, check_user_range 16 100 true (demo_reader (Z.lor PTE_R PTE_U) 5 16 100) = Some r
            /\ (r = 0 \/ r = -1).
Proof.
  destruct (check_user_range_sound 16 100 true (demo_reader (Z.lor PTE_R PTE_U) 5 16 100))
    as (r & H & H01 & _).
  - unfold two64. lia.
  - unfold two32. lia.
  - exists r. split; [exact H|exact H01].
Defined.

End FsProps.

(** ** Fork: the turn that fails, and the rollback (vm.c) *)
Module ForkProps.
Import Pmm Vm Uvm.

#[local] Hint Resolve used_valid fresh_valid pte_at_in_page PX_range used_not_fresh : uvm.

(** The entry a COW mark is taken back to. *)
Definition restored (pte : Z) : Z := Z.land (Z.lor pte PTE_W) (Z.lnot PTE_COW).

Lemma restored_not_cow (pte : Z) : has (restored pte) PTE_COW = false.
Proof.
  unfold restored. rewrite has_COW, Z.land_spec, Z.lnot_spec by lia.
  change (Z.testbit PTE_COW 8) with true. apply Bool.andb_false_r.
Qed.

(** The loop of [uvmcopy] after [err:] changes no reference count and no
    allocation bit, and the only memory it changes are entries that carry
    the COW mark and whose frame has exactly one reference: those get
    [PTE_W] set and [PTE_COW] cleared. *)
Theorem revert_loop_only_restores (old : Z) (fuel : nat) : forall (va : Z) (s s' : kmem),
  revert_loop fuel old va s = Some s' ->
  (forall f, refcount s' f = refcount s f) /\
  (forall f, bitmap s' f = bitmap s f) /\
  (forall a, mem s' a = mem s a \/
             (has (mem s a) PTE_COW = true /\
              page_refcount (PTE2PA (mem s a)) s = Some 1 /\
              mem s' a = restored (mem s a))).
Proof.
  induction fuel as [|fuel IH]; intros va s s' H.
  - injection H as <-. split; [reflexivity|]. split; [reflexivity|]. intros a. left. reflexivity.
  - cbn [revert_loop] in H. destruct (walk_lookup old va s) as [pte|]; [|discriminate H].
    cbn [obind] in H. destruct (pte =? 0); [exact (IH _ _ _ H)|].
    destruct (has (mem s pte) PTE_COW) eqn:Ec; cbn [negb] in H; [|exact (IH _ _ _ H)].
    destruct (page_refcount (PTE2PA (mem s pte)) s) as [rc|] eqn:Er; [|discriminate H].
    cbn [obind] in H. destruct (Z.eqb_spec rc 1) as [->|]; [|exact (IH _ _ _ H)].
    destruct (IH _ _ _ H) as (Hr & Hb & Hm).
    split; [exact Hr|]. split; [exact Hb|]. intros a.
    assert (Hrc : forall p, page_refcount p
                              (set_mem (upd (mem s) pte (restored (mem s pte))) s)
                            = page_refcount p s) by reflexivity.
    destruct (Hm a) as [E|(Hc & Hp & E)]; cbn [mem set_mem] in E.
    + unfold upd in E. destruct (Z.eqb_spec a pte) as [->|].
      * right. split; [exact Ec|]. split; [exact Er|]. exact E.
      * left. exact E.
    + cbn [mem set_mem] in Hc, Hp. unfold upd in E, Hc, Hp.
      destruct (Z.eqb_spec a pte) as [->|].
      * pose proof (restored_not_cow (mem s pte)) as Hn. unfold restored in Hn.
        rewrite Hn in Hc. discriminate Hc.
      * right. rewrite Hrc in Hp. split; [exact Hc|]. split; [exact Hp|exact E].
Qed.

(** The child unmapped again after the turn of [fork_s']: the frame is
    back to one reference. *)
Definition fork_undone : kmem := Fs.get fork_s (uvmunmap fork_new 0 1 true fork_s').

Lemma revert_loop_only_restores_witness :
  flags_at fork_old 0 fork_undone = Some 0x113 /\
  flags_at fork_old 0 (Fs.get fork_s (revert_loop 1 fork_old 0 fork_undone)) = Some 0x17 /\
  refcount (Fs.get fork_s (revert_loop 1 fork_old 0 fork_undone)) 35 = refcount fork_undone 35.
Proof.
  destruct (revert_loop_only_restores fork_old 1 0 fork_undone
              (Fs.get fork_s (revert_loop 1 fork_old 0 fork_undone))) as (H & _).
  - apply Fs.get_some. vm_compute. reflexivity.
  - split; [vm_compute; reflexivity|]. split; [vm_compute; reflexivity|apply H].
Defined.

(** *** A turn that fails *)

Lemma alloc_page_null (s s1 : kmem) : alloc_page s = (0, s1) -> s1 = s.
Proof.
  intros H. destruct (alloc_page_cases s) as [E|(idx & Hr & _ & E)].
  - revert H E. unfold alloc_page.
    destruct (free_pages_count s <=? 0); [intros H _; injection H as <-; reflexivity|].
    unfold find_first_free_page.
    destruct (find_from_word (Z.to_nat BITMAP_WORDS) 0 s) as [idx|] eqn:Ef;
      [|intros H _; injection H as <-; reflexivity].
    apply find_from_word_spec in Ef; [|lia]. cbn [fst]. intros _ E.
    unfold index_to_page, KERNBASE, PGSIZE in E. lia.
  - rewrite E in H. injection H as H0 _. unfold index_to_page, KERNBASE, PGSIZE in H0. lia.
Qed.

Lemma walk_create_step_frame (level pt va : Z) (s s' : kmem) (r : option Z) :
  walk_create_step level pt va s = (r, s') -> valid_page pt = true ->
  (forall u a, used s u -> u <> pt -> in_page u a -> mem s' a = mem s a) /\
  (forall f, bitmap_test f s <> 0 ->
             bitmap_test f s' = bitmap_test f s /\ refcount s' f = refcount s f).
Proof.
  intros H Hv. destruct r as [t|].
  - destruct (walk_create_step_cases level pt va s s' t H)
      as [(_ & _ & ->)|(_ & F & M & C & _ & O)].
    + split; [reflexivity|]. intros f _. split; reflexivity.
    + pose proof (PX_range level va) as R. split.
      * intros u a Hu Hne Ha. rewrite M. apply uz_other.
        -- apply (other_entry u pt); eauto with uvm.
        -- apply (other_page u t); eauto with uvm.
      * intros f Hf.
        assert (Hne : f <> page_index t).
        { intros E. destruct F as [_ F]. rewrite <- E in F. contradiction. }
        split; [apply O; exact Hne|]. rewrite C. unfold upd.
        destruct (Z.eqb_spec f (page_index t)); [contradiction|reflexivity].
  - unfold walk_create_step in H. destruct (has _ PTE_V); [discriminate H|].
    destruct (alloc_page s) as [p s1] eqn:Ea. destruct (Z.eqb_spec p 0) as [->|]; [|discriminate H].
    injection H as <-. apply alloc_page_null in Ea. subst s1.
    split; [reflexivity|]. intros f _. split; reflexivity.
Qed.

(** [walk_create], whether it returns an entry or null: allocated frames
    that are not tables on the path keep their content, and no allocated
    frame changes its bit or its reference count. *)
Lemma walk_create_frame (pt va : Z) (s sw : kmem) (cpte : Z) :
  path_ok pt va s -> walk_create pt va s = Some (cpte, sw) ->
  (forall u a, used s u -> ~ In u (path_pages pt va s) -> in_page u a ->
               mem sw a = mem s a) /\
  (forall f, bitmap_test f s <> 0 ->
             bitmap_test f sw = bitmap_test f s /\ refcount sw f = refcount s f).
Proof.
  intros [Hnd Hus] H. unfold walk_create in H.
  destruct (va >=? MAXVA); [discriminate H|].
  assert (Vp : valid_page pt = true).
  { unfold path_pages in Hus. apply Forall_cons_iff in Hus. destruct Hus as [Hu _].
    eauto with uvm. }
  destruct (walk_create_step 2 pt va s) as [r2 sa] eqn:E2.
  destruct (walk_create_step_frame 2 pt va s sa r2 E2 Vp) as [M2 B2].
  assert (Hpt : forall u, ~ In u (path_pages pt va s) -> u <> pt).
  { intros u Hn E. apply Hn. unfold path_pages. left. symmetry. exact E. }
  destruct r2 as [t1|].
  2:{ injection H as _ <-. split.
      - intros u a Hu Hn Ha. apply (M2 u a Hu (Hpt u Hn) Ha).
      - exact B2. }
  assert (Ht1 : valid_page t1 = true /\
                forall u, used s u -> ~ In u (path_pages pt va s) -> u <> t1).
  { destruct (walk_create_step_cases 2 pt va s sa t1 E2)
      as [(V2 & T1 & _)|(_ & F & _)].
    - unfold path_pages, table1 in *. rewrite V2 in *. rewrite <- T1 in *.
      apply Forall_cons_iff in Hus. destruct Hus as [_ Hus].
      apply Forall_cons_iff in Hus. destruct Hus as [U1 _].
      split; [eauto with uvm|]. intros u _ Hn E. apply Hn. right. left. symmetry. exact E.
    - split; [eauto with uvm|]. intros u Hu _. eauto with uvm. }
  destruct Ht1 as [Vt1 Nt1].
  destruct (walk_create_step 1 t1 va sa) as [r1 sb] eqn:E1.
  destruct (walk_create_step_frame 1 t1 va sa sb r1 E1 Vt1) as [M1 B1].
  assert (Hsw : sw = sb) by (destruct r1; injection H as _ <-; reflexivity).
  subst sw. split.
  - intros u a Hu Hn Ha. rewrite (M1 u a).
    + apply (M2 u a Hu (Hpt u Hn) Ha).
    + destruct Hu as [Hv Hb]. split; [exact Hv|].
      destruct (B2 (page_index u) ltac:(lia)) as [-> _]. exact Hb.
    + exact (Nt1 u Hu Hn).
    + exact Ha.
  - intros f Hf. destruct (B2 f Hf) as [Hb Hr].
    destruct (B1 f ltac:(rewrite Hb; exact Hf)) as [Hb' Hr']. split; congruence.
Qed.

(** A turn of the loop of [uvmcopy] that fails ([goto err]) leaves the
    page as it found it: the parent's walk and entry are unchanged, and
    the reference taken before [map_page] has been given back. *)
Theorem uvmcopy_failed_turn_restores (old newp va : Z) (s s' : kmem) (pte : Z) :
  walk_lookup old va s = Some pte -> pte <> 0 ->
  path_ok old va s -> path_ok newp va s -> apart old newp va s ->
  0 < refcount s (page_index (PTE2PA (mem s pte))) ->
  uvmcopy_page old newp va s = Some (false, s') ->
  refcount s' (page_index (PTE2PA (mem s pte)))
  = refcount s (page_index (PTE2PA (mem s pte))) /\
  walk_lookup old va s' = Some pte /\ mem s' pte = mem s pte.
Proof.
  intros Hw Hp Hpo Hpn Hap Hrc H.
  destruct (walk_lookup_inv old va s pte Hw Hp) as (Hva & PV2 & PV1 & Hpte).
  unfold uvmcopy_page in H. rewrite Hw in H. cbn [obind] in H.
  destruct (Z.eqb_spec pte 0); [contradiction|]. cbn [orb] in H.
  destruct (has (mem s pte) PTE_V); cbn [negb] in H;
    [|injection H as <-; repeat split; [exact Hw]].
  set (v := mem s pte) in *. set (pa := PTE2PA v) in *.
  destruct (page_incref pa s) as [s1|] eqn:Ei; [|discriminate H]. cbn [obind] in H.
  destruct (page_incref_spec pa s s1 Ei) as (Hvpa & Hbit & Es1).
  destruct (map_page newp va pa (child_perm v) s1) as [[r s2]|] eqn:Em; [|discriminate H].
  cbn [obind] in H.
  destruct (r <? 0) eqn:Hr; [|destruct (cow_candidate v); discriminate H].
  destruct (page_decref pa s2) as [[x s3]|] eqn:Ed; [|discriminate H]. cbn [obind] in H.
  injection H as <-.
  (* what [map_page] left behind *)
  assert (Hfr : (forall u a, used s u -> ~ In u (path_pages newp va s) -> in_page u a ->
                             mem s2 a = mem s a) /\
                (forall f, bitmap_test f s <> 0 ->
                           bitmap_test f s2 = bitmap_test f s /\ refcount s2 f = refcount s1 f)).
  { assert (Hbt1 : forall f, bitmap_test f s1 = bitmap_test f s)
      by (intros f; subst s1; reflexivity).
    assert (Hmem1 : forall a, mem s1 a = mem s a) by (intros a; subst s1; reflexivity).
    assert (Hpp1 : path_pages newp va s1 = path_pages newp va s) by (subst s1; reflexivity).
    assert (Hpn1 : path_ok newp va s1).
    { destruct Hpn as [Hn Hu]. split; [rewrite Hpp1; exact Hn|]. rewrite Hpp1.
      apply Forall_forall. intros u Hin. apply (proj1 (Forall_forall _ _) Hu) in Hin.
      destruct Hin as [Hv Hbu]. split; [exact Hv|]. rewrite Hbt1. exact Hbu. }
    unfold map_page in Em. destruct (_ || _).
    - injection Em as _ E2. subst s2. split; [intros u a _ _ _; apply Hmem1|].
      intros f _. split; [apply Hbt1|reflexivity].
    - destruct (walk_create newp va s1) as [[cpte sw]|] eqn:Ew; [|discriminate Em].
      cbn [obind] in Em.
      destruct (walk_create_frame newp va s1 sw cpte Hpn1 Ew) as [Hm Hb].
      assert (Hs2 : s2 = sw).
      { destruct (cpte =? 0); [injection Em as _ E2; symmetry; exact E2|].
        destruct (has _ PTE_V); [discriminate Em|].
        pose proof (f_equal (fun o : option (Z * kmem) =>
                               match o with Some (x, _) => x | None => 0 end) Em) as E0.
        cbv beta iota in E0. rewrite <- E0 in Hr. discriminate Hr. }
      subst s2. split.
      + intros u a Hu Hn Ha. rewrite <- Hmem1. apply (Hm u a).
        * destruct Hu as [Hv Hbu]. split; [exact Hv|]. rewrite Hbt1. exact Hbu.
        * rewrite Hpp1. exact Hn.
        * exact Ha.
      + intros f Hf. destruct (Hb f ltac:(rewrite Hbt1; exact Hf)) as [Hb1 Hr1].
        split; [rewrite Hb1; apply Hbt1|exact Hr1]. }
  destruct Hfr as [Hm Hb].
  (* the reference is given back *)
  assert (Hs3 : (forall a, mem s3 a = mem s2 a) /\
                refcount s3 (page_index pa) = refcount s (page_index pa)).
  { unfold page_decref, free_page in Ed. rewrite Hvpa in Ed. cbn [negb] in Ed.
    destruct (Hb (page_index pa) Hbit) as [Hb2 Hr2].
    destruct (Z.eqb_spec (bitmap_test (page_index pa) s2) 0) as [E|_]; [rewrite Hb2 in E; contradiction|].
    assert (Hr1 : refcount s2 (page_index pa) = refcount s (page_index pa) + 1).
    { rewrite Hr2. subst s1. unfold set_refcount, upd. cbn [refcount]. rewrite Z.eqb_refl.
      reflexivity. }
    destruct (Z.leb_spec (refcount s2 (page_index pa)) 0); [lia|].
    assert (Hnew : refcount (set_refcount (page_index pa) (refcount s2 (page_index pa) - 1) s2)
                            (page_index pa) = refcount s (page_index pa)).
    { unfold set_refcount, upd. cbn [refcount]. rewrite Z.eqb_refl. lia. }
    rewrite Hnew in Ed. destruct (Z.gtb_spec (refcount s (page_index pa)) 0); [|lia].
    injection Ed as _ <-. split; [reflexivity|exact Hnew]. }
  destruct Hs3 as [Hm3 Hr3].
  (* the parent's tables *)
  unfold path_ok, path_pages in Hpo. rewrite PV2, PV1 in Hpo.
  set (p1 := table1 old va s) in *. set (p0 := table0 old va s) in *.
  destruct Hpo as [_ Pus].
  apply Forall_cons_iff in Pus. destruct Pus as [U0 Pus].
  apply Forall_cons_iff in Pus. destruct Pus as [U1 Pus].
  apply Forall_cons_iff in Pus. destruct Pus as [U2 _].
  assert (Hap' : forall u, In u [old; p1; p0] -> ~ In u (path_pages newp va s)).
  { intros u Hu. apply Hap. unfold path_pages. fold p1. rewrite PV2, PV1. exact Hu. }
  pose proof (PX_range 2 va) as R2. pose proof (PX_range 1 va) as R1.
  pose proof (PX_range 0 va) as R0.
  assert (Hkeep : forall u a, In u [old; p1; p0] -> used s u -> in_page u a ->
                              mem s3 a = mem s a).
  { intros u a Hu Uu Ha. rewrite Hm3. apply (Hm u a Uu (Hap' u Hu) Ha). }
  split; [exact Hr3|]. split.
  - rewrite Hpte. apply (walk_lookup_through old va s3 p1 p0 Hva).
    + rewrite (Hkeep old); [exact PV2|cbn [In]; auto|exact U0|eauto with uvm].
    + rewrite (Hkeep old); [reflexivity|cbn [In]; auto|exact U0|eauto with uvm].
    + rewrite (Hkeep p1); [exact PV1|cbn [In]; auto|exact U1|eauto with uvm].
    + rewrite (Hkeep p1); [reflexivity|cbn [In]; auto|exact U1|eauto with uvm].
  - apply (Hkeep p0); [cbn [In]; auto|exact U2|].
    rewrite Hpte. eauto with uvm.
Qed.

Lemma uvmcopy_failed_turn_restores_witness :
  refcount (snd (Fs.get (true, fork_s) (uvmcopy_page fork_old fork_new 8 fork_s)))
           (page_index (PTE2PA (mem fork_s fork_pte)))
  = refcount fork_s (page_index (PTE2PA (mem fork_s fork_pte))).
Proof.
  assert (Eo : path_pages fork_old 8 fork_s = [0x80022000; 0x80024000; 0x80025000])
    by (vm_compute; reflexivity).
  assert (En : path_pages fork_new 8 fork_s = [0x80026000]) by (vm_compute; reflexivity).
  destruct (uvmcopy_failed_turn_restores fork_old fork_new 8 fork_s
              (snd (Fs.get (true, fork_s) (uvmcopy_page fork_old fork_new 8 fork_s)))
              fork_pte) as (H & _).
  - assert (E8 : walk_lookup fork_old 8 fork_s = walk_lookup fork_old 0 fork_s)
      by (vm_compute; reflexivity).
    rewrite E8. apply Fs.get_some. vm_compute. reflexivity.
  - vm_compute. discriminate.
  - unfold path_ok. rewrite Eo. split.
    + repeat constructor; cbn [In]; lia.
    + repeat (apply Forall_cons; [split; vm_compute; reflexivity|]). apply Forall_nil.
  - unfold path_ok. rewrite En. split.
    + repeat constructor; cbn [In]; lia.
    + repeat (apply Forall_cons; [split; vm_compute; reflexivity|]). apply Forall_nil.
  - intros t Ho Hn. rewrite Eo in Ho. rewrite En in Hn. cbn [In] in Ho, Hn. lia.
  - vm_compute. reflexivity.
  - assert (Hb : fst (Fs.get (true, fork_s) (uvmcopy_page fork_old fork_new 8 fork_s)) = false)
      by (vm_compute; reflexivity).
    rewrite <- Hb. rewrite <- surjective_pairing. apply Fs.get_some. vm_compute. reflexivity.
  - exact H.
Defined.

End ForkProps.

(** ** Copy-on-write faults (trap.c, vm.c) *)
Module CowFault.
Import Pmm Vm Trap Uvm.

#[local] Hint Resolve used_valid fresh_valid pte_at_in_page PX_range used_not_fresh : uvm.

(** Instruction, load and store page faults. *)
Definition is_page_fault (scause : Z) : bool :=
  (scause =? 12) || (scause =? 13) || (scause =? 15).

Section Handler.

Variable syscall : proc -> kmem -> option (proc * kmem).
Variable handle_interrupt : Z -> proc -> kmem -> option (proc * kmem).

(** Modelled from the spec: the [usertrap] of the build that has
    copy-on-write.  The trap.c among the sources ([Trap.usertrap]) is the
    one from before [cow_resolve] existed and has no page-fault case; the
    later one is missing.  The spec, section 4.4: "Exception: classify
    and, for page faults inside user space, attempt COW resolution;
    otherwise mark the process killed or panic depending on severity."
    The ecall and interrupt cases are those of [Trap.usertrap]; [sz] is
    [p->sz], the end of the process's user space; COW resolution is
    [cow_resolve] of vm.c; a fault that is not resolved marks the process
    killed. *)
Definition usertrap_cow (sstatus scause sepc stval sz : Z) (p : option proc) (s : kmem)
  : option (resume * proc * kmem) :=
  if has sstatus SSTATUS_SPP then None
  else
    match p with
    | None => None
    | Some p0 =>
        let p1 := set_epc sepc p0 in
        if scause =? 8 then
          if negb (killed p1 =? 0) then Some (Exited (-1), p1, s)
          else
            '(p2, s2) <- syscall (set_epc (wrap64 (epc p1 + 4)) p1) s ;;
            finish p2 s2
        else if has scause INTR_BIT then
          '(p2, s2) <- handle_interrupt (Z.land scause (Z.lnot INTR_BIT)) p1 s ;;
          finish p2 s2
        else if is_page_fault scause && (stval <? sz) then
          '(r, s1) <- cow_resolve (pagetable p1) stval s ;;
          if r <? 0 then finish (set_killed 1 p1) s1 else finish p1 s1
        else finish (set_killed 1 p1) s
    end.

End Handler.

(** The flags [cow_clone_page] gives the entry: W set, COW cleared. *)
Definition resolved_flags (v : Z) : Z :=
  Z.land (Z.lor (PTE_FLAGS v) PTE_W) (Z.lnot PTE_COW).

Lemma pow2_bit_high (k n : Z) : 0 <= k < n -> Z.testbit (2 ^ k) n = false.
Proof. intros H. rewrite Z.pow2_bits_eqb by lia. apply Z.eqb_neq. lia. Qed.

Lemma resolved_flags_bit (v k : Z) :
  0 <= k < 10 ->
  Z.testbit (resolved_flags v) k = (Z.testbit v k || (k =? 2)) && negb (k =? 8).
Proof.
  intros Hk. unfold resolved_flags, PTE_FLAGS. change 0x3FF with (Z.ones 10).
  rewrite Z.land_spec, Z.lor_spec, Z.land_spec, Z.lnot_spec by lia.
  rewrite Z.ones_spec_low by lia. rewrite andb_true_r.
  unfold PTE_W, PTE_COW. change 4 with (2 ^ 2). change 256 with (2 ^ 8).
  rewrite !Z.pow2_bits_eqb by lia. rewrite (Z.eqb_sym 2 k), (Z.eqb_sym 8 k). reflexivity.
Qed.

Lemma resolved_flags_range (v : Z) : 0 <= resolved_flags v < 1024.
Proof.
  assert (E : resolved_flags v
              = Z.land (Z.land (Z.lor v PTE_W) (Z.lnot PTE_COW)) (Z.ones 10)).
  { apply Z.bits_inj'. intros n Hn. unfold resolved_flags, PTE_FLAGS.
    change 0x3FF with (Z.ones 10).
    rewrite !Z.land_spec, !Z.lor_spec, !Z.land_spec.
    destruct (Z.ltb_spec n 10).
    - rewrite Z.ones_spec_low by lia. rewrite !andb_true_r. reflexivity.
    - rewrite Z.ones_spec_high by lia. rewrite !andb_false_r. cbn [orb].
      unfold PTE_W. change 4 with (2 ^ 2). rewrite pow2_bit_high by lia. reflexivity. }
  rewrite E, Z.land_ones by lia. change (2 ^ 10) with 1024. apply Z.mod_pos_bound. lia.
Qed.

Lemma entry_bit (m f k : Z) : 0 <= k < 10 -> Z.testbit (Z.lor (PA2PTE m) f) k = Z.testbit f k.
Proof. intros Hk. rewrite Z.lor_spec, PA2PTE_low by exact Hk. reflexivity. Qed.

(** The entry [cow_clone_page] writes is a valid, user, writable entry
    without the COW mark for the new frame. *)
Lemma resolved_entry (m v : Z) :
  valid_page m = true -> has v PTE_V = true -> has v PTE_U = true ->
  let e := Z.lor (PA2PTE m) (resolved_flags v) in
  PTE2PA e = m /\ has e PTE_V = true /\ has e PTE_U = true /\
  has e PTE_W = true /\ has e PTE_COW = false.
Proof.
  intros Hm HV HU e. unfold e.
  change PTE_V with (Z.shiftl 1 0) in *. change PTE_U with (Z.shiftl 1 4) in *.
  rewrite has_bit in HV, HU by lia.
  rewrite has_W, has_COW, !has_bit by lia.
  rewrite !entry_bit, !resolved_flags_bit by lia. rewrite HV, HU.
  split; [apply PTE2PA_PA2PTE; [exact Hm|apply resolved_flags_range]|].
  repeat split; cbn [Z.eqb Pos.eqb negb andb orb]; rewrite ?orb_true_r, ?andb_false_r; reflexivity.
Qed.

(** [page_decref] on an allocated frame with a positive count. *)
Lemma page_decref_spec (pa : Z) (s : kmem) :
  valid_page pa = true -> bitmap_test (page_index pa) s <> 0 ->
  0 < refcount s (page_index pa) ->
  exists s',
    page_decref pa s = Some (refcount s (page_index pa) - 1, s') /\
    (forall f, refcount s' f
               = upd (refcount s) (page_index pa) (refcount s (page_index pa) - 1) f) /\
    (forall a, mem s' a = if 1 <? refcount s (page_index pa)
                          then mem s a else zero_range (mem s) pa PGSIZE a).
Proof.
  intros Hv Hb Hr. unfold page_decref, free_page. rewrite Hv. cbn [negb].
  destruct (Z.eqb_spec (bitmap_test (page_index pa) s) 0) as [|_]; [contradiction|].
  destruct (Z.leb_spec (refcount s (page_index pa)) 0) as [|_]; [lia|].
  unfold set_refcount at 1. cbn [refcount]. unfold upd at 1. rewrite Z.eqb_refl.
  destruct (Z.gtb_spec (refcount s (page_index pa) - 1) 0) as [Hg|Hg].
  - eexists. split; [|split].
    + cbn [refcount set_refcount]. unfold upd. rewrite Z.eqb_refl. reflexivity.
    + intros f. reflexivity.
    + intros a. cbn [mem set_refcount].
      destruct (Z.ltb_spec 1 (refcount s (page_index pa))); [reflexivity|lia].
  - eexists. split; [|split].
    + cbn [refcount set_refcount set_mem set_free bitmap_clear]. unfold upd.
      rewrite Z.eqb_refl. reflexivity.
    + intros f. reflexivity.
    + intros a. cbn [mem set_refcount set_mem set_free bitmap_clear].
      destruct (Z.ltb_spec 1 (refcount s (page_index pa))); [lia|reflexivity].
Qed.

Lemma copy_at (m0 : Z -> Z) (m pa k : Z) :
  0 <= k < PGSIZE -> copy_range m0 m pa PGSIZE (m + k) = m0 (pa + k).
Proof.
  intros Hk. unfold copy_range.
  destruct (Z.leb_spec m (m + k)); [|lia]. destruct (Z.ltb_spec (m + k) (m + PGSIZE)); [|lia].
  cbn [andb]. f_equal. lia.
Qed.

Lemma copy_off (m0 : Z -> Z) (m pa a : Z) :
  ~ in_page m a -> copy_range m0 m pa PGSIZE a = m0 a.
Proof.
  unfold copy_range, in_page. intros H.
  destruct (Z.leb_spec m a); [|reflexivity].
  destruct (Z.ltb_spec a (m + PGSIZE)); [lia|reflexivity].
Qed.

Lemma zero_off (m0 : Z -> Z) (t a : Z) : ~ in_page t a -> zero_range m0 t PGSIZE a = m0 a.
Proof.
  unfold zero_range, in_page. intros H.
  destruct (Z.leb_spec t a); [|reflexivity].
  destruct (Z.ltb_spec a (t + PGSIZE)); [lia|reflexivity].
Qed.

(** [cow_clone_page] on a valid user page with the COW mark whose frame is
    allocated and is not one of the tables of the walk: with no frame free
    it returns -1 and changes nothing; else it takes a free frame [m],
    copies the old frame into it, points the entry at [m] with W set and
    COW cleared, and gives up one reference to the old frame (which is
    freed and zeroed when that was the last one). *)
Lemma cow_clone_page_spec (pt va0 : Z) (s : kmem) (pte : Z) :
  walk_lookup pt va0 s = Some pte -> pte <> 0 ->
  has (mem s pte) PTE_V = true -> has (mem s pte) PTE_U = true ->
  has (mem s pte) PTE_COW = true ->
  path_ok pt va0 s ->
  valid_page (PTE2PA (mem s pte)) = true ->
  bitmap_test (page_index (PTE2PA (mem s pte))) s <> 0 ->
  0 < refcount s (page_index (PTE2PA (mem s pte))) ->
  ~ In (PTE2PA (mem s pte)) (path_pages pt va0 s) ->
  exists r s',
    cow_clone_page pt va0 s = Some (r, s') /\
    (fst (alloc_page s) = 0 ->
     r = -1 /\ (forall a, mem s' a = mem s a) /\ (forall f, refcount s' f = refcount s f)) /\
    (fst (alloc_page s) <> 0 ->
     r = 0 /\ fresh s (fst (alloc_page s)) /\
     walk_lookup pt va0 s' = Some pte /\
     mem s' pte = Z.lor (PA2PTE (fst (alloc_page s))) (resolved_flags (mem s pte)) /\
     (forall k, 0 <= k < PGSIZE ->
        mem s' (fst (alloc_page s) + k) = mem s (PTE2PA (mem s pte) + k)) /\
     refcount s' (page_index (PTE2PA (mem s pte)))
     = refcount s (page_index (PTE2PA (mem s pte))) - 1 /\
     refcount s' (page_index (fst (alloc_page s))) = 1 /\
     (forall a, ~ in_page (fst (alloc_page s)) a -> a <> pte ->
        mem s' a = if 1 <? refcount s (page_index (PTE2PA (mem s pte)))
                   then mem s a
                   else zero_range (mem s) (PTE2PA (mem s pte)) PGSIZE a)).
Proof.
  intros Hw Hp HV HU HC Hpo Hvpa Hbpa Hrc Hnp.
  destruct (walk_lookup_inv pt va0 s pte Hw Hp) as (Hva & PV2 & PV1 & Hpte).
  set (pa := PTE2PA (mem s pte)) in *.
  unfold cow_clone_page. rewrite Hw. cbn [obind].
  destruct (Z.eqb_spec pte 0) as [|_]; [contradiction|].
  rewrite HV, HU, HC. cbn [negb orb]. fold pa.
  destruct (alloc_page s) as [m s1] eqn:Ea. cbn [fst].
  destruct (Z.eqb_spec m 0) as [Hm|Hm].
  - subst m. apply ForkProps.alloc_page_null in Ea. subst s1.
    exists (-1), s. split; [reflexivity|]. split; [|intros H; elim H; reflexivity].
    intros _. repeat split.
  - destruct (alloc_page_spec s s1 m Ea Hm) as (Hf & Hm1 & Hr1 & Hb1 & Hbo).
    (* the tables of the walk *)
    unfold path_ok, path_pages in Hpo, Hnp. rewrite PV2, PV1 in Hpo, Hnp.
    set (t1 := table1 pt va0 s) in *. set (t0 := table0 pt va0 s) in *.
    destruct Hpo as [Pnd Pus].
    apply Forall_cons_iff in Pus. destruct Pus as [U2 Pus].
    apply Forall_cons_iff in Pus. destruct Pus as [U1 Pus].
    apply Forall_cons_iff in Pus. destruct Pus as [U0 _].
    apply NoDup_cons_iff in Pnd. destruct Pnd as [Pn2 Pnd].
    apply NoDup_cons_iff in Pnd. destruct Pnd as [Pn1 _].
    assert (N20 : pt <> t0) by (intros E; apply Pn2; rewrite E; cbn [In]; auto).
    assert (N10 : t1 <> t0) by (intros E; apply Pn1; rewrite E; cbn [In]; auto).
    assert (Npa : forall u, In u [pt; t1; t0] -> u <> pa).
    { intros u Hu E. apply Hnp. rewrite <- E. exact Hu. }
    assert (Nm : forall u, In u [pt; t1; t0] -> u <> m).
    { intros u Hu. apply (used_not_fresh s); [|exact Hf].
      cbn [In] in Hu. destruct Hu as [<-|[<-|[<-|[]]]]; assumption. }
    assert (Vu : forall u, In u [pt; t1; t0] -> valid_page u = true).
    { intros u Hu. cbn [In] in Hu. destruct Hu as [<-|[<-|[<-|[]]]]; eauto with uvm. }
    assert (Vm : valid_page m = true) by eauto with uvm.
    assert (Npam : pa <> m).
    { intros E. destruct Hf as [_ Hf]. rewrite <- E in Hf. contradiction. }
    pose proof (PX_range 2 va0) as R2. pose proof (PX_range 1 va0) as R1.
    pose proof (PX_range 0 va0) as R0.
    assert (Ipte : in_page t0 pte) by (rewrite Hpte; apply pte_at_in_page; exact R0).
    assert (I0 : In t0 [pt; t1; t0]) by (cbn [In]; auto).
    assert (Hpm : ~ in_page m pte) by exact (other_page t0 m pte (Vu t0 I0) Vm (Nm t0 I0) Ipte).
    assert (Hppa : ~ in_page pa pte)
      by exact (other_page t0 pa pte (Vu t0 I0) Hvpa (Npa t0 I0) Ipte).
    (* the entry as [cow_clone_page] reads it back *)
    assert (E2 : copy_range (mem s1) m pa PGSIZE pte = mem s pte).
    { rewrite copy_off by exact Hpm. rewrite Hm1. apply zero_off. exact Hpm. }
    cbn [mem set_mem]. rewrite E2.
    change (Z.land (Z.lor (PTE_FLAGS (mem s pte)) PTE_W) (Z.lnot PTE_COW))
      with (resolved_flags (mem s pte)).
    set (X := Z.lor (PA2PTE m) (resolved_flags (mem s pte))).
    set (s3 := set_mem (upd (copy_range (mem s1) m pa PGSIZE) pte X)
                       (set_mem (copy_range (mem s1) m pa PGSIZE) s1)).
    assert (Hb3 : bitmap_test (page_index pa) s3 <> 0).
    { change (bitmap_test (page_index pa) s3) with (bitmap_test (page_index pa) s1).
      rewrite Hbo; [exact Hbpa|]. intros E. destruct Hf as [_ Hf]. rewrite <- E in Hf.
      contradiction. }
    assert (Hi : page_index pa <> page_index m).
    { intros E. destruct Hf as [_ Hf]. rewrite <- E in Hf. contradiction. }
    assert (Hr3 : refcount s3 (page_index pa) = refcount s (page_index pa)).
    { change (refcount s3) with (refcount s1). rewrite Hr1. unfold upd.
      destruct (Z.eqb_spec (page_index pa) (page_index m)); [contradiction|reflexivity]. }
    destruct (page_decref_spec pa s3 Hvpa Hb3 ltac:(rewrite Hr3; exact Hrc))
      as (s4 & Ed & Hr4 & Hm4).
    rewrite Ed. cbn [obind]. exists 0, s4. split; [reflexivity|].
    split; [intros E; contradiction|]. intros _.
    rewrite Hr3 in Hr4, Hm4.
    assert (M3 : forall a, mem s3 a = upd (copy_range (zero_range (mem s) m PGSIZE) m pa PGSIZE)
                                          pte X a).
    { intros a. unfold s3. cbn [mem set_mem]. rewrite Hm1. reflexivity. }
    assert (Hoff : forall a, ~ in_page m a -> a <> pte ->
              mem s4 a = if 1 <? refcount s (page_index pa)
                         then mem s a else zero_range (mem s) pa PGSIZE a).
    { intros a Ha Hne. rewrite Hm4. destruct (1 <? refcount s (page_index pa)).
      - rewrite M3. unfold upd. destruct (Z.eqb_spec a pte); [contradiction|].
        rewrite copy_off by exact Ha. apply zero_off. exact Ha.
      - unfold zero_range. destruct ((pa <=? a) && (a <? pa + PGSIZE)); [reflexivity|].
        rewrite M3. unfold upd. destruct (Z.eqb_spec a pte); [contradiction|].
        rewrite copy_off by exact Ha. apply zero_off. exact Ha. }
    assert (Htab : forall u a, In u [pt; t1] -> in_page u a -> mem s4 a = mem s a).
    { intros u a Hu Ha.
      assert (Hu3 : In u [pt; t1; t0]) by (cbn [In] in *; tauto).
      assert (Vt0 : valid_page t0 = true) by (apply Vu; cbn [In]; auto).
      assert (Hne : a <> pte).
      { apply (other_entry u t0 a pte (Vu u Hu3) Vt0); [|exact Ha|exact Ipte].
        cbn [In] in Hu. destruct Hu as [<-|[<-|[]]]; assumption. }
      rewrite Hoff; [|exact (other_page u m a (Vu u Hu3) Vm (Nm u Hu3) Ha)|exact Hne].
      destruct (1 <? refcount s (page_index pa)); [reflexivity|].
      apply zero_off. exact (other_page u pa a (Vu u Hu3) Hvpa (Npa u Hu3) Ha). }
    split; [reflexivity|]. split; [exact Hf|]. split; [|split; [|split; [|split; [|split]]]].
    + rewrite Hpte. apply (walk_lookup_through pt va0 s4 t1 t0 Hva).
      * rewrite (Htab pt); [exact PV2|cbn [In]; auto|auto with uvm].
      * rewrite (Htab pt); [reflexivity|cbn [In]; auto|auto with uvm].
      * rewrite (Htab t1); [exact PV1|cbn [In]; auto|auto with uvm].
      * rewrite (Htab t1); [reflexivity|cbn [In]; auto|auto with uvm].
    + rewrite Hm4. assert (E : mem s3 pte = X) by (rewrite M3; unfold upd; rewrite Z.eqb_refl; reflexivity).
      destruct (1 <? refcount s (page_index pa)); [exact E|].
      rewrite zero_off by exact Hppa. exact E.
    + intros k Hk.
      assert (Hin : in_page m (m + k)) by (unfold in_page; lia).
      assert (Hne : m + k <> pte) by (intros E; apply Hpm; rewrite <- E; exact Hin).
      assert (Hnpa : ~ in_page pa (m + k)).
      { apply (other_page m pa (m + k) Vm Hvpa); [|exact Hin]. intros E. apply Npam. symmetry.
        exact E. }
      assert (Hsrc : ~ in_page m (pa + k)).
      { apply (other_page pa m (pa + k) Hvpa Vm Npam). unfold in_page. lia. }
      assert (E : mem s3 (m + k) = mem s (pa + k)).
      { rewrite M3. unfold upd. destruct (Z.eqb_spec (m + k) pte); [contradiction|].
        rewrite copy_at by exact Hk. apply zero_off. exact Hsrc. }
      rewrite Hm4. destruct (1 <? refcount s (page_index pa)); [exact E|].
      rewrite zero_off by exact Hnpa. exact E.
    + rewrite Hr4. unfold upd. rewrite Z.eqb_refl. reflexivity.
    + rewrite Hr4. unfold upd.
      destruct (Z.eqb_spec (page_index m) (page_index pa)) as [E|_]; [symmetry in E; contradiction|].
      change (refcount s3) with (refcount s1). rewrite Hr1. unfold upd. rewrite Z.eqb_refl.
      reflexivity.
    + exact Hoff.
Qed.

Lemma page_fault_cause (scause : Z) :
  is_page_fault scause = true -> (scause =? 8) = false /\ has scause INTR_BIT = false.
Proof.
  unfold is_page_fault. rewrite !orb_true_iff, !Z.eqb_eq.
  intros [[->| ->]| ->]; split; reflexivity.
Qed.

(** C1.  A page fault from user mode on an address inside the user space
    of a process that is not marked killed, handled by the trap handler of
    the spec with [cow_resolve] of vm.c.

    When the leaf entry of the page is valid, user-accessible and
    COW-marked (its frame allocated with a positive count and not one of
    the tables of the walk) and a frame is free, the handler resumes the
    process, not marked killed and at the faulting instruction.  The entry
    then refers to a frame [m] that was free, with W set and COW cleared,
    V and U kept; [m] holds the 4 KiB of the old frame; the old frame has
    one reference less and [m] has one; and while the old frame was shared
    (count above 1), no memory outside [m] other than the entry itself has
    changed: the page is private to the writer and the other owner's
    memory is as it was.

    The process comes out marked killed only when no frame was free or the
    entry is missing, or lacks V, U or the COW mark. *)
Theorem usertrap_cow_fault_resolves
    (syscall : proc -> kmem -> option (proc * kmem))
    (handle_interrupt : Z -> proc -> kmem -> option (proc * kmem))
    (sstatus scause sepc stval sz : Z) (p : proc) (s : kmem) :
  has sstatus SSTATUS_SPP = false -> is_page_fault scause = true ->
  0 <= stval < sz -> killed p = 0 ->
  (forall pte,
     walk_lookup (pagetable p) (PGROUNDDOWN stval) s = Some pte -> pte <> 0 ->
     has (mem s pte) PTE_V = true -> has (mem s pte) PTE_U = true ->
     has (mem s pte) PTE_COW = true ->
     path_ok (pagetable p) (PGROUNDDOWN stval) s ->
     valid_page (PTE2PA (mem s pte)) = true ->
     bitmap_test (page_index (PTE2PA (mem s pte))) s <> 0 ->
     0 < refcount s (page_index (PTE2PA (mem s pte))) ->
     ~ In (PTE2PA (mem s pte)) (path_pages (pagetable p) (PGROUNDDOWN stval) s) ->
     fst (alloc_page s) <> 0 ->
     exists s',
       usertrap_cow syscall handle_interrupt sstatus scause sepc stval sz (Some p) s
       = Some (ToUser, set_epc sepc p, s') /\
       fresh s (fst (alloc_page s)) /\
       walk_lookup (pagetable p) (PGROUNDDOWN stval) s' = Some pte /\
       PTE2PA (mem s' pte) = fst (alloc_page s) /\
       has (mem s' pte) PTE_V = true /\ has (mem s' pte) PTE_U = true /\
       has (mem s' pte) PTE_W = true /\ has (mem s' pte) PTE_COW = false /\
       (forall k, 0 <= k < PGSIZE ->
          mem s' (fst (alloc_page s) + k) = mem s (PTE2PA (mem s pte) + k)) /\
       refcount s' (page_index (PTE2PA (mem s pte)))
       = refcount s (page_index (PTE2PA (mem s pte))) - 1 /\
       refcount s' (page_index (fst (alloc_page s))) = 1 /\
       (1 < refcount s (page_index (PTE2PA (mem s pte))) ->
        forall a, ~ in_page (fst (alloc_page s)) a -> a <> pte -> mem s' a = mem s a))
  /\
  (forall r p' s',
     usertrap_cow syscall handle_interrupt sstatus scause sepc stval sz (Some p) s
     = Some (r, p', s') ->
     killed p' <> 0 ->
     r = Exited (-1) /\
     (fst (alloc_page s) = 0 \/
      exists pte,
        walk_lookup (pagetable p) (PGROUNDDOWN stval) s = Some pte /\
        (pte = 0 \/ has (mem s pte) PTE_V = false \/ has (mem s pte) PTE_U = false \/
         has (mem s pte) PTE_COW = false))).
Proof.
  intros Hspp Hpf Hst Hk.
  destruct (page_fault_cause scause Hpf) as [H8 Hint].
  assert (Hlt : (stval <? sz) = true) by (apply Z.ltb_lt; lia).
  assert (Hfin : finish (set_epc sepc p) = fun t => Some (ToUser, set_epc sepc p, t)).
  { unfold finish. cbn [killed set_epc]. rewrite Hk. reflexivity. }
  assert (Hun : forall t,
            usertrap_cow syscall handle_interrupt sstatus scause sepc stval sz (Some p) t
            = ('(r, s1) <- cow_resolve (pagetable p) stval t ;;
               if r <? 0 then finish (set_killed 1 (set_epc sepc p)) s1
               else finish (set_epc sepc p) s1)).
  { intros t. unfold usertrap_cow. rewrite Hspp, H8, Hint, Hpf, Hlt. reflexivity. }
  split.
  - intros pte Hw Hp HV HU HC Hpo Hvpa Hbpa Hrc Hnp Ha.
    destruct (cow_clone_page_spec (pagetable p) (PGROUNDDOWN stval) s pte
                Hw Hp HV HU HC Hpo Hvpa Hbpa Hrc Hnp)
      as (r & s' & Ec & _ & Hok).
    destruct (Hok Ha) as (-> & Hf & Hw' & Hm & Hcp & Hr & Hrm & Hoff).
    destruct (resolved_entry (fst (alloc_page s)) (mem s pte) (fresh_valid _ _ Hf) HV HU)
      as (E1 & E2 & E3 & E4 & E5).
    exists s'. rewrite Hun. unfold cow_resolve. rewrite Ec. cbn [obind].
    change (0 <? 0) with false. cbv iota. rewrite Hfin, Hm.
    repeat (split; [assumption || reflexivity|]).
    intros H1 a Hna Hne. rewrite (Hoff a Hna Hne).
    destruct (Z.ltb_spec 1 (refcount s (page_index (PTE2PA (mem s pte))))); [reflexivity|lia].
  - intros r p' s' E Hkd. rewrite Hun in E. unfold cow_resolve, cow_clone_page in E.
    destruct (walk_lookup (pagetable p) (PGROUNDDOWN stval) s) as [pte|] eqn:Hw;
      [|discriminate E]. cbn [obind] in E.
    assert (Hdead : forall t, finish (set_killed 1 (set_epc sepc p)) t = Some (r, p', s') ->
                    r = Exited (-1)).
    { intros t H. unfold finish in H. cbn [killed set_killed] in H. injection H as <- _ _.
      reflexivity. }
    assert (Hlive : forall t, finish (set_epc sepc p) t = Some (r, p', s') -> False).
    { intros t H. rewrite Hfin in H. injection H as _ <- _. apply Hkd. exact Hk. }
    destruct (Z.eqb_spec pte 0) as [Hz|Hz].
    { cbn [obind] in E. change (-1 <? 0) with true in E. cbv iota in E.
      split; [exact (Hdead _ E)|]. right. exists pte. auto. }
    destruct (has (mem s pte) PTE_V) eqn:HV; cbn [negb orb] in E;
      [|cbn [obind] in E; change (-1 <? 0) with true in E; cbv iota in E;
        split; [exact (Hdead _ E)|right; exists pte; auto]].
    destruct (has (mem s pte) PTE_U) eqn:HU; cbn [negb orb] in E;
      [|cbn [obind] in E; change (-1 <? 0) with true in E; cbv iota in E;
        split; [exact (Hdead _ E)|right; exists pte; auto]].
    destruct (has (mem s pte) PTE_COW) eqn:HC; cbn [negb] in E;
      [|cbn [obind] in E; change (-1 <? 0) with true in E; cbv iota in E;
        split; [exact (Hdead _ E)|right; exists pte; auto 6]].
    destruct (alloc_page s) as [m s1] eqn:Ea. cbn [fst].
    destruct (Z.eqb_spec m 0) as [Hm|Hm].
    + cbn [obind] in E. change (-1 <? 0) with true in E. cbv iota in E.
      split; [exact (Hdead _ E)|left; exact Hm].
    + cbv zeta in E. destruct (page_decref _ _) as [[c s4]|]; [|discriminate E].
      cbn [obind] in E. change (0 <? 0) with false in E. cbv iota in E.
      elim (Hlive _ E).
Qed.

(** The child of [Uvm.fork_s'] stores to address 0x10 of the page it
    shares with its parent. *)
Definition cow_pte : Z := Fs.get 0 (walk_lookup fork_new 0 fork_s').

Lemma usertrap_cow_fault_resolves_witness :
  exists s',
    usertrap_cow no_syscall no_interrupt 0 15 0x1000 0x10 PGSIZE
      (Some (mkProc 2 0 0 fork_new)) fork_s'
    = Some (ToUser, set_epc 0x1000 (mkProc 2 0 0 fork_new), s') /\
    has (mem s' cow_pte) PTE_W = true /\
    refcount s' (page_index (PTE2PA (mem fork_s' cow_pte)))
    = refcount fork_s' (page_index (PTE2PA (mem fork_s' cow_pte))) - 1.
Proof.
  set (p := mkProc 2 0 0 fork_new).
  assert (Hw : walk_lookup (pagetable p) (PGROUNDDOWN 0x10) fork_s' = Some cow_pte)
    by (vm_compute; reflexivity).
  assert (Hp : cow_pte <> 0) by (vm_compute; discriminate).
  assert (HV : has (mem fork_s' cow_pte) PTE_V = true) by (vm_compute; reflexivity).
  assert (HU : has (mem fork_s' cow_pte) PTE_U = true) by (vm_compute; reflexivity).
  assert (HC : has (mem fork_s' cow_pte) PTE_COW = true) by (vm_compute; reflexivity).
  assert (Ep : path_pages (pagetable p) (PGROUNDDOWN 0x10) fork_s'
               = [0x80026000; 0x80027000; 0x80028000]) by (vm_compute; reflexivity).
  assert (Hpo : path_ok (pagetable p) (PGROUNDDOWN 0x10) fork_s').
  { unfold path_ok. rewrite Ep. split.
    - repeat constructor; cbn [In]; lia.
    - repeat (apply Forall_cons; [split; vm_compute; reflexivity|]). apply Forall_nil. }
  assert (Hv : valid_page (PTE2PA (mem fork_s' cow_pte)) = true) by (vm_compute; reflexivity).
  assert (Hb : bitmap_test (page_index (PTE2PA (mem fork_s' cow_pte))) fork_s' <> 0)
    by (vm_compute; discriminate).
  assert (Hr : 0 < refcount fork_s' (page_index (PTE2PA (mem fork_s' cow_pte))))
    by (vm_compute; reflexivity).
  assert (Hn : ~ In (PTE2PA (mem fork_s' cow_pte))
                    (path_pages (pagetable p) (PGROUNDDOWN 0x10) fork_s')).
  { rewrite Ep. assert (Ef : PTE2PA (mem fork_s' cow_pte) = 0x80023000)
      by (vm_compute; reflexivity).
    rewrite Ef. cbn [In]. lia. }
  assert (Ha : fst (alloc_page fork_s') <> 0) by (vm_compute; discriminate).
  destruct (proj1 (usertrap_cow_fault_resolves no_syscall no_interrupt 0 15 0x1000 0x10 PGSIZE
                     p fork_s' eq_refl eq_refl ltac:(unfold PGSIZE; lia) eq_refl)
                  cow_pte Hw Hp HV HU HC Hpo Hv Hb Hr Hn Ha)
    as (s' & E & _ & _ & _ & _ & _ & HW & _ & _ & Hrc & _).
  exists s'. split; [exact E|]. split; [exact HW|exact Hrc].
Defined.

End CowFault.

(** ** The user trap handler: who goes back to user mode (trap.c) *)
Module TrapProps.
Import Pmm Vm Trap.

(** Whatever the cause of a trap and whatever the system call or the
    interrupt handler do, [usertrap] goes back to user mode only with a
    process that is not marked killed; every other way out is
    [exit_process(-1)]. *)
Theorem usertrap_resumes_only_live
    (syscall : proc -> kmem -> option (proc * kmem))
    (handle_interrupt : Z -> proc -> kmem -> option (proc * kmem))
    (sstatus scause sepc stval : Z) (p : option proc) (s s' : kmem)
    (res : resume) (p' : proc) :
  usertrap syscall handle_interrupt sstatus scause sepc stval p s = Some (res, p', s') ->
  (res = ToUser /\ killed p' = 0) \/ (res = Exited (-1) /\ killed p' <> 0).
Proof.
  assert (Hfin : forall q t, finish q t = Some (res, p', s') ->
                 (res = ToUser /\ killed p' = 0) \/ (res = Exited (-1) /\ killed p' <> 0)).
  { intros q t. unfold finish. destruct (Z.eqb_spec (killed q) 0) as [E|E]; cbn [negb];
      intros H; injection H as <- <- _; [left|right]; split; auto. }
  unfold usertrap. intros H. destruct (has sstatus SSTATUS_SPP); [discriminate H|].
  destruct p as [p0|]; [|discriminate H].
  destruct (scause =? 8).
  - destruct (Z.eqb_spec (killed (set_epc sepc p0)) 0) as [E|E]; cbn [negb] in H.
    + destruct (syscall _ s) as [[p2 s2]|]; [|discriminate H]. exact (Hfin _ _ H).
    + injection H as <- <- _. right. split; [reflexivity|exact E].
  - destruct (has scause INTR_BIT).
    + destruct (handle_interrupt _ _ s) as [[p2 s2]|]; [|discriminate H]. exact (Hfin _ _ H).
    + exact (Hfin _ _ H).
Qed.

Lemma usertrap_resumes_only_live_witness :
  killed (mkProc 2 0 0x1004 0x80030000) = 0.
Proof.
  destruct (usertrap_resumes_only_live no_syscall no_interrupt 0 8 0x1000 0
              (Some (mkProc 2 0 0 0x80030000)) demo_boot demo_boot ToUser
              (mkProc 2 0 0x1004 0x80030000)) as [[_ H]|[H _]].
  - reflexivity.
  - exact H.
  - discriminate H.
Defined.

End TrapProps.
